(** * MemoryScope: shallow embedding of the memory engine

    The development follows the layout of the Python sources:
    [app/utils.py] (purpose normalisation, deterministic merge),
    [app/main.py] (read grants and revocation),
    [app/memoryscope/*.py] (policy engine, retrieval, impact extraction,
    reconstruction, observability and the v2 endpoints).

    Python values are embedded as follows.
    - A [str] is a Rocq [string]; a literal with characters outside ASCII is
      the sequence of its UTF-8 bytes.  [str.lower], [str.strip] and the
      character classes of [re] are given on the ASCII range.
    - [dict] is an association list in insertion order, [list] is [list].
    - [datetime] is an integer time stamp ([Z]); a [float] that the code
      only stores, compares or caps is a rational ([Q]); the confidence of a
      reconstruction, which the code sums up, is a binary64 float.
    - A function that may raise returns a value of [result]. *)

From Stdlib Require Import List String Ascii ZArith QArith Bool Lia Arith.
From Stdlib Require Import Permutation Sorted DecimalString Lqa.
From Stdlib Require PrimFloat FloatOps SpecFloat.
Import ListNotations.
Open Scope string_scope.
Set Warnings "-register-all".
Set Warnings "-inexact-float".

(** [l1 +++ l2] is list concatenation; [++] is kept for strings. *)
Infix "+++" := List.app (right associativity, at level 60).

(* ================================================================== *)
(** * Results of calls that may raise *)
(* ================================================================== *)

Inductive result (A : Type) : Type :=
| Ok (a : A)
| Raise (exn : string).
Arguments Ok {A} a.
Arguments Raise {A} exn.

Definition bind {A B : Type} (r : result A) (k : A -> result B) : result B :=
  match r with
  | Ok a => k a
  | Raise e => Raise e
  end.

Notation "x <- e ;; k" := (bind e (fun x => k))
  (at level 61, e at next level, right associativity).

(** [for x in xs: acc = step(acc, x)], stopping at the first exception. *)
Fixpoint for_each {A S : Type} (step : S -> A -> result S) (xs : list A) (acc : S)
  : result S :=
  match xs with
  | [] => Ok acc
  | x :: rest => acc' <- step acc x ;; for_each step rest acc'
  end.

(** [sorted(l, key=...)]: Python's sort is stable; [leb a b] compares keys. *)
Fixpoint insert_sorted {A : Type} (leb : A -> A -> bool) (x : A) (l : list A) : list A :=
  match l with
  | [] => [x]
  | y :: rest => if leb x y then x :: y :: rest else y :: insert_sorted leb x rest
  end.

Fixpoint sorted {A : Type} (leb : A -> A -> bool) (l : list A) : list A :=
  match l with
  | [] => []
  | x :: rest => insert_sorted leb x (sorted leb rest)
  end.

(* ================================================================== *)
(** * Python strings *)
(* ================================================================== *)

Module PyStr.

(** [c.lower()] for one character, ASCII letters only. *)
Definition lower_char (c : ascii) : ascii :=
  let n := nat_of_ascii c in
  if (65 <=? n)%nat && (n <=? 90)%nat then ascii_of_nat (n + 32) else c.

(** [s.lower()] *)
Fixpoint lower (s : string) : string :=
  match s with
  | EmptyString => EmptyString
  | String c r => String (lower_char c) (lower r)
  end.

(** [sub in s] for two strings. *)
Fixpoint str_in (sub s : string) : bool :=
  String.prefix sub s ||
  match s with
  | EmptyString => false
  | String _ r => str_in sub r
  end.

(** [any(kw in s for kw in kws)] *)
Definition any_in (kws : list string) (s : string) : bool :=
  existsb (fun kw => str_in kw s) kws.

(** White space as [str.isspace] sees it, on the ASCII range. *)
Definition is_space (c : ascii) : bool :=
  let n := nat_of_ascii c in
  ((9 <=? n)%nat && (n <=? 13)%nat) || ((28 <=? n)%nat && (n <=? 32)%nat).

Definition is_digit (c : ascii) : bool :=
  let n := nat_of_ascii c in (48 <=? n)%nat && (n <=? 57)%nat.

Fixpoint lstrip (s : string) : string :=
  match s with
  | EmptyString => EmptyString
  | String c r => if is_space c then lstrip r else s
  end.

Fixpoint rstrip (s : string) : string :=
  match s with
  | EmptyString => EmptyString
  | String c r =>
      match rstrip r with
      | EmptyString => if is_space c then EmptyString else String c EmptyString
      | r' => String c r'
      end
  end.

(** [s.strip()] *)
Definition strip (s : string) : string := rstrip (lstrip s).

(** [s.replace(c, '')] for a one-character [c]. *)
Fixpoint remove_char (c : ascii) (s : string) : string :=
  match s with
  | EmptyString => EmptyString
  | String d r => if Ascii.eqb c d then remove_char c r else String d (remove_char c r)
  end.

(** [str(n)] for a natural number. *)
Definition of_nat (n : nat) : string := NilZero.string_of_uint (Nat.to_uint n).

(** [s if len(s) <= 240 else s[:237] + "..."] *)
Definition truncate240 (s : string) : string :=
  if (240 <? String.length s)%nat then substring 0 237 s ++ "..." else s.

(** [bool(s)] *)
Definition nonempty (s : string) : bool :=
  match s with EmptyString => false | _ => true end.

(** [s.split(c)] for a one-character separator [c]. *)
Fixpoint split_on (c : ascii) (s : string) : list string :=
  match s with
  | EmptyString => [EmptyString]
  | String d r =>
      if Ascii.eqb c d then EmptyString :: split_on c r
      else match split_on c r with
           | [] => [String d EmptyString]
           | piece :: pieces => String d piece :: pieces
           end
  end.

(** [s.split()]: the maximal runs of characters that are not white space. *)
Fixpoint split_ws_aux (s : string) (cur : string) : list string :=
  match s with
  | EmptyString => if nonempty cur then [cur] else []
  | String c r =>
      if is_space c
      then (if nonempty cur then cur :: split_ws_aux r EmptyString
            else split_ws_aux r EmptyString)
      else split_ws_aux r (cur ++ String c EmptyString)
  end.

Definition split_ws (s : string) : list string := split_ws_aux s EmptyString.

(** [sep.join(items)] *)
Definition join (sep : string) (items : list string) : string := String.concat sep items.

Definition newline : ascii := ascii_of_nat 10.

(** [re.search(r'[•\-\*]\s', s)]: a bullet, a hyphen or an asterisk followed
    by white space. *)
Fixpoint search_bullet (s : string) : bool :=
  match s with
  | EmptyString => false
  | String c r =>
      (String.prefix "•" s
       && match substring (String.length "•") 1 s with
          | String d _ => is_space d
          | EmptyString => false
          end)
      || ((Ascii.eqb c "-" || Ascii.eqb c "*")
          && match r with String d _ => is_space d | EmptyString => false end)
      || search_bullet r
  end.

(** [re.search(r'\d+\.\s', s)]: a digit, a full stop and white space in a row. *)
Fixpoint search_numbered (s : string) : bool :=
  match s with
  | EmptyString => false
  | String c r =>
      (is_digit c
       && match r with
          | String d (String e _) => Ascii.eqb d "." && is_space e
          | _ => false
          end)
      || search_numbered r
  end.

(** [len(s.split(sep)) - 1] for a separator of two characters [a], [b]:
    the occurrences of [sep] found from left to right without overlap. *)
Fixpoint count_pairs (a b : ascii) (s : string) (skip : bool) : nat :=
  match s with
  | EmptyString => 0
  | String c r =>
      if skip then count_pairs a b r false
      else match r with
           | String d _ =>
               if Ascii.eqb c a && Ascii.eqb d b then S (count_pairs a b r true)
               else count_pairs a b r false
           | EmptyString => 0
           end
  end.

(** [s.split(sep)[-1]] when [sep] occurs in [s]. *)
Fixpoint after_last (sep s : string) : option string :=
  match s with
  | EmptyString => None
  | String c r =>
      match after_last sep r with
      | Some t => Some t
      | None =>
          if String.prefix sep s
          then Some (substring (String.length sep) (String.length s - String.length sep) s)
          else None
      end
  end.

End PyStr.

(* ================================================================== *)
(** * Python values (JSON and YAML documents) *)
(* ================================================================== *)

Module Py.

Inductive value : Type :=
| PNone
| PBool (b : bool)
| PInt (z : Z)
| PFloat (q : Q)
| PStr (s : string)
| PList (l : list value)
| PDict (d : list (string * value)).

Definition dict : Type := list (string * value).

(** [d.get(k)] *)
Fixpoint get (k : string) (d : dict) : option value :=
  match d with
  | [] => None
  | (k', v) :: rest => if String.eqb k k' then Some v else get k rest
  end.

(** [k in d] *)
Definition has_key (k : string) (d : dict) : bool :=
  match get k d with Some _ => true | None => false end.

(** [d[k] = v]: an existing key keeps its position, a new key goes last. *)
Fixpoint set (k : string) (v : value) (d : dict) : dict :=
  match d with
  | [] => [(k, v)]
  | (k', v') :: rest =>
      if String.eqb k k' then (k', v) :: rest else (k', v') :: set k v rest
  end.

(** [d.update(other)] *)
Definition update (d other : dict) : dict :=
  fold_left (fun acc kv => set (fst kv) (snd kv) acc) other d.

Definition keys (d : dict) : list string := map fst d.

Definition num_of_bool (b : bool) : Z := if b then 1%Z else 0%Z.

(** [a == b].  Numbers compare by value ([True == 1], [1 == 1.0]);
    dictionaries compare without regard to order. *)
Fixpoint eqb (a b : value) {struct a} : bool :=
  match a, b with
  | PNone, PNone => true
  | PBool x, PBool y => Bool.eqb x y
  | PBool x, PInt y => Z.eqb (num_of_bool x) y
  | PBool x, PFloat y => Qeq_bool (inject_Z (num_of_bool x)) y
  | PInt x, PBool y => Z.eqb x (num_of_bool y)
  | PInt x, PInt y => Z.eqb x y
  | PInt x, PFloat y => Qeq_bool (inject_Z x) y
  | PFloat x, PBool y => Qeq_bool x (inject_Z (num_of_bool y))
  | PFloat x, PInt y => Qeq_bool x (inject_Z y)
  | PFloat x, PFloat y => Qeq_bool x y
  | PStr x, PStr y => String.eqb x y
  | PList xs, PList ys =>
      (fix all2 (xs ys : list value) {struct xs} : bool :=
         match xs, ys with
         | [], [] => true
         | x :: xs', y :: ys' => eqb x y && all2 xs' ys'
         | _, _ => false
         end) xs ys
  | PDict d1, PDict d2 =>
      Nat.eqb (List.length d1) (List.length d2) &&
      (fix sub (d : list (string * value)) {struct d} : bool :=
         match d with
         | [] => true
         | (k, v) :: d' =>
             match get k d2 with
             | Some v2 => eqb v v2
             | None => false
             end && sub d'
         end) d1
  | _, _ => false
  end.

(** [x in l] for a list [l] *)
Definition mem (x : value) (l : list value) : bool := existsb (eqb x) l.

(** [bool(v)] *)
Definition truthy (v : value) : bool :=
  match v with
  | PNone => false
  | PBool b => b
  | PInt z => negb (Z.eqb z 0)
  | PFloat q => negb (Qeq_bool q 0)
  | PStr s => PyStr.nonempty s
  | PList l => match l with [] => false | _ => true end
  | PDict d => match d with [] => false | _ => true end
  end.

Definition is_str (v : value) : bool := match v with PStr _ => true | _ => false end.
Definition is_dict (v : value) : bool := match v with PDict _ => true | _ => false end.
Definition is_list (v : value) : bool := match v with PList _ => true | _ => false end.

(** [hash(v)] raises [TypeError] for lists and dictionaries. *)
Definition hashable (v : value) : bool :=
  match v with PList _ | PDict _ => false | _ => true end.

(** The elements [list.extend(v)] appends: the items of a list, the
    characters of a string, the keys of a dictionary. *)
Definition iter (v : value) : result (list value) :=
  match v with
  | PList l => Ok l
  | PStr s => Ok (map (fun c => PStr (String c EmptyString)) (list_ascii_of_string s))
  | PDict d => Ok (map PStr (keys d))
  | _ => Raise "TypeError"
  end.

(** Every string that [v] holds as a value (not as a key of a dictionary)
    satisfies [p]. *)
Fixpoint all_strings (p : string -> bool) (v : value) : bool :=
  match v with
  | PStr s => p s
  | PList l => forallb (all_strings p) l
  | PDict d => forallb (fun kv => let '(_, x) := kv in all_strings p x) d
  | _ => true
  end.

(** Two values of the same shape: the same constructors, list lengths and
    dictionary keys, whatever the strings they hold. *)
Fixpoint same_shape (a b : value) {struct a} : bool :=
  match a, b with
  | PNone, PNone => true
  | PBool x, PBool y => Bool.eqb x y
  | PInt x, PInt y => Z.eqb x y
  | PFloat x, PFloat y => Qeq_bool x y
  | PStr _, PStr _ => true
  | PList xs, PList ys =>
      (fix all2 (xs ys : list value) {struct xs} : bool :=
         match xs, ys with
         | [], [] => true
         | x :: xs', y :: ys' => same_shape x y && all2 xs' ys'
         | _, _ => false
         end) xs ys
  | PDict d1, PDict d2 =>
      (fix all2 (d1 d2 : list (string * value)) {struct d1} : bool :=
         match d1, d2 with
         | [], [] => true
         | (k, x) :: r1, (k', y) :: r2 => String.eqb k k' && same_shape x y && all2 r1 r2
         | _, _ => false
         end) d1 d2
  | _, _ => false
  end.

End Py.

(* ================================================================== *)
(** * Library routines outside the repository *)
(* ================================================================== *)

(** The parts of the Python runtime and of the database that the code calls
    and that are not part of the repository. *)
Record Runtime : Type := {
  (** the [n]-th value drawn from [uuid.uuid4()], as 32 hexadecimal digits *)
  uuid4_hex : nat -> string;
  (** [hashlib.sha256(s.encode("utf-8")).hexdigest()] *)
  sha256_hexdigest : string -> string;
  (** [difflib.SequenceMatcher(None, a, b).ratio()] *)
  sequence_matcher_ratio : string -> string -> Q;
  (** the SQL predicate [text ILIKE pattern], [None] standing for NULL *)
  ilike : option string -> string -> bool;
  (** [str(v)] for a value that is not a string *)
  py_repr : Py.value -> string;
  (** [t.isoformat()] for a [datetime] *)
  isoformat : Z -> string;
  (** [list(set(xs))] for hashable [xs]: the distinct elements of [xs] in
      the order in which the interpreter iterates over the set *)
  list_of_set : list Py.value -> list Py.value;
  (** [f"{x:.2f}"] for a float [x] *)
  format_2f : PrimFloat.float -> string
}.

(** [str(u)] for a UUID [u] with hexadecimal digits [h]. *)
Definition uuid_str (h : string) : string :=
  substring 0 8 h ++ "-" ++ substring 8 4 h ++ "-" ++ substring 12 4 h ++ "-"
  ++ substring 16 4 h ++ "-" ++ substring 20 12 h.

(* ================================================================== *)
(** * app/utils.py and app/schemas.py *)
(* ================================================================== *)

Module Utils.
Import PyStr Py.

Definition ALLOWED_PURPOSE_CLASSES : list string :=
  [ "content_generation"; "recommendation"; "scheduling";
    "ui_rendering"; "notification_delivery"; "task_execution" ].

Definition POLICY_MATRIX : list (string * list string) :=
  [ ("preferences", ["content_generation"; "recommendation"]);
    ("constraints", ["recommendation"; "scheduling"; "task_execution"]);
    ("communication", ["content_generation"; "notification_delivery"; "ui_rendering"]);
    ("accessibility", ["ui_rendering"; "content_generation"; "notification_delivery"]);
    ("schedule", ["scheduling"; "task_execution"]);
    ("attention", ["notification_delivery"; "ui_rendering"]) ].

Definition ALLOWED_SCOPES : list string :=
  [ "preferences"; "constraints"; "communication"; "accessibility"; "schedule";
    "attention" ].

Definition hash_revocation_token (rt : Runtime) (token : string) : string :=
  sha256_hexdigest rt token.

Definition normalize_purpose (purpose : string) : string :=
  let purpose_lower := lower purpose in
  if any_in ["content"; "generate"; "create"; "write"] purpose_lower then
    "content_generation"
  else if any_in ["recommend"; "suggest"; "recommendation"] purpose_lower then
    "recommendation"
  else if any_in ["scheduling"; "schedule"; "calendar"; "time"] purpose_lower then
    "scheduling"
  else if any_in ["ui"; "render"; "display"; "show"] purpose_lower then
    "ui_rendering"
  else if any_in ["notify"; "notification"; "alert"] purpose_lower then
    "notification_delivery"
  else if any_in ["task"; "execute"; "action"; "run"] purpose_lower then
    "task_execution"
  else
    "content_generation".

Definition check_policy (scope purpose_class : string) : bool :=
  let allowed :=
    match find (fun e => String.eqb (fst e) scope) POLICY_MATRIX with
    | Some e => snd e
    | None => []
    end in
  existsb (String.eqb purpose_class) allowed.

(** One element of the list handed to [merge_memories_deterministic]. *)
Record MemoryDict : Type := {
  mem_id : string;            (* str(m["id"]) *)
  mem_value_json : value;
  mem_value_shape : string;
  mem_created_at : Z
}.

Record MergeResult : Type := {
  summary_text : string;
  summary_struct : value;
  confidence : Q
}.

(** [min(0.9, 0.5 + n * 0.1)] *)
Definition merge_confidence (n : nat) : Q :=
  let c := (1 # 2) + inject_Z (Z.of_nat n) * (1 # 10) in
  if Qle_bool (9 # 10) c then 9 # 10 else c.

Definition _fuzzy_match_strings (rt : Runtime) (str1 str2 : value) (threshold : Q) : bool :=
  match str1, str2 with
  | PStr a, PStr b =>
      let s1 := strip (lower a) in
      let s2 := strip (lower b) in
      if String.eqb s1 s2 then true
      else Qle_bool threshold (sequence_matcher_ratio rt s1 s2)
  | _, _ => false
  end.

(** The loop body of [_dedupe_with_fuzzy]; the state is
    [(result, seen_normalized, seen_items)].  Every item is a string here:
    the callers apply [str] first. *)
Definition dedupe_step (rt : Runtime) (threshold : Q)
    (st : list string * list string * list string) (item : string)
  : list string * list string * list string :=
  let '(res, seen_normalized, seen_items) := st in
  let item_lower := strip (lower item) in
  if existsb (String.eqb item_lower) seen_normalized then st
  else if existsb (fun seen => _fuzzy_match_strings rt (PStr item) (PStr seen) threshold)
                  seen_items then st
  else (res +++ [item], seen_normalized +++ [item_lower], seen_items +++ [item]).

Definition _dedupe_with_fuzzy (rt : Runtime) (items : list string) : list string :=
  match items with
  | [] => []
  | _ =>
      let '(res, _, _) := fold_left (dedupe_step rt (85 # 100)) items ([], [], []) in
      sorted String.leb res
  end.

(** [key.replace('_', '').replace(' ', '').replace('-', '')] *)
Definition normalize_key (k : string) : string :=
  remove_char "-" (remove_char " " (remove_char "_" k)).

Fixpoint find_matching_key (key_normalized : string) (existing : list string)
  : option string :=
  match existing with
  | [] => None
  | existing_key :: rest =>
      if String.eqb (normalize_key existing_key) key_normalized
      then Some existing_key
      else find_matching_key key_normalized rest
  end.

(** The body of [for k, v in value.items()] in [_merge_preferences]. *)
Definition merge_kv_item (rt : Runtime) (kv_pairs : dict) (kv : string * value) : dict :=
  let '(k, v) := kv in
  let key_lower := strip (lower k) in
  let key_normalized := normalize_key key_lower in
  match find_matching_key key_normalized (keys kv_pairs) with
  | Some matching_key =>
      if nonempty matching_key then
        match get matching_key kv_pairs with
        | Some existing =>
            if is_str existing && is_str v then
              if _fuzzy_match_strings rt existing v (9 # 10)
              then set matching_key v kv_pairs
              else set matching_key v kv_pairs
            else set matching_key v kv_pairs
        | None => set matching_key v kv_pairs
        end
      else set key_lower v kv_pairs
  | None => set key_lower v kv_pairs
  end.

(** [value.get(k, [])] *)
Definition get_or_empty (k : string) (d : dict) : value :=
  match get k d with Some v => v | None => PList [] end.

(** [[str(l) for l in items if l is not None]] *)
Definition str_items (rt : Runtime) (items : list value) : list string :=
  flat_map (fun l => match l with
                     | PNone => []
                     | PStr s => [s]
                     | other => [py_repr rt other]
                     end) items.

Definition preferences_step (rt : Runtime)
    (st : list value * list value * dict) (mem : MemoryDict)
  : result (list value * list value * dict) :=
  let '(all_likes, all_dislikes, kv_pairs) := st in
  match mem_value_json mem with
  | PDict value =>
      if String.eqb (mem_value_shape mem) "likes_dislikes" then
        likes <- iter (get_or_empty "likes" value) ;;
        dislikes <- iter (get_or_empty "dislikes" value) ;;
        Ok (all_likes +++ likes, all_dislikes +++ dislikes, kv_pairs)
      else if String.eqb (mem_value_shape mem) "kv_map" then
        Ok (all_likes, all_dislikes, fold_left (merge_kv_item rt) value kv_pairs)
      else Ok st
  | _ => Ok st
  end.

Definition _merge_preferences (rt : Runtime) (memories : list MemoryDict)
  : result MergeResult :=
  st <- for_each (preferences_step rt) memories ([], [], []) ;;
  let '(all_likes, all_dislikes, kv_pairs) := st in
  let deduped_likes := _dedupe_with_fuzzy rt (str_items rt all_likes) in
  let deduped_dislikes := _dedupe_with_fuzzy rt (str_items rt all_dislikes) in
  Ok {| summary_text :=
          truncate240 ("Likes: " ++ of_nat (List.length deduped_likes)
                       ++ ", Dislikes: " ++ of_nat (List.length deduped_dislikes)
                       ++ ", Settings: " ++ of_nat (List.length kv_pairs));
        summary_struct :=
          PDict [ ("likes", PList (map PStr deduped_likes));
                  ("dislikes", PList (map PStr deduped_dislikes));
                  ("settings", PDict kv_pairs) ];
        confidence := merge_confidence (List.length memories) |}.

(** [sorted(list(set(rules)))].  The shape [rules_list] is only given to
    lists of strings, and the embedding covers those; the set raises on a
    list or a dictionary, other element types are left out. *)
Definition sorted_set (rules : list value) : result (list value) :=
  if forallb is_str rules then
    Ok (map PStr
          (sorted String.leb
             (nodup string_dec
                (flat_map (fun v => match v with PStr s => [s] | _ => [] end) rules))))
  else if forallb hashable rules then Raise "Unsupported"
  else Raise "TypeError".

Definition constraints_step (st : list value * dict) (mem : MemoryDict)
  : list value * dict :=
  let '(rules, kv_pairs) := st in
  if String.eqb (mem_value_shape mem) "rules_list" then
    match mem_value_json mem with
    | PList value => (rules +++ value, kv_pairs)
    | _ => st
    end
  else if String.eqb (mem_value_shape mem) "kv_map" then
    match mem_value_json mem with
    | PDict value => (rules, update kv_pairs value)
    | _ => st
    end
  else st.

Definition _merge_constraints (memories : list MemoryDict) : result MergeResult :=
  let '(rules0, kv_pairs) := fold_left constraints_step memories ([], []) in
  rules <- sorted_set rules0 ;;
  Ok {| summary_text :=
          truncate240 ("Rules: " ++ of_nat (List.length rules)
                       ++ ", Constraints: " ++ of_nat (List.length kv_pairs));
        summary_struct := PDict [ ("rules", PList rules); ("constraints", PDict kv_pairs) ];
        confidence := merge_confidence (List.length memories) |}.

(** [for mem in memories: if isinstance(value, dict): kv_pairs.update(value)] *)
Definition update_all (memories : list MemoryDict) : dict :=
  fold_left (fun kv_pairs mem =>
               match mem_value_json mem with
               | PDict value => update kv_pairs value
               | _ => kv_pairs
               end) memories [].

Definition _merge_communication (memories : list MemoryDict) : result MergeResult :=
  let kv_pairs := update_all memories in
  Ok {| summary_text :=
          truncate240 ("Communication preferences: " ++ of_nat (List.length kv_pairs)
                       ++ " settings");
        summary_struct := PDict [ ("preferences", PDict kv_pairs) ];
        confidence := merge_confidence (List.length memories) |}.

Definition accessibility_step (st : dict * dict) (mem : MemoryDict) : dict * dict :=
  let '(flags, kv_pairs) := st in
  match mem_value_json mem with
  | PDict value =>
      if String.eqb (mem_value_shape mem) "boolean_flags"
      then (update flags value, kv_pairs)
      else (flags, update kv_pairs value)
  | _ => st
  end.

Definition _merge_accessibility (memories : list MemoryDict) : result MergeResult :=
  let '(flags, kv_pairs) := fold_left accessibility_step memories ([], []) in
  Ok {| summary_text :=
          truncate240 ("Accessibility: " ++ of_nat (List.length flags) ++ " flags, "
                       ++ of_nat (List.length kv_pairs) ++ " settings");
        summary_struct := PDict [ ("flags", PDict flags); ("settings", PDict kv_pairs) ];
        confidence := merge_confidence (List.length memories) |}.

Definition schedule_step (windows : list value) (mem : MemoryDict) : list value :=
  if String.eqb (mem_value_shape mem) "schedule_windows" then
    match mem_value_json mem with
    | PList value => windows +++ value
    | PDict value => windows +++ [PDict value]
    | _ => windows
    end
  else windows.

(** The de-duplication loop of [_merge_schedule]: a window that is a
    dictionary is kept unless an equal one was kept before; its key
    [tuple(sorted(window.items()))] is hashed, which raises when a value of
    the window is a list or a dictionary. *)
Definition schedule_dedupe_step (st : list value * list value) (window : value)
  : result (list value * list value) :=
  let '(seen, deduped) := st in
  match window with
  | PDict items =>
      if forallb (fun kv => hashable (snd kv)) items then
        if mem window seen then Ok st
        else Ok (seen +++ [window], deduped +++ [window])
      else Raise "TypeError"
  | _ => Ok (seen, deduped +++ [window])
  end.

Definition _merge_schedule (memories : list MemoryDict) : result MergeResult :=
  let windows := fold_left schedule_step memories [] in
  st <- for_each schedule_dedupe_step windows ([], []) ;;
  let deduped := snd st in
  Ok {| summary_text :=
          truncate240 ("Schedule: " ++ of_nat (List.length deduped) ++ " time windows");
        summary_struct := PDict [ ("windows", PList deduped) ];
        confidence := merge_confidence (List.length memories) |}.

Definition _merge_attention (memories : list MemoryDict) : result MergeResult :=
  let settings := update_all memories in
  Ok {| summary_text :=
          truncate240 ("Attention settings: " ++ of_nat (List.length settings)
                       ++ " preferences");
        summary_struct := PDict [ ("settings", PDict settings) ];
        confidence := merge_confidence (List.length memories) |}.

(** The sort key [(m["created_at"], str(m["id"]))], compared as a tuple. *)
Definition sort_key (m : MemoryDict) : Z * string := (mem_created_at m, mem_id m).

Definition key_leb (a b : MemoryDict) : bool :=
  Z.ltb (mem_created_at a) (mem_created_at b)
  || (Z.eqb (mem_created_at a) (mem_created_at b) && String.leb (mem_id a) (mem_id b)).

Definition merge_memories_deterministic (rt : Runtime)
    (memories : list MemoryDict) (scope : string) : result MergeResult :=
  match memories with
  | [] => Ok {| summary_text := "No memories found.";
                summary_struct := PDict [];
                confidence := 0 |}
  | _ =>
      let sorted_memories := sorted key_leb memories in
      if String.eqb scope "preferences" then _merge_preferences rt sorted_memories
      else if String.eqb scope "constraints" then _merge_constraints sorted_memories
      else if String.eqb scope "communication" then _merge_communication sorted_memories
      else if String.eqb scope "accessibility" then _merge_accessibility sorted_memories
      else if String.eqb scope "schedule" then _merge_schedule sorted_memories
      else if String.eqb scope "attention" then _merge_attention sorted_memories
      else Ok {| summary_text := "Unknown scope: " ++ scope;
                 summary_struct := PDict [];
                 confidence := 0 |}
  end.

End Utils.

(* ================================================================== *)
(** * app/sanitization.py *)
(* ================================================================== *)

Module Sanitization.
Import PyStr.

Definition MAX_USER_ID_LENGTH : nat := 255.
Definition MAX_SCOPE_LENGTH : nat := 50.
Definition MAX_DOMAIN_LENGTH : nat := 500.
Definition MAX_PURPOSE_LENGTH : nat := 1000.

Definition is_lower_letter (c : ascii) : bool :=
  let n := nat_of_ascii c in (97 <=? n)%nat && (n <=? 122)%nat.
Definition is_upper_letter (c : ascii) : bool :=
  let n := nat_of_ascii c in (65 <=? n)%nat && (n <=? 90)%nat.
Definition is_alnum (c : ascii) : bool :=
  is_lower_letter c || is_upper_letter c || is_digit c.

(** [re.match(r'^[...]+$', s)] for a character class given as a predicate. *)
Definition match_class (cls : ascii -> bool) (s : string) : bool :=
  nonempty s && forallb cls (list_ascii_of_string s).

Definition one_of (chars : string) (c : ascii) : bool :=
  existsb (Ascii.eqb c) (list_ascii_of_string chars).

(** [html.escape(s)] *)
Fixpoint html_escape (s : string) : string :=
  match s with
  | EmptyString => EmptyString
  | String c r =>
      (if Ascii.eqb c "&" then "&amp;"
       else if Ascii.eqb c "<" then "&lt;"
       else if Ascii.eqb c ">" then "&gt;"
       else if Ascii.eqb c (ascii_of_nat 34) then "&quot;"
       else if Ascii.eqb c "'" then "&#x27;"
       else String c EmptyString) ++ html_escape r
  end.

Definition sanitize_user_id (user_id : string) : result string :=
  if negb (nonempty user_id) then Raise "user_id cannot be empty"
  else
    let user_id := strip user_id in
    if (MAX_USER_ID_LENGTH <? String.length user_id)%nat
    then Raise "user_id exceeds maximum length of 255"
    else if negb (match_class (fun c => is_alnum c || one_of "_-.@" c) user_id)
    then Raise "user_id contains invalid characters"
    else Ok user_id.

Definition sanitize_scope (scope : string) : result string :=
  if negb (nonempty scope) then Raise "scope cannot be empty"
  else
    let scope := lower (strip scope) in
    if (MAX_SCOPE_LENGTH <? String.length scope)%nat
    then Raise "scope exceeds maximum length of 50"
    else if negb (match_class (fun c => is_lower_letter c || one_of "_" c) scope)
    then Raise "scope contains invalid characters"
    else Ok scope.

Definition sanitize_domain (domain : option string) : result (option string) :=
  match domain with
  | None => Ok None
  | Some domain =>
      let domain := strip domain in
      if negb (nonempty domain) then Ok None
      else if (MAX_DOMAIN_LENGTH <? String.length domain)%nat
      then Raise "domain exceeds maximum length of 500"
      else if negb (match_class (fun c => is_alnum c || one_of "_-./" c || is_space c) domain)
      then Raise "domain contains invalid characters"
      else Ok (Some domain)
  end.

Definition sanitize_purpose (purpose : string) : result string :=
  if negb (nonempty purpose) then Raise "purpose cannot be empty"
  else
    let purpose := strip purpose in
    if (MAX_PURPOSE_LENGTH <? String.length purpose)%nat
    then Raise "purpose exceeds maximum length of 1000"
    else Ok (html_escape purpose).

Definition MAX_SOURCE_LENGTH : nat := 50.

Definition sanitize_source (source : string) : result string :=
  if negb (nonempty source) then Raise "source cannot be empty"
  else
    let source := lower (strip source) in
    if (MAX_SOURCE_LENGTH <? String.length source)%nat
    then Raise "source exceeds maximum length of 50"
    else if negb (match_class (fun c => is_lower_letter c || one_of "_" c) source)
    then Raise "source contains invalid characters"
    else Ok source.

(** [sanitize_string(value, max_length, allow_html)] for a [str]; a
    [max_length] of [0] counts as none. *)
Definition sanitize_string (value : string) (max_length : option nat) (allow_html : bool)
  : result string :=
  let value := strip value in
  match max_length with
  | Some n =>
      if negb (n =? 0)%nat && (n <? String.length value)%nat
      then Raise ("value exceeds maximum length of " ++ of_nat n)
      else Ok (if allow_html then value else html_escape value)
  | None => Ok (if allow_html then value else html_escape value)
  end.

(** [sanitize_json_value]: the strings at value positions are escaped, the
    keys of dictionaries are kept. *)
Fixpoint sanitize_json_value (value : Py.value) : Py.value :=
  match value with
  | Py.PDict d => Py.PDict (map (fun kv => let '(k, v) := kv in (k, sanitize_json_value v)) d)
  | Py.PList l => Py.PList (map sanitize_json_value l)
  | Py.PStr s => Py.PStr (html_escape s)
  | other => other
  end.

(** The characters that [html.escape] replaces, the ampersand apart. *)
Definition is_markup (c : ascii) : bool :=
  Ascii.eqb c "<" || Ascii.eqb c ">" || Ascii.eqb c (ascii_of_nat 34) || Ascii.eqb c "'".

Definition markup_free (s : string) : bool :=
  forallb (fun c => negb (is_markup c)) (list_ascii_of_string s).

End Sanitization.

(* ================================================================== *)
(** * app/models.py, app/schemas.py and app/main.py: the v1 endpoints *)
(* ================================================================== *)

Module Main.
Import PyStr Py Utils Sanitization.

(** ** Tables *)

Record Memory : Type := {
  memory_id : string;
  memory_user_id : string;
  memory_scope : string;
  memory_domain : option string;
  memory_value_json : value;
  memory_value_shape : string;
  memory_source : string;
  memory_ttl_days : Z;
  memory_created_at : Z;
  memory_expires_at : Z;
  memory_app_id : string
}.

Record ReadGrant : Type := {
  grant_id : string;
  revocation_token_hash : string;
  grant_user_id : string;
  grant_app_id : string;
  grant_scope : string;
  grant_domain : option string;
  grant_purpose : string;
  grant_purpose_class : string;
  grant_max_age_days : option Z;
  grant_created_at : Z;
  grant_expires_at : Z;
  revoked_at : option Z;
  revoke_reason : option string
}.

Record AuditEvent : Type := {
  audit_id : string;
  audit_timestamp : Z;
  event_type : string;
  audit_user_id : option string;
  audit_app_id : option string;
  audit_scope : option string;
  audit_domain : option string;
  audit_purpose : option string;
  audit_purpose_class : option string;
  audit_memory_ids : option (list string);
  revocation_grant_id : option string;
  reason_code : option string
}.

Record DB : Type := {
  memories : list Memory;
  read_grants : list ReadGrant;
  audit_events : list AuditEvent
}.

(** The database together with the number of UUIDs drawn so far.  Row
    identifiers are drawn with [uuid4] and are taken to be fresh; of the
    declared constraints, the unique index on [revocation_token_hash] is the
    one that is checked. *)
Record World : Type := {
  db : DB;
  draws : nat
}.

(** Time stamps count seconds. *)
Definition days (n : Z) : Z := (n * 86400)%Z.
Definition hours (n : Z) : Z := (n * 3600)%Z.

(** ** Requests and responses *)

Record MemoryReadRequest : Type := {
  req_user_id : string;
  req_scope : string;
  req_domain : option string;
  req_purpose : string;
  req_max_age_days : option Z
}.

Record MemoryReadResponse : Type := {
  resp_summary_text : string;
  resp_summary_struct : value;
  resp_confidence : Q;
  resp_revocation_token : string;
  resp_expires_at : Z
}.

Record MemoryReadContinueRequest : Type := {
  continue_revocation_token : string;
  continue_max_age_days : option Z
}.

Record MemoryRevokeRequest : Type := {
  revoke_revocation_token : string
}.

Record MemoryRevokeResponse : Type := {
  revoked : bool;
  resp_revoked_at : Z
}.

(** What the caller receives: the body with status 200, or an
    [HTTPException]; an exception nobody catches is answered with 500. *)
Inductive http (A : Type) : Type :=
| HTTP200 (body : A)
| HTTPException (status_code : nat) (detail : string).
Arguments HTTP200 {A} body.
Arguments HTTPException {A} status_code detail.

(** ** Helpers *)

(** [uuid.uuid4()]: the next draw. *)
Definition draw (rt : Runtime) (w : World) : string * World :=
  (uuid_str (uuid4_hex rt (draws w)), {| db := db w; draws := S (draws w) |}).

Definition with_db (w : World) (d : DB) : World := {| db := d; draws := draws w |}.

Definition create_audit_event (rt : Runtime) (now : Z) (w : World)
    (event_type : string) (app_id : string)
    (user_id scope domain purpose purpose_class : option string)
    (memory_ids : option (list string)) (revocation_grant_id reason_code : option string)
  : World :=
  let '(id, w1) := draw rt w in
  let event := {| audit_id := id; audit_timestamp := now; event_type := event_type;
                  audit_user_id := user_id; audit_app_id := Some app_id;
                  audit_scope := scope; audit_domain := domain;
                  audit_purpose := purpose; audit_purpose_class := purpose_class;
                  audit_memory_ids := memory_ids;
                  revocation_grant_id := revocation_grant_id;
                  reason_code := reason_code |} in
  with_db w1 {| memories := memories (db w1);
                read_grants := read_grants (db w1);
                audit_events := audit_events (db w1) +++ [event] |}.

(** [if x:] for an optional string and an optional number. *)
Definition some_nonempty (x : option string) : bool :=
  match x with Some s => nonempty s | None => false end.
Definition some_nonzero (x : option Z) : bool :=
  match x with Some z => negb (Z.eqb z 0) | None => false end.

Definition option_string_eqb (a b : option string) : bool :=
  match a, b with
  | Some x, Some y => String.eqb x y
  | None, None => true
  | _, _ => false
  end.

Definition memory_matches (now : Z) (app_id user_id scope : string)
    (domain : option string) (max_age_days : option Z) (m : Memory) : bool :=
  String.eqb (memory_user_id m) user_id
  && String.eqb (memory_scope m) scope
  && Z.ltb now (memory_expires_at m)
  && String.eqb (memory_app_id m) app_id
  && (if some_nonempty domain then option_string_eqb (memory_domain m) domain
      else match memory_domain m with None => true | Some _ => false end)
  && (match max_age_days with
      | Some d => if Z.eqb d 0 then true else Z.leb (now - days d) (memory_created_at m)
      | None => true
      end).

(** [order_by(Memory.created_at.desc())]; rows with equal time stamps keep
    the order of the table. *)
Definition created_at_desc (a b : Memory) : bool :=
  Z.leb (memory_created_at b) (memory_created_at a).

Definition _query_and_merge_memories (rt : Runtime) (now : Z) (d : DB)
    (app_id user_id scope : string) (domain : option string) (max_age_days : option Z)
  : result MergeResult * list string :=
  let rows := firstn 50 (sorted created_at_desc
                (filter (memory_matches now app_id user_id scope domain max_age_days)
                        (memories d))) in
  let memory_ids := map memory_id rows in
  let memory_dicts :=
    map (fun m => {| mem_id := memory_id m;
                     mem_value_json := memory_value_json m;
                     mem_value_shape := memory_value_shape m;
                     mem_created_at := memory_created_at m |}) rows in
  (merge_memories_deterministic rt memory_dicts scope, memory_ids).

(** [db.query(ReadGrant).filter(hash == token_hash, app_id == app.id).first()] *)
Definition grant_matches (token_hash app_id : string) (g : ReadGrant) : bool :=
  String.eqb (revocation_token_hash g) token_hash && String.eqb (grant_app_id g) app_id.

Definition find_grant (token_hash app_id : string) (d : DB) : option ReadGrant :=
  find (grant_matches token_hash app_id) (read_grants d).

(** [db.add(read_grant); db.commit()] under the unique index on the hash. *)
Definition insert_read_grant (d : DB) (g : ReadGrant) : result DB :=
  if existsb (fun g' => String.eqb (revocation_token_hash g') (revocation_token_hash g))
             (read_grants d)
  then Raise "IntegrityError"
  else Ok {| memories := memories d;
             read_grants := read_grants d +++ [g];
             audit_events := audit_events d |}.

(** The row found by [find_grant], updated in place. *)
Fixpoint update_grant (token_hash app_id : string) (f : ReadGrant -> ReadGrant)
    (gs : list ReadGrant) : list ReadGrant :=
  match gs with
  | [] => []
  | g :: rest =>
      if grant_matches token_hash app_id g then f g :: rest
      else g :: update_grant token_hash app_id f rest
  end.

Definition set_revoked (now : Z) (g : ReadGrant) : ReadGrant :=
  {| grant_id := grant_id g;
     revocation_token_hash := revocation_token_hash g;
     grant_user_id := grant_user_id g;
     grant_app_id := grant_app_id g;
     grant_scope := grant_scope g;
     grant_domain := grant_domain g;
     grant_purpose := grant_purpose g;
     grant_purpose_class := grant_purpose_class g;
     grant_max_age_days := grant_max_age_days g;
     grant_created_at := grant_created_at g;
     grant_expires_at := grant_expires_at g;
     revoked_at := Some now;
     revoke_reason := Some "user_requested" |}.

(** ** POST /memory/read *)

Definition read_memory (rt : Runtime) (now : Z) (app_id : string) (w : World)
    (read_request : MemoryReadRequest) : http MemoryReadResponse * World :=
  match (user_id <- sanitize_user_id (req_user_id read_request) ;;
         scope <- sanitize_scope (req_scope read_request) ;;
         domain <- (if some_nonempty (req_domain read_request)
                    then sanitize_domain (req_domain read_request) else Ok None) ;;
         purpose <- sanitize_purpose (req_purpose read_request) ;;
         Ok (user_id, scope, domain, purpose)) with
  | Raise e => (HTTPException 400 e, w)
  | Ok (user_id, scope, domain, purpose) =>
      let purpose_class := normalize_purpose purpose in
      if negb (check_policy scope purpose_class) then
        let w1 := create_audit_event rt now w "MEMORY_READ" app_id
                    (Some user_id) (Some scope) domain (Some purpose) (Some purpose_class)
                    None None (Some "POLICY_DENIED") in
        (HTTPException 403
           ("Purpose class '" ++ purpose_class ++ "' not allowed for scope '" ++ scope ++ "'"),
         w1)
      else
        match _query_and_merge_memories rt now (db w) app_id user_id scope domain
                (req_max_age_days read_request) with
        | (Raise e, _) => (HTTPException 500 e, w)
        | (Ok merged, memory_ids) =>
            let '(revocation_token, w1) := draw rt w in
            let token_hash := hash_revocation_token rt revocation_token in
            let created_at := now in
            let expires_at := (created_at + hours 24)%Z in
            let '(id, w2) := draw rt w1 in
            let read_grant :=
              {| grant_id := id;
                 revocation_token_hash := token_hash;
                 grant_user_id := req_user_id read_request;
                 grant_app_id := app_id;
                 grant_scope := req_scope read_request;
                 grant_domain := req_domain read_request;
                 grant_purpose := req_purpose read_request;
                 grant_purpose_class := purpose_class;
                 grant_max_age_days := req_max_age_days read_request;
                 grant_created_at := created_at;
                 grant_expires_at := expires_at;
                 revoked_at := None;
                 revoke_reason := None |} in
            match insert_read_grant (db w2) read_grant with
            | Raise e => (HTTPException 500 e, w2)
            | Ok d =>
                let w3 := create_audit_event rt now (with_db w2 d) "MEMORY_READ" app_id
                            (Some user_id) (Some scope) domain (Some purpose)
                            (Some purpose_class)
                            (match memory_ids with [] => None | _ => Some memory_ids end)
                            (Some id) None in
                (HTTP200 {| resp_summary_text := summary_text merged;
                            resp_summary_struct := summary_struct merged;
                            resp_confidence := confidence merged;
                            resp_revocation_token := revocation_token;
                            resp_expires_at := expires_at |},
                 w3)
            end
        end
  end.

(** ** POST /memory/read/continue *)

Definition continue_read_memory (rt : Runtime) (now : Z) (app_id : string) (w : World)
    (continue_request : MemoryReadContinueRequest) : http MemoryReadResponse * World :=
  let token_hash := hash_revocation_token rt (continue_revocation_token continue_request) in
  match find_grant token_hash app_id (db w) with
  | None => (HTTPException 404 "Revocation token not found", w)
  | Some read_grant =>
      match revoked_at read_grant with
      | Some _ => (HTTPException 403 "REVOKED", w)
      | None =>
          if Z.ltb (grant_expires_at read_grant) now then (HTTPException 403 "REVOKED", w)
          else
            let max_age_days :=
              match continue_max_age_days continue_request with
              | Some d => Some d
              | None => grant_max_age_days read_grant
              end in
            match _query_and_merge_memories rt now (db w) app_id
                    (grant_user_id read_grant) (grant_scope read_grant)
                    (grant_domain read_grant) max_age_days with
            | (Raise e, _) => (HTTPException 500 e, w)
            | (Ok merged, memory_ids) =>
                let w1 := create_audit_event rt now w "MEMORY_READ" app_id
                            (Some (grant_user_id read_grant)) (Some (grant_scope read_grant))
                            (grant_domain read_grant) (Some (grant_purpose read_grant))
                            (Some (grant_purpose_class read_grant))
                            None (Some (grant_id read_grant)) (Some "CONTINUE") in
                (HTTP200 {| resp_summary_text := summary_text merged;
                            resp_summary_struct := summary_struct merged;
                            resp_confidence := confidence merged;
                            resp_revocation_token :=
                              continue_revocation_token continue_request;
                            resp_expires_at := grant_expires_at read_grant |},
                 w1)
            end
      end
  end.

(** ** POST /memory/revoke *)

Definition revoke_memory (rt : Runtime) (now : Z) (app_id : string) (w : World)
    (revoke_request : MemoryRevokeRequest) : http MemoryRevokeResponse * World :=
  let token_hash := hash_revocation_token rt (revoke_revocation_token revoke_request) in
  match find_grant token_hash app_id (db w) with
  | None => (HTTPException 404 "Revocation token not found", w)
  | Some read_grant =>
      match revoked_at read_grant with
      | Some _ => (HTTPException 404 "Revocation token not found", w)
      | None =>
          let revoked_at := now in
          let d := {| memories := memories (db w);
                      read_grants := update_grant token_hash app_id (set_revoked revoked_at)
                                       (read_grants (db w));
                      audit_events := audit_events (db w) |} in
          let w1 := create_audit_event rt now (with_db w d) "MEMORY_REVOKE" app_id
                      (Some (grant_user_id read_grant)) (Some (grant_scope read_grant))
                      (grant_domain read_grant) None None
                      None (Some (grant_id read_grant)) None in
          (HTTP200 {| revoked := true; resp_revoked_at := revoked_at |}, w1)
      end
  end.

(** The grant of [(h, a)] exists and is not revoked. *)
Definition live (h a : string) (w : World) : Prop :=
  exists g, find_grant h a (db w) = Some g /\ revoked_at g = None.

(** The grant of [(h, a)] exists and is revoked. *)
Definition dead (h a : string) (w : World) : Prop :=
  exists g t, find_grant h a (db w) = Some g /\ revoked_at g = Some t.

(** There is a grant with the hash [h], and every such grant belongs to
    the app [a]. *)
Definition owned_by (h a : string) (w : World) : Prop :=
  (exists g, In g (read_grants (db w)) /\ revocation_token_hash g = h)
  /\ forall g, In g (read_grants (db w)) -> revocation_token_hash g = h -> grant_app_id g = a.

(** ** Histories of requests *)

Inductive Request : Type :=
| Read (now : Z) (app_id : string) (r : MemoryReadRequest)
| Continue (now : Z) (app_id : string) (r : MemoryReadContinueRequest)
| Revoke (now : Z) (app_id : string) (r : MemoryRevokeRequest).

(** The world after a request. *)
Definition after (rt : Runtime) (w : World) (req : Request) : World :=
  match req with
  | Read now app_id r => snd (read_memory rt now app_id w r)
  | Continue now app_id r => snd (continue_read_memory rt now app_id w r)
  | Revoke now app_id r => snd (revoke_memory rt now app_id w r)
  end.

(** [req] is a revoke by [app_id] that presents [token] (or a token with
    the same hash). *)
Definition revokes (rt : Runtime) (app_id token : string) (req : Request) : Prop :=
  match req with
  | Revoke _ a r =>
      a = app_id /\
      hash_revocation_token rt (revoke_revocation_token r) = hash_revocation_token rt token
  | _ => False
  end.

(** One step of the history: a request that satisfies [allowed], or any
    other activity that leaves the table of grants alone (a write of a
    memory, for instance). *)
Inductive step (rt : Runtime) (allowed : Request -> Prop) : World -> World -> Prop :=
| step_request (w : World) (req : Request) :
    allowed req -> step rt allowed w (after rt w req)
| step_other (w w' : World) :
    read_grants (db w') = read_grants (db w) -> step rt allowed w w'.

Inductive steps (rt : Runtime) (allowed : Request -> Prop) : World -> World -> Prop :=
| steps_refl (w : World) : steps rt allowed w w
| steps_next (w w' w'' : World) :
    steps rt allowed w w' -> step rt allowed w' w'' -> steps rt allowed w w''.

End Main.

(* ================================================================== *)
(** * app/memoryscope/core_types.py *)
(* ================================================================== *)

Module MemoryType.
(** Memory object types. *)
Inductive t : Type := EVENT | IMPACT | SEED.
Definition value (x : t) : string :=
  match x with
  | EVENT => "event"
  | IMPACT => "impact"
  | SEED => "seed"
  end.
Definition eqb (x y : t) : bool := String.eqb (value x) (value y).
(** [MemoryType(s)]: the member whose value is [s]. *)
Definition of_value (s : string) : option t :=
  find (fun x => String.eqb (value x) s) [EVENT; IMPACT; SEED].
End MemoryType.

Module TruthMode.
(** Truth modes. *)
Inductive t : Type := FACTUAL_CLAIM | SUBJECTIVE_EXPERIENCE | COUNTERFACTUAL | IMAGINED | SOCIALLY_SOURCED | PROCEDURAL | SOMATIC | IDENTITY_ROLE_BOUND.
Definition value (x : t) : string :=
  match x with
  | FACTUAL_CLAIM => "factual_claim"
  | SUBJECTIVE_EXPERIENCE => "subjective_experience"
  | COUNTERFACTUAL => "counterfactual"
  | IMAGINED => "imagined"
  | SOCIALLY_SOURCED => "socially_sourced"
  | PROCEDURAL => "procedural"
  | SOMATIC => "somatic"
  | IDENTITY_ROLE_BOUND => "identity_role_bound"
  end.
Definition eqb (x y : t) : bool := String.eqb (value x) (value y).
(** [TruthMode(s)]: the member whose value is [s]. *)
Definition of_value (s : string) : option t :=
  find (fun x => String.eqb (value x) s) [FACTUAL_CLAIM; SUBJECTIVE_EXPERIENCE; COUNTERFACTUAL; IMAGINED; SOCIALLY_SOURCED; PROCEDURAL; SOMATIC; IDENTITY_ROLE_BOUND].
End TruthMode.

Module MemoryState.
(** Memory states. *)
Inductive t : Type := ACTIVE | RESTRICTED | SEALED | DORMANT | REVOKED | TOMBSTONED.
Definition value (x : t) : string :=
  match x with
  | ACTIVE => "active"
  | RESTRICTED => "restricted"
  | SEALED => "sealed"
  | DORMANT => "dormant"
  | REVOKED => "revoked"
  | TOMBSTONED => "tombstoned"
  end.
Definition eqb (x y : t) : bool := String.eqb (value x) (value y).
(** [MemoryState(s)]: the member whose value is [s]. *)
Definition of_value (s : string) : option t :=
  find (fun x => String.eqb (value x) s) [ACTIVE; RESTRICTED; SEALED; DORMANT; REVOKED; TOMBSTONED].
End MemoryState.

Module OwnerType.
(** Ownership types. *)
Inductive t : Type := USER | GROUP | ORG | SYSTEM | EXTERNAL_SOURCE.
Definition value (x : t) : string :=
  match x with
  | USER => "user"
  | GROUP => "group"
  | ORG => "org"
  | SYSTEM => "system"
  | EXTERNAL_SOURCE => "external_source"
  end.
Definition eqb (x y : t) : bool := String.eqb (value x) (value y).
(** [OwnerType(s)]: the member whose value is [s]. *)
Definition of_value (s : string) : option t :=
  find (fun x => String.eqb (value x) s) [USER; GROUP; ORG; SYSTEM; EXTERNAL_SOURCE].
End OwnerType.

Module DisputeState.
(** Dispute states. *)
Inductive t : Type := UNDISPUTED | UNVERIFIED | DISPUTED | CONTESTED.
Definition value (x : t) : string :=
  match x with
  | UNDISPUTED => "undisputed"
  | UNVERIFIED => "unverified"
  | DISPUTED => "disputed"
  | CONTESTED => "contested"
  end.
Definition eqb (x y : t) : bool := String.eqb (value x) (value y).
(** [DisputeState(s)]: the member whose value is [s]. *)
Definition of_value (s : string) : option t :=
  find (fun x => String.eqb (value x) s) [UNDISPUTED; UNVERIFIED; DISPUTED; CONTESTED].
End DisputeState.

Module Visibility.
(** Visibility levels. *)
Inductive t : Type := PRIVATE | SHARED_WITH_GROUP | SHARED_WITH_ORG | RESTRICTED_REVIEW.
Definition value (x : t) : string :=
  match x with
  | PRIVATE => "private"
  | SHARED_WITH_GROUP => "shared_with_group"
  | SHARED_WITH_ORG => "shared_with_org"
  | RESTRICTED_REVIEW => "restricted_review"
  end.
Definition eqb (x y : t) : bool := String.eqb (value x) (value y).
(** [Visibility(s)]: the member whose value is [s]. *)
Definition of_value (s : string) : option t :=
  find (fun x => String.eqb (value x) s) [PRIVATE; SHARED_WITH_GROUP; SHARED_WITH_ORG; RESTRICTED_REVIEW].
End Visibility.

Module SensitivityLevel.
(** Sensitivity levels. *)
Inductive t : Type := LOW | MEDIUM | HIGH | CRITICAL.
Definition value (x : t) : string :=
  match x with
  | LOW => "low"
  | MEDIUM => "medium"
  | HIGH => "high"
  | CRITICAL => "critical"
  end.
Definition eqb (x y : t) : bool := String.eqb (value x) (value y).
(** [SensitivityLevel(s)]: the member whose value is [s]. *)
Definition of_value (s : string) : option t :=
  find (fun x => String.eqb (value x) s) [LOW; MEDIUM; HIGH; CRITICAL].
End SensitivityLevel.

Module SensitivityHandling.
(** Sensitivity handling modes. *)
Inductive t : Type := NORMAL | NO_PROMPT | NO_SEARCH | SEALED_DEFAULT.
Definition value (x : t) : string :=
  match x with
  | NORMAL => "normal"
  | NO_PROMPT => "no_prompt"
  | NO_SEARCH => "no_search"
  | SEALED_DEFAULT => "sealed_default"
  end.
Definition eqb (x y : t) : bool := String.eqb (value x) (value y).
(** [SensitivityHandling(s)]: the member whose value is [s]. *)
Definition of_value (s : string) : option t :=
  find (fun x => String.eqb (value x) s) [NORMAL; NO_PROMPT; NO_SEARCH; SEALED_DEFAULT].
End SensitivityHandling.

Module TimePrecision.
(** Time precision levels. *)
Inductive t : Type := EXACT | APPROXIMATE | RANGE | UNKNOWN.
Definition value (x : t) : string :=
  match x with
  | EXACT => "exact"
  | APPROXIMATE => "approximate"
  | RANGE => "range"
  | UNKNOWN => "unknown"
  end.
Definition eqb (x y : t) : bool := String.eqb (value x) (value y).
(** [TimePrecision(s)]: the member whose value is [s]. *)
Definition of_value (s : string) : option t :=
  find (fun x => String.eqb (value x) s) [EXACT; APPROXIMATE; RANGE; UNKNOWN].
End TimePrecision.

Module DecayModel.
(** Decay models. *)
Inductive t : Type := HALF_LIFE | LINEAR | LOGARITHMIC | STEP.
Definition value (x : t) : string :=
  match x with
  | HALF_LIFE => "half_life"
  | LINEAR => "linear"
  | LOGARITHMIC => "logarithmic"
  | STEP => "step"
  end.
Definition eqb (x y : t) : bool := String.eqb (value x) (value y).
(** [DecayModel(s)]: the member whose value is [s]. *)
Definition of_value (s : string) : option t :=
  find (fun x => String.eqb (value x) s) [HALF_LIFE; LINEAR; LOGARITHMIC; STEP].
End DecayModel.

Module ReconsolidationPolicy.
(** Reconsolidation policies. *)
Inductive t : Type := NEVER_EDIT_SOURCE | APPEND_ONLY | ALLOW_RELABEL_AFFECT_ONLY | ALLOW_UPDATE_CLAIM_CONFIDENCE.
Definition value (x : t) : string :=
  match x with
  | NEVER_EDIT_SOURCE => "never_edit_source"
  | APPEND_ONLY => "append_only"
  | ALLOW_RELABEL_AFFECT_ONLY => "allow_relabel_affect_only"
  | ALLOW_UPDATE_CLAIM_CONFIDENCE => "allow_update_claim_confidence"
  end.
Definition eqb (x y : t) : bool := String.eqb (value x) (value y).
(** [ReconsolidationPolicy(s)]: the member whose value is [s]. *)
Definition of_value (s : string) : option t :=
  find (fun x => String.eqb (value x) s) [NEVER_EDIT_SOURCE; APPEND_ONLY; ALLOW_RELABEL_AFFECT_ONLY; ALLOW_UPDATE_CLAIM_CONFIDENCE].
End ReconsolidationPolicy.

Module SourceType.
(** Provenance source types. *)
Inductive t : Type := USER | SYSTEM | IMPORT | HUMAN_AGENT.
Definition value (x : t) : string :=
  match x with
  | USER => "user"
  | SYSTEM => "system"
  | IMPORT => "import"
  | HUMAN_AGENT => "human_agent"
  end.
Definition eqb (x y : t) : bool := String.eqb (value x) (value y).
(** [SourceType(s)]: the member whose value is [s]. *)
Definition of_value (s : string) : option t :=
  find (fun x => String.eqb (value x) s) [USER; SYSTEM; IMPORT; HUMAN_AGENT].
End SourceType.

Module SurfaceType.
(** Provenance surface types. *)
Inductive t : Type := CHAT | EMAIL | TICKET | CALL_SUMMARY | FORM.
Definition value (x : t) : string :=
  match x with
  | CHAT => "chat"
  | EMAIL => "email"
  | TICKET => "ticket"
  | CALL_SUMMARY => "call_summary"
  | FORM => "form"
  end.
Definition eqb (x y : t) : bool := String.eqb (value x) (value y).
(** [SurfaceType(s)]: the member whose value is [s]. *)
Definition of_value (s : string) : option t :=
  find (fun x => String.eqb (value x) s) [CHAT; EMAIL; TICKET; CALL_SUMMARY; FORM].
End SurfaceType.

Module ScopeType.
(** Scope types. *)
Inductive t : Type := USER | ORG | APP | SESSION | PROJECT | CASE | ROLE.
Definition value (x : t) : string :=
  match x with
  | USER => "user"
  | ORG => "org"
  | APP => "app"
  | SESSION => "session"
  | PROJECT => "project"
  | CASE => "case"
  | ROLE => "role"
  end.
Definition eqb (x y : t) : bool := String.eqb (value x) (value y).
(** [ScopeType(s)]: the member whose value is [s]. *)
Definition of_value (s : string) : option t :=
  find (fun x => String.eqb (value x) s) [USER; ORG; APP; SESSION; PROJECT; CASE; ROLE].
End ScopeType.

Module ConstraintKind.
(** Constraint kinds. *)
Inductive t : Type := AVOID | PREFER | REQUIRE | TONE | STYLE | BOUNDARY | SAFETY | CLARIFY_FIRST | ASK_PERMISSION.
Definition value (x : t) : string :=
  match x with
  | AVOID => "avoid"
  | PREFER => "prefer"
  | REQUIRE => "require"
  | TONE => "tone"
  | STYLE => "style"
  | BOUNDARY => "boundary"
  | SAFETY => "safety"
  | CLARIFY_FIRST => "clarify_first"
  | ASK_PERMISSION => "ask_permission"
  end.
Definition eqb (x y : t) : bool := String.eqb (value x) (value y).
(** [ConstraintKind(s)]: the member whose value is [s]. *)
Definition of_value (s : string) : option t :=
  find (fun x => String.eqb (value x) s) [AVOID; PREFER; REQUIRE; TONE; STYLE; BOUNDARY; SAFETY; CLARIFY_FIRST; ASK_PERMISSION].
End ConstraintKind.

Module ConstraintTarget.
(** Constraint targets. *)
Inductive t : Type := RESPONSE | PROMPT_CONTEXT | TOOL_EXECUTION | MEMORY_OPS.
Definition value (x : t) : string :=
  match x with
  | RESPONSE => "response"
  | PROMPT_CONTEXT => "prompt_context"
  | TOOL_EXECUTION => "tool_execution"
  | MEMORY_OPS => "memory_ops"
  end.
Definition eqb (x y : t) : bool := String.eqb (value x) (value y).
(** [ConstraintTarget(s)]: the member whose value is [s]. *)
Definition of_value (s : string) : option t :=
  find (fun x => String.eqb (value x) s) [RESPONSE; PROMPT_CONTEXT; TOOL_EXECUTION; MEMORY_OPS].
End ConstraintTarget.

Module MergeStrategy.
(** Merge strategies for constraints. *)
Inductive t : Type := LATEST_WINS | MAX_WEIGHT | MIN_WEIGHT | UNION | INTERSECTION | APPEND_ONLY.
Definition value (x : t) : string :=
  match x with
  | LATEST_WINS => "latest_wins"
  | MAX_WEIGHT => "max_weight"
  | MIN_WEIGHT => "min_weight"
  | UNION => "union"
  | INTERSECTION => "intersection"
  | APPEND_ONLY => "append_only"
  end.
Definition eqb (x y : t) : bool := String.eqb (value x) (value y).
(** [MergeStrategy(s)]: the member whose value is [s]. *)
Definition of_value (s : string) : option t :=
  find (fun x => String.eqb (value x) s) [LATEST_WINS; MAX_WEIGHT; MIN_WEIGHT; UNION; INTERSECTION; APPEND_ONLY].
End MergeStrategy.

Module PurposeType.
(** Access purpose types. *)
Inductive t : Type := CHAT_RESPONSE | TASK_EXECUTION | SAFETY_FILTERING | REFLECTION_REQUESTED_BY_USER | SUPPORT_AGENT_REVIEW | COMPLIANCE_AUDIT | DEBUGGING_REPLAY.
Definition value (x : t) : string :=
  match x with
  | CHAT_RESPONSE => "chat_response"
  | TASK_EXECUTION => "task_execution"
  | SAFETY_FILTERING => "safety_filtering"
  | REFLECTION_REQUESTED_BY_USER => "reflection_requested_by_user"
  | SUPPORT_AGENT_REVIEW => "support_agent_review"
  | COMPLIANCE_AUDIT => "compliance_audit"
  | DEBUGGING_REPLAY => "debugging_replay"
  end.
Definition eqb (x y : t) : bool := String.eqb (value x) (value y).
(** [PurposeType(s)]: the member whose value is [s]. *)
Definition of_value (s : string) : option t :=
  find (fun x => String.eqb (value x) s) [CHAT_RESPONSE; TASK_EXECUTION; SAFETY_FILTERING; REFLECTION_REQUESTED_BY_USER; SUPPORT_AGENT_REVIEW; COMPLIANCE_AUDIT; DEBUGGING_REPLAY].
End PurposeType.

Module Scope.
Record t : Type := {
  scope_type : ScopeType.t;
  scope_id : string;
  flags : option Py.dict
}.
End Scope.

Module Sensitivity.
Record t : Type := {
  level : SensitivityLevel.t;
  categories : list string;
  handling : SensitivityHandling.t
}.
End Sensitivity.

Module Ownership.
Record t : Type := {
  owner_type : OwnerType.t;
  owners : list string;
  claimant : string;
  subjects : list string;
  dispute_state : DisputeState.t;
  visibility : Visibility.t
}.
End Ownership.

Module Temporal.
Record t : Type := {
  occurred_at_observed : Z;
  occurred_at_claimed : option Z;
  time_precision : TimePrecision.t;
  time_confidence : Q;
  range : option (list (string * Z));
  ordering_uncertainty : bool
}.
End Temporal.

Module Content.
Record t : Type := {
  format : string;
  language : string;
  text : option string;
  json : option Py.dict
}.
End Content.

Module AffectEntry.
Record t : Type := {
  at_ : Z;
  labels : list string;
  valence : Q;
  arousal : Q;
  reason : string
}.
End AffectEntry.

Module Affect.
Record t : Type := {
  valence : Q;
  arousal : Q;
  labels : list string;
  affect_confidence : Q;
  affect_history : list AffectEntry.t
}.
End Affect.

Module ImpactPayload.
Record t : Type := {
  constraints : list Py.dict
}.
End ImpactPayload.

Module SeedActivation.
Record t : Type := {
  min_confidence : Q;
  cooldown_seconds : Z
}.
End SeedActivation.

Module SeedPayload.
Record t : Type := {
  cues : list string;
  activation : SeedActivation.t
}.
End SeedPayload.

Module ProceduralPayload.
Record t : Type := {
  pattern : option string;
  trigger_conditions : list string;
  recommended_interaction_protocol : list string;
  evidence : list (string * Z);
  privacy_guard : string
}.
End ProceduralPayload.

Module SomaticPayload.
Record t : Type := {
  triggers : list string;
  responses : list string;
  do_not_prompt_with : list string
}.
End SomaticPayload.

Module Strength.
Record t : Type := {
  initial : Q;
  current : Q;
  decay_model : DecayModel.t;
  half_life_days : option Z;
  last_reinforced_at : option Z
}.
End Strength.

Module TransformEntry.
Record t : Type := {
  transform_id : string;
  version : string;
  run_id : string
}.
End TransformEntry.

Module Provenance.
Record t : Type := {
  source : SourceType.t;
  surface : option SurfaceType.t;
  conversation_id : option string;
  derived_from : list string;
  transform_chain : list TransformEntry.t;
  policy_version : option string;
  confidence : Q
}.
End Provenance.

Module HistoryEntry.
Record t : Type := {
  at_ : Z;
  actor : string;
  action : string;
  summary : string
}.
End HistoryEntry.

Module ReconsolidationTrace.
Record t : Type := {
  at_ : Z;
  transform_id : string;
  run_id : string
}.
End ReconsolidationTrace.

Module MemoryObject.
(** The canonical memory object.  A value of this type has passed the
    field validators; [validate] below is the chain of model validators
    that runs when an object is built. *)
Record t : Type := {
  id : string;
  tenant_id : string;
  scope : Scope.t;
  type : MemoryType.t;
  truth_mode : TruthMode.t;
  state : MemoryState.t;
  sensitivity : Sensitivity.t;
  ownership : Ownership.t;
  temporal : Temporal.t;
  content : Content.t;
  affect : Affect.t;
  impact_payload : option ImpactPayload.t;
  seed_payload : option SeedPayload.t;
  procedural_payload : option ProceduralPayload.t;
  somatic_payload : option SomaticPayload.t;
  strength : Strength.t;
  provenance : Provenance.t;
  history : list HistoryEntry.t;
  reconsolidation_policy : ReconsolidationPolicy.t;
  reconsolidation_trace : list ReconsolidationTrace.t
}.

Definition default_seed_payload : SeedPayload.t :=
  {| SeedPayload.cues := [];
     SeedPayload.activation :=
       {| SeedActivation.min_confidence := 55 # 100;
          SeedActivation.cooldown_seconds := 3600 |} |}.

(** [validate_type_payloads], [validate_truth_mode_rules] and
    [validate_reconsolidation_defaults], in this order. *)
Definition validate (m : t) : t :=
  {| id := id m;
     tenant_id := tenant_id m;
     scope := scope m;
     type := type m;
     truth_mode := truth_mode m;
     state := state m;
     sensitivity := sensitivity m;
     ownership := ownership m;
     temporal := temporal m;
     content := content m;
     affect := affect m;
     impact_payload :=
       match type m, impact_payload m with
       | MemoryType.IMPACT, None => Some {| ImpactPayload.constraints := [] |}
       | _, p => p
       end;
     seed_payload :=
       match type m, seed_payload m with
       | MemoryType.SEED, None => Some default_seed_payload
       | _, p => p
       end;
     procedural_payload := procedural_payload m;
     somatic_payload := somatic_payload m;
     strength := strength m;
     provenance := provenance m;
     history := history m;
     reconsolidation_policy :=
       match reconsolidation_policy m, type m with
       | ReconsolidationPolicy.NEVER_EDIT_SOURCE, MemoryType.EVENT =>
           ReconsolidationPolicy.NEVER_EDIT_SOURCE
       | ReconsolidationPolicy.NEVER_EDIT_SOURCE, MemoryType.IMPACT =>
           ReconsolidationPolicy.APPEND_ONLY
       | ReconsolidationPolicy.NEVER_EDIT_SOURCE, MemoryType.SEED =>
           ReconsolidationPolicy.APPEND_ONLY
       | p, _ => p
       end;
     reconsolidation_trace := reconsolidation_trace m |}.

(** [memory.state = new_state] *)
Definition set_state (new_state : MemoryState.t) (m : t) : t :=
  {| id := id m; tenant_id := tenant_id m; scope := scope m; type := type m;
     truth_mode := truth_mode m; state := new_state; sensitivity := sensitivity m;
     ownership := ownership m; temporal := temporal m; content := content m;
     affect := affect m; impact_payload := impact_payload m;
     seed_payload := seed_payload m; procedural_payload := procedural_payload m;
     somatic_payload := somatic_payload m; strength := strength m;
     provenance := provenance m; history := history m;
     reconsolidation_policy := reconsolidation_policy m;
     reconsolidation_trace := reconsolidation_trace m |}.

(** The same object with another narrative. *)
Definition with_content (c : Content.t) (m : t) : t :=
  {| id := id m; tenant_id := tenant_id m; scope := scope m; type := type m;
     truth_mode := truth_mode m; state := state m; sensitivity := sensitivity m;
     ownership := ownership m; temporal := temporal m; content := c;
     affect := affect m; impact_payload := impact_payload m;
     seed_payload := seed_payload m; procedural_payload := procedural_payload m;
     somatic_payload := somatic_payload m; strength := strength m;
     provenance := provenance m; history := history m;
     reconsolidation_policy := reconsolidation_policy m;
     reconsolidation_trace := reconsolidation_trace m |}.

(** [memory.strength.current = x; memory.strength.last_reinforced_at = now] *)
Definition reinforce (x : Q) (now : Z) (m : t) : t :=
  {| id := id m; tenant_id := tenant_id m; scope := scope m; type := type m;
     truth_mode := truth_mode m; state := state m; sensitivity := sensitivity m;
     ownership := ownership m; temporal := temporal m; content := content m;
     affect := affect m; impact_payload := impact_payload m;
     seed_payload := seed_payload m; procedural_payload := procedural_payload m;
     somatic_payload := somatic_payload m;
     strength := {| Strength.initial := Strength.initial (strength m);
                    Strength.current := x;
                    Strength.decay_model := Strength.decay_model (strength m);
                    Strength.half_life_days := Strength.half_life_days (strength m);
                    Strength.last_reinforced_at := Some now |};
     provenance := provenance m; history := history m;
     reconsolidation_policy := reconsolidation_policy m;
     reconsolidation_trace := reconsolidation_trace m |}.

(** [m'] is [m], or [m] is sealed and [m'] is [m] with another narrative. *)
Definition sealed_variant (m m' : t) : Prop :=
  m' = m \/ (state m = MemoryState.SEALED /\ exists c, m' = with_content c m).
End MemoryObject.

Module DerivedObjectLink.
Record t : Type := {
  parent_id : string;
  child_id : string;
  relationship : string;
  rule : string;
  strength_transfer : Q;
  created_at : Z
}.
End DerivedObjectLink.

Module Caller.
Record t : Type := {
  client_id : option string;
  user_id : option string;
  ip : option string
}.
End Caller.

Module Query.
Record t : Type := {
  text : option string;
  op : string
}.
End Query.

Module Decision.
Record t : Type := {
  allowed : bool;
  returned_ids : list string;
  denied_ids : list string;
  matched_rules : list string;
  explanation : string
}.
End Decision.

Module AccessLogEntry.
Record t : Type := {
  log_id : string;
  time : Z;
  tenant_id : string;
  caller : Caller.t;
  scope : Scope.t;
  purpose : PurposeType.t;
  query : option Query.t;
  decision : Decision.t;
  revocation_token : option string
}.
End AccessLogEntry.

(** [uuid.uuid4().hex[:16]] behind a prefix; the state is the number of
    UUIDs drawn so far. *)
Definition generate_id (rt : Runtime) (prefix : string) (draws : nat) : string * nat :=
  (prefix ++ substring 0 16 (uuid4_hex rt draws), S draws).

Definition generate_memory_id (rt : Runtime) := generate_id rt "mem_".
Definition generate_constraint_id (rt : Runtime) := generate_id rt "con_".
Definition generate_log_id (rt : Runtime) := generate_id rt "log_".

(* ================================================================== *)
(** * app/memoryscope/policy_engine.py *)
(* ================================================================== *)

Module PolicyEngine.
Import Py.

(** A rule [{id, when, then}] of the policy document. *)
Record Rule : Type := {
  id : string;
  when : dict;
  then_ : dict
}.

(** The policy document. *)
Record Policy : Type := {
  policy_version : string;
  defaults : list (string * string);
  globals : dict;
  rules : list Rule
}.

(** The engine: the policy and its compiled rules. *)
Record t : Type := {
  policy : Policy;
  compiled_rules : list Rule
}.

(** The trace of a decision; the time stamp [evaluated_at] is left out. *)
Record PolicyTrace : Type := {
  trace_policy_version : string;
  matched_rules : list string;
  denied_reasons : list string
}.

Definition _default_policy : Policy := {|
  policy_version := "pol_2026_01_06_01";
  defaults :=
    [ ("write", "allow"); ("read", "deny"); ("include_in_prompt", "deny");
      ("tool_execution", "allow"); ("reinforcement", "allow");
      ("derive_impacts", "allow"); ("derive_seeds", "allow") ];
  globals :=
    [ ("claimed_time_trust_threshold", PFloat (75 # 100));
      ("spiral",
       PDict [ ("enabled_default", PBool false);
               ("ttl_minutes", PInt 45);
               ("block_tool_execution", PBool true);
               ("block_reinforcement", PBool true);
               ("block_new_impacts", PBool true);
               ("raise_seed_activation_threshold_by", PFloat (15 # 100)) ]) ];
  rules :=
    [ {| id := "seal_sensitive_events";
         when :=
           [ ("memory.type", PStr "event");
             ("memory.sensitivity.categories",
              PList [PStr "trauma"; PStr "shame"; PStr "moral_injury"]) ];
         then_ :=
           [ ("set_state", PStr "sealed");
             ("allow_read", PBool false);
             ("include_in_prompt", PBool false);
             ("derive_impacts", PBool true);
             ("derive_seeds", PBool true) ] |};
      {| id := "allow_impacts_for_chat";
         when :=
           [ ("memory.type", PStr "impact");
             ("request.purpose", PStr "chat_response");
             ("memory.sensitivity.level", PList [PStr "low"; PStr "medium"]) ];
         then_ :=
           [ ("allow_read", PBool true);
             ("include_in_prompt", PBool true) ] |};
      {| id := "deny_disputed_facts_in_chat";
         when :=
           [ ("memory.truth_mode", PStr "factual_claim");
             ("memory.ownership.dispute_state", PList [PStr "disputed"; PStr "contested"]);
             ("request.purpose", PStr "chat_response") ];
         then_ := [ ("allow_read", PBool false) ] |};
      {| id := "deny_nonfactual_for_tools";
         when :=
           [ ("memory.truth_mode",
              PList [PStr "counterfactual"; PStr "imagined"; PStr "socially_sourced"]);
             ("request.purpose", PStr "task_execution") ];
         then_ := [ ("allow_read", PBool false) ] |} ]
|}.

Definition allowed_defaults : list string :=
  [ "write"; "read"; "include_in_prompt"; "tool_execution";
    "reinforcement"; "derive_impacts"; "derive_seeds" ].

(** The checks of [_validate_policy] on the defaults; the three required
    keys are fields of [Policy]. *)
Fixpoint _validate_policy (defaults : list (string * string)) : result unit :=
  match defaults with
  | [] => Ok tt
  | (key, v) :: rest =>
      if negb (existsb (String.eqb key) allowed_defaults)
      then Raise ("Unknown default key: " ++ key)
      else if negb (String.eqb v "allow" || String.eqb v "deny")
      then Raise ("Default value must be 'allow' or 'deny': " ++ key ++ "=" ++ v)
      else _validate_policy rest
  end.

Definition _compile_conditions (conditions : dict) : dict := conditions.

Definition _compile_rules (p : Policy) : list Rule :=
  map (fun rule => {| id := id rule;
                      when := _compile_conditions (when rule);
                      then_ := then_ rule |}) (rules p).

(** [PolicyEngine(policy_dict=...)]; without an argument the default
    policy is used. *)
Definition new (policy_dict : option Policy) : result t :=
  let p := match policy_dict with Some p => p | None => _default_policy end in
  _ <- _validate_policy (defaults p) ;;
  Ok {| policy := p; compiled_rules := _compile_rules p |}.

(** The engine [PolicyEngine()] of the v2 endpoints. *)
Definition default : t :=
  {| policy := _default_policy; compiled_rules := _compile_rules _default_policy |}.

(** The walk along the dotted path of [_match_condition]: [None] stands
    for the early [return False]. *)
Fixpoint resolve (parts : list string) (actual_value : value) : option value :=
  match parts with
  | [] => Some actual_value
  | part :: rest =>
      match actual_value with
      | PDict d =>
          match get part d with
          | None | Some PNone => None
          | Some v => resolve rest v
          end
      | _ => None
      end
  end.

Definition _match_condition (condition_key : string) (condition_value : value)
    (context : dict) : bool :=
  match resolve (PyStr.split_on "." condition_key) (PDict context) with
  | None => false
  | Some actual_value =>
      match condition_value with
      | PList l => mem actual_value l
      | _ => eqb actual_value condition_value
      end
  end.

Definition _match_rule (rule : Rule) (context : dict) : bool :=
  forallb (fun kv => _match_condition (fst kv) (snd kv) context) (when rule).

(** [self.policy["defaults"][key] == "allow"] *)
Definition default_allows (pe : t) (key : string) : result bool :=
  match find (fun kv => String.eqb (fst kv) key) (defaults (policy pe)) with
  | Some kv => Ok (String.eqb (snd kv) "allow")
  | None => Raise "KeyError"
  end.

(** [context["memory"]] as [evaluate_ingest] builds it. *)
Definition ingest_memory_context (memory : MemoryObject.t) : value :=
  PDict
    [ ("type", PStr (MemoryType.value (MemoryObject.type memory)));
      ("truth_mode", PStr (TruthMode.value (MemoryObject.truth_mode memory)));
      ("state", PStr (MemoryState.value (MemoryObject.state memory)));
      ("sensitivity",
       PDict
         [ ("level", PStr (SensitivityLevel.value
                             (Sensitivity.level (MemoryObject.sensitivity memory))));
           ("categories", PList (map PStr (Sensitivity.categories
                                             (MemoryObject.sensitivity memory))));
           ("handling", PStr (SensitivityHandling.value
                                (Sensitivity.handling (MemoryObject.sensitivity memory)))) ]);
      ("ownership",
       PDict
         [ ("dispute_state", PStr (DisputeState.value
                                     (Ownership.dispute_state
                                        (MemoryObject.ownership memory)))) ]) ].

(** [context["memory"]] as [evaluate_query] builds it. *)
Definition query_memory_context (memory : MemoryObject.t) : value :=
  PDict
    [ ("type", PStr (MemoryType.value (MemoryObject.type memory)));
      ("truth_mode", PStr (TruthMode.value (MemoryObject.truth_mode memory)));
      ("state", PStr (MemoryState.value (MemoryObject.state memory)));
      ("sensitivity",
       PDict
         [ ("level", PStr (SensitivityLevel.value
                             (Sensitivity.level (MemoryObject.sensitivity memory))));
           ("categories", PList (map PStr (Sensitivity.categories
                                             (MemoryObject.sensitivity memory)))) ]);
      ("ownership",
       PDict
         [ ("dispute_state", PStr (DisputeState.value
                                     (Ownership.dispute_state
                                        (MemoryObject.ownership memory)))) ]) ].

Record IngestDecision : Type := {
  ingest_allowed : bool;
  ingest_state : MemoryState.t;
  derive_impacts : bool;
  derive_seeds : bool
}.

Record IngestResult : Type := {
  ingest_decision : IngestDecision;
  ingest_trace : PolicyTrace
}.

(** [MemoryState(then["set_state"])] *)
Definition memory_state_of (v : value) : result MemoryState.t :=
  match v with
  | PStr s =>
      match MemoryState.of_value s with
      | Some st => Ok st
      | None => Raise "ValueError"
      end
  | _ => Raise "ValueError"
  end.

(** [then[key] is True] and [then[key] is False] *)
Definition is_True (v : value) : bool := match v with PBool true => true | _ => false end.
Definition is_False (v : value) : bool := match v with PBool false => true | _ => false end.

(** The body of the loop over the rules in [evaluate_ingest]; the state is
    [(decision, matched_rules, denied_reasons)]. *)
Definition ingest_step (context : dict)
    (st : IngestDecision * list string * list string) (rule : Rule)
  : result (IngestDecision * list string * list string) :=
  let '(decision, matched_rules, denied_reasons) := st in
  if _match_rule rule context then
    let matched_rules := matched_rules +++ [id rule] in
    let then_ := then_ rule in
    state <- match get "set_state" then_ with
             | Some v => memory_state_of v
             | None => Ok (ingest_state decision)
             end ;;
    let derive_impacts :=
      match get "derive_impacts" then_ with
      | Some v => is_True v
      | None => derive_impacts decision
      end in
    let derive_seeds :=
      match get "derive_seeds" then_ with
      | Some v => is_True v
      | None => derive_seeds decision
      end in
    let denied_reasons :=
      match get "allow_read" then_ with
      | Some v => if is_False v
                  then denied_reasons +++ ["Rule " ++ id rule ++ ": read denied"]
                  else denied_reasons
      | None => denied_reasons
      end in
    Ok ({| ingest_allowed := ingest_allowed decision;
           ingest_state := state;
           derive_impacts := derive_impacts;
           derive_seeds := derive_seeds |},
        matched_rules, denied_reasons)
  else Ok st.

Definition evaluate_ingest (pe : t) (memory : MemoryObject.t) (context : dict)
  : result IngestResult :=
  let context := set "memory" (ingest_memory_context memory) context in
  allowed <- default_allows pe "write" ;;
  derive_impacts <- default_allows pe "derive_impacts" ;;
  derive_seeds <- default_allows pe "derive_seeds" ;;
  let decision := {| ingest_allowed := allowed;
                     ingest_state := MemoryObject.state memory;
                     derive_impacts := derive_impacts;
                     derive_seeds := derive_seeds |} in
  st <- for_each (ingest_step context) (compiled_rules pe) (decision, [], []) ;;
  let '(decision, matched_rules, denied_reasons) := st in
  Ok {| ingest_decision := decision;
        ingest_trace := {| trace_policy_version := policy_version (policy pe);
                           matched_rules := matched_rules;
                           denied_reasons := denied_reasons |} |}.

Record QueryDecision : Type := {
  allowed : bool;
  include_in_prompt : bool
}.

Record QueryResult : Type := {
  query_decision : QueryDecision;
  query_trace : PolicyTrace
}.

(** The body of the loop over the rules in [evaluate_query]; the state is
    [(matched_rules, allow_decisions, include_decisions)]. *)
Definition query_step (context : dict)
    (st : list string * list value * list value) (rule : Rule)
  : list string * list value * list value :=
  let '(matched_rules, allow_decisions, include_decisions) := st in
  if _match_rule rule context then
    let then_ := then_ rule in
    (matched_rules +++ [id rule],
     match get "allow_read" then_ with
     | Some v => allow_decisions +++ [v]
     | None => allow_decisions
     end,
     match get "include_in_prompt" then_ with
     | Some v => include_decisions +++ [v]
     | None => include_decisions
     end)
  else st.

Definition evaluate_query (pe : t) (memory : MemoryObject.t) (purpose : PurposeType.t)
    (context : dict) : result QueryResult :=
  let context := set "memory" (query_memory_context memory) context in
  let context := set "request" (PDict [("purpose", PStr (PurposeType.value purpose))])
                     context in
  default_read <- default_allows pe "read" ;;
  default_include <- default_allows pe "include_in_prompt" ;;
  let '(matched_rules, allow_decisions, include_decisions) :=
    fold_left (query_step context) (compiled_rules pe) ([], [], []) in
  let allowed :=
    match allow_decisions with
    | [] => default_read
    | _ => forallb truthy allow_decisions
    end in
  let denied_reasons :=
    match allow_decisions with
    | [] => []
    | _ => if allowed then [] else ["Rule denied read access"]
    end in
  let include_in_prompt :=
    match include_decisions with
    | [] => default_include
    | _ => forallb truthy include_decisions
    end in
  Ok {| query_decision := {| allowed := allowed; include_in_prompt := include_in_prompt |};
        query_trace := {| trace_policy_version := policy_version (policy pe);
                          matched_rules := matched_rules;
                          denied_reasons := denied_reasons |} |}.

Definition get_policy_version (pe : t) : string := policy_version (policy pe).

(** The policy declares the two defaults that [evaluate_query] reads. *)
Definition declares_read_defaults (pe : t) : Prop :=
  (exists b, default_allows pe "read" = Ok b)
  /\ (exists b, default_allows pe "include_in_prompt" = Ok b).

(** The context in which [evaluate_query] matches the rules. *)
Definition query_context (memory : MemoryObject.t) (purpose : PurposeType.t)
    (context : dict) : dict :=
  set "request" (PDict [("purpose", PStr (PurposeType.value purpose))])
      (set "memory" (query_memory_context memory) context).

Record ToolDecision : Type := {
  tool_allowed : bool;
  allowed_memory_ids : list string;
  denied_memory_ids : list string
}.

Record ToolResult : Type := {
  tool_decision : ToolDecision;
  tool_trace : PolicyTrace
}.

(** The body of the loop of [evaluate_tool_execution]; the state is
    [(allowed_memories, denied_memory_ids, denied_reasons)]. *)
Definition tool_step (purpose : PurposeType.t)
    (st : list MemoryObject.t * list string * list string) (memory : MemoryObject.t)
  : list MemoryObject.t * list string * list string :=
  let '(allowed_memories, denied_memory_ids, denied_reasons) := st in
  let memory_allowed :=
    match purpose with
    | PurposeType.TASK_EXECUTION =>
        match MemoryObject.truth_mode memory with
        | TruthMode.COUNTERFACTUAL | TruthMode.IMAGINED | TruthMode.SOCIALLY_SOURCED => false
        | _ => true
        end
    | _ => true
    end in
  if memory_allowed then (allowed_memories +++ [memory], denied_memory_ids, denied_reasons)
  else (allowed_memories,
        denied_memory_ids +++ [MemoryObject.id memory],
        denied_reasons +++
          ["Memory " ++ MemoryObject.id memory
           ++ ": nonfactual truth_mode cannot be used for tool execution"]).

Definition evaluate_tool_execution (pe : t) (memories : list MemoryObject.t)
    (purpose : PurposeType.t) : ToolResult :=
  let '(allowed_memories, denied_memory_ids, denied_reasons) :=
    fold_left (tool_step purpose) memories ([], [], []) in
  {| tool_decision :=
       {| tool_allowed := (0 <? List.length allowed_memories)%nat;
          allowed_memory_ids := map MemoryObject.id allowed_memories;
          denied_memory_ids := denied_memory_ids |};
     tool_trace := {| trace_policy_version := policy_version (policy pe);
                      matched_rules := [];
                      denied_reasons := denied_reasons |} |}.

(** [self.policy.get("globals", {}).get("spiral", {...})] *)
Definition get_spiral_config (pe : t) : value :=
  match get "spiral" (globals (policy pe)) with
  | Some v => v
  | None =>
      PDict [ ("enabled_default", PBool false);
              ("ttl_minutes", PInt 45);
              ("block_tool_execution", PBool true);
              ("block_reinforcement", PBool true);
              ("block_new_impacts", PBool true);
              ("raise_seed_activation_threshold_by", PFloat (15 # 100)) ]
  end.

End PolicyEngine.

(* ================================================================== *)
(** * app/models.py (v2 tables) and app/memoryscope/storage.py *)
(* ================================================================== *)

Module Storage.

Record MemoryV2 : Type := {
  id : string;
  tenant_id : string;
  scope_type : string;
  scope_id : string;
  type : string;
  truth_mode : string;
  state : string;
  sensitivity_level : string;
  sensitivity_categories : list string;
  dispute_state : string;
  occurred_at_observed : Z;
  occurred_at_claimed : option Z;
  strength_current : Q;
  last_reinforced_at : option Z;
  memory_object_json : MemoryObject.t;
  created_at : Z;
  updated_at : Z;
  app_id : string
}.

Record MemoryLinkV2 : Type := {
  link_id : string;
  parent_id : string;
  child_id : string;
  relationship : string;
  rule : string;
  strength_transfer : Q;
  link_created_at : Z
}.

Record AccessLogV2 : Type := {
  access_log_row_id : string;
  log_id : string;
  time : Z;
  log_tenant_id : string;
  caller_client_id : option string;
  caller_user_id : option string;
  caller_ip : option string;
  log_scope_type : string;
  log_scope_id : string;
  purpose : string;
  query_text : option string;
  query_op : option string;
  decision_allowed : bool;
  decision_returned_ids : list string;
  decision_denied_ids : list string;
  decision_matched_rules : list string;
  decision_explanation : string;
  access_log_json : AccessLogEntry.t
}.

(** The database session [db] of a request: the committed rows of the
    three v2 tables, the number of UUIDs drawn so far, and [outages], the
    outcomes of the coming commits and refreshes ([true]: the database is
    unreachable and the call raises; an empty list: every call reaches the
    database).
    A row that is added but not committed is dropped by the roll-back of
    the request, so only committed rows are kept here. *)
Record Session : Type := {
  memories_v2 : list MemoryV2;
  memory_links_v2 : list MemoryLinkV2;
  access_logs_v2 : list AccessLogV2;
  draws : nat;
  outages : list bool
}.

(** Code that reads and writes the session and may raise. *)
Definition M (A : Type) : Type := Session -> result A * Session.

Definition ret {A : Type} (a : A) : M A := fun db => (Ok a, db).

Definition raise {A : Type} (exn : string) : M A := fun db => (Raise exn, db).

Definition bindM {A B : Type} (m : M A) (k : A -> M B) : M B :=
  fun db =>
    match m db with
    | (Ok a, db') => k a db'
    | (Raise e, db') => (Raise e, db')
    end.

Notation "x <~ e ;; k" := (bindM e (fun x => k))
  (at level 61, e at next level, right associativity).

Definition lift {A : Type} (r : result A) : M A := fun db => (r, db).

Definition set_tables (db : Session) (ms : list MemoryV2) (ls : list MemoryLinkV2)
    (logs : list AccessLogV2) : Session :=
  {| memories_v2 := ms; memory_links_v2 := ls; access_logs_v2 := logs;
     draws := draws db; outages := outages db |}.

Definition set_draws (n : nat) (db : Session) : Session :=
  {| memories_v2 := memories_v2 db; memory_links_v2 := memory_links_v2 db;
     access_logs_v2 := access_logs_v2 db; draws := n; outages := outages db |}.

(** The next UUID. *)
Definition draw (rt : Runtime) : M string :=
  fun db => (Ok (uuid4_hex rt (draws db)), set_draws (S (draws db)) db).

(** [generate_memory_id()] and the like, drawing from the session. *)
Definition generate {A : Type} (gen : nat -> A * nat) : M A :=
  fun db => let '(x, n) := gen (draws db) in (Ok x, set_draws n db).

(** [db.commit()] of one pending change: it raises when the database is
    unreachable or when the change violates a key, and then nothing of the
    change is stored. *)
Definition commit (change : Session -> result Session) : M unit :=
  fun db =>
    let down := match outages db with b :: _ => b | [] => false end in
    let db1 := {| memories_v2 := memories_v2 db; memory_links_v2 := memory_links_v2 db;
                  access_logs_v2 := access_logs_v2 db; draws := draws db;
                  outages := tl (outages db) |} in
    if down then (Raise "OperationalError", db1)
    else match change db1 with
         | Ok db2 => (Ok tt, db2)
         | Raise e => (Raise e, db1)
         end.

(** [db.refresh(row)] after a commit: the row is read back from the
    database, which raises when the database is unreachable; what was
    committed stays committed. *)
Definition refresh : M unit :=
  fun db =>
    let down := match outages db with b :: _ => b | [] => false end in
    let db1 := {| memories_v2 := memories_v2 db; memory_links_v2 := memory_links_v2 db;
                  access_logs_v2 := access_logs_v2 db; draws := draws db;
                  outages := tl (outages db) |} in
    if down then (Raise "OperationalError", db1) else (Ok tt, db1).

(** A column declared [Numeric(3, 2)]: PostgreSQL rounds the number written
    to it to two decimals, a half away from zero, and refuses a number that
    then has more than one digit before the point.  [hundredths x] is the
    rounded number counted in hundredths. *)
Definition hundredths (x : Q) : Z :=
  let n := (Qnum x * 200)%Z in
  let d := Zpos (Qden x) in
  if (0 <=? n)%Z then ((n + d) / (2 * d))%Z else (- ((- n + d) / (2 * d)))%Z.

Definition numeric_3_2 (x : Q) : Q := hundredths x # 100.

Definition fits_numeric_3_2 (x : Q) : bool := (Z.abs (hundredths x) <? 1000)%Z.

(** The row as the table holds it: [strength_current] is a [Numeric(3, 2)]
    column and keeps two decimals of the strength, while the document in
    [memory_object_json] keeps the number itself. *)
Definition memory_object_to_db (now : Z) (memory : MemoryObject.t) (app_id : string)
  : MemoryV2 :=
  {| id := MemoryObject.id memory;
     tenant_id := MemoryObject.tenant_id memory;
     scope_type := ScopeType.value (Scope.scope_type (MemoryObject.scope memory));
     scope_id := Scope.scope_id (MemoryObject.scope memory);
     type := MemoryType.value (MemoryObject.type memory);
     truth_mode := TruthMode.value (MemoryObject.truth_mode memory);
     state := MemoryState.value (MemoryObject.state memory);
     sensitivity_level :=
       SensitivityLevel.value (Sensitivity.level (MemoryObject.sensitivity memory));
     sensitivity_categories := Sensitivity.categories (MemoryObject.sensitivity memory);
     dispute_state :=
       DisputeState.value (Ownership.dispute_state (MemoryObject.ownership memory));
     occurred_at_observed := Temporal.occurred_at_observed (MemoryObject.temporal memory);
     occurred_at_claimed := Temporal.occurred_at_claimed (MemoryObject.temporal memory);
     strength_current := numeric_3_2 (Strength.current (MemoryObject.strength memory));
     last_reinforced_at := Strength.last_reinforced_at (MemoryObject.strength memory);
     memory_object_json := memory;
     created_at := now;
     updated_at := now;
     app_id := app_id |}.

(** The object rebuilt from [db_memory.memory_object_json]: the stored
    document is the object that was dumped. *)
Definition db_to_memory_object (db_memory : MemoryV2) : MemoryObject.t :=
  memory_object_json db_memory.

(** The insert of a row of [memories_v2], whose [id] is the primary key. *)
Definition insert_memory (row : MemoryV2) (db : Session) : result Session :=
  if existsb (fun r => String.eqb (id r) (id row)) (memories_v2 db)
  then Raise "IntegrityError"
  else Ok (set_tables db (memories_v2 db +++ [row]) (memory_links_v2 db) (access_logs_v2 db)).

(** [store_memory]: the insert is committed, and the row is then read back.
    The commit raises when the strength does not fit its column; a
    [refresh] that raises leaves the committed row in the table. *)
Definition store_memory (now : Z) (memory : MemoryObject.t) (app_id : string) : M MemoryV2 :=
  let db_memory := memory_object_to_db now memory app_id in
  _ <~ commit (fun db =>
         if fits_numeric_3_2 (Strength.current (MemoryObject.strength memory))
         then insert_memory db_memory db
         else Raise "DataError") ;;
  _ <~ refresh ;;
  ret db_memory.

(** The identifiers of the stored memory objects. *)
Definition object_ids (db : Session) : list string :=
  map (fun r => MemoryObject.id (memory_object_json r)) (memories_v2 db).

Definition get_memory (db : Session) (memory_id tenant_id : string)
  : option MemoryObject.t :=
  option_map db_to_memory_object
    (find (fun r => String.eqb (id r) memory_id && String.eqb (Storage.tenant_id r) tenant_id)
          (memories_v2 db)).

(** The row [r] holding another document. *)
Definition with_object (o : MemoryObject.t) (r : MemoryV2) : MemoryV2 :=
  {| id := id r; tenant_id := tenant_id r; scope_type := scope_type r;
     scope_id := scope_id r; type := type r; truth_mode := truth_mode r;
     state := state r; sensitivity_level := sensitivity_level r;
     sensitivity_categories := sensitivity_categories r;
     dispute_state := dispute_state r;
     occurred_at_observed := occurred_at_observed r;
     occurred_at_claimed := occurred_at_claimed r;
     strength_current := strength_current r;
     last_reinforced_at := last_reinforced_at r;
     memory_object_json := o;
     created_at := created_at r; updated_at := updated_at r; app_id := app_id r |}.

Definition row_variant (r r' : MemoryV2) : Prop :=
  exists o', MemoryObject.sealed_variant (memory_object_json r) o' /\ r' = with_object o' r.

(** Two sessions that hold the same rows, but for the narrative of sealed
    memories. *)
Definition same_but_sealed_content (db db' : Session) : Prop :=
  Forall2 row_variant (memories_v2 db) (memories_v2 db')
  /\ memory_links_v2 db' = memory_links_v2 db
  /\ access_logs_v2 db' = access_logs_v2 db.

(** The filters that [query_memories] understands. *)
Record Filters : Type := {
  filter_state : option (list string);
  filter_type : option (list string);
  filter_truth_mode : option (list string);
  exclude_sealed : bool;
  exclude_disputed : bool;
  min_strength : option Q
}.

Definition no_filters : Filters :=
  {| filter_state := None; filter_type := None; filter_truth_mode := None;
     exclude_sealed := false; exclude_disputed := false; min_strength := None |}.

Definition one_of (x : string) (allowed : option (list string)) : bool :=
  match allowed with
  | Some l => existsb (String.eqb x) l
  | None => true
  end.

Definition row_passes (filters : Filters) (r : MemoryV2) : bool :=
  one_of (state r) (filter_state filters)
  && one_of (type r) (filter_type filters)
  && one_of (truth_mode r) (filter_truth_mode filters)
  && (if exclude_sealed filters
      then negb (String.eqb (state r) (MemoryState.value MemoryState.SEALED)) else true)
  && (if exclude_disputed filters
      then negb (existsb (String.eqb (dispute_state r))
                   [DisputeState.value DisputeState.DISPUTED;
                    DisputeState.value DisputeState.CONTESTED])
      else true)
  && (match min_strength filters with
      | Some q => Qle_bool q (strength_current r)
      | None => true
      end).

(** The [ILIKE] conditions of the text search, one for each term of more
    than two characters. *)
Definition text_conditions (query_text : option string) : list string :=
  match query_text with
  | Some t =>
      if PyStr.nonempty t then
        map (fun term => "%" ++ term ++ "%")
            (filter (fun term => (2 <? String.length term)%nat)
                    (PyStr.split_ws (PyStr.lower t)))
      else []
  | None => []
  end.

Definition text_passes (rt : Runtime) (conditions : list string) (r : MemoryV2) : bool :=
  match conditions with
  | [] => true
  | _ => existsb (ilike rt (Content.text (MemoryObject.content (memory_object_json r))))
                 conditions
  end.

(** [order_by(MemoryV2.occurred_at_observed.desc())]; rows with equal
    time stamps keep the order of the table. *)
Definition occurred_desc (a b : MemoryV2) : bool :=
  Z.leb (occurred_at_observed b) (occurred_at_observed a).

Definition query_memories (rt : Runtime) (db : Session) (tenant_id : string)
    (scope : Scope.t) (filters : Filters) (limit : nat) (query_text : option string)
  : list MemoryObject.t :=
  let rows :=
    filter (fun r => String.eqb (Storage.tenant_id r) tenant_id
                     && String.eqb (scope_type r) (ScopeType.value (Scope.scope_type scope))
                     && String.eqb (scope_id r) (Scope.scope_id scope))
           (memories_v2 db) in
  let rows := filter (row_passes filters) rows in
  let rows := filter (text_passes rt (text_conditions query_text)) rows in
  let rows := sorted occurred_desc rows in
  map db_to_memory_object (firstn limit rows).

(** The update of [update_memory_state] on the row it found. *)
Definition set_row_state (now : Z) (new_state : MemoryState.t) (r : MemoryV2) : MemoryV2 :=
  {| id := id r; tenant_id := tenant_id r; scope_type := scope_type r;
     scope_id := scope_id r; type := type r; truth_mode := truth_mode r;
     state := MemoryState.value new_state;
     sensitivity_level := sensitivity_level r;
     sensitivity_categories := sensitivity_categories r;
     dispute_state := dispute_state r;
     occurred_at_observed := occurred_at_observed r;
     occurred_at_claimed := occurred_at_claimed r;
     strength_current := strength_current r;
     last_reinforced_at := last_reinforced_at r;
     memory_object_json := MemoryObject.set_state new_state (db_to_memory_object r);
     created_at := created_at r;
     updated_at := now;
     app_id := app_id r |}.

Fixpoint update_first {A : Type} (p : A -> bool) (f : A -> A) (l : list A) : list A :=
  match l with
  | [] => []
  | x :: rest => if p x then f x :: rest else x :: update_first p f rest
  end.

Definition update_memory_state (now : Z) (memory_id tenant_id : string)
    (new_state : MemoryState.t) : M (option MemoryObject.t) :=
  fun db =>
    let found r := String.eqb (id r) memory_id && String.eqb (Storage.tenant_id r) tenant_id in
    match find found (memories_v2 db) with
    | None => (Ok None, db)
    | Some _ =>
        (_ <~ commit (fun db1 =>
                Ok (set_tables db1
                      (update_first found (set_row_state now new_state) (memories_v2 db1))
                      (memory_links_v2 db1) (access_logs_v2 db1))) ;;
         _ <~ refresh ;;
         fun db2 => (Ok (get_memory db2 memory_id tenant_id), db2)) db
    end.

Definition store_access_log (rt : Runtime) (access_log : AccessLogEntry.t) : M AccessLogV2 :=
  row_id <~ draw rt ;;
  let db_log :=
    {| access_log_row_id := uuid_str row_id;
       log_id := AccessLogEntry.log_id access_log;
       time := AccessLogEntry.time access_log;
       log_tenant_id := AccessLogEntry.tenant_id access_log;
       caller_client_id := Caller.client_id (AccessLogEntry.caller access_log);
       caller_user_id := Caller.user_id (AccessLogEntry.caller access_log);
       caller_ip := Caller.ip (AccessLogEntry.caller access_log);
       log_scope_type := ScopeType.value (Scope.scope_type (AccessLogEntry.scope access_log));
       log_scope_id := Scope.scope_id (AccessLogEntry.scope access_log);
       purpose := PurposeType.value (AccessLogEntry.purpose access_log);
       query_text := match AccessLogEntry.query access_log with
                     | Some q => Query.text q
                     | None => None
                     end;
       query_op := option_map Query.op (AccessLogEntry.query access_log);
       decision_allowed := Decision.allowed (AccessLogEntry.decision access_log);
       decision_returned_ids := Decision.returned_ids (AccessLogEntry.decision access_log);
       decision_denied_ids := Decision.denied_ids (AccessLogEntry.decision access_log);
       decision_matched_rules := Decision.matched_rules (AccessLogEntry.decision access_log);
       decision_explanation := Decision.explanation (AccessLogEntry.decision access_log);
       access_log_json := access_log |} in
  _ <~ commit (fun db =>
         if existsb (fun l => String.eqb (log_id l) (log_id db_log)) (access_logs_v2 db)
         then Raise "IntegrityError"
         else Ok (set_tables db (memories_v2 db) (memory_links_v2 db)
                    (access_logs_v2 db +++ [db_log]))) ;;
  _ <~ refresh ;;
  ret db_log.

Definition store_memory_link (rt : Runtime) (link : DerivedObjectLink.t) : M MemoryLinkV2 :=
  row_id <~ draw rt ;;
  let db_link :=
    {| link_id := uuid_str row_id;
       parent_id := DerivedObjectLink.parent_id link;
       child_id := DerivedObjectLink.child_id link;
       relationship := DerivedObjectLink.relationship link;
       rule := DerivedObjectLink.rule link;
       strength_transfer := numeric_3_2 (DerivedObjectLink.strength_transfer link);
       link_created_at := DerivedObjectLink.created_at link |} in
  _ <~ commit (fun db =>
         if fits_numeric_3_2 (DerivedObjectLink.strength_transfer link)
         then Ok (set_tables db (memories_v2 db) (memory_links_v2 db +++ [db_link])
                    (access_logs_v2 db))
         else Raise "DataError") ;;
  _ <~ refresh ;;
  ret db_link.

(** The update of [reinforce_memory] on the row it found: the document
    keeps the new strength, the [Numeric(3, 2)] column two decimals of it. *)
Definition set_row_strength (now : Z) (new_strength : Q) (r : MemoryV2) : MemoryV2 :=
  {| id := id r; tenant_id := tenant_id r; scope_type := scope_type r;
     scope_id := scope_id r; type := type r; truth_mode := truth_mode r;
     state := state r;
     sensitivity_level := sensitivity_level r;
     sensitivity_categories := sensitivity_categories r;
     dispute_state := dispute_state r;
     occurred_at_observed := occurred_at_observed r;
     occurred_at_claimed := occurred_at_claimed r;
     strength_current := numeric_3_2 new_strength;
     last_reinforced_at := Some now;
     memory_object_json := MemoryObject.reinforce new_strength now (db_to_memory_object r);
     created_at := created_at r;
     updated_at := now;
     app_id := app_id r |}.

(** [min(1.0, x)] *)
Definition min_one (x : Q) : Q := if Qle_bool 1 x then 1 else x.

(** [reinforce_memory].  A [strength_delta] of [None] makes the sum raise;
    the commit raises when the new strength does not fit its column; the
    object read back after the commit and the refresh is validated again,
    and its strength must then lie between 0 and 1. *)
Definition reinforce_memory (now : Z) (memory_id tenant_id : string)
    (strength_delta : option Q) : M (option MemoryObject.t) :=
  fun db =>
    let found r := String.eqb (id r) memory_id && String.eqb (Storage.tenant_id r) tenant_id in
    match find found (memories_v2 db) with
    | None => (Ok None, db)
    | Some db_memory =>
        match strength_delta with
        | None => (Raise "TypeError", db)
        | Some delta =>
            let memory_obj := db_to_memory_object db_memory in
            let new_strength :=
              min_one (Strength.current (MemoryObject.strength memory_obj) + delta) in
            (_ <~ commit (fun db1 =>
                    if fits_numeric_3_2 new_strength
                    then Ok (set_tables db1
                               (update_first found (set_row_strength now new_strength)
                                  (memories_v2 db1))
                               (memory_links_v2 db1) (access_logs_v2 db1))
                    else Raise "DataError") ;;
             _ <~ refresh ;;
             fun db2 =>
               (if Qle_bool 0 new_strength
                then Ok (get_memory db2 memory_id tenant_id)
                else Raise "ValidationError", db2)) db
        end
    end.

(** The indexed columns of a row that are copies of fields of the document
    agree with the document it holds ([strength_current] is not a copy: it
    is rounded). *)
Definition indexed (r : MemoryV2) : Prop :=
  let m := memory_object_json r in
  id r = MemoryObject.id m
  /\ tenant_id r = MemoryObject.tenant_id m
  /\ scope_type r = ScopeType.value (Scope.scope_type (MemoryObject.scope m))
  /\ scope_id r = Scope.scope_id (MemoryObject.scope m)
  /\ type r = MemoryType.value (MemoryObject.type m)
  /\ truth_mode r = TruthMode.value (MemoryObject.truth_mode m)
  /\ state r = MemoryState.value (MemoryObject.state m)
  /\ sensitivity_level r
     = SensitivityLevel.value (Sensitivity.level (MemoryObject.sensitivity m))
  /\ dispute_state r
     = DisputeState.value (Ownership.dispute_state (MemoryObject.ownership m)).

(** The table of memories is well formed: the columns agree with the
    documents and the primary key is unique. *)
Definition consistent (db : Session) : Prop :=
  Forall indexed (memories_v2 db) /\ NoDup (map id (memories_v2 db)).

(** What becomes of the rows of [db] in [db']: every row is still there
    under its id and tenant, with the type, the truth mode and the
    narrative it had, and sealed if it was sealed. *)
Definition persists (db db' : Session) : Prop :=
  forall r, In r (memories_v2 db) ->
    exists r', In r' (memories_v2 db')
               /\ id r' = id r /\ tenant_id r' = tenant_id r
               /\ MemoryObject.type (memory_object_json r')
                  = MemoryObject.type (memory_object_json r)
               /\ MemoryObject.truth_mode (memory_object_json r')
                  = MemoryObject.truth_mode (memory_object_json r)
               /\ MemoryObject.content (memory_object_json r')
                  = MemoryObject.content (memory_object_json r)
               /\ (state r = MemoryState.value MemoryState.SEALED ->
                   state r' = MemoryState.value MemoryState.SEALED).

(** A computation on the session under which the rows persist. *)
Definition advances {A : Type} (m : M A) : Prop :=
  forall db, persists db (snd (m db)).

(** A computation on the session that keeps the store well formed. *)
Definition keeps {A : Type} (m : M A) : Prop :=
  forall db, consistent db -> consistent (snd (m db)).

End Storage.

(* ================================================================== *)
(** * app/memoryscope/retrieval.py *)
(* ================================================================== *)

Module Retrieval.
Import Py.

(** An entry [{"id": ..., "cues": ...}] of [seeds]. *)
Record Seed : Type := {
  seed_id : string;
  cues : list string
}.

Record Result : Type := {
  memory_ids : list string;
  impacts : list dict;
  seeds : list Seed;
  events : list string;
  denied_ids : list string
}.

Definition purpose_filters (purpose : PurposeType.t) : Storage.Filters :=
  match purpose with
  | PurposeType.CHAT_RESPONSE | PurposeType.TASK_EXECUTION =>
      {| Storage.filter_state := None; Storage.filter_type := None;
         Storage.filter_truth_mode := None;
         Storage.exclude_sealed := true; Storage.exclude_disputed := true;
         Storage.min_strength := None |}
  | _ => Storage.no_filters
  end.

(** [memory.truth_mode in [COUNTERFACTUAL, IMAGINED, SOCIALLY_SOURCED]] *)
Definition nonfactual (tm : TruthMode.t) : bool :=
  match tm with
  | TruthMode.COUNTERFACTUAL | TruthMode.IMAGINED | TruthMode.SOCIALLY_SOURCED => true
  | _ => false
  end.

(** The lists that the loop over the fetched memories fills. *)
Record Acc : Type := {
  allowed_memories : list MemoryObject.t;
  acc_denied_ids : list string;
  acc_impacts : list dict;
  acc_seeds : list Seed;
  acc_events : list string
}.

(** The body of [for memory in all_memories]. *)
Definition categorize (pe : PolicyEngine.t) (purpose : PurposeType.t)
    (acc : Acc) (memory : MemoryObject.t) : result Acc :=
  policy_result <- PolicyEngine.evaluate_query pe memory purpose [] ;;
  if negb (PolicyEngine.allowed (PolicyEngine.query_decision policy_result)) then
    Ok {| allowed_memories := allowed_memories acc;
          acc_denied_ids := acc_denied_ids acc +++ [MemoryObject.id memory];
          acc_impacts := acc_impacts acc;
          acc_seeds := acc_seeds acc;
          acc_events := acc_events acc |}
  else
    let allowed := allowed_memories acc +++ [memory] in
    match MemoryObject.type memory with
    | MemoryType.IMPACT =>
        Ok {| allowed_memories := allowed;
              acc_denied_ids := acc_denied_ids acc;
              acc_impacts :=
                match MemoryObject.impact_payload memory with
                | Some payload => acc_impacts acc +++ ImpactPayload.constraints payload
                | None => acc_impacts acc
                end;
              acc_seeds := acc_seeds acc;
              acc_events := acc_events acc |}
    | MemoryType.SEED =>
        Ok {| allowed_memories := allowed;
              acc_denied_ids := acc_denied_ids acc;
              acc_impacts := acc_impacts acc;
              acc_seeds :=
                acc_seeds acc +++
                [ {| seed_id := MemoryObject.id memory;
                     cues := match MemoryObject.seed_payload memory with
                             | Some payload => SeedPayload.cues payload
                             | None => []
                             end |} ];
              acc_events := acc_events acc |}
    | MemoryType.EVENT =>
        Ok {| allowed_memories := allowed;
              acc_denied_ids := acc_denied_ids acc;
              acc_impacts := acc_impacts acc;
              acc_seeds := acc_seeds acc;
              acc_events :=
                if MemoryState.eqb (MemoryObject.state memory) MemoryState.SEALED
                then acc_events acc
                else acc_events acc +++ [MemoryObject.id memory] |}
    end.

(** The second loop, for [task_execution]: the state is
    [(task_allowed, denied_ids)]. *)
Definition task_step (st : list MemoryObject.t * list string) (memory : MemoryObject.t)
  : list MemoryObject.t * list string :=
  let '(task_allowed, denied_ids) := st in
  if nonfactual (MemoryObject.truth_mode memory)
  then (task_allowed, denied_ids +++ [MemoryObject.id memory])
  else (task_allowed +++ [memory], denied_ids).

(** [retrieve_for_purpose] once [all_memories] are fetched. *)
Definition apply_policy (pe : PolicyEngine.t) (purpose : PurposeType.t)
    (all_memories : list MemoryObject.t) : result Result :=
  acc <- for_each (categorize pe purpose) all_memories
           {| allowed_memories := []; acc_denied_ids := []; acc_impacts := [];
              acc_seeds := []; acc_events := [] |} ;;
  let '(allowed, denied) :=
    match purpose with
    | PurposeType.TASK_EXECUTION =>
        fold_left task_step (allowed_memories acc) ([], acc_denied_ids acc)
    | _ => (allowed_memories acc, acc_denied_ids acc)
    end in
  Ok {| memory_ids := map MemoryObject.id allowed;
        impacts := acc_impacts acc;
        seeds := acc_seeds acc;
        events := acc_events acc;
        denied_ids := denied |}.

Definition retrieve_for_purpose (rt : Runtime) (pe : PolicyEngine.t) (db : Storage.Session)
    (tenant_id : string) (scope : Scope.t) (purpose : PurposeType.t)
    (query_text : option string) (limit : nat) : result Result :=
  let filters := purpose_filters purpose in
  let all_memories :=
    Storage.query_memories rt db tenant_id scope filters (limit * 2) query_text in
  apply_policy pe purpose all_memories.

(** Two states of the loop that agree but for the narrative of the sealed
    memories they hold. *)
Definition acc_alike (a a' : Acc) : Prop :=
  Forall2 MemoryObject.sealed_variant (allowed_memories a) (allowed_memories a')
  /\ acc_denied_ids a' = acc_denied_ids a
  /\ acc_impacts a' = acc_impacts a
  /\ acc_seeds a' = acc_seeds a
  /\ acc_events a' = acc_events a.

Definition outcome_alike (r r' : result Acc) : Prop :=
  match r, r' with
  | Ok a, Ok a' => acc_alike a a'
  | Raise e, Raise e' => e' = e
  | _, _ => False
  end.

End Retrieval.

(* ================================================================== *)
(** * app/memoryscope/impact_extraction.py *)
(* ================================================================== *)

Module ImpactExtraction.
Import Py PyStr.

Record ImpactExtractor : Type := {
  transform_version : string
}.

(** [ImpactExtractor()] *)
Definition default_extractor : ImpactExtractor :=
  {| transform_version := "tx_impact_extract_v2.1.0" |}.

(** Code that draws identifiers: the state is the number of UUIDs drawn. *)
Definition Gen (A : Type) : Type := nat -> A * nat.

Definition optional_str (x : option string) : value :=
  match x with Some s => PStr s | None => PNone end.

(** The fields shared by the four kinds of constraint. *)
Definition constraint_dict (rt : Runtime) (now : Z) (self : ImpactExtractor)
    (event : MemoryObject.t) (constraint_id : string)
    (kind : ConstraintKind.t) (topic rule : string) (params : dict)
    (weight : Q) (priority : Z) (confidence : Q)
    (slot : string) (strategy : MergeStrategy.t) : dict :=
  [ ("constraint_id", PStr constraint_id);
    ("kind", PStr (ConstraintKind.value kind));
    ("topic", PStr topic);
    ("target", PStr (ConstraintTarget.value ConstraintTarget.RESPONSE));
    ("rule", PStr rule);
    ("params", PDict params);
    ("weight", PFloat weight);
    ("priority", PInt priority);
    ("confidence", PFloat confidence);
    ("created_at", PStr (isoformat rt now ++ "Z"));
    ("expires_at", PNone);
    ("source_refs", PList [PStr (MemoryObject.id event)]);
    ("provenance",
     PDict [ ("transform_id", PStr (transform_version self));
             ("policy_version",
              optional_str (Provenance.policy_version (MemoryObject.provenance event))) ]);
    ("merge",
     PDict [ ("slot", PStr slot);
             ("strategy", PStr (MergeStrategy.value strategy));
             ("tie_breakers", PList [PStr "priority"; PStr "created_at"]) ]) ].

Definition _create_safety_constraint (rt : Runtime) (now : Z) (self : ImpactExtractor)
    (event : MemoryObject.t) (mode : string) (consent_required : bool) : Gen dict :=
  fun n =>
    let '(cid, n') := generate_constraint_id rt n in
    (constraint_dict rt now self event cid ConstraintKind.SAFETY "safety"
       "safety_extraction_v2"
       [ ("mode", PStr mode); ("consent_required", PBool consent_required) ]
       1 10 (8 # 10) "safety" MergeStrategy.INTERSECTION, n').

Definition _create_avoid_constraint (rt : Runtime) (now : Z) (self : ImpactExtractor)
    (event : MemoryObject.t) (content_class : string) : Gen dict :=
  fun n =>
    let '(cid, n') := generate_constraint_id rt n in
    (constraint_dict rt now self event cid ConstraintKind.AVOID "content"
       "avoid_extraction_v2"
       [ ("content_class", PStr content_class) ]
       (9 # 10) 8 (75 # 100) "avoid" MergeStrategy.INTERSECTION, n').

Definition _create_tone_constraint (rt : Runtime) (now : Z) (self : ImpactExtractor)
    (event : MemoryObject.t) (tone_profile : string) : Gen dict :=
  fun n =>
    let '(cid, n') := generate_constraint_id rt n in
    (constraint_dict rt now self event cid ConstraintKind.TONE "tone"
       "tone_extraction_v2"
       [ ("tone_profile", PStr tone_profile) ]
       (7 # 10) 5 (7 # 10) "tone" MergeStrategy.LATEST_WINS, n').

Definition _create_style_constraint (rt : Runtime) (now : Z) (self : ImpactExtractor)
    (event : MemoryObject.t) (format : string) : Gen dict :=
  fun n =>
    let '(cid, n') := generate_constraint_id rt n in
    (constraint_dict rt now self event cid ConstraintKind.STYLE "style"
       "style_extraction_v2"
       [ ("format", PStr format) ]
       (6 # 10) 4 (65 # 100) "style" MergeStrategy.UNION, n').

Definition _detect_tone_preference (text : string) : option string :=
  let text_lower := lower text in
  if any_in ["gentle"; "soft"; "kind"; "caring"] text_lower then Some "reassuring"
  else if any_in ["direct"; "straightforward"; "clear"] text_lower then Some "matter_of_fact"
  else if any_in ["supportive"; "helpful"; "encouraging"] text_lower then Some "supportive"
  else if any_in ["firm"; "strict"; "serious"] text_lower then Some "firm"
  else None.

Definition _detect_style_preference (text : string) : option string :=
  let text_lower := lower text in
  if search_bullet text || str_in "bullet" text_lower then Some "bullets"
  else if search_numbered text || str_in "numbered" text_lower then Some "numbered_steps"
  else if (3 <? S (count_pairs newline newline text false))%nat
          || str_in "paragraph" text_lower
  then Some "short_paragraphs"
  else None.

(** [x in event.sensitivity.categories] *)
Definition has_category (x : string) (event : MemoryObject.t) : bool :=
  existsb (String.eqb x) (Sensitivity.categories (MemoryObject.sensitivity event)).

(** The constraints that [extract_impacts] collects, in the order in which
    it appends them. *)
Definition collect_constraints (rt : Runtime) (now : Z) (self : ImpactExtractor)
    (event : MemoryObject.t) : Gen (list dict) :=
  fun n0 =>
    let high :=
      match Sensitivity.level (MemoryObject.sensitivity event) with
      | SensitivityLevel.HIGH | SensitivityLevel.CRITICAL => true
      | _ => false
      end in
    let '(c1, n1) :=
      if high && has_category "trauma" event then
        let '(c, n) := _create_safety_constraint rt now self event
                         "supportive_reframe_only" true n0 in ([c], n)
      else ([], n0) in
    let '(c2, n2) :=
      if high && (has_category "shame" event || has_category "moral_injury" event) then
        let '(a, n) := _create_avoid_constraint rt now self event "judgment_language" n1 in
        let '(t, n') := _create_tone_constraint rt now self event "non_judgmental" n in
        ([a; t], n')
      else ([], n1) in
    match MemoryObject.type event with
    | MemoryType.EVENT =>
        let content_text :=
          match Content.text (MemoryObject.content event) with
          | Some t => t
          | None => EmptyString
          end in
        let '(c3, n3) :=
          match _detect_tone_preference content_text with
          | Some tone =>
              let '(c, n) := _create_tone_constraint rt now self event tone n2 in ([c], n)
          | None => ([], n2)
          end in
        let '(c4, n4) :=
          match _detect_style_preference content_text with
          | Some style =>
              let '(c, n) := _create_style_constraint rt now self event style n3 in ([c], n)
          | None => ([], n3)
          end in
        (c1 +++ c2 +++ c3 +++ c4, n4)
    | _ => (c1 +++ c2, n2)
    end.

Definition extract_impacts (rt : Runtime) (now : Z) (self : ImpactExtractor)
    (event : MemoryObject.t) (policy_allows : bool) : Gen (option MemoryObject.t) :=
  fun n0 =>
    if negb policy_allows then (None, n0)
    else if MemoryState.eqb (MemoryObject.state event) MemoryState.SEALED then (None, n0)
    else
      let '(constraints, n1) := collect_constraints rt now self event n0 in
      match constraints with
      | [] => (None, n1)
      | _ =>
          let '(impact_id, n2) := generate_memory_id rt n1 in
          let impact_memory :=
            MemoryObject.validate
              {| MemoryObject.id := impact_id;
                 MemoryObject.tenant_id := MemoryObject.tenant_id event;
                 MemoryObject.scope := MemoryObject.scope event;
                 MemoryObject.type := MemoryType.IMPACT;
                 MemoryObject.truth_mode := TruthMode.PROCEDURAL;
                 MemoryObject.state := MemoryState.ACTIVE;
                 MemoryObject.sensitivity := MemoryObject.sensitivity event;
                 MemoryObject.ownership := MemoryObject.ownership event;
                 MemoryObject.temporal := MemoryObject.temporal event;
                 MemoryObject.content := MemoryObject.content event;
                 MemoryObject.affect := MemoryObject.affect event;
                 MemoryObject.impact_payload :=
                   Some {| ImpactPayload.constraints := constraints |};
                 MemoryObject.seed_payload := None;
                 MemoryObject.procedural_payload := None;
                 MemoryObject.somatic_payload := None;
                 MemoryObject.strength := MemoryObject.strength event;
                 MemoryObject.provenance :=
                   {| Provenance.source := SourceType.SYSTEM;
                      Provenance.surface := None;
                      Provenance.conversation_id := None;
                      Provenance.derived_from := [MemoryObject.id event];
                      Provenance.transform_chain :=
                        [ {| TransformEntry.transform_id := transform_version self;
                             TransformEntry.version :=
                               match after_last "_v" (transform_version self) with
                               | Some v => v
                               | None => "2.1.0"
                               end;
                             TransformEntry.run_id := "run_" ++ isoformat rt now |} ];
                      Provenance.policy_version :=
                        Provenance.policy_version (MemoryObject.provenance event);
                      Provenance.confidence := 7 # 10 |};
                 MemoryObject.history := [];
                 MemoryObject.reconsolidation_policy := ReconsolidationPolicy.APPEND_ONLY;
                 MemoryObject.reconsolidation_trace := [] |} in
          (Some impact_memory, n2)
      end.

Definition extract_and_store_impact (rt : Runtime) (now : Z) (event : MemoryObject.t)
    (app_id : string) (extractor : ImpactExtractor) (policy_allows : bool)
  : Storage.M (option MemoryObject.t) :=
  Storage.bindM
    (Storage.generate (extract_impacts rt now extractor event policy_allows))
    (fun impact =>
       match impact with
       | None => Storage.ret None
       | Some impact =>
           Storage.bindM (Storage.store_memory now impact app_id) (fun _ =>
           let link :=
             {| DerivedObjectLink.parent_id := MemoryObject.id event;
                DerivedObjectLink.child_id := MemoryObject.id impact;
                DerivedObjectLink.relationship := "derived_impact";
                DerivedObjectLink.rule := transform_version extractor;
                DerivedObjectLink.strength_transfer := 4 # 10;
                DerivedObjectLink.created_at := now |} in
           Storage.bindM (Storage.store_memory_link rt link) (fun _ =>
           Storage.ret (Some impact)))
       end).

(** [cs] holds a constraint of the given kind with exactly these params. *)
Definition emits (cs : list dict) (kind : string) (params : dict) : Prop :=
  exists c, In c cs
            /\ get "kind" c = Some (PStr kind)
            /\ get "params" c = Some (PDict params).

End ImpactExtraction.

(* ================================================================== *)
(** * app/memoryscope/reconstruction.py *)
(* ================================================================== *)

Module Reconstruction.
Import PrimFloat.
Import Py PyStr.

Record Sources : Type := {
  source_impacts : list value;
  source_seeds : list string;
  source_events : list string
}.

Record Result : Type := {
  reconstructed_context : string;
  confidence : PrimFloat.float;
  sources : Sources
}.

(** [constraint.get("kind", "unknown")] *)
Definition kind_of (constraint : dict) : value :=
  match get "kind" constraint with Some v => v | None => PStr "unknown" end.

(** [c.get("params", {})] *)
Definition params_of (c : dict) : value :=
  match get "params" c with Some v => v | None => PDict [] end.

(** [constraints_by_kind.get(kind)]: the constraints filed under [kind].
    Filing a constraint hashes its kind, which raises for a kind that is a
    list or a dictionary. *)
Definition group_by_kind (constraints : list dict) : result (string -> list dict) :=
  if forallb (fun c => hashable (kind_of c)) constraints
  then Ok (fun kind => filter (fun c => eqb (kind_of c) (PStr kind)) constraints)
  else Raise "TypeError".

(** [key in params] *)
Definition contains (key : string) (params : value) : result bool :=
  match params with
  | PDict d => Ok (has_key key d)
  | PStr s => Ok (str_in key s)
  | PList l => Ok (mem (PStr key) l)
  | _ => Raise "TypeError"
  end.

(** [params[key]] *)
Definition getitem (params : value) (key : string) : result value :=
  match params with
  | PDict d => match get key d with Some v => Ok v | None => Raise "KeyError" end
  | _ => Raise "TypeError"
  end.

(** [', '.join(items)] *)
Definition join_items (items : list value) : result string :=
  if forallb is_str items
  then Ok (join ", " (flat_map (fun v => match v with PStr s => [s] | _ => [] end) items))
  else Raise "TypeError".

(** [if items: context_parts.append(f"{label}: {', '.join(items)}")] *)
Definition add_line (label : string) (items : list value) (context_parts : list string)
  : result (list string) :=
  match items with
  | [] => Ok context_parts
  | _ => line <- join_items items ;; Ok (context_parts +++ [label ++ ": " ++ line])
  end.

(** [for c in group: if key in params: items.append(params[key])] *)
Definition collect_param (key : string) (group : list dict) : result (list value) :=
  for_each (fun items c =>
              let params := params_of c in
              present <- contains key params ;;
              if present then v <- getitem params key ;; Ok (items +++ [v])
              else Ok items) group [].

Definition collect_avoid (group : list dict) : result (list value) :=
  for_each (fun items c =>
              let params := params_of c in
              has_class <- contains "content_class" params ;;
              items <- (if has_class
                        then v <- getitem params "content_class" ;; Ok (items +++ [v])
                        else Ok items) ;;
              has_phrases <- contains "phrase_ids" params ;;
              if has_phrases
              then v <- getitem params "phrase_ids" ;; vs <- iter v ;; Ok (items +++ vs)
              else Ok items) group [].

(** [f"{v}"] *)
Definition format_value (rt : Runtime) (v : value) : string :=
  match v with PStr s => s | _ => py_repr rt v end.

Definition collect_prefer (rt : Runtime) (group : list dict) : result (list value) :=
  for_each (fun items c =>
              let params := params_of c in
              has_attribute <- contains "attribute" params ;;
              if has_attribute then
                has_value <- contains "value" params ;;
                if has_value then
                  a <- getitem params "attribute" ;;
                  v <- getitem params "value" ;;
                  Ok (items +++ [PStr (format_value rt a ++ "=" ++ format_value rt v)])
                else Ok items
              else Ok items) group [].

(** The lines for the constraints, and the identifiers they refer to. *)
Definition impact_lines (rt : Runtime) (constraints : list dict)
  : result (list string * list value) :=
  match constraints with
  | [] => Ok ([], [])
  | _ =>
      constraints_by_kind <- group_by_kind constraints ;;
      avoid_items <- collect_avoid (constraints_by_kind "avoid") ;;
      parts <- add_line "Avoid" avoid_items [] ;;
      prefer_items <- collect_prefer rt (constraints_by_kind "prefer") ;;
      parts <- add_line "Prefer" prefer_items parts ;;
      require_items <- collect_param "behavior" (constraints_by_kind "require") ;;
      parts <- add_line "Require" require_items parts ;;
      tone_items <- collect_param "tone_profile" (constraints_by_kind "tone") ;;
      parts <- add_line "Tone" tone_items parts ;;
      style_items <- collect_param "format" (constraints_by_kind "style") ;;
      parts <- add_line "Style" style_items parts ;;
      boundary_items <- collect_param "boundary_type" (constraints_by_kind "boundary") ;;
      parts <- add_line "Boundaries" boundary_items parts ;;
      safety_items <- collect_param "mode" (constraints_by_kind "safety") ;;
      parts <- add_line "Safety" safety_items parts ;;
      impact_ids <- for_each (fun ids constraint =>
                                refs <- iter (match get "source_refs" constraint with
                                              | Some v => v
                                              | None => PList []
                                              end) ;;
                                Ok (ids +++ refs)) constraints [] ;;
      Ok (parts, impact_ids)
  end.

(** [reconstruct_context] once the memories are retrieved. *)
Definition build_context (rt : Runtime) (retrieved : Retrieval.Result)
    (include_events : bool) : result Result :=
  let seed_ids := Retrieval.seeds retrieved in
  impact_part <- impact_lines rt (Retrieval.impacts retrieved) ;;
  let '(context_parts, impact_ids) := impact_part in
  let seed_cues := flat_map Retrieval.cues seed_ids in
  let context_parts :=
    match seed_cues with
    | [] => context_parts
    | _ => context_parts +++ ["Associative cues: " ++ join ", " (firstn 10 seed_cues)]
    end in
  let event_ids :=
    if include_events
    then firstn 5 (filter (fun mid => negb (existsb (String.eqb mid)
                                                    (Retrieval.denied_ids retrieved)))
                          (Retrieval.events retrieved))
    else [] in
  let context_parts :=
    if include_events then
      match event_ids with
      | [] => context_parts
      | _ => context_parts +++
             ["Referenced events: " ++ of_nat (List.length event_ids)
              ++ " (content not included)"]
      end
    else context_parts +++ ["Events: excluded (sealed memories not reconstructed)"] in
  let reconstructed_context :=
    match context_parts with
    | [] => "No relevant context found."
    | _ => join (String newline EmptyString) context_parts
    end in
  (* the sums are sums of floats: 0.4 + 0.2 is 0.6000000000000001 *)
  let c0 : float := 0%float in
  let c1 := match impact_ids with [] => c0 | _ => (c0 + 0.4)%float end in
  let c2 := match seed_ids with [] => c1 | _ => (c1 + 0.2)%float end in
  let c3 := match event_ids with
            | [] => c2
            | _ => if include_events then (c2 + 0.1)%float else c2
            end in
  (* [min(1.0, confidence)] and [max(confidence, 0.5)] *)
  let c4 := if (c3 <? 1)%float then c3 else 1%float in
  let confidence :=
    match Retrieval.impacts retrieved with
    | [] => c4
    | _ => if (c4 <? 0.5)%float then 0.5%float else c4
    end in
  if forallb hashable impact_ids then
    Ok {| reconstructed_context := reconstructed_context;
          confidence := confidence;
          sources := {| source_impacts := list_of_set rt impact_ids;
                        source_seeds := map Retrieval.seed_id seed_ids;
                        source_events := event_ids |} |}
  else Raise "TypeError".

Definition reconstruct_context (rt : Runtime) (pe : PolicyEngine.t) (db : Storage.Session)
    (tenant_id : string) (scope : Scope.t) (purpose : PurposeType.t)
    (query_text : option string) (include_events : bool) : result Result :=
  retrieved <- Retrieval.retrieve_for_purpose rt pe db tenant_id scope purpose
                 query_text 100 ;;
  build_context rt retrieved include_events.

End Reconstruction.

(* ================================================================== *)
(** * app/memoryscope/observability.py *)
(* ================================================================== *)

Module Observability.
Import Py PyStr.

Record AccessLogSummary : Type := {
  summary_log_id : string;
  summary_time : string;
  summary_purpose : string;
  summary_decision_allowed : bool;
  summary_decision_explanation : string
}.

Record Explanation : Type := {
  access_log_id : option string;
  memory_ids : list string;
  request_context : dict;
  access_log : option AccessLogSummary
}.

Record AppliedConstraint : Type := {
  constraint_id : value;
  kind : value;
  params : value;
  source_memory : string
}.

Record Denial : Type := {
  denied_memory_id : string;
  denial_reason : string
}.

Record ExplainResult : Type := {
  explanation : Explanation;
  memory_ids_used : list value;
  constraints_applied : list AppliedConstraint;
  denials : list Denial
}.

Definition find_access_log (db : Storage.Session) (log_id : string)
  : option Storage.AccessLogV2 :=
  find (fun l => String.eqb (Storage.log_id l) log_id) (Storage.access_logs_v2 db).

Definition get_or_none (key : string) (d : dict) : value :=
  match get key d with Some v => v | None => PNone end.

(** The body of [for memory_id in memory_ids]; the state is
    [(memory_ids_used, constraints_applied)]. *)
Definition explain_memory (db : Storage.Session) (tenant_id : string)
    (st : list string * list AppliedConstraint) (memory_id : string)
  : list string * list AppliedConstraint :=
  let '(memory_ids_used, constraints_applied) := st in
  match Storage.get_memory db memory_id tenant_id with
  | None => st
  | Some memory =>
      (memory_ids_used +++ [memory_id],
       match MemoryObject.impact_payload memory with
       | Some payload =>
           if String.eqb (MemoryType.value (MemoryObject.type memory)) "impact" then
             constraints_applied +++
             map (fun constraint =>
                    {| constraint_id := get_or_none "constraint_id" constraint;
                       kind := get_or_none "kind" constraint;
                       params := get_or_none "params" constraint;
                       source_memory := memory_id |})
                 (ImpactPayload.constraints payload)
           else constraints_applied
       | None => constraints_applied
       end)
  end.

Definition explain_decision (rt : Runtime) (db : Storage.Session) (tenant_id : string)
    (access_log_id : option string) (memory_ids : option (list string))
    (request_context : option dict) : ExplainResult :=
  let found :=
    match access_log_id with
    | Some log_id => if nonempty log_id then find_access_log db log_id else None
    | None => None
    end in
  let explanation :=
    {| access_log_id := access_log_id;
       memory_ids := match memory_ids with Some l => l | None => [] end;
       request_context := match request_context with Some d => d | None => [] end;
       access_log :=
         option_map (fun l => {| summary_log_id := Storage.log_id l;
                                 summary_time := isoformat rt (Storage.time l);
                                 summary_purpose := Storage.purpose l;
                                 summary_decision_allowed := Storage.decision_allowed l;
                                 summary_decision_explanation :=
                                   Storage.decision_explanation l |}) found |} in
  let memory_ids_used :=
    match found with Some l => Storage.decision_returned_ids l | None => [] end in
  let denials :=
    match found with
    | Some l => map (fun mid => {| denied_memory_id := mid; denial_reason := "Policy denied" |})
                    (Storage.decision_denied_ids l)
    | None => []
    end in
  let '(memory_ids_used, constraints_applied) :=
    fold_left (explain_memory db tenant_id)
              (match memory_ids with Some l => l | None => [] end)
              (memory_ids_used, []) in
  {| explanation := explanation;
     memory_ids_used := list_of_set rt (map PStr memory_ids_used);
     constraints_applied := constraints_applied;
     denials := denials |}.

(** The ["result"] of a replay: identifiers and counts. *)
Record ReplaySummary : Type := {
  replay_memory_ids : list string;
  replay_impacts : nat;
  replay_seeds : nat;
  replay_events : nat;
  replay_denied_ids : list string
}.

Inductive ReplayOutcome : Type :=
| ReplayNotFound
| Replayed (summary : ReplaySummary).

Record ReplayResult : Type := {
  replay_result : ReplayOutcome;
  replay_policy_version : option string;
  replay_access_log_id : string
}.

Definition summarize (retrieved : Retrieval.Result) : ReplaySummary :=
  {| replay_memory_ids := Retrieval.memory_ids retrieved;
     replay_impacts := List.length (Retrieval.impacts retrieved);
     replay_seeds := List.length (Retrieval.seeds retrieved);
     replay_events := List.length (Retrieval.events retrieved);
     replay_denied_ids := Retrieval.denied_ids retrieved |}.

(** [Scope(scope_type=ctx["scope"]["scope_type"], scope_id=ctx["scope"]["scope_id"])] *)
Definition scope_of_context (request_context : dict) : result Scope.t :=
  scope <- Reconstruction.getitem (PDict request_context) "scope" ;;
  scope_type <- Reconstruction.getitem scope "scope_type" ;;
  scope_id <- Reconstruction.getitem scope "scope_id" ;;
  match scope_type, scope_id with
  | PStr t, PStr i =>
      match ScopeType.of_value t with
      | Some st => Ok {| Scope.scope_type := st; Scope.scope_id := i; Scope.flags := Some [] |}
      | None => Raise "ValidationError"
      end
  | _, _ => Raise "ValidationError"
  end.

(** [PurposeType(ctx["purpose"])] *)
Definition purpose_of_context (request_context : dict) : result PurposeType.t :=
  purpose <- Reconstruction.getitem (PDict request_context) "purpose" ;;
  match purpose with
  | PStr s => match PurposeType.of_value s with
              | Some pt => Ok pt
              | None => Raise "ValueError"
              end
  | _ => Raise "ValueError"
  end.

(** The memories fetched for [query_text = ctx.get("query_text")].  A text
    that is not a string makes [query_memories] fail inside its [try], and
    it returns no memory. *)
Definition replay_fetch (rt : Runtime) (db : Storage.Session) (tenant_id : string)
    (scope : Scope.t) (purpose : PurposeType.t) (query_text : value)
  : list MemoryObject.t :=
  let fetch text :=
    Storage.query_memories rt db tenant_id scope (Retrieval.purpose_filters purpose)
      (50 * 2) text in
  match query_text with
  | PStr s => fetch (Some s)
  | PNone => fetch None
  | other => if truthy other then [] else fetch None
  end.

Definition replay_request (rt : Runtime) (db : Storage.Session) (tenant_id : string)
    (access_log_id : string) (override_context : option dict) : result ReplayResult :=
  match find_access_log db access_log_id with
  | None => Ok {| replay_result := ReplayNotFound;
                  replay_policy_version := None;
                  replay_access_log_id := access_log_id |}
  | Some access_log =>
      let request_context :=
        [ ("tenant_id", PStr tenant_id);
          ("scope", PDict [ ("scope_type", PStr (Storage.log_scope_type access_log));
                            ("scope_id", PStr (Storage.log_scope_id access_log)) ]);
          ("purpose", PStr (Storage.purpose access_log));
          ("query_text", match Storage.query_text access_log with
                         | Some t => PStr t
                         | None => PNone
                         end) ] in
      let request_context :=
        match override_context with
        | Some o => update request_context o
        | None => request_context
        end in
      let policy_engine := PolicyEngine.default in
      scope <- scope_of_context request_context ;;
      purpose <- purpose_of_context request_context ;;
      retrieved <- Retrieval.apply_policy policy_engine purpose
                     (replay_fetch rt db tenant_id scope purpose
                        (get_or_none "query_text" request_context)) ;;
      Ok {| replay_result := Replayed (summarize retrieved);
            replay_policy_version := Some (PolicyEngine.get_policy_version policy_engine);
            replay_access_log_id := access_log_id |}
  end.

(** An applied constraint stems from an impact that [tenant_id] finds under
    one of [ids]. *)
Definition stems_from (db : Storage.Session) (tenant_id : string) (ids : list string)
    (a : AppliedConstraint) : Prop :=
  exists memory payload c,
    In (source_memory a) ids
    /\ Storage.get_memory db (source_memory a) tenant_id = Some memory
    /\ MemoryObject.type memory = MemoryType.IMPACT
    /\ MemoryObject.impact_payload memory = Some payload
    /\ In c (ImpactPayload.constraints payload)
    /\ constraint_id a = get_or_none "constraint_id" c
    /\ kind a = get_or_none "kind" c
    /\ params a = get_or_none "params" c.

End Observability.

(* ================================================================== *)
(** * app/schemas_v2.py and app/memoryscope/v2_api.py: the v2 endpoints *)
(* ================================================================== *)

Module V2Api.
Import Py PyStr Storage.

(** What the caller receives: a body with its status code, or an
    [HTTPException]; an exception nobody catches is answered with 500. *)
Inductive http (A : Type) : Type :=
| Respond (status_code : nat) (body : A)
| HTTPException (status_code : nat) (detail : string).
Arguments Respond {A} status_code body.
Arguments HTTPException {A} status_code detail.

(** The request to create a memory, after pydantic has read its nested
    dictionaries (a dictionary that does not fit its model is answered 500
    before anything is stored). *)
Record MemoryCreateRequestV2 : Type := {
  tenant_id : string;
  scope : Scope.t;
  type : MemoryType.t;
  truth_mode : TruthMode.t;
  state : option MemoryState.t;
  sensitivity : option Sensitivity.t;
  ownership : Ownership.t;
  temporal : Temporal.t;
  content : Content.t;
  affect : option Affect.t;
  impact_payload : option ImpactPayload.t;
  seed_payload : option SeedPayload.t;
  procedural_payload : option ProceduralPayload.t;
  somatic_payload : option SomaticPayload.t;
  strength : option Strength.t;
  provenance : Provenance.t;
  reconsolidation_policy : option string
}.

Record MemoryCreateResponseV2 : Type := {
  created_id : string;
  created_tenant_id : string;
  created_state : MemoryState.t;
  created_at : Z;
  policy_trace : PolicyEngine.PolicyTrace
}.

Definition default_sensitivity : Sensitivity.t :=
  {| Sensitivity.level := SensitivityLevel.LOW;
     Sensitivity.categories := [];
     Sensitivity.handling := SensitivityHandling.NORMAL |}.

Definition default_affect : Affect.t :=
  {| Affect.valence := 0; Affect.arousal := 0; Affect.labels := [];
     Affect.affect_confidence := 0; Affect.affect_history := [] |}.

Definition default_strength : Strength.t :=
  {| Strength.initial := 75 # 100; Strength.current := 75 # 100;
     Strength.decay_model := DecayModel.HALF_LIFE;
     Strength.half_life_days := None; Strength.last_reinforced_at := None |}.

(** The [MemoryObject] that [create_memory_v2] builds from the request. *)
Definition build_memory (memory_id : string) (memory_request : MemoryCreateRequestV2)
  : result MemoryObject.t :=
  policy <- match reconsolidation_policy memory_request with
            | Some s =>
                if nonempty s then
                  match ReconsolidationPolicy.of_value s with
                  | Some p => Ok p
                  | None => Raise "ValueError"
                  end
                else Ok ReconsolidationPolicy.NEVER_EDIT_SOURCE
            | None => Ok ReconsolidationPolicy.NEVER_EDIT_SOURCE
            end ;;
  Ok (MemoryObject.validate
        {| MemoryObject.id := memory_id;
           MemoryObject.tenant_id := tenant_id memory_request;
           MemoryObject.scope := scope memory_request;
           MemoryObject.type := type memory_request;
           MemoryObject.truth_mode := truth_mode memory_request;
           MemoryObject.state :=
             match state memory_request with Some st => st | None => MemoryState.ACTIVE end;
           MemoryObject.sensitivity :=
             match sensitivity memory_request with
             | Some x => x
             | None => default_sensitivity
             end;
           MemoryObject.ownership := ownership memory_request;
           MemoryObject.temporal := temporal memory_request;
           MemoryObject.content := content memory_request;
           MemoryObject.affect :=
             match affect memory_request with Some a => a | None => default_affect end;
           MemoryObject.impact_payload := impact_payload memory_request;
           MemoryObject.seed_payload := seed_payload memory_request;
           MemoryObject.procedural_payload := procedural_payload memory_request;
           MemoryObject.somatic_payload := somatic_payload memory_request;
           MemoryObject.strength :=
             match strength memory_request with Some x => x | None => default_strength end;
           MemoryObject.provenance := provenance memory_request;
           MemoryObject.history := [];
           MemoryObject.reconsolidation_policy := policy;
           MemoryObject.reconsolidation_trace := [] |}).

(** The body of the [try] of [create_memory_v2]. *)
Definition create_memory_body (rt : Runtime) (policy_engine : PolicyEngine.t) (now : Z)
    (app_id : string) (memory_request : MemoryCreateRequestV2)
  : M MemoryCreateResponseV2 :=
  memory_id <~ generate (generate_memory_id rt) ;;
  memory <~ lift (build_memory memory_id memory_request) ;;
  policy_result <~ lift (PolicyEngine.evaluate_ingest policy_engine memory []) ;;
  let decision := PolicyEngine.ingest_decision policy_result in
  let memory := MemoryObject.set_state (PolicyEngine.ingest_state decision) memory in
  _ <~ store_memory now memory app_id ;;
  _ <~ (if PolicyEngine.derive_impacts decision
           && MemoryType.eqb (MemoryObject.type memory) MemoryType.EVENT
        then ImpactExtraction.extract_and_store_impact rt now memory app_id
               ImpactExtraction.default_extractor true
        else ret None) ;;
  ret {| created_id := MemoryObject.id memory;
         created_tenant_id := MemoryObject.tenant_id memory;
         created_state := MemoryObject.state memory;
         created_at := now;
         policy_trace := PolicyEngine.ingest_trace policy_result |}.

(** POST /v2/memories *)
Definition create_memory_v2 (rt : Runtime) (policy_engine : PolicyEngine.t) (now : Z)
    (app_id : string) (memory_request : MemoryCreateRequestV2) (db : Session)
  : http MemoryCreateResponseV2 * Session :=
  match create_memory_body rt policy_engine now app_id memory_request db with
  | (Ok response, db') => (Respond 201 response, db')
  | (Raise e, db') => (HTTPException 500 ("Failed to create memory: " ++ e), db')
  end.

Record MemoryQueryRequestV2 : Type := {
  query_tenant_id : string;
  query_scope : Scope.t;
  query_purpose : PurposeType.t;
  query_text : option string;
  query_limit : nat
}.

Record MemoryQueryResponseV2 : Type := {
  memory_ids : list string;
  impacts : list dict;
  seeds : list Retrieval.Seed;
  events : list string;
  denied_ids : list string;
  query_access_log_id : string
}.

Definition access_log_entry (now : Z) (log_id app_id : string) (client_ip : option string)
    (tenant_id : string) (scope : Scope.t) (purpose : PurposeType.t)
    (text : option string) (op : string)
    (returned_ids denied_ids : list string) (explanation : string) : AccessLogEntry.t :=
  {| AccessLogEntry.log_id := log_id;
     AccessLogEntry.time := now;
     AccessLogEntry.tenant_id := tenant_id;
     AccessLogEntry.caller := {| Caller.client_id := Some app_id;
                                 Caller.user_id := None;
                                 Caller.ip := client_ip |};
     AccessLogEntry.scope := scope;
     AccessLogEntry.purpose := purpose;
     AccessLogEntry.query := Some {| Query.text := text; Query.op := op |};
     AccessLogEntry.decision :=
       {| Decision.allowed := true;
          Decision.returned_ids := returned_ids;
          Decision.denied_ids := denied_ids;
          Decision.matched_rules := [];
          Decision.explanation := explanation |};
     AccessLogEntry.revocation_token := None |}.

(** POST /v2/memories/query *)
Definition query_memories_v2 (rt : Runtime) (policy_engine : PolicyEngine.t) (now : Z)
    (app_id : string) (client_ip : option string) (query_request : MemoryQueryRequestV2)
    (db : Session) : http MemoryQueryResponseV2 * Session :=
  match Retrieval.retrieve_for_purpose rt policy_engine db (query_tenant_id query_request)
          (query_scope query_request) (query_purpose query_request)
          (query_text query_request) (query_limit query_request) with
  | Raise e => (HTTPException 500 ("Query failed: " ++ e), db)
  | Ok retrieved =>
      let '(log_id, n) := generate_log_id rt (draws db) in
      let db1 := set_draws n db in
      let access_log :=
        access_log_entry now log_id app_id client_ip (query_tenant_id query_request)
          (query_scope query_request) (query_purpose query_request)
          (query_text query_request) "query"
          (Retrieval.memory_ids retrieved) (Retrieval.denied_ids retrieved)
          ("Retrieved " ++ of_nat (List.length (Retrieval.memory_ids retrieved))
           ++ " memories, denied "
           ++ of_nat (List.length (Retrieval.denied_ids retrieved))) in
      (* a failure to store the access log is logged and ignored *)
      let '(_, db2) := store_access_log rt access_log db1 in
      (Respond 200
         {| memory_ids := Retrieval.memory_ids retrieved;
            impacts := Retrieval.impacts retrieved;
            seeds := Retrieval.seeds retrieved;
            events := Retrieval.events retrieved;
            denied_ids := Retrieval.denied_ids retrieved;
            query_access_log_id := log_id |},
       db2)
  end.

Record ReconstructRequestV2 : Type := {
  reconstruct_tenant_id : string;
  reconstruct_scope : Scope.t;
  reconstruct_purpose : PurposeType.t;
  reconstruct_query_text : option string;
  include_events : bool
}.

Record ReconstructResponseV2 : Type := {
  reconstructed_context : string;
  confidence : PrimFloat.float;
  sources : Reconstruction.Sources;
  reconstruct_access_log_id : string
}.

(** A list for a field declared [List[str]]. *)
Definition strings_of (vs : list value) : result (list string) :=
  if forallb is_str vs
  then Ok (flat_map (fun v => match v with PStr s => [s] | _ => [] end) vs)
  else Raise "ValidationError".

(** POST /v2/reconstruct *)
Definition reconstruct_v2 (rt : Runtime) (policy_engine : PolicyEngine.t) (now : Z)
    (app_id : string) (client_ip : option string)
    (reconstruct_request : ReconstructRequestV2) (db : Session)
  : http ReconstructResponseV2 * Session :=
  let body : M ReconstructResponseV2 :=
    reconstructed <~ (fun db =>
                        (Reconstruction.reconstruct_context rt policy_engine db
                           (reconstruct_tenant_id reconstruct_request)
                           (reconstruct_scope reconstruct_request)
                           (reconstruct_purpose reconstruct_request)
                           (reconstruct_query_text reconstruct_request)
                           (include_events reconstruct_request), db)) ;;
    log_id <~ generate (generate_log_id rt) ;;
    let srcs := Reconstruction.sources reconstructed in
    impact_ids <~ lift (strings_of (Reconstruction.source_impacts srcs)) ;;
    let access_log :=
      access_log_entry now log_id app_id client_ip
        (reconstruct_tenant_id reconstruct_request)
        (reconstruct_scope reconstruct_request) (reconstruct_purpose reconstruct_request)
        (reconstruct_query_text reconstruct_request) "reconstruct"
        (impact_ids +++ Reconstruction.source_seeds srcs
           +++ Reconstruction.source_events srcs)
        []
        ("Reconstructed context with confidence "
         ++ format_2f rt (Reconstruction.confidence reconstructed)) in
    _ <~ store_access_log rt access_log ;;
    ret {| reconstructed_context := Reconstruction.reconstructed_context reconstructed;
           confidence := Reconstruction.confidence reconstructed;
           sources := srcs;
           reconstruct_access_log_id := log_id |} in
  match body db with
  | (Ok response, db') => (Respond 200 response, db')
  | (Raise e, db') => (HTTPException 500 e, db')
  end.

Record SealMemoryResponseV2 : Type := {
  sealed_id : string;
  sealed_state : MemoryState.t;
  sealed_at : Z
}.

(** POST /v2/memories/{memory_id}/seal *)
Definition seal_memory_v2 (now : Z) (memory_id : string) (seal_tenant_id : string)
    (db : Session) : http SealMemoryResponseV2 * Session :=
  match update_memory_state now memory_id seal_tenant_id MemoryState.SEALED db with
  | (Ok (Some memory), db') =>
      (Respond 200 {| sealed_id := MemoryObject.id memory;
                      sealed_state := MemoryObject.state memory;
                      sealed_at := now |}, db')
  | (Ok None, db') => (HTTPException 404 "Memory not found", db')
  | (Raise e, db') => (HTTPException 500 e, db')
  end.

Record ExplainRequestV2 : Type := {
  explain_tenant_id : string;
  explain_access_log_id : option string;
  explain_memory_ids : option (list string);
  explain_request_context : option dict
}.

(** POST /v2/explain *)
Definition explain_v2 (rt : Runtime) (explain_request : ExplainRequestV2) (db : Session)
  : http Observability.ExplainResult * Session :=
  (Respond 200
     (Observability.explain_decision rt db (explain_tenant_id explain_request)
        (explain_access_log_id explain_request) (explain_memory_ids explain_request)
        (explain_request_context explain_request)),
   db).

Record ReplayRequestV2 : Type := {
  replay_tenant_id : string;
  replay_access_log_id : string;
  override_context : option dict
}.

(** POST /v2/replay *)
Definition replay_v2 (rt : Runtime) (replay_request : ReplayRequestV2) (db : Session)
  : http Observability.ReplayResult * Session :=
  match Observability.replay_request rt db (replay_tenant_id replay_request)
          (replay_access_log_id replay_request)
          (match override_context replay_request with
           | Some o => match o with [] => None | _ => Some o end
           | None => None
           end) with
  | Ok result => (Respond 200 result, db)
  | Raise e => (HTTPException 500 e, db)
  end.

Record ReinforceMemoryResponseV2 : Type := {
  reinforced_id : string;
  reinforced_current : Q;
  reinforced_initial : Q;
  reinforced_at : Z
}.

(** POST /v2/memories/{memory_id}/reinforce *)
Definition reinforce_memory_v2 (now : Z) (memory_id : string) (reinforce_tenant_id : string)
    (strength_delta : option Q) (db : Session)
  : http ReinforceMemoryResponseV2 * Session :=
  match reinforce_memory now memory_id reinforce_tenant_id strength_delta db with
  | (Ok (Some memory), db') =>
      (Respond 200
         {| reinforced_id := MemoryObject.id memory;
            reinforced_current := Strength.current (MemoryObject.strength memory);
            reinforced_initial := Strength.initial (MemoryObject.strength memory);
            reinforced_at := now |}, db')
  | (Ok None, db') => (HTTPException 404 "Memory not found", db')
  | (Raise e, db') => (HTTPException 500 e, db')
  end.

(** The requests of the v2 API that reach the store. *)
Inductive Request : Type :=
| Create (now : Z) (app_id : string) (r : MemoryCreateRequestV2)
| Query (now : Z) (app_id : string) (client_ip : option string) (r : MemoryQueryRequestV2)
| Reconstruct (now : Z) (app_id : string) (client_ip : option string)
    (r : ReconstructRequestV2)
| Seal (now : Z) (memory_id tenant_id : string)
| Reinforce (now : Z) (memory_id tenant_id : string) (strength_delta : option Q)
| Explain (r : ExplainRequestV2)
| Replay (r : ReplayRequestV2).

(** The store after a request. *)
Definition after (rt : Runtime) (policy_engine : PolicyEngine.t) (db : Session)
    (req : Request) : Session :=
  match req with
  | Create now app_id r => snd (create_memory_v2 rt policy_engine now app_id r db)
  | Query now app_id ip r => snd (query_memories_v2 rt policy_engine now app_id ip r db)
  | Reconstruct now app_id ip r => snd (reconstruct_v2 rt policy_engine now app_id ip r db)
  | Seal now memory_id tenant_id => snd (seal_memory_v2 now memory_id tenant_id db)
  | Reinforce now memory_id tenant_id delta =>
      snd (reinforce_memory_v2 now memory_id tenant_id delta db)
  | Explain r => snd (explain_v2 rt r db)
  | Replay r => snd (replay_v2 rt r db)
  end.

(** The stores that requests lead to from [db]. *)
Inductive reaches (rt : Runtime) (policy_engine : PolicyEngine.t) (db : Session)
  : Session -> Prop :=
| reaches_refl : reaches rt policy_engine db db
| reaches_next (db' : Session) (req : Request) :
    reaches rt policy_engine db db' ->
    reaches rt policy_engine db (after rt policy_engine db' req).

(** What an ingest left in the store: the rows of [memories_v2] and of
    [memory_links_v2] that it appended, the table of access logs being the
    same as before. *)
Definition ingest_left (db db' : Session) (rows : list MemoryV2)
    (links : list MemoryLinkV2) : Prop :=
  memories_v2 db' = memories_v2 db +++ rows
  /\ memory_links_v2 db' = memory_links_v2 db +++ links
  /\ access_logs_v2 db' = access_logs_v2 db.

End V2Api.

(* ================================================================== *)
(** * A runtime to evaluate examples with *)
(* ================================================================== *)

Module Example.
Import PyStr.

Fixpoint zeros (n : nat) : string :=
  match n with O => EmptyString | S k => String "0" (zeros k) end.

Fixpoint rev_string (s : string) : string :=
  match s with
  | EmptyString => EmptyString
  | String c r => rev_string r ++ String c EmptyString
  end.

(** 32 digits that differ from one [n] to the next: the decimal digits of
    [n], lowest first, followed by zeros. *)
Definition hex32 (n : nat) : string :=
  let d := rev_string (of_nat n) in d ++ zeros (32 - String.length d).

(** [%term%] matched without regard to case; wild cards inside [term]
    are taken literally. *)
Definition ilike_contains (text : option string) (pattern : string) : bool :=
  match text with
  | None => false
  | Some t =>
      let term := substring 1 (String.length pattern - 2) pattern in
      str_in (lower term) (lower t)
  end.

Definition runtime : Runtime := {|
  uuid4_hex := hex32;
  sha256_hexdigest := fun s => "sha256:" ++ s;
  sequence_matcher_ratio := fun a b => if String.eqb a b then 1 else 0;
  ilike := ilike_contains;
  py_repr := fun _ => "<object>";
  isoformat := fun t => "T" ++ NilZero.string_of_int (Z.to_int t);
  list_of_set := fun xs =>
    fold_left (fun acc x => if Py.mem x acc then acc else acc +++ [x]) xs [];
  format_2f := fun x =>
    match FloatOps.Prim2SF x with
    | SpecFloat.S754_finite negative m e =>
        (if negative then "-" else "")
        ++ NilZero.string_of_int (Z.to_int (Zpos m)) ++ "*2^"
        ++ NilZero.string_of_int (Z.to_int e)
    | SpecFloat.S754_zero _ => "0"
    | _ => "nan"
    end
|}.

Definition tie_first : Utils.MemoryDict :=
  {| Utils.mem_id := "m1"; Utils.mem_created_at := 100;
     Utils.mem_value_shape := "kv_map";
     Utils.mem_value_json := Py.PDict [("preferred_channel", Py.PStr "email")] |}.

Definition pref_a : Utils.MemoryDict :=
  {| Utils.mem_id := "a"; Utils.mem_created_at := 100;
     Utils.mem_value_shape := "likes_dislikes";
     Utils.mem_value_json :=
       Py.PDict [("likes", Py.PList [Py.PStr "Tea"; Py.PStr "coffee"]);
                 ("dislikes", Py.PList [Py.PStr "milk"])] |}.

Definition pref_b : Utils.MemoryDict :=
  {| Utils.mem_id := "b"; Utils.mem_created_at := 100;
     Utils.mem_value_shape := "kv_map";
     Utils.mem_value_json := Py.PDict [("Favorite_Food", Py.PStr "pizza")] |}.

(** A setting written after [tie_first]. *)
Definition later_setting : Utils.MemoryDict :=
  {| Utils.mem_id := "m2"; Utils.mem_created_at := 200;
     Utils.mem_value_shape := "kv_map";
     Utils.mem_value_json := Py.PDict [("preferred_channel", Py.PStr "sms")] |}.

Definition empty_world : Main.World :=
  {| Main.db := {| Main.memories := []; Main.read_grants := []; Main.audit_events := [] |};
     Main.draws := 0 |}.

Definition read_request : Main.MemoryReadRequest :=
  {| Main.req_user_id := "u1"; Main.req_scope := "preferences";
     Main.req_domain := None; Main.req_purpose := "generate content";
     Main.req_max_age_days := None |}.

(** The answer to [read_request] in the empty world, and the world after. *)
Definition issued_response : Main.MemoryReadResponse :=
  {| Main.resp_summary_text := "No memories found.";
     Main.resp_summary_struct := Py.PDict [];
     Main.resp_confidence := 0;
     Main.resp_revocation_token := uuid_str (hex32 0);
     Main.resp_expires_at := 1000 + 86400 |}.

Definition world_after_read : Main.World :=
  snd (Main.read_memory runtime 1000 "app" empty_world read_request).

(** A memory of another user, and the world that holds it. *)
Definition foreign_memory : Main.Memory :=
  {| Main.memory_id := "mem-1"; Main.memory_user_id := "u2";
     Main.memory_scope := "preferences"; Main.memory_domain := None;
     Main.memory_value_json := Py.PDict [("theme", Py.PStr "dark")];
     Main.memory_value_shape := "kv_map";
     Main.memory_source := "explicit_user_input"; Main.memory_ttl_days := 30;
     Main.memory_created_at := 500; Main.memory_expires_at := 500 + 30 * 86400;
     Main.memory_app_id := "app" |}.

Definition world_with_foreign_memory : Main.World :=
  {| Main.db := {| Main.memories := [foreign_memory]; Main.read_grants := [];
                   Main.audit_events := [] |};
     Main.draws := 0 |}.

Definition user_scope : Scope.t :=
  {| Scope.scope_type := ScopeType.USER; Scope.scope_id := "u_demo_user";
     Scope.flags := Some [] |}.

Definition user_ownership : Ownership.t :=
  {| Ownership.owner_type := OwnerType.USER;
     Ownership.owners := ["u_demo_user"];
     Ownership.claimant := "u_demo_user";
     Ownership.subjects := ["u_demo_user"];
     Ownership.dispute_state := DisputeState.UNDISPUTED;
     Ownership.visibility := Visibility.PRIVATE |}.

Definition observed_at (t : Z) : Temporal.t :=
  {| Temporal.occurred_at_observed := t;
     Temporal.occurred_at_claimed := None;
     Temporal.time_precision := TimePrecision.EXACT;
     Temporal.time_confidence := 1;
     Temporal.range := None;
     Temporal.ordering_uncertainty := false |}.

Definition text_content (t : string) : Content.t :=
  {| Content.format := "text"; Content.language := "en";
     Content.text := Some t; Content.json := None |}.

Definition user_provenance : Provenance.t :=
  {| Provenance.source := SourceType.USER;
     Provenance.surface := Some SurfaceType.CHAT;
     Provenance.conversation_id := None;
     Provenance.derived_from := [];
     Provenance.transform_chain := [];
     Provenance.policy_version := None;
     Provenance.confidence := 9 # 10 |}.

(** The request that the demonstration client sends for an event. *)
Definition event_request (truth_mode : TruthMode.t) (level : SensitivityLevel.t)
    (categories : list string) (text : string) : V2Api.MemoryCreateRequestV2 :=
  {| V2Api.tenant_id := "t_demo";
     V2Api.scope := user_scope;
     V2Api.type := MemoryType.EVENT;
     V2Api.truth_mode := truth_mode;
     V2Api.state := Some MemoryState.ACTIVE;
     V2Api.sensitivity :=
       Some {| Sensitivity.level := level;
               Sensitivity.categories := categories;
               Sensitivity.handling :=
                 match categories with
                 | [] => SensitivityHandling.NORMAL
                 | _ => SensitivityHandling.SEALED_DEFAULT
                 end |};
     V2Api.ownership := user_ownership;
     V2Api.temporal := observed_at 1000;
     V2Api.content := text_content text;
     V2Api.affect := None;
     V2Api.impact_payload := None;
     V2Api.seed_payload := None;
     V2Api.procedural_payload := None;
     V2Api.somatic_payload := None;
     V2Api.strength := None;
     V2Api.provenance := user_provenance;
     V2Api.reconsolidation_policy := None |}.

Definition empty_session : Storage.Session :=
  {| Storage.memories_v2 := []; Storage.memory_links_v2 := [];
     Storage.access_logs_v2 := []; Storage.draws := 0; Storage.outages := [] |}.

(** The event of scenario S4. *)
Definition shame_request : V2Api.MemoryCreateRequestV2 :=
  event_request TruthMode.SUBJECTIVE_EXPERIENCE SensitivityLevel.HIGH ["shame"]
    "I felt ashamed about the mistake I made".

Definition shame_event_of (level : SensitivityLevel.t) : MemoryObject.t :=
  MemoryObject.validate
    {| MemoryObject.id := "mem_00000000000000aa";
       MemoryObject.tenant_id := "t_demo";
       MemoryObject.scope := user_scope;
       MemoryObject.type := MemoryType.EVENT;
       MemoryObject.truth_mode := TruthMode.SUBJECTIVE_EXPERIENCE;
       MemoryObject.state := MemoryState.ACTIVE;
       MemoryObject.sensitivity :=
         {| Sensitivity.level := level; Sensitivity.categories := ["shame"];
            Sensitivity.handling := SensitivityHandling.NORMAL |};
       MemoryObject.ownership := user_ownership;
       MemoryObject.temporal := observed_at 1000;
       MemoryObject.content := text_content "I felt ashamed about the mistake I made";
       MemoryObject.affect := V2Api.default_affect;
       MemoryObject.impact_payload := None;
       MemoryObject.seed_payload := None;
       MemoryObject.procedural_payload := None;
       MemoryObject.somatic_payload := None;
       MemoryObject.strength := V2Api.default_strength;
       MemoryObject.provenance := user_provenance;
       MemoryObject.history := [];
       MemoryObject.reconsolidation_policy := ReconsolidationPolicy.NEVER_EDIT_SOURCE;
       MemoryObject.reconsolidation_trace := [] |}.

Definition task_query : V2Api.MemoryQueryRequestV2 :=
  {| V2Api.query_tenant_id := "t_demo";
     V2Api.query_scope := user_scope;
     V2Api.query_purpose := PurposeType.TASK_EXECUTION;
     V2Api.query_text := None;
     V2Api.query_limit := 50 |}.

(** Scenario S5: A is a factual claim, B is counterfactual. *)
Definition request_a : V2Api.MemoryCreateRequestV2 :=
  event_request TruthMode.FACTUAL_CLAIM SensitivityLevel.LOW [] "I moved to Lisbon in May".

Definition request_b : V2Api.MemoryCreateRequestV2 :=
  event_request TruthMode.COUNTERFACTUAL SensitivityLevel.LOW []
    "If I had studied law I would be a judge".

Definition session_a : Storage.Session :=
  snd (V2Api.create_memory_v2 runtime PolicyEngine.default 1000 "app" request_a
         empty_session).

Definition session_ab : Storage.Session :=
  snd (V2Api.create_memory_v2 runtime PolicyEngine.default 1001 "app" request_b session_a).

(** Scenario S6: a sealed event and the impact derived from it. *)
Definition sealed_event (text : string) : MemoryObject.t :=
  MemoryObject.with_content (text_content text)
    (MemoryObject.set_state MemoryState.SEALED (shame_event_of SensitivityLevel.MEDIUM)).

Definition derived_impact : MemoryObject.t :=
  MemoryObject.validate
    {| MemoryObject.id := "mem_00000000000000bb";
       MemoryObject.tenant_id := "t_demo";
       MemoryObject.scope := user_scope;
       MemoryObject.type := MemoryType.IMPACT;
       MemoryObject.truth_mode := TruthMode.PROCEDURAL;
       MemoryObject.state := MemoryState.ACTIVE;
       MemoryObject.sensitivity :=
         {| Sensitivity.level := SensitivityLevel.MEDIUM;
            Sensitivity.categories := ["shame"];
            Sensitivity.handling := SensitivityHandling.NORMAL |};
       MemoryObject.ownership := user_ownership;
       MemoryObject.temporal := observed_at 1000;
       MemoryObject.content := text_content "private";
       MemoryObject.affect := V2Api.default_affect;
       MemoryObject.impact_payload :=
         Some {| ImpactPayload.constraints :=
                   fst (ImpactExtraction.collect_constraints runtime 1000
                          ImpactExtraction.default_extractor
                          (shame_event_of SensitivityLevel.HIGH) 0%nat) |};
       MemoryObject.seed_payload := None;
       MemoryObject.procedural_payload := None;
       MemoryObject.somatic_payload := None;
       MemoryObject.strength := V2Api.default_strength;
       MemoryObject.provenance := user_provenance;
       MemoryObject.history := [];
       MemoryObject.reconsolidation_policy := ReconsolidationPolicy.APPEND_ONLY;
       MemoryObject.reconsolidation_trace := [] |}.

(** A policy that lets every memory through. *)
Definition permissive : PolicyEngine.t :=
  {| PolicyEngine.policy :=
       {| PolicyEngine.policy_version := "pol_permissive";
          PolicyEngine.defaults :=
            [ ("write", "allow"); ("read", "allow"); ("include_in_prompt", "allow") ];
          PolicyEngine.globals := [];
          PolicyEngine.rules := [] |};
     PolicyEngine.compiled_rules := [] |}.

Definition session_with (ms : list MemoryObject.t) : Storage.Session :=
  {| Storage.memories_v2 := map (fun m => Storage.memory_object_to_db 1000 m "app") ms;
     Storage.memory_links_v2 := []; Storage.access_logs_v2 := [];
     Storage.draws := 0%nat; Storage.outages := [] |}.

(** A store with an event and the impact derived from it, neither sealed. *)
Definition two_memories : Storage.Session :=
  session_with [shame_event_of SensitivityLevel.MEDIUM; derived_impact].

(** A session in which the database is lost after the first commit. *)
Definition session_lost_after_first_commit : Storage.Session :=
  {| Storage.memories_v2 := []; Storage.memory_links_v2 := [];
     Storage.access_logs_v2 := []; Storage.draws := 0;
     Storage.outages := [false; true] |}.

(** A session in which the database is lost after the commit of the link:
    the event, the impact and the link are committed and read back but for
    the link, whose refresh raises. *)
Definition session_lost_after_link_commit : Storage.Session :=
  {| Storage.memories_v2 := []; Storage.memory_links_v2 := [];
     Storage.access_logs_v2 := []; Storage.draws := 0;
     Storage.outages := [false; false; false; false; false; true] |}.

End Example.

(* ================================================================== *)
(** * Properties *)
(* ================================================================== *)

Example normalize_purpose_schedule_meeting :
  Utils.normalize_purpose "Schedule Meeting" = "scheduling".
Proof. reflexivity. Qed.

Lemma normalize_purpose_in_classes (p : string) :
  In (Utils.normalize_purpose p) Utils.ALLOWED_PURPOSE_CLASSES.
Proof.
  unfold Utils.normalize_purpose.
  repeat match goal with
         | |- context [if ?b then _ else _] => destruct b
         end; simpl; tauto.
Qed.

(** C9: purpose normalisation is idempotent; each of the six purpose
    classes it can return is mapped to itself, and every result is one of
    those six classes. *)
Theorem normalize_purpose_idempotent :
  (forall p : string,
      Utils.normalize_purpose (Utils.normalize_purpose p) = Utils.normalize_purpose p)
  /\ Forall (fun c => Utils.normalize_purpose c = c) Utils.ALLOWED_PURPOSE_CLASSES
  /\ (forall p : string, In (Utils.normalize_purpose p) Utils.ALLOWED_PURPOSE_CLASSES).
Proof.
  assert (Hfix : Forall (fun c => Utils.normalize_purpose c = c)
                        Utils.ALLOWED_PURPOSE_CLASSES)
    by (repeat constructor).
  split; [| split; [exact Hfix | exact normalize_purpose_in_classes]].
  intro p.
  rewrite Forall_forall in Hfix.
  apply Hfix, normalize_purpose_in_classes.
Qed.

(* ------------------------------------------------------------------ *)
(** ** The deterministic merge *)

Lemma string_compare_refl (s : string) : String.compare s s = Eq.
Proof.
  induction s as [| c s IH]; simpl; [reflexivity |].
  unfold Ascii.compare. rewrite N.compare_refl. exact IH.
Qed.

Lemma string_compare_lt_trans (a b c : string) :
  String.compare a b = Lt -> String.compare b c = Lt -> String.compare a c = Lt.
Proof.
  revert b c.
  induction a as [| x a IH]; intros [| y b] [| z c]; simpl; try congruence.
  unfold Ascii.compare.
  destruct (N.compare_spec (N_of_ascii x) (N_of_ascii y)) as [Exy | Lxy | Gxy];
    try congruence;
    destruct (N.compare_spec (N_of_ascii y) (N_of_ascii z)) as [Eyz | Lyz | Gyz];
    try congruence; intros Hab Hbc.
  - rewrite Exy, Eyz, N.compare_refl. eauto.
  - rewrite Exy. apply N.compare_lt_iff in Lyz. rewrite Lyz. reflexivity.
  - rewrite <- Eyz. apply N.compare_lt_iff in Lxy. rewrite Lxy. reflexivity.
  - assert (H : (N_of_ascii x < N_of_ascii z)%N) by (eapply N.lt_trans; eauto).
    apply N.compare_lt_iff in H. rewrite H. reflexivity.
Qed.

Lemma string_leb_trans (a b c : string) :
  String.leb a b = true -> String.leb b c = true -> String.leb a c = true.
Proof.
  unfold String.leb.
  destruct (String.compare a b) eqn:Hab; try discriminate;
    destruct (String.compare b c) eqn:Hbc; try discriminate; intros _ _.
  - apply String.compare_eq_iff in Hab, Hbc. subst. now rewrite string_compare_refl.
  - apply String.compare_eq_iff in Hab. subst. now rewrite Hbc.
  - apply String.compare_eq_iff in Hbc. subst. now rewrite Hab.
  - now rewrite (string_compare_lt_trans _ _ _ Hab Hbc).
Qed.

Section StableSort.
Context {A K : Type} (leb : A -> A -> bool) (key : A -> K).
Hypothesis leb_trans : forall x y z, leb x y = true -> leb y z = true -> leb x z = true.
Hypothesis leb_strict : forall x y, key x <> key y -> leb x y = negb (leb y x).

Lemma insert_sorted_comm (x y : A) (l : list A) :
  key x <> key y ->
  insert_sorted leb x (insert_sorted leb y l) = insert_sorted leb y (insert_sorted leb x l).
Proof.
  intros Hxy. pose proof (leb_strict x y Hxy) as Hs.
  induction l as [| z l IH]; simpl.
  - rewrite Hs. destruct (leb y x); reflexivity.
  - destruct (leb y z) eqn:Hyz; destruct (leb x z) eqn:Hxz; simpl;
      rewrite ?Hyz, ?Hxz.
    + rewrite Hs. destruct (leb y x); simpl; reflexivity.
    + destruct (leb x y) eqn:Exy.
      * rewrite (leb_trans x y z Exy Hyz) in Hxz. discriminate.
      * reflexivity.
    + destruct (leb y x) eqn:Eyx.
      * rewrite (leb_trans y x z Eyx Hxz) in Hyz. discriminate.
      * rewrite ?Hs; reflexivity.
    + rewrite IH. reflexivity.
Qed.

Lemma sorted_permutation (l l' : list A) :
  Permutation l l' -> NoDup (map key l) -> sorted leb l = sorted leb l'.
Proof.
  induction 1 as [| x l l' Hp IH | x y l | l l' l'' Hp1 IH1 Hp2 IH2]; intros Hnd.
  - reflexivity.
  - simpl in *. inversion Hnd; subst. rewrite IH by assumption. reflexivity.
  - simpl in *. inversion Hnd as [| ? ? Hin Hnd']; subst.
    apply insert_sorted_comm. intros Heq. apply Hin. left. symmetry. exact Heq.
  - rewrite IH1 by assumption. apply IH2.
    eapply Permutation_NoDup; [apply Permutation_map; exact Hp1 | exact Hnd].
Qed.
End StableSort.

Lemma key_leb_trans (x y z : Utils.MemoryDict) :
  Utils.key_leb x y = true -> Utils.key_leb y z = true -> Utils.key_leb x z = true.
Proof.
  unfold Utils.key_leb. intros Hxy Hyz.
  apply orb_true_iff in Hxy, Hyz. apply orb_true_iff.
  destruct Hxy as [Hxy | Hxy], Hyz as [Hyz | Hyz];
    rewrite ?andb_true_iff, ?Z.ltb_lt, ?Z.eqb_eq in *.
  - left. lia.
  - left. lia.
  - left. lia.
  - right. destruct Hxy as [E1 L1], Hyz as [E2 L2]. split; [lia |].
    eapply string_leb_trans; eauto.
Qed.

Lemma key_leb_strict (x y : Utils.MemoryDict) :
  Utils.sort_key x <> Utils.sort_key y -> Utils.key_leb x y = negb (Utils.key_leb y x).
Proof.
  unfold Utils.sort_key, Utils.key_leb. intros Hne.
  destruct (Z.compare_spec (Utils.mem_created_at x) (Utils.mem_created_at y)) as [E | L | G].
  - rewrite E, Z.ltb_irrefl, Z.eqb_refl. simpl.
    assert (Hid : Utils.mem_id x <> Utils.mem_id y) by (intros H; apply Hne; congruence).
    destruct (String.leb (Utils.mem_id x) (Utils.mem_id y)) eqn:L1;
      destruct (String.leb (Utils.mem_id y) (Utils.mem_id x)) eqn:L2; try reflexivity.
    + exfalso. apply Hid. apply String.leb_antisym; assumption.
    + destruct (String.leb_total (Utils.mem_id x) (Utils.mem_id y)); congruence.
  - assert (H1 : Z.ltb (Utils.mem_created_at x) (Utils.mem_created_at y) = true)
      by (apply Z.ltb_lt; lia).
    assert (H2 : Z.ltb (Utils.mem_created_at y) (Utils.mem_created_at x) = false)
      by (apply Z.ltb_ge; lia).
    assert (H3 : Z.eqb (Utils.mem_created_at y) (Utils.mem_created_at x) = false)
      by (apply Z.eqb_neq; lia).
    rewrite H1, H2, H3. reflexivity.
  - assert (H1 : Z.ltb (Utils.mem_created_at x) (Utils.mem_created_at y) = false)
      by (apply Z.ltb_ge; lia).
    assert (H2 : Z.ltb (Utils.mem_created_at y) (Utils.mem_created_at x) = true)
      by (apply Z.ltb_lt; lia).
    assert (H3 : Z.eqb (Utils.mem_created_at x) (Utils.mem_created_at y) = false)
      by (apply Z.eqb_neq; lia).
    rewrite H1, H2, H3. reflexivity.
Qed.

Lemma sorted_memories_permutation (l l' : list Utils.MemoryDict) :
  Permutation l l' -> NoDup (map Utils.sort_key l) ->
  sorted Utils.key_leb l = sorted Utils.key_leb l'.
Proof.
  apply (sorted_permutation Utils.key_leb Utils.sort_key key_leb_trans key_leb_strict).
Qed.

Lemma distinct_ids_distinct_keys (l : list Utils.MemoryDict) :
  NoDup (map Utils.mem_id l) -> NoDup (map Utils.sort_key l).
Proof.
  induction l as [| m l IH]; simpl; intros H; [constructor |].
  inversion H as [| ? ? Hnotin Hrest]; subst. constructor; [| exact (IH Hrest)].
  intros Hin. apply Hnotin. apply in_map_iff in Hin. destruct Hin as [x [E Hx]].
  apply in_map_iff. exists x. split; [| exact Hx].
  unfold Utils.sort_key in E. congruence.
Qed.

(** C8: the merge is a function of the list of records and the scope, and
    for records with pairwise distinct ids (the id is the primary key of the
    table they are read from) its result ([summary_text], [summary_struct],
    [confidence], or the exception raised) does not depend on the order of
    the input list, because the records are first sorted by
    [(created_at, id)]. *)
Theorem merge_memories_order_independent
    (rt : Runtime) (memories memories' : list Utils.MemoryDict) (scope : string) :
  Permutation memories memories' ->
  NoDup (map Utils.mem_id memories) ->
  Utils.merge_memories_deterministic rt memories scope
  = Utils.merge_memories_deterministic rt memories' scope.
Proof.
  intros Hp Hids.
  pose proof (distinct_ids_distinct_keys _ Hids) as Hnd.
  pose proof (sorted_memories_permutation _ _ Hp Hnd) as Hs.
  destruct memories as [| m ms]; destruct memories' as [| m' ms'].
  - reflexivity.
  - apply Permutation_nil in Hp. discriminate.
  - apply Permutation_sym, Permutation_nil in Hp. discriminate.
  - unfold Utils.merge_memories_deterministic. rewrite Hs. reflexivity.
Qed.

Lemma merge_memories_order_independent_witness :
  Utils.merge_memories_deterministic Example.runtime [Example.pref_a; Example.pref_b] "preferences"
  = Utils.merge_memories_deterministic Example.runtime [Example.pref_b; Example.pref_a] "preferences".
Proof.
  apply (merge_memories_order_independent Example.runtime [Example.pref_a; Example.pref_b] [Example.pref_b; Example.pref_a]).
  - apply perm_swap.
  - repeat constructor; simpl; intuition discriminate.
Defined.

(* ------------------------------------------------------------------ *)
(** ** Read grants and revocation *)

Section Grants.
Import Utils Main.
Variable rt : Runtime.

Lemma find_none_of_existsb {A : Type} (p q : A -> bool) (l : list A) :
  existsb p l = false -> (forall x, q x = true -> p x = true) -> find q l = None.
Proof.
  intros Hex Himp.
  induction l as [| x l IH]; simpl in *; [reflexivity |].
  apply orb_false_iff in Hex. destruct Hex as [Hx Hl].
  destruct (q x) eqn:Q; [rewrite (Himp x Q) in Hx; discriminate | auto].
Qed.

Lemma read_grants_create_audit_event now w et app u sc d p pc mids gid rc :
  read_grants (db (create_audit_event rt now w et app u sc d p pc mids gid rc))
  = read_grants (db w).
Proof. reflexivity. Qed.

Lemma find_app_some {A : Type} (q : A -> bool) (l l' : list A) (x : A) :
  find q l = Some x -> find q (l +++ l') = Some x.
Proof.
  induction l as [| y l IH]; simpl; [discriminate |].
  destruct (q y); auto.
Qed.

Lemma find_app_none {A : Type} (q : A -> bool) (l l' : list A) :
  find q l = None -> find q (l +++ l') = find q l'.
Proof.
  induction l as [| y l IH]; simpl; [reflexivity |].
  destruct (q y); [discriminate | auto].
Qed.

Lemma grant_matches_set_revoked h a now g :
  grant_matches h a (set_revoked now g) = grant_matches h a g.
Proof. reflexivity. Qed.

(** Updating the row of one key leaves the row found for another key. *)
Lemma find_update_other h a h' a' now (gs : list ReadGrant) :
  (h' <> h \/ a' <> a) ->
  find (grant_matches h a) (update_grant h' a' (set_revoked now) gs)
  = find (grant_matches h a) gs.
Proof.
  intros Hne.
  induction gs as [| g gs IH]; simpl; [reflexivity |].
  destruct (grant_matches h' a' g) eqn:M'; simpl.
  - rewrite grant_matches_set_revoked.
    destruct (grant_matches h a g) eqn:M; [| reflexivity].
    exfalso. unfold grant_matches in M, M'.
    apply andb_true_iff in M, M'.
    destruct M as [M1 M2], M' as [M1' M2'].
    apply String.eqb_eq in M1, M2, M1', M2'.
    destruct Hne as [Hne | Hne]; apply Hne; congruence.
  - rewrite IH. reflexivity.
Qed.

Lemma find_update_same h a now (gs : list ReadGrant) :
  find (grant_matches h a) (update_grant h a (set_revoked now) gs)
  = option_map (set_revoked now) (find (grant_matches h a) gs).
Proof.
  induction gs as [| g gs IH]; simpl; [reflexivity |].
  destruct (grant_matches h a g) eqn:M; simpl.
  - rewrite grant_matches_set_revoked, M. reflexivity.
  - rewrite M. exact IH.
Qed.

(** What a request can do to the table of grants. *)
Lemma read_grants_after_read now app w r :
  read_grants (db (snd (read_memory rt now app w r))) = read_grants (db w)
  \/ exists g, read_grants (db (snd (read_memory rt now app w r)))
               = read_grants (db w) +++ [g].
Proof.
  unfold read_memory.
  destruct (bind _ _) as [[[[user_id scope] domain] purpose] | e]; [| left; reflexivity].
  destruct (negb _); [left; reflexivity |].
  destruct (_query_and_merge_memories _ _ _ _ _ _ _ _) as [[merged | e] ids];
    [| left; reflexivity].
  simpl. unfold insert_read_grant. simpl.
  destruct (existsb _ _); simpl; [left; reflexivity |].
  right. eexists. reflexivity.
Qed.

Lemma read_grants_after_continue now app w r :
  read_grants (db (snd (continue_read_memory rt now app w r))) = read_grants (db w).
Proof.
  unfold continue_read_memory.
  destruct (find_grant _ _ _) as [g |]; [| reflexivity].
  destruct (revoked_at g); [reflexivity |].
  destruct (Z.ltb _ _); [reflexivity |].
  destruct (_query_and_merge_memories _ _ _ _ _ _ _ _) as [[merged | e] ids]; reflexivity.
Qed.

Lemma read_grants_after_revoke now app w r :
  read_grants (db (snd (revoke_memory rt now app w r))) = read_grants (db w)
  \/ read_grants (db (snd (revoke_memory rt now app w r)))
     = update_grant (hash_revocation_token rt (revoke_revocation_token r)) app
         (set_revoked now) (read_grants (db w)).
Proof.
  unfold revoke_memory.
  destruct (find_grant _ _ _) as [g |]; [| left; reflexivity].
  destruct (revoked_at g); [left; reflexivity | right; reflexivity].
Qed.

Lemma found_after_request (h a : string) (w : World) (req : Request) (g : ReadGrant) :
  find_grant h a (db w) = Some g ->
  (match req with
   | Revoke _ a' r => hash_revocation_token rt (revoke_revocation_token r) <> h \/ a' <> a
   | _ => True
   end) ->
  find_grant h a (db (after rt w req)) = Some g.
Proof.
  intros Hf Hreq. unfold find_grant in *.
  destruct req as [now app r | now app r | now app r]; simpl.
  - destruct (read_grants_after_read now app w r) as [E | [g' E]]; rewrite E.
    + exact Hf.
    + apply find_app_some. exact Hf.
  - rewrite read_grants_after_continue. exact Hf.
  - destruct (read_grants_after_revoke now app w r) as [E | E]; rewrite E.
    + exact Hf.
    + rewrite find_update_other by exact Hreq. exact Hf.
Qed.

Lemma live_steps (token a : string) (w w' : World) :
  steps rt (fun req => ~ revokes rt a token req) w w' ->
  live (hash_revocation_token rt token) a w ->
  live (hash_revocation_token rt token) a w'.
Proof.
  induction 1 as [| w w' w'' Hs IH Hstep]; intros Hl; [exact Hl |].
  specialize (IH Hl). destruct IH as [g [Hf Hr]].
  destruct Hstep as [w' req Hallowed | w' w'' Heq].
  - exists g. split; [| exact Hr].
    apply found_after_request; auto.
    destruct req as [now app r | now app r | now app r]; auto.
    simpl in Hallowed.
    destruct (string_dec (hash_revocation_token rt (revoke_revocation_token r))
                         (hash_revocation_token rt token)) as [E | N]; [| left; exact N].
    destruct (string_dec app a) as [E' | N']; [| right; exact N'].
    exfalso. apply Hallowed. split; assumption.
  - exists g. unfold find_grant in *. rewrite Heq. auto.
Qed.

Lemma dead_after_request (h a : string) (w : World) (req : Request) :
  dead h a w -> dead h a (after rt w req).
Proof.
  intros [g [t [Hf Hr]]]. unfold dead, find_grant in *.
  destruct req as [now app r | now app r | now app r]; simpl.
  - destruct (read_grants_after_read now app w r) as [E | [g' E]]; rewrite E.
    + eauto.
    + exists g, t. split; [apply find_app_some; exact Hf | exact Hr].
  - rewrite read_grants_after_continue. eauto.
  - destruct (read_grants_after_revoke now app w r) as [E | E]; rewrite E; [eauto |].
    destruct (string_dec (hash_revocation_token rt (revoke_revocation_token r)) h)
      as [E1 | N1];
      [destruct (string_dec app a) as [E2 | N2] |].
    + subst. rewrite find_update_same, Hf. simpl.
      exists (set_revoked now g), now. split; reflexivity.
    + rewrite find_update_other by (right; exact N2). eauto.
    + rewrite find_update_other by (left; exact N1). eauto.
Qed.

Lemma dead_steps (h a : string) (w w' : World) :
  steps rt (fun _ => True) w w' -> dead h a w -> dead h a w'.
Proof.
  induction 1 as [| w w' w'' Hs IH Hstep]; intros Hd; [exact Hd |].
  specialize (IH Hd).
  destruct Hstep as [w' req _ | w' w'' Heq].
  - apply dead_after_request. exact IH.
  - destruct IH as [g [t [Hf Hr]]]. exists g, t. unfold find_grant in *.
    rewrite Heq. auto.
Qed.

Lemma read_memory_issues_live_grant now app w r resp w1 :
  read_memory rt now app w r = (HTTP200 resp, w1) ->
  live (hash_revocation_token rt (resp_revocation_token resp)) app w1.
Proof.
  unfold read_memory.
  destruct (bind _ _) as [[[[user_id scope] domain] purpose] | e]; [| discriminate].
  destruct (negb _); [discriminate |].
  destruct (_query_and_merge_memories _ _ _ _ _ _ _ _) as [[merged | e] ids];
    [| discriminate].
  simpl. unfold insert_read_grant. simpl.
  destruct (existsb _ _) eqn:Hex; simpl; [discriminate |].
  intros H. inversion H; subst; clear H. simpl.
  unfold live, find_grant. simpl.
  eexists. split.
  - rewrite find_app_none.
    + simpl. unfold grant_matches. simpl. rewrite !String.eqb_refl. reflexivity.
    + eapply find_none_of_existsb; [exact Hex |].
      intros g Hg. unfold grant_matches in Hg. simpl.
      apply andb_true_iff in Hg. tauto.
  - reflexivity.
Qed.

Lemma revoke_live now app w token :
  live (hash_revocation_token rt token) app w ->
  exists w',
    revoke_memory rt now app w {| revoke_revocation_token := token |}
    = (HTTP200 {| revoked := true; resp_revoked_at := now |}, w')
    /\ (exists g, find_grant (hash_revocation_token rt token) app (db w') = Some g
                  /\ revoked_at g = Some now).
Proof.
  intros [g [Hf Hr]]. unfold revoke_memory. simpl. rewrite Hf, Hr.
  eexists. split; [reflexivity |].
  unfold find_grant in *. simpl. rewrite find_update_same, Hf. simpl.
  eexists. split; reflexivity.
Qed.

Lemma requests_dead now app w token max_age :
  dead (hash_revocation_token rt token) app w ->
  continue_read_memory rt now app w
    {| continue_revocation_token := token; continue_max_age_days := max_age |}
  = (HTTPException 403 "REVOKED", w)
  /\ revoke_memory rt now app w {| revoke_revocation_token := token |}
     = (HTTPException 404 "Revocation token not found", w).
Proof.
  intros [g [t [Hf Hr]]].
  unfold continue_read_memory, revoke_memory. simpl. rewrite Hf, Hr. split; reflexivity.
Qed.
End Grants.

(** C5: a token returned by /memory/read is accepted by the first
    /memory/revoke that presents it, whatever happened in between (reads,
    continues, revokes of other grants, writes of memories): that revoke
    answers [{revoked: true, revoked_at}] and sets [revoked_at].  From then
    on, whatever happens, every /memory/read/continue with the token is
    answered 403 with detail REVOKED and every /memory/revoke with it is
    answered 404, with the detail and the unchanged store of a revoke that
    presents an unknown token. *)
Theorem grant_round_trip
    (rt : Runtime) (now0 : Z) (app : string) (w0 : Main.World)
    (req : Main.MemoryReadRequest) (resp : Main.MemoryReadResponse) (w1 : Main.World) :
  Main.read_memory rt now0 app w0 req = (Main.HTTP200 resp, w1) ->
  forall w : Main.World,
    Main.steps rt (fun r => ~ Main.revokes rt app (Main.resp_revocation_token resp) r) w1 w ->
    forall now : Z,
    exists w' : Main.World,
      Main.revoke_memory rt now app w
        {| Main.revoke_revocation_token := Main.resp_revocation_token resp |}
      = (Main.HTTP200 {| Main.revoked := true; Main.resp_revoked_at := now |}, w')
      /\ (exists g,
             Main.find_grant
               (Utils.hash_revocation_token rt (Main.resp_revocation_token resp)) app
               (Main.db w') = Some g
             /\ Main.revoked_at g = Some now)
      /\ forall w'' : Main.World,
           Main.steps rt (fun _ => True) w' w'' ->
           forall (now' : Z) (max_age : option Z),
             Main.continue_read_memory rt now' app w''
               {| Main.continue_revocation_token := Main.resp_revocation_token resp;
                  Main.continue_max_age_days := max_age |}
             = (Main.HTTPException 403 "REVOKED", w'')
             /\ Main.revoke_memory rt now' app w''
                  {| Main.revoke_revocation_token := Main.resp_revocation_token resp |}
                = (Main.HTTPException 404 "Revocation token not found", w'')
             /\ forall (unknown : string) (wu : Main.World),
                  Main.find_grant (Utils.hash_revocation_token rt unknown) app (Main.db wu)
                  = None ->
                  Main.revoke_memory rt now' app wu
                    {| Main.revoke_revocation_token := unknown |}
                  = (Main.HTTPException 404 "Revocation token not found", wu).
Proof.
  intros Hread w Hsteps now.
  pose proof (read_memory_issues_live_grant rt _ _ _ _ _ _ Hread) as Hlive.
  pose proof (live_steps rt _ _ _ _ Hsteps Hlive) as Hlive'.
  destruct (revoke_live rt now app w _ Hlive') as [w' [Hrev [g [Hf Hr]]]].
  exists w'. split; [exact Hrev |]. split; [exists g; auto |].
  intros w'' Hsteps' now' max_age.
  assert (Hdead : Main.dead (Utils.hash_revocation_token rt (Main.resp_revocation_token resp))
                            app w') by (exists g, now; auto).
  pose proof (dead_steps rt _ _ _ _ Hsteps' Hdead) as Hdead'.
  destruct (requests_dead rt now' app w'' _ max_age Hdead') as [Hc Hv].
  split; [exact Hc |]. split; [exact Hv |].
  intros unknown wu Hnone. unfold Main.revoke_memory. simpl. rewrite Hnone. reflexivity.
Qed.

Lemma grant_round_trip_witness :
  Main.read_memory Example.runtime 1000 "app" Example.empty_world Example.read_request
  = (Main.HTTP200 Example.issued_response, Example.world_after_read)
  /\ exists w' : Main.World,
       Main.revoke_memory Example.runtime 2000 "app" Example.world_after_read
         {| Main.revoke_revocation_token :=
              Main.resp_revocation_token Example.issued_response |}
       = (Main.HTTP200 {| Main.revoked := true; Main.resp_revoked_at := 2000 |}, w')
       /\ Main.continue_read_memory Example.runtime 3000 "app" w'
            {| Main.continue_revocation_token :=
                 Main.resp_revocation_token Example.issued_response;
               Main.continue_max_age_days := None |}
          = (Main.HTTPException 403 "REVOKED", w').
Proof.
  assert (Hread : Main.read_memory Example.runtime 1000 "app" Example.empty_world
                    Example.read_request
                  = (Main.HTTP200 Example.issued_response, Example.world_after_read))
    by reflexivity.
  split; [exact Hread |].
  destruct (grant_round_trip Example.runtime 1000 "app" Example.empty_world
              Example.read_request Example.issued_response Example.world_after_read
              Hread Example.world_after_read (Main.steps_refl _ _ _) 2000)
    as [w' [Hrev [_ Hafter]]].
  exists w'. split; [exact Hrev |].
  exact (proj1 (Hafter w' (Main.steps_refl _ _ _) 3000%Z None)).
Defined.

(* ------------------------------------------------------------------ *)
(** ** Ingest policy and impact extraction *)

(** C1 (what the code does): under the default policy no rule matches
    during ingest evaluation, whatever the memory: the rule
    [seal_sensitive_events] compares the list [sensitivity.categories] as a
    whole with the members of its own list.  The state of the ingest
    decision is the state of the request, and the event of scenario S4
    (categories [shame]) is answered and stored with state [active]. *)
Theorem seal_sensitive_events_never_matches :
  (forall memory : MemoryObject.t,
      PolicyEngine.evaluate_ingest PolicyEngine.default memory []
      = Ok {| PolicyEngine.ingest_decision :=
                {| PolicyEngine.ingest_allowed := true;
                   PolicyEngine.ingest_state := MemoryObject.state memory;
                   PolicyEngine.derive_impacts := true;
                   PolicyEngine.derive_seeds := true |};
              PolicyEngine.ingest_trace :=
                {| PolicyEngine.trace_policy_version := "pol_2026_01_06_01";
                   PolicyEngine.matched_rules := [];
                   PolicyEngine.denied_reasons := [] |} |})
  /\ (exists response db,
         V2Api.create_memory_v2 Example.runtime PolicyEngine.default 1000 "app"
           Example.shame_request Example.empty_session
         = (V2Api.Respond 201 response, db)
         /\ V2Api.created_state response = MemoryState.ACTIVE
         /\ map Storage.state (Storage.memories_v2 db) = ["active"; "active"]).
Proof.
  split.
  - intros memory.
    destruct memory as [i t sc ty tm st [lv cats hd] [ot ow cl sb ds vi]
                          te co af ip sp pp so sg pr hi rp rtr].
    destruct ty, tm, ds; reflexivity.
  - eexists. eexists. split; [vm_compute; reflexivity |]. split; reflexivity.
Qed.

(* ------------------------------------------------------------------ *)
(** ** Commits and refreshes *)

Section Commits.
Import Storage.
Variable rt : Runtime.

Lemma ingest_left_trans (db db1 db2 : Session) rows1 links1 rows2 links2 :
  V2Api.ingest_left db db1 rows1 links1 ->
  V2Api.ingest_left db1 db2 rows2 links2 ->
  V2Api.ingest_left db db2 (rows1 +++ rows2) (links1 +++ links2).
Proof.
  unfold V2Api.ingest_left. intros [A1 [B1 C1]] [A2 [B2 C2]].
  rewrite A2, A1, B2, B1, C2, C1, !app_assoc. auto.
Qed.

Lemma ingest_left_set_draws (db : Session) (n : nat) :
  V2Api.ingest_left db (set_draws n db) [] [].
Proof. unfold V2Api.ingest_left. simpl. rewrite !app_nil_r. auto. Qed.

Lemma not_taken (row : MemoryV2) (rows : list MemoryV2) :
  existsb (fun r => String.eqb (id r) (id row)) rows = false ->
  ~ In (id row) (map id rows).
Proof.
  intros Hex Hin. apply in_map_iff in Hin. destruct Hin as [r [E Hr]].
  assert (Hex' : existsb (fun r0 => String.eqb (id r0) (id row)) rows = true)
    by (apply existsb_exists; exists r; split; [exact Hr | apply String.eqb_eq; exact E]).
  rewrite Hex' in Hex. discriminate.
Qed.

(** What [store_memory] leaves behind: nothing when the commit raises; the
    row when the commit went through, whether the refresh raises or not. *)
Lemma store_memory_cases (now : Z) (memory : MemoryObject.t) (app_id : string)
    (db : Session) :
  (exists e db', store_memory now memory app_id db = (Raise e, db')
                 /\ V2Api.ingest_left db db' [] [])
  \/ (exists e db', store_memory now memory app_id db = (Raise e, db')
                    /\ V2Api.ingest_left db db' [memory_object_to_db now memory app_id] []
                    /\ ~ In (MemoryObject.id memory) (map id (memories_v2 db)))
  \/ (exists db', store_memory now memory app_id db
                  = (Ok (memory_object_to_db now memory app_id), db')
                  /\ V2Api.ingest_left db db' [memory_object_to_db now memory app_id] []
                  /\ ~ In (MemoryObject.id memory) (map id (memories_v2 db))).
Proof.
  unfold store_memory, bindM, commit, refresh, insert_memory, ret, V2Api.ingest_left.
  destruct (match outages db with b :: _ => b | [] => false end).
  - left. do 2 eexists. split; [reflexivity |]. simpl. rewrite !app_nil_r. auto.
  - destruct (fits_numeric_3_2 _).
    + cbn [memories_v2 memory_links_v2 access_logs_v2 outages].
      destruct (existsb _ (memories_v2 db)) eqn:Hex.
      * left. do 2 eexists. split; [reflexivity |]. simpl. rewrite !app_nil_r. auto.
      * apply not_taken in Hex. cbn [set_tables outages].
        destruct (match tl (outages db) with b :: _ => b | [] => false end).
        -- right. left. do 2 eexists. split; [reflexivity |].
           simpl. rewrite !app_nil_r. auto.
        -- right. right. eexists. split; [reflexivity |].
           simpl. rewrite !app_nil_r. auto.
    + left. do 2 eexists. split; [reflexivity |]. simpl. rewrite !app_nil_r. auto.
Qed.

(** [store_memory] raises, and stores nothing, when the id is taken. *)
Lemma store_memory_taken (now : Z) (memory : MemoryObject.t) (app_id : string)
    (db : Session) :
  In (MemoryObject.id memory) (map id (memories_v2 db)) ->
  exists e db', store_memory now memory app_id db = (Raise e, db')
                /\ memories_v2 db' = memories_v2 db.
Proof.
  intros Hin.
  destruct (store_memory_cases now memory app_id db)
    as [[e [db' [E [Hm _]]]] | [[e [db' [_ [_ Hfresh]]]] | [db' [_ [_ Hfresh]]]]];
    try contradiction.
  exists e, db'. rewrite app_nil_r in Hm. auto.
Qed.

Lemma store_memory_link_cases (link : DerivedObjectLink.t) (db : Session) :
  (exists e db', store_memory_link rt link db = (Raise e, db')
                 /\ V2Api.ingest_left db db' [] [])
  \/ (exists e row db', store_memory_link rt link db = (Raise e, db')
                        /\ V2Api.ingest_left db db' [] [row])
  \/ (exists row db', store_memory_link rt link db = (Ok row, db')
                      /\ V2Api.ingest_left db db' [] [row]).
Proof.
  unfold store_memory_link, bindM, commit, refresh, draw, ret, V2Api.ingest_left.
  cbn [set_draws outages memories_v2 memory_links_v2 access_logs_v2].
  destruct (match outages db with b :: _ => b | [] => false end).
  - left. do 2 eexists. split; [reflexivity |]. simpl. rewrite !app_nil_r. auto.
  - destruct (fits_numeric_3_2 _).
    + cbn [set_tables outages].
      destruct (match tl (outages db) with b :: _ => b | [] => false end).
      * right. left. do 3 eexists. split; [reflexivity |].
        simpl. rewrite !app_nil_r. auto.
      * right. right. do 2 eexists. split; [reflexivity |].
        simpl. rewrite !app_nil_r. auto.
    + left. do 2 eexists. split; [reflexivity |]. simpl. rewrite !app_nil_r. auto.
Qed.

(** What [extract_and_store_impact] leaves behind. *)
Lemma extract_and_store_impact_cases (now : Z) (event : MemoryObject.t)
    (app_id : string) (extractor : ImpactExtraction.ImpactExtractor)
    (policy_allows : bool) (db : Session) :
  exists r db',
    ImpactExtraction.extract_and_store_impact rt now event app_id extractor
      policy_allows db = (r, db')
    /\ ((r = Ok None /\ V2Api.ingest_left db db' [] [])
        \/ (exists e, r = Raise e /\ V2Api.ingest_left db db' [] [])
        \/ (exists e impact_row, r = Raise e /\ V2Api.ingest_left db db' [impact_row] [])
        \/ (exists e impact_row link_row,
               r = Raise e /\ V2Api.ingest_left db db' [impact_row] [link_row])
        \/ (exists impact n link_row,
               r = Ok (Some impact)
               /\ ImpactExtraction.extract_impacts rt now extractor event policy_allows
                    (draws db) = (Some impact, n)
               /\ V2Api.ingest_left db db' [memory_object_to_db now impact app_id]
                    [link_row]
               /\ ~ In (MemoryObject.id impact) (map id (memories_v2 db)))).
Proof.
  unfold ImpactExtraction.extract_and_store_impact.
  unfold bindM at 1. unfold generate.
  destruct (ImpactExtraction.extract_impacts rt now extractor event policy_allows
              (draws db)) as [[impact |] n].
  - unfold bindM at 1.
    destruct (store_memory_cases now impact app_id (set_draws n db))
      as [[e [db1 [H1 L1]]] | [[e [db1 [H1 [L1 _]]]] | [db1 [H1 [L1 Hfresh]]]]];
      rewrite H1.
    + do 2 eexists. split; [reflexivity |]. right. left. exists e. split; [reflexivity |].
      apply (ingest_left_trans _ _ _ [] [] [] [] (ingest_left_set_draws db n) L1).
    + do 2 eexists. split; [reflexivity |]. right. right. left.
      exists e. eexists. split; [reflexivity |].
      apply (ingest_left_trans _ _ _ [] [] _ [] (ingest_left_set_draws db n) L1).
    + unfold bindM at 1.
      match goal with
      | |- context [store_memory_link rt ?l db1] =>
          destruct (store_memory_link_cases l db1)
            as [[e [db2 [H2 L2]]] | [[e [lrow [db2 [H2 L2]]]] | [lrow [db2 [H2 L2]]]]];
            rewrite H2
      end.
      * do 2 eexists. split; [reflexivity |]. right. right. left.
        exists e. eexists. split; [reflexivity |].
        apply (ingest_left_trans _ _ _ [] [] _ []
                 (ingest_left_set_draws db n)
                 (ingest_left_trans _ _ _ _ [] [] [] L1 L2)).
      * do 2 eexists. split; [reflexivity |]. right. right. right. left.
        exists e. do 2 eexists. split; [reflexivity |].
        apply (ingest_left_trans _ _ _ [] [] _ [lrow]
                 (ingest_left_set_draws db n)
                 (ingest_left_trans _ _ _ _ [] [] [lrow] L1 L2)).
      * do 2 eexists. split; [reflexivity |]. right. right. right. right.
        exists impact, n, lrow. split; [reflexivity |]. split; [reflexivity |].
        split; [| exact Hfresh].
        apply (ingest_left_trans _ _ _ [] [] _ [lrow]
                 (ingest_left_set_draws db n)
                 (ingest_left_trans _ _ _ _ [] [] [lrow] L1 L2)).
  - do 2 eexists. split; [reflexivity |]. left. split; [reflexivity |].
    apply ingest_left_set_draws.
Qed.

End Commits.




(** C7 as stated fails: a non-sealed event with category [shame] whose
    sensitivity level is [low] yields no impact at all, although the policy
    allows the derivation. *)
Lemma low_sensitivity_shame_event_yields_no_impact :
  MemoryObject.state (Example.shame_event_of SensitivityLevel.LOW) <> MemoryState.SEALED
  /\ In "shame" (Sensitivity.categories
                   (MemoryObject.sensitivity (Example.shame_event_of SensitivityLevel.LOW)))
  /\ fst (ImpactExtraction.extract_impacts Example.runtime 1000
            ImpactExtraction.default_extractor
            (Example.shame_event_of SensitivityLevel.LOW) true 0%nat) = None.
Proof.
  split; [discriminate |]. split; [left; reflexivity | reflexivity].
Qed.

Lemma has_category_in (x : string) (event : MemoryObject.t) :
  In x (Sensitivity.categories (MemoryObject.sensitivity event)) ->
  ImpactExtraction.has_category x event = true.
Proof.
  intros H. unfold ImpactExtraction.has_category. apply existsb_exists.
  exists x. split; [exact H | apply String.eqb_refl].
Qed.

(** C7 (amended): for every non-sealed event whose sensitivity level is
    [high] or [critical] and whose categories contain [shame] or
    [moral_injury], and for which policy allows impact derivation, the
    extractor returns an impact whose constraints hold an [avoid] constraint
    with params [content_class = judgment_language] and a [tone] constraint
    with params [tone_profile = non_judgmental], and, when [trauma] is among
    the categories too, a [safety] constraint with params
    [mode = supportive_reframe_only], [consent_required = true]. *)
Theorem shame_event_emits_avoid_and_tone
    (rt : Runtime) (now : Z) (extractor : ImpactExtraction.ImpactExtractor)
    (event : MemoryObject.t) (n : nat) :
  MemoryObject.state event <> MemoryState.SEALED ->
  (Sensitivity.level (MemoryObject.sensitivity event) = SensitivityLevel.HIGH
   \/ Sensitivity.level (MemoryObject.sensitivity event) = SensitivityLevel.CRITICAL) ->
  (In "shame" (Sensitivity.categories (MemoryObject.sensitivity event))
   \/ In "moral_injury" (Sensitivity.categories (MemoryObject.sensitivity event))) ->
  exists impact n' constraints,
    ImpactExtraction.extract_impacts rt now extractor event true n = (Some impact, n')
    /\ MemoryObject.impact_payload impact
       = Some {| ImpactPayload.constraints := constraints |}
    /\ ImpactExtraction.emits constraints "avoid" [("content_class", Py.PStr "judgment_language")]
    /\ ImpactExtraction.emits constraints "tone" [("tone_profile", Py.PStr "non_judgmental")]
    /\ (In "trauma" (Sensitivity.categories (MemoryObject.sensitivity event)) ->
        ImpactExtraction.emits constraints "safety"
          [("mode", Py.PStr "supportive_reframe_only");
           ("consent_required", Py.PBool true)]).
Proof.
  intros Hstate Hlevel Hcat.
  assert (Hsealed : MemoryState.eqb (MemoryObject.state event) MemoryState.SEALED = false).
  { destruct (MemoryObject.state event); try reflexivity. congruence. }
  assert (Hshame : ImpactExtraction.has_category "shame" event
                   || ImpactExtraction.has_category "moral_injury" event = true).
  { apply orb_true_iff.
    destruct Hcat as [H | H]; [left | right]; apply has_category_in; exact H. }
  assert (Hhigh : match Sensitivity.level (MemoryObject.sensitivity event) with
                  | SensitivityLevel.HIGH | SensitivityLevel.CRITICAL => true
                  | _ => false
                  end = true)
    by (destruct Hlevel as [H | H]; rewrite H; reflexivity).
  destruct (ImpactExtraction.collect_constraints rt now extractor event n)
    as [constraints n1] eqn:Hcollect.
  assert (Hemit :
            ImpactExtraction.emits constraints "avoid" [("content_class", Py.PStr "judgment_language")]
            /\ ImpactExtraction.emits constraints "tone" [("tone_profile", Py.PStr "non_judgmental")]
            /\ (In "trauma" (Sensitivity.categories (MemoryObject.sensitivity event)) ->
                ImpactExtraction.emits constraints "safety"
                  [("mode", Py.PStr "supportive_reframe_only");
                   ("consent_required", Py.PBool true)])).
  { unfold ImpactExtraction.collect_constraints in Hcollect.
    rewrite Hhigh, Hshame in Hcollect. simpl andb in Hcollect.
    destruct (ImpactExtraction.has_category "trauma" event) eqn:Htrauma;
      simpl in Hcollect;
      destruct (MemoryObject.type event);
      repeat match type of Hcollect with
             | context [match ?x with Some _ => _ | None => _ end] => destruct x
             end;
      simpl in Hcollect; inversion Hcollect; subst; clear Hcollect;
      (split; [| split]);
      try (intros Hin; apply has_category_in in Hin; congruence);
      try (intros _);
      unfold ImpactExtraction.emits;
      try (eexists; split; [left; reflexivity | split; reflexivity]);
      try (eexists; split; [right; left; reflexivity | split; reflexivity]);
      try (eexists; split; [right; right; left; reflexivity | split; reflexivity]). }
  unfold ImpactExtraction.extract_impacts. simpl negb. cbv iota.
  rewrite Hsealed, Hcollect.
  destruct constraints as [| c cs].
  - destruct Hemit as [[c [[] _]] _].
  - eexists. eexists. exists (c :: cs).
    split; [reflexivity |]. split; [reflexivity | exact Hemit].
Qed.

Lemma shame_event_emits_avoid_and_tone_witness :
  exists impact n' constraints,
    ImpactExtraction.extract_impacts Example.runtime 1000
      ImpactExtraction.default_extractor (Example.shame_event_of SensitivityLevel.HIGH)
      true 0%nat = (Some impact, n')
    /\ MemoryObject.impact_payload impact
       = Some {| ImpactPayload.constraints := constraints |}
    /\ ImpactExtraction.emits constraints "avoid" [("content_class", Py.PStr "judgment_language")]
    /\ ImpactExtraction.emits constraints "tone" [("tone_profile", Py.PStr "non_judgmental")].
Proof.
  destruct (shame_event_emits_avoid_and_tone Example.runtime 1000
              ImpactExtraction.default_extractor
              (Example.shame_event_of SensitivityLevel.HIGH) 0%nat)
    as [impact [n' [cs [He [Hp [Ha [Ht _]]]]]]].
  - discriminate.
  - left. reflexivity.
  - left. left. reflexivity.
  - exists impact, n', cs. auto.
Defined.

(* ------------------------------------------------------------------ *)
(** ** Retrieval *)

Lemma insert_sorted_Permutation {A : Type} (leb : A -> A -> bool) (x : A) (l : list A) :
  Permutation (insert_sorted leb x l) (x :: l).
Proof.
  induction l as [| y l IH]; simpl; [reflexivity |].
  destruct (leb x y); [reflexivity |].
  rewrite IH. apply perm_swap.
Qed.

Lemma sorted_Permutation {A : Type} (leb : A -> A -> bool) (l : list A) :
  Permutation (sorted leb l) l.
Proof.
  induction l as [| x l IH]; simpl; [reflexivity |].
  rewrite insert_sorted_Permutation. constructor. exact IH.
Qed.

(** Rows with unique keys keep unique keys under a selection. *)
Lemma unique_keys_filter {Row Key : Type} (key : Row -> Key) (rows : list Row)
    (keep : Row -> bool) (Hunique : NoDup (map key rows)) :
  NoDup (map key (filter keep rows)).
Proof.
  induction rows as [| r rows IH]; simpl; [constructor |].
  simpl in Hunique. apply NoDup_cons_iff in Hunique. destruct Hunique as [Hnew Hrest].
  destruct (keep r); simpl; [| exact (IH Hrest)].
  apply NoDup_cons; [| exact (IH Hrest)].
  rewrite in_map_iff. intros [r' [Ekey Hin]]. apply Hnew.
  rewrite in_map_iff. exists r'. rewrite filter_In in Hin. tauto.
Qed.

Lemma unique_keys_firstn {Row Key : Type} (key : Row -> Key) (k : nat) (rows : list Row)
    (Hunique : NoDup (map key rows)) :
  NoDup (map key (firstn k rows)).
Proof.
  rewrite <- (firstn_skipn k rows), map_app in Hunique.
  eapply NoDup_app_remove_r. exact Hunique.
Qed.

Lemma fetched_ids_unique (rt : Runtime) (db : Storage.Session) (tenant_id : string)
    (scope : Scope.t) (filters : Storage.Filters) (limit : nat) (query_text : option string) :
  NoDup (Storage.object_ids db) ->
  NoDup (map MemoryObject.id
           (Storage.query_memories rt db tenant_id scope filters limit query_text)).
Proof.
  unfold Storage.object_ids, Storage.query_memories, Storage.db_to_memory_object.
  intros H. rewrite map_map.
  apply unique_keys_firstn.
  eapply Permutation_NoDup;
    [apply Permutation_map, Permutation_sym, sorted_Permutation |].
  do 3 apply unique_keys_filter. exact H.
Qed.

Section PolicyFilter.
Import Retrieval.
Variable pe : PolicyEngine.t.
Variable purpose : PurposeType.t.
Hypothesis Hdefaults : PolicyEngine.declares_read_defaults pe.

Lemma evaluate_query_total (memory : MemoryObject.t) :
  exists r, PolicyEngine.evaluate_query pe memory purpose [] = Ok r.
Proof.
  destruct Hdefaults as [[b1 H1] [b2 H2]].
  unfold PolicyEngine.evaluate_query. rewrite H1, H2. simpl.
  destruct (fold_left _ _ _) as [[m a] i]. eexists. reflexivity.
Qed.

(** One round of the loop either denies the memory or allows it. *)
Lemma categorize_cases (acc : Acc) (memory : MemoryObject.t) :
  exists acc',
    categorize pe purpose acc memory = Ok acc'
    /\ ((allowed_memories acc' = allowed_memories acc
         /\ acc_denied_ids acc' = acc_denied_ids acc +++ [MemoryObject.id memory])
        \/ (allowed_memories acc' = allowed_memories acc +++ [memory]
            /\ acc_denied_ids acc' = acc_denied_ids acc)).
Proof.
  unfold categorize.
  destruct (evaluate_query_total memory) as [r Hr]. rewrite Hr. simpl.
  destruct (negb _).
  - eexists. split; [reflexivity |]. left. split; reflexivity.
  - destruct (MemoryObject.type memory);
      (eexists; split; [reflexivity |]; right; split; reflexivity).
Qed.

Lemma categorize_all (memories : list MemoryObject.t) (acc : Acc) :
  exists acc',
    for_each (categorize pe purpose) memories acc = Ok acc'
    /\ (forall m, In m (allowed_memories acc') ->
                  In m (allowed_memories acc) \/ In m memories)
    /\ (forall i, In i (acc_denied_ids acc) -> In i (acc_denied_ids acc'))
    /\ (forall m, In m memories ->
                  In m (allowed_memories acc')
                  \/ In (MemoryObject.id m) (acc_denied_ids acc')).
Proof.
  revert acc.
  induction memories as [| memory memories IH]; intros acc; simpl.
  - exists acc. split; [reflexivity |]. repeat split; auto. intros m [].
  - destruct (categorize_cases acc memory) as [acc1 [H1 Hcase]].
    rewrite H1. simpl.
    destruct (IH acc1) as [acc' [H' [Hsub [Hden Hall]]]].
    exists acc'. split; [exact H' |].
    assert (Hallowed1 : forall m, In m (allowed_memories acc1) ->
                                  In m (allowed_memories acc) \/ m = memory).
    { intros m Hm. destruct Hcase as [[E _] | [E _]]; rewrite E in Hm; auto.
      apply in_app_or in Hm. destruct Hm as [Hm | [Hm | []]]; auto. }
    repeat split.
    + intros m Hm. destruct (Hsub m Hm) as [Hm1 | Hm1]; [| auto].
      destruct (Hallowed1 m Hm1) as [? | ?]; subst; auto.
    + intros i Hi. apply Hden.
      destruct Hcase as [[_ E] | [_ E]]; rewrite E; auto. apply in_or_app; auto.
    + intros m [Hm | Hm]; [subst m | auto].
      destruct Hcase as [[_ E] | [E _]].
      * right. apply Hden. rewrite E. apply in_or_app. right. left. reflexivity.
      * assert (Hin : In memory (allowed_memories acc1))
          by (rewrite E; apply in_or_app; right; left; reflexivity).
        clear - Hin H' Hdefaults. revert acc1 acc' Hin H'.
        induction memories as [| x xs IHxs]; intros acc1 acc' Hin H'; simpl in H'.
        -- inversion H'; subst. auto.
        -- destruct (categorize_cases acc1 x) as [acc2 [H2 Hc2]].
           rewrite H2 in H'. simpl in H'.
           apply (IHxs acc2 acc'); [| exact H'].
           destruct Hc2 as [[E _] | [E _]]; rewrite E; auto.
           apply in_or_app; auto.
Qed.
End PolicyFilter.

Lemma task_filter (allowed : list MemoryObject.t)
    (st : list MemoryObject.t * list string) :
  fold_left Retrieval.task_step allowed st
  = (fst st +++ filter (fun m => negb (Retrieval.nonfactual (MemoryObject.truth_mode m)))
                       allowed,
     snd st +++ map MemoryObject.id
                    (filter (fun m => Retrieval.nonfactual (MemoryObject.truth_mode m))
                            allowed)).
Proof.
  revert st.
  induction allowed as [| m allowed IH]; intros [ta di]; simpl.
  - rewrite !app_nil_r. reflexivity.
  - rewrite IH. unfold Retrieval.task_step.
    destruct (Retrieval.nonfactual (MemoryObject.truth_mode m)); simpl;
      rewrite <- !app_assoc; reflexivity.
Qed.

(** C4: whatever rules the policy declares (its defaults for [read] and
    [include_in_prompt] being declared, so that the evaluation returns), a
    v2 query with purpose [task_execution] returns a result in which the id
    of every fetched memory whose truth mode is counterfactual, imagined or
    socially sourced is listed in [denied_ids] and is absent from
    [memory_ids]; memory ids are the keys of the store. *)
Theorem nonfactual_blocks_tools
    (rt : Runtime) (pe : PolicyEngine.t) (db : Storage.Session)
    (tenant_id : string) (scope : Scope.t) (query_text : option string) (limit : nat) :
  PolicyEngine.declares_read_defaults pe ->
  NoDup (Storage.object_ids db) ->
  exists r : Retrieval.Result,
    Retrieval.retrieve_for_purpose rt pe db tenant_id scope PurposeType.TASK_EXECUTION
      query_text limit = Ok r
    /\ forall m : MemoryObject.t,
         In m (Storage.query_memories rt db tenant_id scope
                 (Retrieval.purpose_filters PurposeType.TASK_EXECUTION)
                 (limit * 2) query_text) ->
         MemoryObject.truth_mode m = TruthMode.COUNTERFACTUAL
         \/ MemoryObject.truth_mode m = TruthMode.IMAGINED
         \/ MemoryObject.truth_mode m = TruthMode.SOCIALLY_SOURCED ->
         In (MemoryObject.id m) (Retrieval.denied_ids r)
         /\ ~ In (MemoryObject.id m) (Retrieval.memory_ids r).
Proof.
  intros Hdefaults Hkeys.
  unfold Retrieval.retrieve_for_purpose, Retrieval.apply_policy.
  set (fetched := Storage.query_memories rt db tenant_id scope _ _ query_text).
  assert (Hnd : NoDup (map MemoryObject.id fetched)) by (apply fetched_ids_unique; exact Hkeys).
  destruct (categorize_all pe PurposeType.TASK_EXECUTION Hdefaults fetched
              {| Retrieval.allowed_memories := []; Retrieval.acc_denied_ids := [];
                 Retrieval.acc_impacts := []; Retrieval.acc_seeds := [];
                 Retrieval.acc_events := [] |})
    as [acc [Hloop [Hsub [_ Hall]]]].
  rewrite Hloop. simpl bind. rewrite task_filter. simpl fst. simpl snd.
  eexists. split; [reflexivity |].
  intros m Hm Hmode.
  assert (Hnf : Retrieval.nonfactual (MemoryObject.truth_mode m) = true)
    by (destruct Hmode as [E | [E | E]]; rewrite E; reflexivity).
  simpl. split.
  - apply in_or_app. destruct (Hall m Hm) as [Ha | Hd]; [right | left; exact Hd].
    apply in_map. apply filter_In. split; assumption.
  - intros Hin. apply in_map_iff in Hin. destruct Hin as [x [Hid Hx]].
    apply filter_In in Hx. destruct Hx as [Hx Hfact].
    assert (Hxf : In x fetched) by (destruct (Hsub x Hx) as [[] | ?]; assumption).
    assert (x = m).
    { clear - Hnd Hid Hxf Hm.
      induction fetched as [| y ys IH]; [destruct Hm |].
      simpl in Hnd. inversion Hnd as [| ? ? Hnin Hnd']; subst.
      destruct Hxf as [? | Hxf], Hm as [? | Hm]; subst; auto.
      - exfalso. apply Hnin. rewrite Hid. apply in_map. exact Hm.
      - exfalso. apply Hnin. rewrite <- Hid. apply in_map. exact Hxf. }
    subst x. rewrite Hnf in Hfact. discriminate.
Qed.

Lemma nonfactual_blocks_tools_witness :
  exists (r : Retrieval.Result) (m : MemoryObject.t),
    Retrieval.retrieve_for_purpose Example.runtime Example.permissive Example.session_ab
      "t_demo" Example.user_scope PurposeType.TASK_EXECUTION None 50 = Ok r
    /\ In m (Storage.query_memories Example.runtime Example.session_ab "t_demo"
               Example.user_scope
               (Retrieval.purpose_filters PurposeType.TASK_EXECUTION) (50 * 2) None)
    /\ MemoryObject.truth_mode m = TruthMode.COUNTERFACTUAL
    /\ In (MemoryObject.id m) (Retrieval.denied_ids r)
    /\ ~ In (MemoryObject.id m) (Retrieval.memory_ids r)
    /\ Retrieval.memory_ids r <> [].
Proof.
  destruct (nonfactual_blocks_tools Example.runtime Example.permissive Example.session_ab
              "t_demo" Example.user_scope None 50) as [r [Hr Hall]].
  - split; eexists; reflexivity.
  - vm_compute. repeat constructor; simpl; intuition discriminate.
  - exists r. eexists. split; [exact Hr |].
    split; [vm_compute; right; left; reflexivity |].
    split; [reflexivity |].
    split; [| split].
    + apply Hall; [vm_compute; right; left; reflexivity | left; reflexivity].
    + apply Hall; [vm_compute; right; left; reflexivity | left; reflexivity].
    + intros E. vm_compute in Hr. injection Hr as Hr. rewrite <- Hr in E.
      discriminate E.
Defined.

Lemma default_policy_denies_task_execution (memory : MemoryObject.t) :
  exists r,
    PolicyEngine.evaluate_query PolicyEngine.default memory PurposeType.TASK_EXECUTION []
    = Ok r
    /\ PolicyEngine.allowed (PolicyEngine.query_decision r) = false.
Proof.
  destruct memory as [i t sc ty tm st [lv cats hd] [ot ow cl sb ds vi]
                        te co af ip sp pp so sg pr hi rp rtr].
  destruct ty, tm, ds; eexists; split; reflexivity.
Qed.

Lemma default_policy_denies_all_for_tasks (memories : list MemoryObject.t)
    (acc : Retrieval.Acc) :
  for_each (Retrieval.categorize PolicyEngine.default PurposeType.TASK_EXECUTION)
           memories acc
  = Ok {| Retrieval.allowed_memories := Retrieval.allowed_memories acc;
          Retrieval.acc_denied_ids :=
            Retrieval.acc_denied_ids acc +++ map MemoryObject.id memories;
          Retrieval.acc_impacts := Retrieval.acc_impacts acc;
          Retrieval.acc_seeds := Retrieval.acc_seeds acc;
          Retrieval.acc_events := Retrieval.acc_events acc |}.
Proof.
  revert acc.
  induction memories as [| m ms IH]; intros acc; simpl.
  - rewrite app_nil_r. destruct acc; reflexivity.
  - unfold Retrieval.categorize at 1.
    destruct (default_policy_denies_task_execution m) as [r [Hr Hdeny]].
    rewrite Hr. simpl bind. rewrite Hdeny. simpl negb. cbv iota.
    simpl bind. rewrite IH. simpl. rewrite <- app_assoc. reflexivity.
Qed.

(** C3 as stated fails: after the ingest of A (factual claim) and B
    (counterfactual) in one scope, the query with purpose [task_execution]
    lists the id of A in [denied_ids], not in [memory_ids]. *)
Lemma task_execution_query_denies_factual_memory :
  exists a b q db1 db2 db3,
    V2Api.create_memory_v2 Example.runtime PolicyEngine.default 1000 "app"
      Example.request_a Example.empty_session = (V2Api.Respond 201 a, db1)
    /\ V2Api.create_memory_v2 Example.runtime PolicyEngine.default 1001 "app"
         Example.request_b db1 = (V2Api.Respond 201 b, db2)
    /\ V2Api.query_memories_v2 Example.runtime PolicyEngine.default 1002 "app" None
         Example.task_query db2 = (V2Api.Respond 200 q, db3)
    /\ ~ In (V2Api.created_id a) (V2Api.memory_ids q)
    /\ In (V2Api.created_id a) (V2Api.denied_ids q)
    /\ In (V2Api.created_id b) (V2Api.denied_ids q).
Proof.
  do 6 eexists.
  split; [vm_compute; reflexivity |].
  split; [vm_compute; reflexivity |].
  split; [vm_compute; reflexivity |].
  simpl. split; [intros [] |]. split; [left; reflexivity | right; left; reflexivity].
Qed.

(** C3 (amended): given two memories of one tenant and scope that the
    query fetches, A with truth mode [factual_claim] and B with truth mode
    [counterfactual], a v2 query with purpose [task_execution] under the
    default policy returns a result whose [denied_ids] contains both A.id
    and B.id and whose [memory_ids] is empty: no rule of the default policy
    allows a read for [task_execution], so A falls to the default
    [read = deny]. *)
Theorem task_execution_denies_both
    (rt : Runtime) (db : Storage.Session) (tenant_id : string) (scope : Scope.t)
    (query_text : option string) (limit : nat) (A B : MemoryObject.t) :
  MemoryObject.truth_mode A = TruthMode.FACTUAL_CLAIM ->
  MemoryObject.truth_mode B = TruthMode.COUNTERFACTUAL ->
  In A (Storage.query_memories rt db tenant_id scope
          (Retrieval.purpose_filters PurposeType.TASK_EXECUTION) (limit * 2) query_text) ->
  In B (Storage.query_memories rt db tenant_id scope
          (Retrieval.purpose_filters PurposeType.TASK_EXECUTION) (limit * 2) query_text) ->
  exists r : Retrieval.Result,
    Retrieval.retrieve_for_purpose rt PolicyEngine.default db tenant_id scope
      PurposeType.TASK_EXECUTION query_text limit = Ok r
    /\ Retrieval.memory_ids r = []
    /\ In (MemoryObject.id A) (Retrieval.denied_ids r)
    /\ In (MemoryObject.id B) (Retrieval.denied_ids r).
Proof.
  intros _ _ HA HB.
  unfold Retrieval.retrieve_for_purpose, Retrieval.apply_policy.
  rewrite default_policy_denies_all_for_tasks. simpl.
  eexists. split; [reflexivity |]. simpl.
  split; [reflexivity |]. split; apply in_map; assumption.
Qed.

Lemma task_execution_denies_both_witness :
  exists (A B : MemoryObject.t) (r : Retrieval.Result),
    MemoryObject.truth_mode A = TruthMode.FACTUAL_CLAIM
    /\ MemoryObject.truth_mode B = TruthMode.COUNTERFACTUAL
    /\ Retrieval.retrieve_for_purpose Example.runtime PolicyEngine.default
         Example.session_ab "t_demo" Example.user_scope
         PurposeType.TASK_EXECUTION None 50 = Ok r
    /\ Retrieval.memory_ids r = []
    /\ In (MemoryObject.id A) (Retrieval.denied_ids r)
    /\ In (MemoryObject.id B) (Retrieval.denied_ids r).
Proof.
  pose (fetched := Storage.query_memories Example.runtime Example.session_ab "t_demo"
                     Example.user_scope
                     (Retrieval.purpose_filters PurposeType.TASK_EXECUTION) (50 * 2) None).
  pose (A := nth 0 fetched (Example.shame_event_of SensitivityLevel.LOW)).
  pose (B := nth 1 fetched (Example.shame_event_of SensitivityLevel.LOW)).
  assert (HtA : MemoryObject.truth_mode A = TruthMode.FACTUAL_CLAIM) by reflexivity.
  assert (HtB : MemoryObject.truth_mode B = TruthMode.COUNTERFACTUAL) by reflexivity.
  assert (HA : In A fetched) by (vm_compute; left; reflexivity).
  assert (HB : In B fetched) by (vm_compute; right; left; reflexivity).
  destruct (task_execution_denies_both Example.runtime Example.session_ab "t_demo"
              Example.user_scope None 50 A B HtA HtB HA HB) as [r Hr].
  exists A, B, r. tauto.
Defined.

(* ------------------------------------------------------------------ *)
(** ** Ingest and the store *)


(** C6 as stated fails: when the database is lost right after the commit of
    the event, before the insert of its impact, the ingest is answered 500
    and the row of the event stays in the store. *)
Lemma failed_ingest_leaves_event_row :
  exists detail db',
    V2Api.create_memory_v2 Example.runtime PolicyEngine.default 1000 "app"
      Example.shame_request Example.session_lost_after_first_commit
    = (V2Api.HTTPException 500 detail, db')
    /\ map Storage.id (Storage.memories_v2 db') = ["mem_0000000000000000"]
    /\ Storage.memory_links_v2 db' = []
    /\ Storage.memories_v2 Example.session_lost_after_first_commit = [].
Proof.
  do 2 eexists. split; [vm_compute; reflexivity |]. repeat split; reflexivity.
Qed.

(** A failing ingest can leave all three rows: the event, its impact and
    their link are committed, the refresh of the link raises, and the answer
    is 500. *)
Lemma failed_refresh_leaves_link :
  exists detail db',
    V2Api.create_memory_v2 Example.runtime PolicyEngine.default 1000 "app"
      Example.shame_request Example.session_lost_after_link_commit
    = (V2Api.HTTPException 500 detail, db')
    /\ List.length (Storage.memories_v2 db') = 2%nat
    /\ List.length (Storage.memory_links_v2 db') = 1%nat.
Proof.
  do 2 eexists. split; [vm_compute; reflexivity |]. split; reflexivity.
Qed.

(** C6 (amended): a v2 ingest is not atomic.  The insert of the event, the
    insert of the derived impact and the insert of the link are each
    committed on their own, in this order, and the ingest inserts no audit
    row.  An ingest that succeeds has appended the event alone, or the
    event, its impact and their link.  An ingest that fails (answer 500)
    leaves behind the rows committed before the failure: nothing, the event,
    the event and its impact, or the event, its impact and their link (when
    the link is committed and cannot be read back). *)
Theorem ingest_commits_step_by_step
    (rt : Runtime) (policy_engine : PolicyEngine.t) (now : Z) (app_id : string)
    (memory_request : V2Api.MemoryCreateRequestV2) (db : Storage.Session) :
  exists response db',
    V2Api.create_memory_v2 rt policy_engine now app_id memory_request db = (response, db')
    /\ match response with
       | V2Api.Respond _ _ =>
           (exists event_row, V2Api.ingest_left db db' [event_row] [])
           \/ (exists event_row impact_row link_row,
                  V2Api.ingest_left db db' [event_row; impact_row] [link_row])
       | V2Api.HTTPException _ _ =>
           V2Api.ingest_left db db' [] []
           \/ (exists event_row, V2Api.ingest_left db db' [event_row] [])
           \/ (exists event_row impact_row,
                  V2Api.ingest_left db db' [event_row; impact_row] [])
           \/ (exists event_row impact_row link_row,
                  V2Api.ingest_left db db' [event_row; impact_row] [link_row])
       end.
Proof.
  unfold V2Api.create_memory_v2, V2Api.create_memory_body.
  unfold Storage.bindM at 1. unfold Storage.generate.
  destruct (generate_memory_id rt (Storage.draws db)) as [memory_id n].
  pose proof (ingest_left_set_draws db n) as L0.
  unfold Storage.bindM at 1. unfold Storage.lift at 1.
  destruct (V2Api.build_memory memory_id memory_request) as [memory | e].
  2: { do 2 eexists. split; [reflexivity |]. left. exact L0. }
  unfold Storage.bindM at 1. unfold Storage.lift at 1.
  destruct (PolicyEngine.evaluate_ingest policy_engine memory []) as [policy_result | e].
  2: { do 2 eexists. split; [reflexivity |]. left. exact L0. }
  unfold Storage.bindM at 1.
  match goal with
  | |- context [Storage.store_memory now ?m app_id ?d] =>
      destruct (store_memory_cases now m app_id d)
        as [[e [db1 [H1 L1]]] | [[e [db1 [H1 [L1 _]]]] | [db1 [H1 [L1 _]]]]]; rewrite H1;
      set (row := Storage.memory_object_to_db now m app_id) in *
  end.
  { do 2 eexists. split; [reflexivity |]. left.
    apply (ingest_left_trans _ _ _ [] [] [] [] L0 L1). }
  { do 2 eexists. split; [reflexivity |]. right. left. exists row.
    apply (ingest_left_trans _ _ _ [] [] [row] [] L0 L1). }
  pose proof (ingest_left_trans _ _ _ [] [] [row] [] L0 L1) as L01. simpl in L01.
  unfold Storage.bindM at 1.
  destruct (PolicyEngine.derive_impacts _ && MemoryType.eqb _ _).
  - match goal with
    | |- context [ImpactExtraction.extract_and_store_impact rt now ?ev app_id ?ex ?pa db1] =>
        destruct (extract_and_store_impact_cases rt now ev app_id ex pa db1)
          as [r [db2 [H2 Hcase]]]; rewrite H2
    end.
    destruct Hcase as [[Hr L2] | [[e [Hr L2]] | [[e [irow [Hr L2]]]
                      | [[e [irow [lrow [Hr L2]]]] | [imp [k [lrow [Hr [_ [L2 _]]]]]]]]]];
      subst r; do 2 eexists; (split; [reflexivity |]).
    + left. exists row.
      apply (ingest_left_trans _ _ _ [row] [] [] [] L01 L2).
    + right. left. exists row.
      apply (ingest_left_trans _ _ _ [row] [] [] [] L01 L2).
    + right. right. left. exists row, irow.
      apply (ingest_left_trans _ _ _ [row] [] [irow] [] L01 L2).
    + right. right. right. exists row, irow, lrow.
      apply (ingest_left_trans _ _ _ [row] [] [irow] [lrow] L01 L2).
    + right. exists row. do 2 eexists.
      apply (ingest_left_trans _ _ _ [row] [] _ [lrow] L01 L2).
  - do 2 eexists. split; [reflexivity |]. left. exists row. exact L01.
Qed.

(* ------------------------------------------------------------------ *)
(** ** Sealed narrative *)

Section SealedNarrative.
Import Retrieval.
Variable pe : PolicyEngine.t.
Variable purpose : PurposeType.t.

Lemma evaluate_query_variant (m m' : MemoryObject.t) (context : Py.dict) :
  MemoryObject.sealed_variant m m' ->
  PolicyEngine.evaluate_query pe m' purpose context
  = PolicyEngine.evaluate_query pe m purpose context.
Proof.
  intros [E | [_ [c E]]]; subst; [reflexivity |]. destruct m; reflexivity.
Qed.

Lemma variant_fields (m m' : MemoryObject.t) :
  MemoryObject.sealed_variant m m' ->
  MemoryObject.id m' = MemoryObject.id m
  /\ MemoryObject.type m' = MemoryObject.type m
  /\ MemoryObject.state m' = MemoryObject.state m
  /\ MemoryObject.truth_mode m' = MemoryObject.truth_mode m
  /\ MemoryObject.impact_payload m' = MemoryObject.impact_payload m
  /\ MemoryObject.seed_payload m' = MemoryObject.seed_payload m.
Proof.
  intros [E | [_ [c E]]]; subst; [repeat split |]. destruct m; repeat split.
Qed.

Lemma categorize_variant (a a' : Acc) (m m' : MemoryObject.t) :
  acc_alike a a' -> MemoryObject.sealed_variant m m' ->
  outcome_alike (categorize pe purpose a m) (categorize pe purpose a' m').
Proof.
  intros [Hal [Hd [Hi [Hs He]]]] Hv.
  destruct (variant_fields m m' Hv) as [Eid [Ety [Est [_ [Eip Esp]]]]].
  unfold categorize.
  rewrite (evaluate_query_variant m m' [] Hv).
  destruct (PolicyEngine.evaluate_query pe m purpose []) as [r | e]; simpl;
    [| reflexivity].
  rewrite Eid, Ety, Est, Eip, Esp, Hd, Hi, Hs, He.
  assert (Hal' : Forall2 MemoryObject.sealed_variant
                   (allowed_memories a +++ [m]) (allowed_memories a' +++ [m']))
    by (apply Forall2_app; [exact Hal | constructor; [exact Hv | constructor]]).
  destruct (negb _); [repeat split; assumption |].
  destruct (MemoryObject.type m); simpl; repeat split; assumption.
Qed.

Lemma categorize_all_variant (ms ms' : list MemoryObject.t) :
  Forall2 MemoryObject.sealed_variant ms ms' ->
  forall a a', acc_alike a a' ->
  outcome_alike (for_each (categorize pe purpose) ms a)
                (for_each (categorize pe purpose) ms' a').
Proof.
  induction 1 as [| m m' ms ms' Hv _ IH]; intros a a' Ha; simpl; [exact Ha |].
  pose proof (categorize_variant a a' m m' Ha Hv) as Hc.
  destruct (categorize pe purpose a m) as [a1 | e];
    destruct (categorize pe purpose a' m') as [a1' | e']; simpl in *;
    try contradiction; auto.
Qed.

Lemma map_id_variant (l l' : list MemoryObject.t) :
  Forall2 MemoryObject.sealed_variant l l' ->
  map MemoryObject.id l' = map MemoryObject.id l.
Proof.
  induction 1 as [| m m' l l' Hv _ IH]; simpl; [reflexivity |].
  destruct (variant_fields m m' Hv) as [Eid _]. rewrite Eid, IH. reflexivity.
Qed.

Lemma filter_truth_mode_variant (p : TruthMode.t -> bool) (l l' : list MemoryObject.t) :
  Forall2 MemoryObject.sealed_variant l l' ->
  Forall2 MemoryObject.sealed_variant
    (filter (fun m => p (MemoryObject.truth_mode m)) l)
    (filter (fun m => p (MemoryObject.truth_mode m)) l').
Proof.
  induction 1 as [| m m' l l' Hv _ IH]; simpl; [constructor |].
  destruct (variant_fields m m' Hv) as [_ [_ [_ [Etm _]]]]. rewrite Etm.
  destruct (p (MemoryObject.truth_mode m)); [constructor |]; assumption.
Qed.

Lemma apply_policy_variant (ms ms' : list MemoryObject.t) :
  Forall2 MemoryObject.sealed_variant ms ms' ->
  apply_policy pe purpose ms' = apply_policy pe purpose ms.
Proof.
  intros Hv. unfold apply_policy.
  pose proof (categorize_all_variant ms ms' Hv
                {| allowed_memories := []; acc_denied_ids := []; acc_impacts := [];
                   acc_seeds := []; acc_events := [] |}
                {| allowed_memories := []; acc_denied_ids := []; acc_impacts := [];
                   acc_seeds := []; acc_events := [] |}) as Hloop.
  destruct (for_each _ ms _) as [a | e]; destruct (for_each _ ms' _) as [a' | e'];
    simpl in Hloop; try (exfalso; apply Hloop; repeat split; constructor).
  - destruct Hloop as [Hal [Hd [Hi [Hs He]]]]; [repeat split; constructor |].
    simpl. rewrite Hd, Hi, Hs, He.
    destruct purpose; simpl; rewrite ?task_filter; simpl;
      try (rewrite (map_id_variant _ _ Hal); reflexivity).
    rewrite (map_id_variant _ _
               (filter_truth_mode_variant (fun t => negb (nonfactual t)) _ _ Hal)).
    rewrite (map_id_variant _ _ (filter_truth_mode_variant nonfactual _ _ Hal)).
    reflexivity.
  - simpl. rewrite Hloop; [reflexivity | repeat split; constructor].
Qed.
End SealedNarrative.

Section Pointwise.
Context {A B : Type}.
Variable R : A -> A -> Prop.

Lemma Forall2_filter (p : A -> bool) (l l' : list A) :
  (forall x y, R x y -> p y = p x) ->
  Forall2 R l l' -> Forall2 R (filter p l) (filter p l').
Proof.
  intros Hp. induction 1 as [| x y l l' Hxy _ IH]; simpl; [constructor |].
  rewrite (Hp x y Hxy). destruct (p x); [constructor |]; assumption.
Qed.

Lemma Forall2_insert_sorted (leb : A -> A -> bool) (x x' : A) (l l' : list A) :
  (forall a a' b b', R a a' -> R b b' -> leb a' b' = leb a b) ->
  R x x' -> Forall2 R l l' ->
  Forall2 R (insert_sorted leb x l) (insert_sorted leb x' l').
Proof.
  intros Hleb Hx. induction 1 as [| y y' l l' Hy Hl IH]; simpl.
  - constructor; [assumption | constructor].
  - rewrite (Hleb x x' y y' Hx Hy).
    destruct (leb x y); repeat (constructor; try assumption).
Qed.

Lemma Forall2_sorted (leb : A -> A -> bool) (l l' : list A) :
  (forall a a' b b', R a a' -> R b b' -> leb a' b' = leb a b) ->
  Forall2 R l l' -> Forall2 R (sorted leb l) (sorted leb l').
Proof.
  intros Hleb. induction 1 as [| x x' l l' Hx _ IH]; simpl; [constructor |].
  apply Forall2_insert_sorted; assumption.
Qed.

Lemma Forall2_firstn (n : nat) (l l' : list A) :
  Forall2 R l l' -> Forall2 R (firstn n l) (firstn n l').
Proof.
  intros H. revert n. induction H as [| x x' l l' Hx _ IH]; intros [| n]; simpl;
    constructor; auto.
Qed.

Lemma Forall2_map (S : B -> B -> Prop) (f : A -> B) (l l' : list A) :
  (forall x y, R x y -> S (f x) (f y)) ->
  Forall2 R l l' -> Forall2 S (map f l) (map f l').
Proof.
  intros Hf. induction 1; simpl; constructor; auto.
Qed.
End Pointwise.

Section Explain.
Import Storage.
Variable rt : Runtime.

(** Without search terms the rows are selected and ordered by their
    columns alone. *)
Lemma query_memories_variant (db db' : Session) (tenant_id : string) (scope : Scope.t)
    (filters : Filters) (limit : nat) :
  same_but_sealed_content db db' ->
  Forall2 MemoryObject.sealed_variant
    (query_memories rt db tenant_id scope filters limit None)
    (query_memories rt db' tenant_id scope filters limit None).
Proof.
  intros [Hrows _]. unfold query_memories.
  apply Forall2_map with (R := row_variant);
    [intros r r' [o' [Hv Er]]; subst r'; exact Hv |].
  apply Forall2_firstn, Forall2_sorted;
    [intros a a' b b' [oa [_ Ea]] [ob [_ Eb]]; subst a' b'; reflexivity |].
  repeat apply Forall2_filter; try exact Hrows;
    intros r r' [o' [_ Er]]; subst r'; reflexivity.
Qed.

Lemma get_memory_variant (db db' : Session) (memory_id tenant_id : string) :
  same_but_sealed_content db db' ->
  match get_memory db memory_id tenant_id, get_memory db' memory_id tenant_id with
  | Some m, Some m' => MemoryObject.sealed_variant m m'
  | None, None => True
  | _, _ => False
  end.
Proof.
  intros [Hrows _]. unfold get_memory.
  induction Hrows as [| r r' rows rows' [o' [Hv Er]] _ IH]; simpl; [exact I |].
  subst r'. simpl.
  destruct (String.eqb (id r) memory_id && String.eqb (Storage.tenant_id r) tenant_id);
    simpl; [exact Hv | exact IH].
Qed.

Lemma explain_memory_variant (db db' : Session) (tenant_id : string)
    (st : list string * list Observability.AppliedConstraint) (memory_id : string) :
  same_but_sealed_content db db' ->
  Observability.explain_memory db' tenant_id st memory_id
  = Observability.explain_memory db tenant_id st memory_id.
Proof.
  intros H. unfold Observability.explain_memory.
  pose proof (get_memory_variant db db' memory_id tenant_id H) as Hg.
  destruct (get_memory db memory_id tenant_id) as [m |];
    destruct (get_memory db' memory_id tenant_id) as [m' |]; try contradiction;
    [| reflexivity].
  destruct (variant_fields m m' Hg) as [_ [Ety [_ [_ [Eip _]]]]].
  rewrite Ety, Eip. reflexivity.
Qed.

Lemma explain_decision_variant (db db' : Session) (tenant_id : string)
    (access_log_id : option string) (memory_ids : option (list string))
    (request_context : option Py.dict) :
  same_but_sealed_content db db' ->
  Observability.explain_decision rt db' tenant_id access_log_id memory_ids request_context
  = Observability.explain_decision rt db tenant_id access_log_id memory_ids
      request_context.
Proof.
  intros H. unfold Observability.explain_decision, Observability.find_access_log.
  destruct H as [Hrows [Hlinks Hlogs]]. rewrite Hlogs.
  assert (Hfold : forall ids st,
             fold_left (Observability.explain_memory db' tenant_id) ids st
             = fold_left (Observability.explain_memory db tenant_id) ids st).
  { induction ids as [| i ids IH]; intros st; simpl; [reflexivity |].
    rewrite (explain_memory_variant db db' tenant_id st i)
      by (repeat split; assumption).
    apply IH. }
  rewrite Hfold. reflexivity.
Qed.
End Explain.

(** C2: the narrative of a sealed memory does not reach the response of
    /v2/memories/query, /v2/reconstruct, /explain or /replay.  The first
    three answers are computed from the fetched memories ([apply_policy],
    then [build_context] or [summarize]) and /explain from the rows it looks
    up; each answer stays the same when the [content] of sealed memories is
    replaced by any other content.  What the answers are made of: ids,
    constraint records, seed cues and counts.  A request without search
    text moreover fetches the same memories from two stores that differ in
    sealed narrative only; the search terms of a request select the rows by
    the text they hold, and nothing of the text is copied. *)
Theorem sealed_content_never_surfaces
    (rt : Runtime) (pe : PolicyEngine.t) (purpose : PurposeType.t) (include_events : bool)
    (fetched fetched' : list MemoryObject.t)
    (db db' : Storage.Session) (tenant_id : string) (scope : Scope.t) (limit : nat)
    (access_log_id : option string)
    (memory_ids : option (list string)) (request_context : option Py.dict) :
  Forall2 MemoryObject.sealed_variant fetched fetched' ->
  Storage.same_but_sealed_content db db' ->
  (* /v2/memories/query *)
  Retrieval.apply_policy pe purpose fetched' = Retrieval.apply_policy pe purpose fetched
  (* /v2/reconstruct *)
  /\ bind (Retrieval.apply_policy pe purpose fetched')
          (fun retrieved => Reconstruction.build_context rt retrieved include_events)
     = bind (Retrieval.apply_policy pe purpose fetched)
            (fun retrieved => Reconstruction.build_context rt retrieved include_events)
  (* /replay *)
  /\ bind (Retrieval.apply_policy PolicyEngine.default purpose fetched')
          (fun retrieved => Ok (Observability.summarize retrieved))
     = bind (Retrieval.apply_policy PolicyEngine.default purpose fetched)
            (fun retrieved => Ok (Observability.summarize retrieved))
  (* /explain *)
  /\ Observability.explain_decision rt db' tenant_id access_log_id memory_ids
       request_context
     = Observability.explain_decision rt db tenant_id access_log_id memory_ids
         request_context
  (* the retrieval of a request without search text *)
  /\ Retrieval.retrieve_for_purpose rt pe db' tenant_id scope purpose None limit
     = Retrieval.retrieve_for_purpose rt pe db tenant_id scope purpose None limit
  /\ Reconstruction.reconstruct_context rt pe db' tenant_id scope purpose None
       include_events
     = Reconstruction.reconstruct_context rt pe db tenant_id scope purpose None
         include_events.
Proof.
  intros Hfetched Hdb.
  rewrite (apply_policy_variant pe purpose fetched fetched' Hfetched).
  rewrite (apply_policy_variant PolicyEngine.default purpose fetched fetched' Hfetched).
  assert (Hretrieve : forall n,
             Retrieval.retrieve_for_purpose rt pe db' tenant_id scope purpose None n
             = Retrieval.retrieve_for_purpose rt pe db tenant_id scope purpose None n).
  { intros n. unfold Retrieval.retrieve_for_purpose.
    apply apply_policy_variant, query_memories_variant. exact Hdb. }
  repeat split; try reflexivity.
  - apply explain_decision_variant. exact Hdb.
  - apply Hretrieve.
  - unfold Reconstruction.reconstruct_context. rewrite Hretrieve. reflexivity.
Qed.

Lemma sealed_content_never_surfaces_witness :
  let fetched := [Example.sealed_event "private"; Example.derived_impact] in
  let fetched' := [Example.sealed_event "another narrative"; Example.derived_impact] in
  let db := Example.session_with fetched in
  let db' := Example.session_with fetched' in
  Retrieval.apply_policy Example.permissive PurposeType.CHAT_RESPONSE fetched'
  = Retrieval.apply_policy Example.permissive PurposeType.CHAT_RESPONSE fetched
  /\ bind (Retrieval.apply_policy Example.permissive PurposeType.CHAT_RESPONSE fetched')
          (fun retrieved => Reconstruction.build_context Example.runtime retrieved true)
     = bind (Retrieval.apply_policy Example.permissive PurposeType.CHAT_RESPONSE fetched)
            (fun retrieved => Reconstruction.build_context Example.runtime retrieved true)
  /\ bind (Retrieval.apply_policy PolicyEngine.default PurposeType.CHAT_RESPONSE fetched')
          (fun retrieved => Ok (Observability.summarize retrieved))
     = bind (Retrieval.apply_policy PolicyEngine.default PurposeType.CHAT_RESPONSE fetched)
            (fun retrieved => Ok (Observability.summarize retrieved))
  /\ Observability.explain_decision Example.runtime db' "t_demo" None
       (Some ["mem_00000000000000aa"; "mem_00000000000000bb"]) None
     = Observability.explain_decision Example.runtime db "t_demo" None
         (Some ["mem_00000000000000aa"; "mem_00000000000000bb"]) None
  /\ Retrieval.retrieve_for_purpose Example.runtime Example.permissive db' "t_demo"
       Example.user_scope PurposeType.CHAT_RESPONSE None 50
     = Retrieval.retrieve_for_purpose Example.runtime Example.permissive db "t_demo"
         Example.user_scope PurposeType.CHAT_RESPONSE None 50
  /\ Reconstruction.reconstruct_context Example.runtime Example.permissive db' "t_demo"
       Example.user_scope PurposeType.CHAT_RESPONSE None true
     = Reconstruction.reconstruct_context Example.runtime Example.permissive db "t_demo"
         Example.user_scope PurposeType.CHAT_RESPONSE None true.
Proof.
  intros fetched fetched' db db'.
  apply (sealed_content_never_surfaces Example.runtime Example.permissive
           PurposeType.CHAT_RESPONSE true fetched fetched' db db' "t_demo"
           Example.user_scope 50%nat None
           (Some ["mem_00000000000000aa"; "mem_00000000000000bb"]) None).
  - constructor; [right; split; [reflexivity | eexists; reflexivity] |].
    constructor; [left; reflexivity | constructor].
  - split; [| split; reflexivity].
    constructor.
    + eexists; split; [right; split; [reflexivity | eexists; reflexivity] | reflexivity].
    + constructor; [| constructor].
      eexists; split; [left; reflexivity | reflexivity].
Defined.

(* ================================================================== *)
(** * Further properties *)
(* ================================================================== *)

(** ** Sanitised input *)

Section Sanitised.
Import PyStr Sanitization.

Lemma strip_without_space (s : string) :
  forallb (fun c => negb (is_space c)) (list_ascii_of_string s) = true -> strip s = s.
Proof.
  unfold strip. intros H.
  assert (Hl : lstrip s = s).
  { destruct s as [| c r]; [reflexivity |]. simpl in *.
    apply andb_true_iff in H. destruct H as [Hc _].
    destruct (is_space c); [discriminate | reflexivity]. }
  rewrite Hl. clear Hl.
  induction s as [| c r IH]; [reflexivity |]. simpl in *.
  apply andb_true_iff in H. destruct H as [Hc Hr].
  rewrite (IH Hr). destruct r; [| reflexivity].
  destruct (is_space c); [discriminate | reflexivity].
Qed.

Lemma lower_without_capitals (s : string) :
  forallb (fun c => negb (is_upper_letter c)) (list_ascii_of_string s) = true ->
  lower s = s.
Proof.
  induction s as [| c r IH]; [reflexivity |]. simpl. intros H.
  apply andb_true_iff in H. destruct H as [Hc Hr]. rewrite (IH Hr).
  unfold lower_char, is_upper_letter in *.
  destruct (_ && _); [discriminate | reflexivity].
Qed.

Lemma forallb_weaken {A : Type} (p q : A -> bool) (l : list A) :
  (forall x, p x = true -> q x = true) -> forallb p l = true -> forallb q l = true.
Proof.
  intros Hpq. induction l as [| x l IH]; simpl; [reflexivity |]. intros H.
  apply andb_true_iff in H. destruct H as [Hx Hl].
  rewrite (Hpq x Hx), (IH Hl). reflexivity.
Qed.

Lemma word_char_plain (c : ascii) :
  is_lower_letter c || one_of "_" c = true ->
  is_space c = false /\ is_upper_letter c = false.
Proof.
  destruct c as [[] [] [] [] [] [] [] []]; vm_compute; intros H;
    first [discriminate H | split; reflexivity].
Qed.

Lemma user_char_plain (c : ascii) :
  is_alnum c || one_of "_-.@" c = true -> is_space c = false.
Proof.
  destruct c as [[] [] [] [] [] [] [] []]; vm_compute; intros H;
    first [discriminate H | reflexivity].
Qed.

Lemma lower_strip_length (s : string) :
  String.length (lower s) = String.length s.
Proof.
  induction s as [| c r IH]; simpl; [reflexivity | rewrite IH; reflexivity].
Qed.

(** The word that [sanitize_scope] and [sanitize_source] accept. *)
Lemma word_fixed_point (w : string) :
  match_class (fun c => is_lower_letter c || one_of "_" c) w = true ->
  nonempty w = true /\ lower (strip w) = w.
Proof.
  unfold match_class. intros H. apply andb_true_iff in H. destruct H as [Hne Hall].
  split; [exact Hne |].
  rewrite strip_without_space.
  - apply lower_without_capitals.
    eapply forallb_weaken; [| exact Hall].
    intros c Hc. destruct (word_char_plain c Hc) as [_ E]. rewrite E. reflexivity.
  - eapply forallb_weaken; [| exact Hall].
    intros c Hc. destruct (word_char_plain c Hc) as [E _]. rewrite E. reflexivity.
Qed.

(** X1: a scope or source that is accepted comes back trimmed and in lower
    case: it is not empty, has at most 50 characters, all of them lower-case
    letters or underscores, and sanitising it again (as a scope or as a
    source) returns it unchanged. *)
Theorem sanitized_scope_is_fixed_point (input out : string) :
  sanitize_scope input = Ok out \/ sanitize_source input = Ok out ->
  out <> EmptyString
  /\ (String.length out <= 50)%nat
  /\ Forall (fun c => is_lower_letter c = true \/ c = "_"%char) (list_ascii_of_string out)
  /\ sanitize_scope out = Ok out
  /\ sanitize_source out = Ok out.
Proof.
  intros H.
  assert (Hout : (MAX_SCOPE_LENGTH <? String.length out)%nat = false
                 /\ match_class (fun c => is_lower_letter c || one_of "_" c) out = true).
  { destruct H as [H | H]; [unfold sanitize_scope in H | unfold sanitize_source in H];
      destruct (negb (nonempty input)); try discriminate;
      destruct (_ <? _)%nat eqn:Hlen; try discriminate;
      destruct (match_class _ _) eqn:Hcls; try discriminate;
      simpl in H; inversion H; subst; split; assumption. }
  destruct Hout as [Hlen Hcls].
  destruct (word_fixed_point out Hcls) as [Hne Hfix].
  repeat split.
  - intros E. rewrite E in Hne. discriminate.
  - apply Nat.ltb_ge in Hlen. exact Hlen.
  - unfold match_class in Hcls. apply andb_true_iff in Hcls. destruct Hcls as [_ Hall].
    rewrite forallb_forall in Hall. apply Forall_forall. intros c Hc.
    specialize (Hall c Hc). apply orb_true_iff in Hall. destruct Hall as [Hl | Hu];
      [left; exact Hl | right].
    unfold one_of in Hu. simpl in Hu. rewrite orb_false_r in Hu.
    apply Ascii.eqb_eq in Hu. exact Hu.
  - unfold sanitize_scope. rewrite Hne, Hfix, Hlen, Hcls. reflexivity.
  - unfold sanitize_source. rewrite Hne, Hfix.
    change MAX_SOURCE_LENGTH with MAX_SCOPE_LENGTH. rewrite Hlen, Hcls. reflexivity.
Qed.

Lemma sanitized_scope_is_fixed_point_witness :
  sanitize_scope "  Preferences " = Ok "preferences"
  /\ sanitize_scope "preferences" = Ok "preferences"
  /\ sanitize_source "preferences" = Ok "preferences".
Proof.
  split; [reflexivity |].
  destruct (sanitized_scope_is_fixed_point "  Preferences " "preferences"
              (or_introl eq_refl)) as [_ [_ [_ [Hscope Hsource]]]].
  split; [exact Hscope | exact Hsource].
Defined.

(** X2: a user id that is accepted is trimmed: it is not empty, has at most
    255 characters, all of them letters, digits or one of [_-.@], and
    sanitising it again returns it unchanged. *)
Theorem sanitized_user_id_is_fixed_point (input out : string) :
  sanitize_user_id input = Ok out ->
  out <> EmptyString
  /\ (String.length out <= 255)%nat
  /\ forallb (fun c => is_alnum c || one_of "_-.@" c) (list_ascii_of_string out) = true
  /\ sanitize_user_id out = Ok out.
Proof.
  unfold sanitize_user_id at 1. intros H.
  destruct (negb (nonempty input)); [discriminate |].
  destruct (_ <? _)%nat eqn:Hlen; [discriminate |].
  destruct (match_class _ _) eqn:Hcls; [| discriminate].
  simpl in H. inversion H; subst; clear H.
  set (out := strip input) in *.
  pose proof Hcls as Hcls'. unfold match_class in Hcls'.
  apply andb_true_iff in Hcls'. destruct Hcls' as [Hne Hall].
  assert (Hfix : strip out = out).
  { apply strip_without_space. eapply forallb_weaken; [| exact Hall].
    intros c Hc. rewrite (user_char_plain c Hc). reflexivity. }
  repeat split.
  - intros E. rewrite E in Hne. discriminate.
  - apply Nat.ltb_ge in Hlen. exact Hlen.
  - exact Hall.
  - unfold sanitize_user_id. rewrite Hne, Hfix, Hlen, Hcls. reflexivity.
Qed.

Lemma sanitized_user_id_is_fixed_point_witness :
  sanitize_user_id "alice@example.com" = Ok "alice@example.com".
Proof.
  apply (sanitized_user_id_is_fixed_point " alice@example.com  " "alice@example.com").
  reflexivity.
Defined.

End Sanitised.

Section Escaped.
Import PyStr Sanitization.

Lemma markup_free_app (a b : string) :
  markup_free (a ++ b) = markup_free a && markup_free b.
Proof.
  unfold markup_free. induction a as [| c r IH]; simpl; [reflexivity |].
  rewrite IH, andb_assoc. reflexivity.
Qed.

Lemma html_escape_markup_free (s : string) : markup_free (html_escape s) = true.
Proof.
  induction s as [| c r IH]; [reflexivity |].
  simpl. rewrite markup_free_app, IH, andb_true_r.
  destruct c as [[] [] [] [] [] [] [] []]; reflexivity.
Qed.

(** An induction principle for values that reaches the elements of lists
    and dictionaries. *)
Lemma value_rect_nested (P : Py.value -> Prop) :
  P Py.PNone -> (forall b, P (Py.PBool b)) -> (forall z, P (Py.PInt z)) ->
  (forall q, P (Py.PFloat q)) -> (forall s, P (Py.PStr s)) ->
  (forall l, Forall P l -> P (Py.PList l)) ->
  (forall d, Forall (fun kv => P (snd kv)) d -> P (Py.PDict d)) ->
  forall v, P v.
Proof.
  intros HN HB HI HF HS HL HD.
  fix IH 1. intros [| b | z | q | s | l | d].
  - exact HN.
  - apply HB.
  - apply HI.
  - apply HF.
  - apply HS.
  - apply HL. induction l as [| x l IHl]; constructor; [apply IH | exact IHl].
  - apply HD. induction d as [| [k x] d IHd]; constructor; [apply IH | exact IHd].
Qed.

(** X3: the purpose that [sanitize_purpose] returns, and the string that
    [sanitize_string] returns when HTML is not allowed, hold none of the
    characters [<], [>], double quote and single quote. *)
Theorem sanitized_text_has_no_markup (input out : string) (max_length : option nat) :
  sanitize_purpose input = Ok out \/ sanitize_string input max_length false = Ok out ->
  forall c, In c (list_ascii_of_string out) -> is_markup c = false.
Proof.
  intros H.
  assert (Hfree : markup_free out = true).
  { destruct H as [H | H].
    - unfold sanitize_purpose in H.
      destruct (negb (nonempty input)); [discriminate |].
      destruct (_ <? _)%nat; [discriminate |].
      inversion H. apply html_escape_markup_free.
    - unfold sanitize_string in H.
      destruct max_length as [n |];
        [destruct (negb (n =? 0)%nat && (n <? _)%nat); [discriminate |] |];
        inversion H; apply html_escape_markup_free. }
  intros c Hc. unfold markup_free in Hfree. rewrite forallb_forall in Hfree.
  specialize (Hfree c Hc). apply negb_true_iff in Hfree. exact Hfree.
Qed.

Lemma sanitized_text_has_no_markup_witness :
  sanitize_purpose "show <b>alerts</b>" = Ok "show &lt;b&gt;alerts&lt;/b&gt;"
  /\ forall c, In c (list_ascii_of_string "show &lt;b&gt;alerts&lt;/b&gt;") ->
               is_markup c = false.
Proof.
  split; [reflexivity |].
  apply (sanitized_text_has_no_markup "show <b>alerts</b>" _ None).
  left. reflexivity.
Defined.

(** X4: [sanitize_json_value] keeps the shape of a JSON value (the same
    nesting, list lengths, dictionary keys, numbers and booleans) and leaves
    none of the characters [<], [>], double quote and single quote in any
    string at a value position. *)
Theorem sanitized_json_keeps_shape_without_markup (value : Py.value) :
  Py.same_shape value (sanitize_json_value value) = true
  /\ Py.all_strings markup_free (sanitize_json_value value) = true.
Proof.
  induction value as [| b | z | q | s | l IHl | d IHd] using value_rect_nested; simpl.
  - split; reflexivity.
  - split; [apply Bool.eqb_reflx | reflexivity].
  - split; [apply Z.eqb_refl | reflexivity].
  - split; [| reflexivity]. apply Qeq_bool_iff. reflexivity.
  - split; [reflexivity | apply html_escape_markup_free].
  - induction IHl as [| x l [Hx1 Hx2] _ [IH1 IH2]]; simpl; [split; reflexivity |].
    rewrite Hx1, Hx2. simpl. split; assumption.
  - induction IHd as [| [k x] d [Hx1 Hx2] _ [IH1 IH2]]; simpl; [split; reflexivity |].
    simpl in Hx1, Hx2. rewrite String.eqb_refl, Hx1, Hx2. simpl. split; assumption.
Qed.

End Escaped.

(** ** Merging *)

Section Merging.
Import PyStr Py Utils.
Variable rt : Runtime.

Lemma string_leb_total (a b : string) : String.leb a b = false -> String.leb b a = true.
Proof.
  unfold String.leb. rewrite (String.compare_antisym a b).
  destruct (String.compare b a); simpl; intros H; first [discriminate H | reflexivity].
Qed.

Lemma insert_sorted_Sorted {A : Type} (leb : A -> A -> bool) (x : A) (l : list A) :
  (forall a b, leb a b = false -> leb b a = true) ->
  Sorted (fun a b => leb a b = true) l ->
  Sorted (fun a b => leb a b = true) (insert_sorted leb x l).
Proof.
  intros Htotal. induction 1 as [| y l Hs IH Hhd]; simpl.
  - constructor; constructor.
  - destruct (leb x y) eqn:Hxy.
    + constructor; [constructor; assumption | constructor; exact Hxy].
    + constructor; [exact IH |].
      destruct l as [| z l]; simpl.
      * constructor. apply Htotal. exact Hxy.
      * destruct (leb x z); constructor.
        -- apply Htotal. exact Hxy.
        -- inversion Hhd; assumption.
Qed.

Lemma sorted_Sorted {A : Type} (leb : A -> A -> bool) (l : list A) :
  (forall a b, leb a b = false -> leb b a = true) ->
  Sorted (fun a b => leb a b = true) (sorted leb l).
Proof.
  intros Htotal. induction l as [| x l IH]; simpl; [constructor |].
  apply insert_sorted_Sorted; assumption.
Qed.

(** What the loop of [_dedupe_with_fuzzy] keeps. *)
Lemma dedupe_loop (items res : list string) :
  NoDup (map (fun x => strip (lower x)) res) ->
  exists res',
    fold_left (dedupe_step rt (85 # 100)) items
      (res, map (fun x => strip (lower x)) res, res)
    = (res', map (fun x => strip (lower x)) res', res')
    /\ NoDup (map (fun x => strip (lower x)) res')
    /\ incl res res'
    /\ incl res' (res +++ items)
    /\ forall x, In x items ->
         exists y, In y res'
                   /\ _fuzzy_match_strings rt (PStr x) (PStr y) (85 # 100) = true.
Proof.
  revert res. induction items as [| item items IH]; intros res Hnd.
  - exists res. simpl. rewrite app_nil_r.
    repeat split; auto using incl_refl. intros x [].
  - simpl.
    assert (Hkeep : forall y, In y res ->
                _fuzzy_match_strings rt (PStr item) (PStr y) (85 # 100) = true ->
                exists res',
                  fold_left (dedupe_step rt (85 # 100)) items
                    (res, map (fun x => strip (lower x)) res, res)
                  = (res', map (fun x => strip (lower x)) res', res')
                  /\ NoDup (map (fun x => strip (lower x)) res')
                  /\ incl res res'
                  /\ incl res' (res +++ item :: items)
                  /\ forall x, item = x \/ In x items ->
                       exists y0, In y0 res'
                         /\ _fuzzy_match_strings rt (PStr x) (PStr y0) (85 # 100) = true).
    { intros y Hy Hfuzzy.
      destruct (IH res Hnd) as [res' [E [Hnd' [Hin [Hout Hcov]]]]].
      exists res'. repeat split; try assumption.
      - intros z Hz. specialize (Hout z Hz). apply in_app_or in Hout.
        apply in_or_app. destruct Hout; [left | right; right]; assumption.
      - intros x [Ex | Hx]; [subst x; exists y; split; [apply Hin, Hy | exact Hfuzzy] |].
        apply Hcov, Hx. }
    destruct (existsb (String.eqb (strip (lower item)))
                (map (fun x => strip (lower x)) res)) eqn:Hexact.
    + apply existsb_exists in Hexact. destruct Hexact as [n [Hn En]].
      apply in_map_iff in Hn. destruct Hn as [y [Ey Hy]]. subst n.
      apply (Hkeep y Hy). simpl. rewrite En. reflexivity.
    + destruct (existsb _ res) eqn:Hfuzzy.
      * apply existsb_exists in Hfuzzy. destruct Hfuzzy as [y [Hy Ey]].
        apply (Hkeep y Hy Ey).
      * assert (Hnd1 : NoDup (map (fun x => strip (lower x)) (res +++ [item]))).
        { rewrite map_app. simpl. apply NoDup_app_remove_r with (l' := []).
          rewrite <- app_assoc. simpl.
          apply Permutation_NoDup with (l := strip (lower item)
                                               :: map (fun x => strip (lower x)) res).
          - apply Permutation_cons_append.
          - constructor; [| exact Hnd]. intros Hin.
            assert (Hex : existsb (String.eqb (strip (lower item)))
                            (map (fun x => strip (lower x)) res) = true)
              by (apply existsb_exists; eexists; split;
                  [exact Hin | apply String.eqb_refl]).
            rewrite Hex in Hexact. discriminate. }
        destruct (IH (res +++ [item]) Hnd1) as [res' [E [Hnd' [Hin [Hout Hcov]]]]].
        exists res'. rewrite map_app in E. simpl in E.
        repeat split; try assumption.
        -- intros z Hz. apply Hin, in_or_app. left. exact Hz.
        -- intros z Hz. specialize (Hout z Hz). rewrite <- app_assoc in Hout. exact Hout.
        -- intros x [Ex | Hx]; [| apply Hcov, Hx]. subst x.
           exists item. split; [apply Hin, in_or_app; right; left; reflexivity |].
           simpl. rewrite String.eqb_refl. reflexivity.
Qed.

(** X5: [_dedupe_with_fuzzy] returns a sorted list of items of its input,
    no two of which are equal up to letter case and surrounding blanks, and
    every item of the input matches (by [_fuzzy_match_strings]) an item of
    the result.  This holds whatever ratio the sequence matcher computes. *)
Theorem dedupe_with_fuzzy_sound (items : list string) :
  incl (_dedupe_with_fuzzy rt items) items
  /\ NoDup (map (fun x => strip (lower x)) (_dedupe_with_fuzzy rt items))
  /\ (forall x, In x items ->
        exists y, In y (_dedupe_with_fuzzy rt items)
                  /\ _fuzzy_match_strings rt (PStr x) (PStr y) (85 # 100) = true)
  /\ Sorted (fun a b => String.leb a b = true) (_dedupe_with_fuzzy rt items).
Proof.
  unfold _dedupe_with_fuzzy.
  destruct items as [| item items];
    [repeat split; [apply incl_refl | constructor | intros x [] | constructor] |].
  destruct (dedupe_loop (item :: items) [] (NoDup_nil _))
    as [res' [E [Hnd [_ [Hout Hcov]]]]].
  simpl in E. simpl fold_left. rewrite E.
  pose proof (sorted_Permutation String.leb res') as Hperm.
  repeat split.
  - intros x Hx. apply Hout. eapply Permutation_in; [exact Hperm | exact Hx].
  - eapply Permutation_NoDup; [| exact Hnd].
    apply Permutation_map, Permutation_sym, Hperm.
  - intros x Hx. destruct (Hcov x Hx) as [y [Hy Ey]]. exists y. split; [| exact Ey].
    eapply Permutation_in; [apply Permutation_sym, Hperm | exact Hy].
  - apply sorted_Sorted. exact string_leb_total.
Qed.

End Merging.

Section Summaries.
Import PyStr Py Utils.
Variable rt : Runtime.

Lemma substring_length_le (n : nat) (s : string) :
  (String.length (substring 0 n s) <= n)%nat.
Proof.
  revert s. induction n as [| n IH]; intros [| c s]; simpl; try lia.
  specialize (IH s). lia.
Qed.

Lemma string_length_app (a b : string) :
  String.length (a ++ b) = (String.length a + String.length b)%nat.
Proof.
  induction a as [| c a IH]; simpl; [reflexivity | rewrite IH; reflexivity].
Qed.

Lemma truncate240_length (s : string) : (String.length (truncate240 s) <= 240)%nat.
Proof.
  unfold truncate240. destruct (240 <? String.length s)%nat eqn:H.
  - rewrite string_length_app. pose proof (substring_length_le 237 s). simpl. lia.
  - apply Nat.ltb_ge in H. exact H.
Qed.

Lemma merge_confidence_bounds (n : nat) :
  0 <= merge_confidence n /\ merge_confidence n <= 9 # 10
  /\ (n <> 0%nat -> 6 # 10 <= merge_confidence n).
Proof.
  unfold merge_confidence.
  assert (H0 : 0 <= inject_Z (Z.of_nat n))
    by (unfold Qle; simpl; lia).
  assert (H1 : n <> 0%nat -> 1 <= inject_Z (Z.of_nat n))
    by (intros Hn; unfold Qle; simpl; lia).
  destruct (Qle_bool _ _) eqn:Hcap.
  - repeat split; intros; lra.
  - assert (Hlt : ~ 9 # 10 <= (1 # 2) + inject_Z (Z.of_nat n) * (1 # 10))
      by (intros Hle; apply Qle_bool_iff in Hle; rewrite Hle in Hcap; discriminate).
    repeat split; [lra | lra |]. intros Hn. specialize (H1 Hn). lra.
Qed.

(** X6: for the six scopes of the API, the summary that
    [merge_memories_deterministic] returns has a text of at most 240
    characters and a confidence between 0 and 0.9, which is at least 0.6
    when there is a memory to merge. *)
Theorem merge_summary_within_bounds (memories : list MemoryDict) (scope : string)
    (r : MergeResult) :
  In scope ALLOWED_SCOPES ->
  merge_memories_deterministic rt memories scope = Ok r ->
  (String.length (summary_text r) <= 240)%nat
  /\ 0 <= confidence r /\ confidence r <= 9 # 10
  /\ (memories <> [] -> 6 # 10 <= confidence r).
Proof.
  intros Hscope H.
  destruct memories as [| m ms].
  - inversion H; subst; simpl. repeat split; try lia; try lra. intros Hne. congruence.
  - set (l := sorted key_leb (m :: ms)).
    assert (Hlen : List.length l <> 0%nat).
    { unfold l. rewrite (Permutation_length (sorted_Permutation key_leb (m :: ms))).
      simpl. discriminate. }
    pose proof (merge_confidence_bounds (List.length l)) as [Hc0 [Hc1 Hc2]].
    specialize (Hc2 Hlen).
    assert (Hgoal : forall text : string, forall st : value,
               {| summary_text := truncate240 text; summary_struct := st;
                  confidence := merge_confidence (List.length l) |} = r ->
               (String.length (summary_text r) <= 240)%nat
               /\ 0 <= confidence r /\ confidence r <= 9 # 10
               /\ (m :: ms <> [] -> 6 # 10 <= confidence r)).
    { intros text st E. subst r. simpl.
      repeat split; auto using truncate240_length. }
    simpl in Hscope.
    destruct Hscope as [E | [E | [E | [E | [E | [E | []]]]]]]; subst scope.
    + change (_merge_preferences rt l = Ok r) in H. unfold _merge_preferences in H.
      destruct (for_each _ l _) as [[[likes dislikes] kv] | e]; unfold bind in H;
        [| discriminate].
      injection H as E. exact (Hgoal _ _ E).
    + change (_merge_constraints l = Ok r) in H. unfold _merge_constraints in H.
      destruct (fold_left constraints_step l _) as [rules0 kv].
      destruct (sorted_set rules0) as [rules | e]; unfold bind in H; [| discriminate].
      injection H as E. exact (Hgoal _ _ E).
    + change (_merge_communication l = Ok r) in H. unfold _merge_communication in H.
      injection H as E. exact (Hgoal _ _ E).
    + change (_merge_accessibility l = Ok r) in H. unfold _merge_accessibility in H.
      destruct (fold_left accessibility_step l _) as [flags kv].
      injection H as E. exact (Hgoal _ _ E).
    + change (_merge_schedule l = Ok r) in H. unfold _merge_schedule in H.
      destruct (for_each _ _ _) as [st | e]; unfold bind in H; [| discriminate].
      injection H as E. exact (Hgoal _ _ E).
    + change (_merge_attention l = Ok r) in H. unfold _merge_attention in H.
      injection H as E. exact (Hgoal _ _ E).
Qed.

End Summaries.

Lemma merge_summary_within_bounds_witness :
  exists r,
    Utils.merge_memories_deterministic Example.runtime [Example.pref_a; Example.pref_b]
      "preferences" = Ok r
    /\ (String.length (Utils.summary_text r) <= 240)%nat
    /\ 0 <= Utils.confidence r /\ Utils.confidence r <= 9 # 10
    /\ ([Example.pref_a; Example.pref_b] <> [] -> 6 # 10 <= Utils.confidence r).
Proof.
  eexists. split; [reflexivity |].
  apply (merge_summary_within_bounds Example.runtime [Example.pref_a; Example.pref_b]
           "preferences").
  - simpl. left. reflexivity.
  - reflexivity.
Defined.

Section LatestWins.
Import PyStr Py Utils.
Variable rt : Runtime.

Lemma get_set_same (k : string) (v : value) (d : dict) : get k (set k v d) = Some v.
Proof.
  induction d as [| [k' v'] d IH]; simpl.
  - rewrite String.eqb_refl. reflexivity.
  - destruct (String.eqb k k') eqn:E; simpl; rewrite E; [reflexivity | exact IH].
Qed.

Lemma get_set_other (k k' : string) (v : value) (d : dict) :
  k <> k' -> get k (set k' v d) = get k d.
Proof.
  intros Hne. apply String.eqb_neq in Hne.
  induction d as [| [k0 v0] d IH]; simpl.
  - rewrite Hne. reflexivity.
  - destruct (String.eqb k' k0) eqn:E; simpl.
    + apply String.eqb_eq in E. subst k0. rewrite Hne. reflexivity.
    + rewrite IH. reflexivity.
Qed.

Lemma get_none_iff (k : string) (d : dict) : get k d = None <-> ~ In k (keys d).
Proof.
  induction d as [| [k' v'] d IH]; simpl; [tauto |].
  destruct (String.eqb k k') eqn:E.
  - apply String.eqb_eq in E. subst k'. split; [discriminate | tauto].
  - apply String.eqb_neq in E. rewrite IH. split; [intros H [H' | H']; congruence | tauto].
Qed.

Lemma get_update_absent (k : string) (other d : dict) :
  get k other = None -> get k (update d other) = get k d.
Proof.
  unfold update. revert d. induction other as [| [k' v'] other IH]; intros d H; simpl in *.
  - reflexivity.
  - destruct (String.eqb k k') eqn:E; [discriminate |].
    rewrite (IH _ H). apply get_set_other. apply String.eqb_neq. exact E.
Qed.

(** [d.update(other)] binds every key of [other] to its value in [other]. *)
Lemma get_update_present (k : string) (v : value) (other d : dict) :
  NoDup (keys other) -> get k other = Some v -> get k (update d other) = Some v.
Proof.
  unfold update. revert d. induction other as [| [k' v'] other IH]; intros d Hnd H;
    simpl in *; [discriminate |].
  inversion Hnd as [| ? ? Hnotin Hnd']; subst.
  destruct (String.eqb k k') eqn:E.
  - apply String.eqb_eq in E. subst k'. inversion H; subst.
    change (fold_left (fun acc kv => set (fst kv) (snd kv) acc) other (set k v d))
      with (update (set k v d) other).
    rewrite get_update_absent; [apply get_set_same | apply get_none_iff; exact Hnotin].
  - apply IH; assumption.
Qed.

Lemma insert_sorted_before_last {A : Type} (leb : A -> A -> bool) (x m : A) (l : list A) :
  leb x m = true -> insert_sorted leb x (l +++ [m]) = insert_sorted leb x l +++ [m].
Proof.
  intros H. induction l as [| y l IH]; simpl; [rewrite H; reflexivity |].
  destruct (leb x y); [reflexivity | rewrite IH; reflexivity].
Qed.

Lemma insert_sorted_last {A : Type} (leb : A -> A -> bool) (m : A) (l : list A) :
  (forall y, In y l -> leb m y = false) -> insert_sorted leb m l = l +++ [m].
Proof.
  induction l as [| y l IH]; intros H; simpl; [reflexivity |].
  rewrite (H y (or_introl eq_refl)), IH; [reflexivity |].
  intros z Hz. apply H. right. exact Hz.
Qed.

(** The memory with the greatest key comes last in the sorted list. *)
Lemma sorted_ends_with_latest (memories : list MemoryDict) (m : MemoryDict) :
  NoDup (map sort_key memories) -> In m memories ->
  (forall x, In x memories -> key_leb x m = true) ->
  exists older, sorted key_leb memories = older +++ [m].
Proof.
  induction memories as [| x rest IH]; intros Hnd Hin Hmax; [destruct Hin |].
  simpl in Hnd. inversion Hnd as [| ? ? Hnotin Hnd']; subst. simpl.
  destruct Hin as [E | Hin].
  - subst x. exists (sorted key_leb rest). apply insert_sorted_last.
    intros y Hy.
    assert (Hy' : In y rest)
      by (eapply Permutation_in; [apply sorted_Permutation | exact Hy]).
    assert (Hne : sort_key m <> sort_key y)
      by (intros E; apply Hnotin; rewrite E; apply in_map; exact Hy').
    rewrite (key_leb_strict m y Hne), (Hmax y (or_intror Hy')). reflexivity.
  - destruct (IH Hnd' Hin (fun y Hy => Hmax y (or_intror Hy))) as [older E].
    rewrite E. exists (insert_sorted key_leb x older).
    apply insert_sorted_before_last. apply Hmax. left. reflexivity.
Qed.

Lemma update_all_last (older : list MemoryDict) (m : MemoryDict) (d : dict)
    (k : string) (v : value) :
  mem_value_json m = PDict d -> NoDup (keys d) -> get k d = Some v ->
  get k (update_all (older +++ [m])) = Some v.
Proof.
  intros Hd Hnd Hk. unfold update_all. rewrite fold_left_app. simpl. rewrite Hd.
  apply get_update_present; assumption.
Qed.

(** X7: in the scopes [communication] and [attention] the latest memory
    wins: when the keys [(created_at, id)] of the memories are pairwise
    distinct and [m] has the greatest one, every setting of [m] is in the
    merged summary with the value it has in [m]. *)
Theorem latest_setting_wins (memories : list MemoryDict) (scope label : string)
    (m : MemoryDict) (d : dict) (k : string) (v : value) :
  (scope = "communication" /\ label = "preferences")
  \/ (scope = "attention" /\ label = "settings") ->
  NoDup (map sort_key memories) ->
  In m memories ->
  (forall x, In x memories -> key_leb x m = true) ->
  mem_value_json m = PDict d -> NoDup (keys d) -> get k d = Some v ->
  exists text settings c,
    merge_memories_deterministic rt memories scope
    = Ok {| summary_text := text;
            summary_struct := PDict [(label, PDict settings)];
            confidence := c |}
    /\ get k settings = Some v.
Proof.
  intros Hscope Hnd Hin Hmax Hd Hkeys Hk.
  destruct (sorted_ends_with_latest memories m Hnd Hin Hmax) as [older Hsorted].
  pose proof (update_all_last older m d k v Hd Hkeys Hk) as Hget.
  rewrite <- Hsorted in Hget.
  destruct memories as [| x rest]; [destruct Hin |].
  destruct Hscope as [[Es El] | [Es El]]; subst scope label.
  - change (merge_memories_deterministic rt (x :: rest) "communication")
      with (_merge_communication (sorted key_leb (x :: rest))).
    unfold _merge_communication. do 3 eexists. split; [reflexivity | exact Hget].
  - change (merge_memories_deterministic rt (x :: rest) "attention")
      with (_merge_attention (sorted key_leb (x :: rest))).
    unfold _merge_attention. do 3 eexists. split; [reflexivity | exact Hget].
Qed.

End LatestWins.

Lemma latest_setting_wins_witness :
  exists text settings c,
    Utils.merge_memories_deterministic Example.runtime
      [Example.later_setting; Example.tie_first] "communication"
    = Ok {| Utils.summary_text := text;
            Utils.summary_struct := Py.PDict [("preferences", Py.PDict settings)];
            Utils.confidence := c |}
    /\ Py.get "preferred_channel" settings = Some (Py.PStr "sms").
Proof.
  apply (latest_setting_wins Example.runtime [Example.later_setting; Example.tie_first]
           "communication" "preferences" Example.later_setting
           [("preferred_channel", Py.PStr "sms")]).
  - left. split; reflexivity.
  - repeat constructor; simpl; intuition discriminate.
  - left. reflexivity.
  - intros x [E | [E | []]]; subst x; reflexivity.
  - reflexivity.
  - repeat constructor; simpl; tauto.
  - reflexivity.
Defined.

(** ** The v1 read grants *)

Section ReadGrants.
Import Utils Sanitization Main.
Variable rt : Runtime.

(** The outcome of [/memory/read] on the tables of memories and grants. *)
Lemma read_memory_outcome (now : Z) (app : string) (w : World)
    (req : MemoryReadRequest) :
  memories (db (snd (read_memory rt now app w req))) = memories (db w)
  /\ match fst (read_memory rt now app w req) with
     | HTTP200 body =>
         exists scope purpose g,
           sanitize_scope (req_scope req) = Ok scope
           /\ sanitize_purpose (req_purpose req) = Ok purpose
           /\ check_policy scope (normalize_purpose purpose) = true
           /\ read_grants (db (snd (read_memory rt now app w req)))
              = read_grants (db w) +++ [g]
           /\ revocation_token_hash g
              = hash_revocation_token rt (resp_revocation_token body)
           /\ grant_app_id g = app
           /\ revoked_at g = None
           /\ grant_expires_at g = (now + 86400)%Z
           /\ resp_expires_at body = (now + 86400)%Z
     | HTTPException _ _ =>
         read_grants (db (snd (read_memory rt now app w req))) = read_grants (db w)
     end.
Proof.
  destruct (read_memory rt now app w req) as [resp w'] eqn:Hread.
  cbn [fst snd]. unfold read_memory in Hread.
  destruct (sanitize_user_id (req_user_id req)) as [user_id | e]; cbn [bind] in Hread;
    [| inversion Hread; split; reflexivity].
  destruct (sanitize_scope (req_scope req)) as [scope | e]; cbn [bind] in Hread;
    [| inversion Hread; split; reflexivity].
  destruct (if some_nonempty (req_domain req) then sanitize_domain (req_domain req)
            else Ok None) as [domain | e]; cbn [bind] in Hread;
    [| inversion Hread; split; reflexivity].
  destruct (sanitize_purpose (req_purpose req)) as [purpose | e]; cbn [bind] in Hread;
    [| inversion Hread; split; reflexivity].
  cbv zeta in Hread.
  destruct (check_policy scope (normalize_purpose purpose)) eqn:Hpolicy;
    cbn [negb] in Hread; [| inversion Hread; split; reflexivity].
  destruct (_query_and_merge_memories _ _ _ _ _ _ _ _) as [[merged | e] ids];
    [| inversion Hread; split; reflexivity].
  unfold insert_read_grant in Hread. cbn [draw db draws] in Hread.
  destruct (existsb _ _); cbn [bind] in Hread; inversion Hread; subst; clear Hread;
    [split; reflexivity |].
  split; [reflexivity |].
  do 3 eexists. repeat split; try reflexivity. exact Hpolicy.
Qed.


(** X9: the audit trail is append-only: each of the three requests leaves
    the audit events that were there, in their order, and adds at most
    one. *)
Theorem audit_log_is_append_only (w : World) (req : Request) :
  exists added,
    audit_events (db (after rt w req)) = audit_events (db w) +++ added
    /\ (List.length added <= 1)%nat.
Proof.
  destruct req as [now app r | now app r | now app r]; simpl.
  - unfold read_memory.
    destruct (bind _ _) as [[[[user_id scope] domain] purpose] | e];
      [| exists []; rewrite app_nil_r; split; [reflexivity | simpl; lia]].
    destruct (negb _); [eexists; split; [reflexivity | simpl; lia] |].
    destruct (_query_and_merge_memories _ _ _ _ _ _ _ _) as [[merged | e] ids];
      [| exists []; rewrite app_nil_r; split; [reflexivity | simpl; lia]].
    unfold insert_read_grant. simpl.
    destruct (existsb _ _); simpl;
      [exists []; rewrite app_nil_r; split; [reflexivity | simpl; lia] |].
    eexists; split; [reflexivity | simpl; lia].
  - unfold continue_read_memory.
    destruct (find_grant _ _ _) as [g |];
      [| exists []; rewrite app_nil_r; split; [reflexivity | simpl; lia]].
    destruct (revoked_at g);
      [exists []; rewrite app_nil_r; split; [reflexivity | simpl; lia] |].
    destruct (Z.ltb _ _);
      [exists []; rewrite app_nil_r; split; [reflexivity | simpl; lia] |].
    destruct (_query_and_merge_memories _ _ _ _ _ _ _ _) as [[merged | e] ids];
      [| exists []; rewrite app_nil_r; split; [reflexivity | simpl; lia]].
    eexists; split; [reflexivity | simpl; lia].
  - unfold revoke_memory.
    destruct (find_grant _ _ _) as [g |];
      [| exists []; rewrite app_nil_r; split; [reflexivity | simpl; lia]].
    destruct (revoked_at g);
      [exists []; rewrite app_nil_r; split; [reflexivity | simpl; lia] |].
    eexists; split; [reflexivity | simpl; lia].
Qed.

Lemma read_grants_after_read_fresh now app w r :
  read_grants (db (snd (read_memory rt now app w r))) = read_grants (db w)
  \/ exists g, read_grants (db (snd (read_memory rt now app w r)))
               = read_grants (db w) +++ [g]
               /\ forall g', In g' (read_grants (db w)) ->
                             revocation_token_hash g' <> revocation_token_hash g.
Proof.
  unfold read_memory.
  destruct (bind _ _) as [[[[user_id scope] domain] purpose] | e]; [| left; reflexivity].
  destruct (negb _); [left; reflexivity |].
  destruct (_query_and_merge_memories _ _ _ _ _ _ _ _) as [[merged | e] ids];
    [| left; reflexivity].
  simpl. unfold insert_read_grant. simpl.
  destruct (existsb _ _) eqn:Hex; simpl; [left; reflexivity |].
  right. eexists. split; [reflexivity |].
  intros g' Hin E. simpl in E.
  assert (Hex' : existsb
                   (fun g'0 => String.eqb (revocation_token_hash g'0)
                                 (hash_revocation_token rt (uuid_str (uuid4_hex rt (draws w)))))
                   (read_grants (db w)) = true)
    by (apply existsb_exists; exists g'; split; [exact Hin | apply String.eqb_eq; exact E]).
  rewrite Hex' in Hex. discriminate.
Qed.

Lemma update_grant_members h a now (gs : list ReadGrant) (g' : ReadGrant) :
  In g' (update_grant h a (set_revoked now) gs) ->
  exists g, In g gs /\ revocation_token_hash g' = revocation_token_hash g
            /\ grant_app_id g' = grant_app_id g.
Proof.
  induction gs as [| g gs IH]; simpl; [intros [] |].
  destruct (grant_matches h a g); simpl.
  - intros [E | Hin]; [subst g'; exists g; auto | exists g'; auto].
  - intros [E | Hin]; [subst g'; exists g; auto |].
    destruct (IH Hin) as [g0 [H0 H1]]. exists g0. auto.
Qed.

Lemma update_grant_keeps h a now (gs : list ReadGrant) (g : ReadGrant) :
  In g gs ->
  exists g', In g' (update_grant h a (set_revoked now) gs)
             /\ revocation_token_hash g' = revocation_token_hash g.
Proof.
  induction gs as [| g0 gs IH]; simpl; [intros [] |].
  destruct (grant_matches h a g0); simpl.
  - intros [E | Hin]; [subst g0; exists (set_revoked now g); auto | exists g; auto].
  - intros [E | Hin]; [subst g0; exists g; auto |].
    destruct (IH Hin) as [g' [H0 H1]]. exists g'. auto.
Qed.

Lemma owned_after_request (h a : string) (w : World) (req : Request) :
  owned_by h a w -> owned_by h a (after rt w req).
Proof.
  intros [[g [Hg Hh]] Hall]. unfold owned_by.
  destruct req as [now app r | now app r | now app r]; simpl.
  - destruct (read_grants_after_read_fresh now app w r) as [E | [g' [E Hfresh]]];
      rewrite E.
    + split; [exists g; auto | exact Hall].
    + split; [exists g; split; [apply in_or_app; left; exact Hg | exact Hh] |].
      intros g0 Hin E0. apply in_app_or in Hin. destruct Hin as [Hin | [E1 | []]];
        [apply Hall; assumption |].
      subst g0. exfalso. apply (Hfresh g Hg). congruence.
  - rewrite read_grants_after_continue. split; [exists g; auto | exact Hall].
  - destruct (read_grants_after_revoke rt now app w r) as [E | E]; rewrite E.
    + split; [exists g; auto | exact Hall].
    + split.
      * destruct (update_grant_keeps
                    (hash_revocation_token rt (revoke_revocation_token r)) app now
                    _ g Hg) as [g' [Hin' E']].
        exists g'. split; [exact Hin' | congruence].
      * intros g' Hin' E'.
        destruct (update_grant_members _ _ _ _ _ Hin') as [g0 [Hin0 [Eh Ea]]].
        rewrite Ea. apply Hall; [exact Hin0 | congruence].
Qed.

Lemma owned_steps (h a : string) (w w' : World) :
  steps rt (fun _ => True) w w' -> owned_by h a w -> owned_by h a w'.
Proof.
  induction 1 as [| w w' w'' Hs IH Hstep]; intros Ho; [exact Ho |].
  specialize (IH Ho).
  destruct Hstep as [w' req _ | w' w'' Heq].
  - apply owned_after_request. exact IH.
  - unfold owned_by in *. rewrite Heq. exact IH.
Qed.

Lemma read_memory_owned now app w r resp w1 :
  read_memory rt now app w r = (HTTP200 resp, w1) ->
  owned_by (hash_revocation_token rt (resp_revocation_token resp)) app w1.
Proof.
  intros Hread.
  pose proof (read_memory_outcome now app w r) as [_ H].
  pose proof (read_grants_after_read_fresh now app w r) as Hfresh.
  rewrite Hread in H, Hfresh. simpl in H, Hfresh.
  destruct H as [scope [purpose [g [_ [_ [_ [E [Eh [Ea _]]]]]]]]].
  destruct Hfresh as [E' | [g' [E' Hfresh]]].
  - rewrite E' in E. apply (f_equal (@List.length _)) in E.
    rewrite length_app in E. simpl in E. lia.
  - rewrite E in E'. apply app_inv_head in E'. inversion E'; subst g'.
    split.
    + exists g. split; [rewrite E; apply in_or_app; right; left; reflexivity | exact Eh].
    + intros g0 Hin E0. rewrite E in Hin. apply in_app_or in Hin.
      destruct Hin as [Hin | [E1 | []]]; [| subst g0; exact Ea].
      exfalso. apply (Hfresh g0 Hin). congruence.
Qed.

Lemma find_none_of_forall {A : Type} (q : A -> bool) (l : list A) :
  (forall x, In x l -> q x = false) -> find q l = None.
Proof.
  induction l as [| x l IH]; intros H; simpl; [reflexivity |].
  rewrite (H x (or_introl eq_refl)). apply IH. intros y Hy. apply H. right. exact Hy.
Qed.

(** X10: a token is bound to the app it was issued to.  After
    [/memory/read] has returned a token to an app, and whatever requests
    follow, [/memory/read/continue] and [/memory/revoke] by any other app
    with this token are answered 404 and change nothing. *)
Theorem token_is_bound_to_its_app (now : Z) (app : string) (w : World)
    (req : MemoryReadRequest) (body : MemoryReadResponse) (w1 w2 : World)
    (other : string) (now' : Z) (max_age : option Z) :
  read_memory rt now app w req = (HTTP200 body, w1) ->
  steps rt (fun _ => True) w1 w2 ->
  other <> app ->
  continue_read_memory rt now' other w2
    {| continue_revocation_token := resp_revocation_token body;
       continue_max_age_days := max_age |}
  = (HTTPException 404 "Revocation token not found", w2)
  /\ revoke_memory rt now' other w2
       {| revoke_revocation_token := resp_revocation_token body |}
     = (HTTPException 404 "Revocation token not found", w2).
Proof.
  intros Hread Hsteps Hother.
  pose proof (owned_steps _ _ _ _ Hsteps (read_memory_owned _ _ _ _ _ _ Hread))
    as [_ Hall].
  assert (Hnone : find_grant (hash_revocation_token rt (resp_revocation_token body))
                    other (db w2) = None).
  { unfold find_grant. apply find_none_of_forall. intros g Hg. unfold grant_matches.
    destruct (String.eqb (revocation_token_hash g) _) eqn:Eh; [| reflexivity].
    apply String.eqb_eq in Eh. rewrite (Hall g Hg Eh). simpl.
    apply String.eqb_neq. congruence. }
  unfold continue_read_memory, revoke_memory. simpl. rewrite Hnone. split; reflexivity.
Qed.

Lemma found_steps (token a : string) (w w' : World) (g : ReadGrant) :
  steps rt (fun req => ~ revokes rt a token req) w w' ->
  find_grant (hash_revocation_token rt token) a (db w) = Some g ->
  find_grant (hash_revocation_token rt token) a (db w') = Some g.
Proof.
  induction 1 as [| w w' w'' Hs IH Hstep]; intros Hf; [exact Hf |].
  specialize (IH Hf).
  destruct Hstep as [w' req Hallowed | w' w'' Heq].
  - apply found_after_request; auto.
    destruct req as [now app r | now app r | now app r]; auto.
    simpl in Hallowed.
    destruct (string_dec (hash_revocation_token rt (revoke_revocation_token r))
                         (hash_revocation_token rt token)) as [E | N]; [| left; exact N].
    destruct (string_dec app a) as [E' | N']; [| right; exact N'].
    exfalso. apply Hallowed. split; assumption.
  - unfold find_grant in *. rewrite Heq. exact IH.
Qed.

Lemma read_memory_grant now app w r resp w1 :
  read_memory rt now app w r = (HTTP200 resp, w1) ->
  exists g,
    find_grant (hash_revocation_token rt (resp_revocation_token resp)) app (db w1) = Some g
    /\ revoked_at g = None
    /\ grant_expires_at g = (now + 86400)%Z.
Proof.
  intros Hread.
  pose proof (read_memory_outcome now app w r) as [_ H].
  pose proof (read_grants_after_read_fresh now app w r) as Hfresh.
  rewrite Hread in H, Hfresh. simpl in H, Hfresh.
  destruct H as [scope [purpose [g [_ [_ [_ [E [Eh [Ea [Er [Ee _]]]]]]]]]]].
  destruct Hfresh as [E' | [g' [E' Hfresh]]].
  - rewrite E' in E. apply (f_equal (@List.length _)) in E.
    rewrite length_app in E. simpl in E. lia.
  - rewrite E in E'. apply app_inv_head in E'. inversion E'; subst g'.
    exists g. split; [| split; assumption].
    unfold find_grant. rewrite E. rewrite find_app_none.
    + simpl. unfold grant_matches. rewrite Eh, Ea, !String.eqb_refl. reflexivity.
    + apply find_none_of_forall. intros g0 Hg0. unfold grant_matches.
      destruct (String.eqb (revocation_token_hash g0) _) eqn:E0; [| reflexivity].
      apply String.eqb_eq in E0. exfalso. apply (Hfresh g0 Hg0). congruence.
Qed.

(** X11: a grant lives 24 hours.  After [/memory/read] at time [now] has
    returned a token, and as long as the app has not revoked it, a
    [/memory/read/continue] with the token later than [now] + 24 h is
    answered 403 REVOKED and changes nothing; up to that time it is not
    refused: it answers 200 with the same token and expiry (or 500 when the
    merge raises). *)
Theorem grant_expires_after_24_hours (now : Z) (app : string) (w : World)
    (req : MemoryReadRequest) (body : MemoryReadResponse) (w1 w2 : World)
    (now' : Z) (max_age : option Z) :
  read_memory rt now app w req = (HTTP200 body, w1) ->
  steps rt (fun r => ~ revokes rt app (resp_revocation_token body) r) w1 w2 ->
  if (now + 86400 <? now')%Z then
    continue_read_memory rt now' app w2
      {| continue_revocation_token := resp_revocation_token body;
         continue_max_age_days := max_age |}
    = (HTTPException 403 "REVOKED", w2)
  else
    match fst (continue_read_memory rt now' app w2
                 {| continue_revocation_token := resp_revocation_token body;
                    continue_max_age_days := max_age |}) with
    | HTTP200 again =>
        resp_revocation_token again = resp_revocation_token body
        /\ resp_expires_at again = (now + 86400)%Z
    | HTTPException status_code _ => status_code = 500%nat
    end.
Proof.
  intros Hread Hsteps.
  destruct (read_memory_grant _ _ _ _ _ _ Hread) as [g [Hf [Hr He]]].
  pose proof (found_steps _ _ _ _ _ Hsteps Hf) as Hf'.
  unfold continue_read_memory. cbn [continue_revocation_token continue_max_age_days].
  rewrite Hf', Hr, He.
  destruct (now + 86400 <? now')%Z; [reflexivity |].
  destruct (_query_and_merge_memories _ _ _ _ _ _ _ _) as [[merged | e] ids];
    cbn [fst]; [split; reflexivity | reflexivity].
Qed.

End ReadGrants.

Lemma token_is_bound_to_its_app_witness :
  Main.continue_read_memory Example.runtime 2000 "other_app" Example.world_after_read
    {| Main.continue_revocation_token := Main.resp_revocation_token Example.issued_response;
       Main.continue_max_age_days := None |}
  = (Main.HTTPException 404 "Revocation token not found", Example.world_after_read)
  /\ Main.revoke_memory Example.runtime 2000 "other_app" Example.world_after_read
       {| Main.revoke_revocation_token :=
            Main.resp_revocation_token Example.issued_response |}
     = (Main.HTTPException 404 "Revocation token not found", Example.world_after_read).
Proof.
  apply (token_is_bound_to_its_app Example.runtime 1000 "app" Example.empty_world
           Example.read_request Example.issued_response Example.world_after_read
           Example.world_after_read "other_app" 2000 None).
  - reflexivity.
  - apply Main.steps_refl.
  - discriminate.
Defined.

Lemma grant_expires_after_24_hours_witness :
  Main.continue_read_memory Example.runtime 90000 "app" Example.world_after_read
    {| Main.continue_revocation_token := Main.resp_revocation_token Example.issued_response;
       Main.continue_max_age_days := None |}
  = (Main.HTTPException 403 "REVOKED", Example.world_after_read).
Proof.
  apply (grant_expires_after_24_hours Example.runtime 1000 "app" Example.empty_world
           Example.read_request Example.issued_response Example.world_after_read
           Example.world_after_read 90000 None).
  - reflexivity.
  - apply Main.steps_refl.
Defined.

Section Isolation.
Import Utils Sanitization Main.
Variable rt : Runtime.

Lemma filter_without {A : Type} (p : A -> bool) (before after : list A) (x : A) :
  p x = false -> filter p (before +++ x :: after) = filter p (before +++ after).
Proof.
  intros H. rewrite !filter_app. simpl. rewrite H. reflexivity.
Qed.

(** X12: a read sees the memories of its own user and app only.  A world
    that holds one more memory, of another app or of another user than the
    sanitised user id of the request, answers [/memory/read] as the world
    without it. *)
Theorem read_ignores_foreign_memories (now : Z) (app : string) (w w' : World)
    (req : MemoryReadRequest) (before after : list Memory) (extra : Memory) :
  memories (db w) = before +++ after ->
  memories (db w') = before +++ extra :: after ->
  read_grants (db w') = read_grants (db w) ->
  draws w' = draws w ->
  memory_app_id extra <> app
  \/ sanitize_user_id (req_user_id req) <> Ok (memory_user_id extra) ->
  fst (read_memory rt now app w' req) = fst (read_memory rt now app w req).
Proof.
  intros Hw Hw' Hgrants Hdraws Hforeign. unfold read_memory.
  destruct (sanitize_user_id (req_user_id req)) as [user_id | e] eqn:Huser; cbn [bind];
    [| reflexivity].
  destruct (sanitize_scope (req_scope req)) as [scope | e]; cbn [bind]; [| reflexivity].
  destruct (if some_nonempty (req_domain req) then sanitize_domain (req_domain req)
            else Ok None) as [domain | e]; cbn [bind]; [| reflexivity].
  destruct (sanitize_purpose (req_purpose req)) as [purpose | e]; cbn [bind];
    [| reflexivity].
  cbv zeta. destruct (negb _); [reflexivity |].
  assert (Hquery : _query_and_merge_memories rt now (db w') app user_id scope domain
                     (req_max_age_days req)
                   = _query_and_merge_memories rt now (db w) app user_id scope domain
                       (req_max_age_days req)).
  { unfold _query_and_merge_memories. rewrite Hw, Hw'.
    rewrite (filter_without _ before after extra); [reflexivity |].
    unfold memory_matches.
    destruct Hforeign as [Happ | Hother].
    - apply String.eqb_neq in Happ. rewrite Happ, !andb_false_r. reflexivity.
    - destruct (String.eqb (memory_user_id extra) user_id) eqn:E; [| reflexivity].
      apply String.eqb_eq in E. exfalso. apply Hother. rewrite E. reflexivity. }
  rewrite Hquery. clear Hquery.
  destruct (_query_and_merge_memories _ _ _ _ _ _ _ _) as [[merged | e] ids];
    [| reflexivity].
  unfold draw, insert_read_grant. cbn [db draws]. rewrite Hgrants, Hdraws.
  destruct (existsb _ _); reflexivity.
Qed.

End Isolation.

Lemma read_ignores_foreign_memories_witness :
  fst (Main.read_memory Example.runtime 1000 "app" Example.world_with_foreign_memory
         Example.read_request)
  = fst (Main.read_memory Example.runtime 1000 "app" Example.empty_world
           Example.read_request).
Proof.
  apply (read_ignores_foreign_memories Example.runtime 1000 "app" Example.empty_world
           Example.world_with_foreign_memory Example.read_request [] []
           Example.foreign_memory).
  - reflexivity.
  - reflexivity.
  - reflexivity.
  - reflexivity.
  - right. discriminate.
Defined.

(** ** The policy engine *)

Section PolicyDecisions.
Import Py PolicyEngine.

(** X13: what the default policy lets a query read.  A memory is allowed
    exactly when it is an impact of sensitivity [low] or [medium] asked for
    [chat_response] that is not a disputed or contested factual claim;
    everything else falls to the default [read = deny] or to a denying
    rule.  It is included in the prompt under the same condition but for
    the dispute. *)
Theorem default_policy_reads_impacts_for_chat
    (memory : MemoryObject.t) (purpose : PurposeType.t) :
  exists r,
    evaluate_query PolicyEngine.default memory purpose [] = Ok r
    /\ allowed (query_decision r)
       = (MemoryType.eqb (MemoryObject.type memory) MemoryType.IMPACT
          && PurposeType.eqb purpose PurposeType.CHAT_RESPONSE
          && (SensitivityLevel.eqb (Sensitivity.level (MemoryObject.sensitivity memory))
                SensitivityLevel.LOW
              || SensitivityLevel.eqb (Sensitivity.level (MemoryObject.sensitivity memory))
                   SensitivityLevel.MEDIUM)
          && negb (TruthMode.eqb (MemoryObject.truth_mode memory) TruthMode.FACTUAL_CLAIM
                   && (DisputeState.eqb
                         (Ownership.dispute_state (MemoryObject.ownership memory))
                         DisputeState.DISPUTED
                       || DisputeState.eqb
                            (Ownership.dispute_state (MemoryObject.ownership memory))
                            DisputeState.CONTESTED)))
    /\ include_in_prompt (query_decision r)
       = (MemoryType.eqb (MemoryObject.type memory) MemoryType.IMPACT
          && PurposeType.eqb purpose PurposeType.CHAT_RESPONSE
          && (SensitivityLevel.eqb (Sensitivity.level (MemoryObject.sensitivity memory))
                SensitivityLevel.LOW
              || SensitivityLevel.eqb (Sensitivity.level (MemoryObject.sensitivity memory))
                   SensitivityLevel.MEDIUM)).
Proof.
  destruct memory as [i t sc ty tm st [lv cats hd] [ot ow cl sb ds vi]
                        te co af ip sp pp so sg pr hi rp rtr].
  destruct ty, purpose, lv, tm, ds;
    (eexists; split; [vm_compute; reflexivity | split; vm_compute; reflexivity]).
Qed.

Lemma query_step_collects (context : dict) (rules : list Rule) (rule : Rule) (v : value)
    (st : list string * list value * list value) :
  In rule rules -> _match_rule rule context = true ->
  get "allow_read" (then_ rule) = Some v ->
  In v (snd (fst (fold_left (query_step context) rules st))).
Proof.
  intros Hin Hmatch Hget.
  assert (Hkeep : forall rs st, In v (snd (fst st)) ->
                    In v (snd (fst (fold_left (query_step context) rs st)))).
  { clear. induction rs as [| r rs IH]; intros [[m a] i] H; simpl; [exact H |].
    apply IH. unfold query_step. destruct (_match_rule r context); [| exact H].
    simpl in *. destruct (get "allow_read" (then_ r)); [| exact H].
    apply in_or_app. left. exact H. }
  revert st. induction rules as [| r rules IH]; intros [[m a] i]; [destruct Hin |].
  simpl. destruct Hin as [E | Hin]; [| apply IH; exact Hin].
  subst r. apply Hkeep. unfold query_step. rewrite Hmatch, Hget. simpl.
  apply in_or_app. right. left. reflexivity.
Qed.

(** X14: a denying rule overrides.  When a rule of the policy matches the
    context of a query and its action [allow_read] is false (or any other
    falsy value), [evaluate_query] denies the read, whatever the defaults
    and the other rules say. *)
Theorem denying_rule_overrides (pe : PolicyEngine.t) (memory : MemoryObject.t)
    (purpose : PurposeType.t) (context : dict) (rule : Rule) (v : value)
    (r : QueryResult) :
  In rule (compiled_rules pe) ->
  _match_rule rule (query_context memory purpose context) = true ->
  get "allow_read" (then_ rule) = Some v ->
  truthy v = false ->
  evaluate_query pe memory purpose context = Ok r ->
  allowed (query_decision r) = false
  /\ In (id rule) (matched_rules (query_trace r))
  /\ denied_reasons (query_trace r) = ["Rule denied read access"].
Proof.
  intros Hin Hmatch Hget Hfalsy Heval.
  unfold evaluate_query in Heval.
  change (set "request" (PDict [("purpose", PStr (PurposeType.value purpose))])
            (set "memory" (query_memory_context memory) context))
    with (query_context memory purpose context) in Heval.
  destruct (default_allows pe "read") as [dr | e]; cbn [bind] in Heval; [| discriminate].
  destruct (default_allows pe "include_in_prompt") as [di | e]; cbn [bind] in Heval;
    [| discriminate].
  pose proof (query_step_collects _ _ _ _ ([], [], []) Hin Hmatch Hget) as Hv.
  assert (Hm : In (id rule) (fst (fst (fold_left
                 (query_step (query_context memory purpose context))
                 (compiled_rules pe) ([], [], []))))).
  { clear - Hin Hmatch. generalize (@nil string, @nil value, @nil value).
    induction (compiled_rules pe) as [| r0 rules IH]; intros st; [destruct Hin |].
    simpl. destruct Hin as [E | Hin]; [| apply IH; exact Hin].
    subst r0.
    assert (Hkeep : forall rs st, In (id rule) (fst (fst st)) ->
              In (id rule) (fst (fst (fold_left
                 (query_step (query_context memory purpose context)) rs st)))).
    { clear. induction rs as [| r rs IH]; intros [[m a] i] H; simpl; [exact H |].
      apply IH. unfold query_step. destruct (_match_rule r _); [| exact H].
      simpl in *. apply in_or_app. left. exact H. }
    apply Hkeep. destruct st as [[m a] i]. unfold query_step. rewrite Hmatch. simpl.
    apply in_or_app. right. left. reflexivity. }
  destruct (fold_left _ _ _) as [[matched allows] includes]. simpl in Hv, Hm.
  assert (Hall : forallb truthy allows = false).
  { apply not_true_is_false. intros Hall. rewrite forallb_forall in Hall.
    rewrite (Hall v Hv) in Hfalsy. discriminate. }
  destruct allows as [| a0 allows]; [destruct Hv |].
  inversion Heval; subst; clear Heval. simpl.
  change (truthy a0 && forallb truthy allows) with (forallb truthy (a0 :: allows)).
  rewrite Hall. repeat split. exact Hm.
Qed.

Lemma tool_step_loop (purpose : PurposeType.t) (memories allowed0 : list MemoryObject.t)
    (denied0 reasons0 : list string) :
  exists reasons,
    fold_left (tool_step purpose) memories (allowed0, denied0, reasons0)
    = (allowed0 +++
       filter (fun m => negb (PurposeType.eqb purpose PurposeType.TASK_EXECUTION
                              && Retrieval.nonfactual (MemoryObject.truth_mode m)))
              memories,
       denied0 +++
       map MemoryObject.id
         (filter (fun m => PurposeType.eqb purpose PurposeType.TASK_EXECUTION
                           && Retrieval.nonfactual (MemoryObject.truth_mode m))
                 memories),
       reasons).
Proof.
  revert allowed0 denied0 reasons0.
  induction memories as [| m memories IH]; intros allowed0 denied0 reasons0; simpl.
  - exists reasons0. rewrite !app_nil_r. reflexivity.
  - destruct purpose; simpl;
      try (destruct (IH (allowed0 +++ [m]) denied0 reasons0) as [rs E];
           exists rs; rewrite E, <- app_assoc; reflexivity).
    destruct (MemoryObject.truth_mode m); simpl;
      try (destruct (IH (allowed0 +++ [m]) denied0 reasons0) as [rs E];
           exists rs; rewrite E, <- app_assoc; reflexivity);
      match goal with
      | |- context [fold_left _ _ (_, _, ?rs0)] =>
          destruct (IH allowed0 (denied0 +++ [MemoryObject.id m]) rs0) as [rs E];
          exists rs; rewrite E, <- app_assoc; reflexivity
      end.
Qed.

(** X15: the tool gate.  For [task_execution], [evaluate_tool_execution]
    denies exactly the memories whose truth mode is counterfactual, imagined
    or socially sourced and allows the others, in the order given; for any
    other purpose it denies none.  The decision is allowed exactly when a
    memory is left. *)
Theorem tool_gate_denies_nonfactual (pe : PolicyEngine.t) (memories : list MemoryObject.t)
    (purpose : PurposeType.t) :
  let d := tool_decision (evaluate_tool_execution pe memories purpose) in
  allowed_memory_ids d
  = map MemoryObject.id
      (filter (fun m => negb (PurposeType.eqb purpose PurposeType.TASK_EXECUTION
                              && Retrieval.nonfactual (MemoryObject.truth_mode m)))
              memories)
  /\ denied_memory_ids d
     = map MemoryObject.id
         (filter (fun m => PurposeType.eqb purpose PurposeType.TASK_EXECUTION
                           && Retrieval.nonfactual (MemoryObject.truth_mode m))
                 memories)
  /\ (purpose <> PurposeType.TASK_EXECUTION ->
      denied_memory_ids d = [] /\ allowed_memory_ids d = map MemoryObject.id memories)
  /\ (tool_allowed d = true <-> allowed_memory_ids d <> []).
Proof.
  unfold evaluate_tool_execution.
  destruct (tool_step_loop purpose memories [] [] []) as [reasons E]. rewrite E. simpl.
  split; [reflexivity |]. split; [reflexivity |]. split.
  - intros Hp.
    assert (Hno : PurposeType.eqb purpose PurposeType.TASK_EXECUTION = false)
      by (destruct purpose; try reflexivity; congruence).
    rewrite Hno. simpl.
    assert (Hall : forall l : list MemoryObject.t, filter (fun _ => true) l = l)
      by (induction l as [| x l IH]; simpl; [| rewrite IH]; reflexivity).
    assert (Hnone : forall l : list MemoryObject.t, filter (fun _ => false) l = [])
      by (induction l as [| x l IH]; simpl; auto).
    rewrite Hall, Hnone. split; reflexivity.
  - destruct (filter _ memories) as [| m ms]; simpl; split; intros H;
      first [discriminate H | congruence | reflexivity].
Qed.

End PolicyDecisions.

(** ** The v2 store *)

Section Store.
Import Storage.

Lemma find_by_id_absent (rows : list MemoryV2) (memory_id tenant : string) :
  ~ In memory_id (map id rows) ->
  find (fun r => String.eqb (id r) memory_id && String.eqb (tenant_id r) tenant) rows = None.
Proof.
  intros H. apply find_none_of_forall. intros r Hr.
  destruct (String.eqb (id r) memory_id) eqn:E; [| reflexivity].
  apply String.eqb_eq in E. exfalso. apply H. rewrite <- E. apply in_map. exact Hr.
Qed.

(** The lookups after the row of [memory] was appended under a fresh id. *)
Lemma get_after_store (now : Z) (memory : MemoryObject.t) (app : string)
    (db db' : Session) :
  memories_v2 db' = memories_v2 db +++ [memory_object_to_db now memory app] ->
  ~ In (MemoryObject.id memory) (map id (memories_v2 db)) ->
  get_memory db' (MemoryObject.id memory) (MemoryObject.tenant_id memory) = Some memory
  /\ (forall tenant, tenant <> MemoryObject.tenant_id memory ->
        get_memory db' (MemoryObject.id memory) tenant = None)
  /\ (forall memory_id tenant, memory_id <> MemoryObject.id memory ->
        get_memory db' memory_id tenant = get_memory db memory_id tenant).
Proof.
  intros Hm Hfresh. unfold get_memory. rewrite Hm. repeat split.
  - rewrite find_app_none by (apply find_by_id_absent; exact Hfresh).
    simpl. rewrite !String.eqb_refl. reflexivity.
  - intros tenant Hne.
    rewrite find_app_none by (apply find_by_id_absent; exact Hfresh).
    simpl. rewrite String.eqb_refl. simpl.
    assert (Et : String.eqb (MemoryObject.tenant_id memory) tenant = false)
      by (apply String.eqb_neq; congruence).
    rewrite Et. reflexivity.
  - intros memory_id tenant Hne.
    destruct (find _ (memories_v2 db)) as [r |] eqn:Ef.
    + rewrite (find_app_some _ _ _ _ Ef). reflexivity.
    + rewrite (find_app_none _ _ _ Ef). simpl.
      assert (Ei : String.eqb (MemoryObject.id memory) memory_id = false)
        by (apply String.eqb_neq; congruence).
      rewrite Ei. reflexivity.
Qed.

(** X16: a stored memory is found again, under its own tenant only.  When
    [store_memory] succeeds, [get_memory] with the id and tenant of the
    memory returns the memory as it was stored, with any other tenant it
    returns nothing, and the lookup of every other id is as before.  When
    it raises, the table of memories is as before, or the row was committed
    and only the refresh failed: then the memory is stored and found in the
    same way, although the call raised.  It does raise, and stores nothing,
    when the id is taken. *)
Theorem store_then_get (now : Z) (memory : MemoryObject.t) (app : string) (db : Session) :
  match store_memory now memory app db with
  | (Ok _, db') =>
      get_memory db' (MemoryObject.id memory) (MemoryObject.tenant_id memory) = Some memory
      /\ (forall tenant, tenant <> MemoryObject.tenant_id memory ->
            get_memory db' (MemoryObject.id memory) tenant = None)
      /\ (forall memory_id tenant, memory_id <> MemoryObject.id memory ->
            get_memory db' memory_id tenant = get_memory db memory_id tenant)
  | (Raise _, db') =>
      memories_v2 db' = memories_v2 db
      \/ (~ In (MemoryObject.id memory) (map id (memories_v2 db))
          /\ memories_v2 db' = memories_v2 db +++ [memory_object_to_db now memory app]
          /\ get_memory db' (MemoryObject.id memory) (MemoryObject.tenant_id memory)
             = Some memory
          /\ (forall tenant, tenant <> MemoryObject.tenant_id memory ->
                get_memory db' (MemoryObject.id memory) tenant = None)
          /\ (forall memory_id tenant, memory_id <> MemoryObject.id memory ->
                get_memory db' memory_id tenant = get_memory db memory_id tenant))
  end
  /\ (In (MemoryObject.id memory) (map id (memories_v2 db)) ->
      exists e db', store_memory now memory app db = (Raise e, db')
                    /\ memories_v2 db' = memories_v2 db).
Proof.
  split; [| apply store_memory_taken].
  destruct (store_memory_cases now memory app db)
    as [[e [db' [E [Hm _]]]] | [[e [db' [E [[Hm _] Hfresh]]]] | [db' [E [[Hm _] Hfresh]]]]];
    rewrite E.
  - left. rewrite app_nil_r in Hm. exact Hm.
  - right. split; [exact Hfresh |]. split; [exact Hm |].
    exact (get_after_store now memory app db db' Hm Hfresh).
  - exact (get_after_store now memory app db db' Hm Hfresh).
Qed.

End Store.

(** ** The index of the v2 store *)

Section Index.
Import Storage.
Variable rt : Runtime.

Lemma keeps_ret {A : Type} (a : A) : keeps (ret a).
Proof. intros db H. exact H. Qed.

Lemma keeps_lift {A : Type} (r : result A) : keeps (lift r).
Proof. intros db H. exact H. Qed.

Lemma keeps_bindM {A B : Type} (m : M A) (k : A -> M B) :
  keeps m -> (forall a, keeps (k a)) -> keeps (bindM m k).
Proof.
  intros Hm Hk db H. unfold bindM. specialize (Hm db H).
  destruct (m db) as [[a | e] db']; simpl in *; [apply Hk; exact Hm | exact Hm].
Qed.

Lemma keeps_generate {A : Type} (gen : nat -> A * nat) : keeps (generate gen).
Proof. intros db H. unfold generate. destruct (gen (draws db)). exact H. Qed.

Lemma keeps_draw : keeps (draw rt).
Proof. intros db H. exact H. Qed.

Lemma keeps_commit (change : Session -> result Session) :
  (forall db db', consistent db -> change db = Ok db' -> consistent db') ->
  keeps (commit change).
Proof.
  intros Hc db H. unfold commit.
  destruct (match outages db with b :: _ => b | [] => false end); [exact H |].
  match goal with |- context [change ?d] => destruct (change d) as [db' | e] eqn:E end;
    [| exact H].
  simpl. eapply Hc; [| exact E]. exact H.
Qed.

Lemma indexed_memory_object_to_db (now : Z) (memory : MemoryObject.t) (app : string) :
  indexed (memory_object_to_db now memory app).
Proof. unfold indexed. simpl. repeat split. Qed.

Lemma keeps_refresh : keeps refresh.
Proof.
  intros db H. unfold refresh.
  destruct (match outages db with b :: _ => b | [] => false end); exact H.
Qed.

Lemma keeps_store_memory (now : Z) (memory : MemoryObject.t) (app : string) :
  keeps (store_memory now memory app).
Proof.
  unfold store_memory.
  apply keeps_bindM;
    [| intros _; apply keeps_bindM; [apply keeps_refresh | intros; apply keeps_ret]].
  apply keeps_commit. intros d d' [Hidx Hkey] E.
  destruct (fits_numeric_3_2 _); [| discriminate].
  unfold insert_memory in E.
  destruct (existsb _ (memories_v2 d)) eqn:Hex; [discriminate |].
  apply not_taken in Hex. inversion E; subst; clear E. unfold consistent. simpl. split.
  - apply Forall_app. split; [exact Hidx |].
    constructor; [apply indexed_memory_object_to_db | constructor].
  - rewrite map_app. simpl.
    apply NoDup_app_remove_r with (l' := []). rewrite <- app_assoc. simpl.
    eapply Permutation_NoDup; [apply Permutation_cons_append |].
    constructor; assumption.
Qed.

Lemma update_first_keeps {A B : Type} (P : A -> Prop) (key : A -> B) (p : A -> bool)
    (f : A -> A) (l : list A) :
  (forall x, P x -> P (f x)) -> (forall x, key (f x) = key x) ->
  Forall P l -> Forall P (update_first p f l) /\ map key (update_first p f l) = map key l.
Proof.
  intros HP Hkey. induction 1 as [| x l Hx Hl [IH1 IH2]]; simpl; [split; constructor |].
  destruct (p x); simpl.
  - split; [constructor; auto | rewrite Hkey; reflexivity].
  - split; [constructor; auto | rewrite IH2; reflexivity].
Qed.

Lemma indexed_set_row_state (now : Z) (st : MemoryState.t) (r : MemoryV2) :
  indexed r -> indexed (set_row_state now st r).
Proof.
  unfold indexed, db_to_memory_object. destruct r as [? ? ? ? ? ? ? ? ? ? ? ? ? ? m ? ? ?].
  destruct m. simpl. intuition.
Qed.

Lemma indexed_set_row_strength (now : Z) (x : Q) (r : MemoryV2) :
  indexed r -> indexed (set_row_strength now x r).
Proof.
  unfold indexed, db_to_memory_object. destruct r as [? ? ? ? ? ? ? ? ? ? ? ? ? ? m ? ? ?].
  destruct m. simpl. intuition.
Qed.

Lemma keeps_update_memory_state (now : Z) (memory_id tenant : string)
    (st : MemoryState.t) :
  keeps (update_memory_state now memory_id tenant st).
Proof.
  intros db H. unfold update_memory_state.
  destruct (find _ (memories_v2 db)); [| exact H].
  refine (keeps_bindM _ _ _ _ db H);
    [| intros a; apply keeps_bindM; [apply keeps_refresh | intros b db' H'; exact H']].
  apply keeps_commit. intros d d' [Hidx Hkey] E. inversion E; subst. unfold consistent.
  simpl.
  destruct (update_first_keeps indexed id
              (fun r => String.eqb (id r) memory_id && String.eqb (tenant_id r) tenant)
              (set_row_state now st) (memories_v2 d)
              (indexed_set_row_state now st) (fun x => eq_refl) Hidx) as [H1 H2].
  rewrite H2. split; assumption.
Qed.

Lemma keeps_reinforce_memory (now : Z) (memory_id tenant : string) (delta : option Q) :
  keeps (reinforce_memory now memory_id tenant delta).
Proof.
  intros db H. unfold reinforce_memory.
  destruct (find _ (memories_v2 db)) as [row |]; [| exact H].
  destruct delta as [delta |]; [| exact H].
  refine (keeps_bindM _ _ _ _ db H);
    [| intros a; apply keeps_bindM; [apply keeps_refresh |];
       intros b db' H'; destruct (Qle_bool 0 _); exact H'].
  apply keeps_commit. intros d d' [Hidx Hkey] E.
  destruct (fits_numeric_3_2 _); [| discriminate].
  inversion E; subst. unfold consistent.
  simpl.
  match goal with
  | |- context [update_first ?p (set_row_strength now ?x) _] =>
      destruct (update_first_keeps indexed id p (set_row_strength now x) (memories_v2 d)
                  (indexed_set_row_strength now x) (fun r0 => eq_refl) Hidx) as [H1 H2]
  end.
  rewrite H2. split; assumption.
Qed.

Lemma keeps_store_access_log (log : AccessLogEntry.t) : keeps (store_access_log rt log).
Proof.
  unfold store_access_log. apply keeps_bindM; [apply keeps_draw |]. intros row_id.
  apply keeps_bindM;
    [| intros; apply keeps_bindM; [apply keeps_refresh | intros; apply keeps_ret]].
  apply keeps_commit. intros d d' H E.
  destruct (existsb _ _); [discriminate |]. inversion E; subst. exact H.
Qed.

Lemma keeps_store_memory_link (link : DerivedObjectLink.t) :
  keeps (store_memory_link rt link).
Proof.
  unfold store_memory_link. apply keeps_bindM; [apply keeps_draw |]. intros row_id.
  apply keeps_bindM;
    [| intros; apply keeps_bindM; [apply keeps_refresh | intros; apply keeps_ret]].
  apply keeps_commit. intros d d' H E.
  destruct (fits_numeric_3_2 _); [| discriminate]. inversion E; subst. exact H.
Qed.

Lemma keeps_extract_and_store_impact (now : Z) (event : MemoryObject.t) (app : string)
    (extractor : ImpactExtraction.ImpactExtractor) (policy_allows : bool) :
  keeps (ImpactExtraction.extract_and_store_impact rt now event app extractor
           policy_allows).
Proof.
  unfold ImpactExtraction.extract_and_store_impact.
  apply keeps_bindM; [apply keeps_generate |]. intros [impact |]; [| apply keeps_ret].
  apply keeps_bindM; [apply keeps_store_memory |]. intros _.
  apply keeps_bindM; [apply keeps_store_memory_link |]. intros _. apply keeps_ret.
Qed.

Lemma after_consistent (policy_engine : PolicyEngine.t) (db : Session)
    (req : V2Api.Request) :
  consistent db -> consistent (V2Api.after rt policy_engine db req).
Proof.
  intros H. destruct req as [now app r | now app ip r | now app ip r | now mid tenant
                             | now mid tenant delta | r | r]; simpl.
  - unfold V2Api.create_memory_v2.
    assert (Hk : keeps (V2Api.create_memory_body rt policy_engine now app r)).
    { unfold V2Api.create_memory_body.
      apply keeps_bindM; [apply keeps_generate |]. intros memory_id.
      apply keeps_bindM; [apply keeps_lift |]. intros memory.
      apply keeps_bindM; [apply keeps_lift |]. intros policy_result.
      apply keeps_bindM; [apply keeps_store_memory |]. intros _.
      apply keeps_bindM; [| intros; apply keeps_ret].
      destruct (_ && _); [apply keeps_extract_and_store_impact | apply keeps_ret]. }
    specialize (Hk db H).
    destruct (V2Api.create_memory_body _ _ _ _ _ db) as [[response | e] db']; exact Hk.
  - unfold V2Api.query_memories_v2.
    destruct (Retrieval.retrieve_for_purpose _ _ _ _ _ _ _ _) as [retrieved | e];
      [| exact H].
    unfold generate_log_id, generate_id.
    match goal with
    | |- context [store_access_log rt ?log ?d] =>
        pose proof (keeps_store_access_log log d) as Hk;
        destruct (store_access_log rt log d) as [x db2]
    end.
    apply Hk. exact H.
  - unfold V2Api.reconstruct_v2.
    match goal with
    | |- consistent (snd (match ?body db with _ => _ end)) =>
        assert (Hk : keeps body);
        [| specialize (Hk db H); destruct (body db) as [[response | e] db']; exact Hk]
    end.
    apply keeps_bindM; [intros d Hd; exact Hd |]. intros reconstructed.
    apply keeps_bindM; [apply keeps_generate |]. intros log_id.
    apply keeps_bindM; [apply keeps_lift |]. intros impact_ids.
    apply keeps_bindM; [apply keeps_store_access_log |]. intros _. apply keeps_ret.
  - unfold V2Api.seal_memory_v2.
    pose proof (keeps_update_memory_state now mid tenant MemoryState.SEALED db H) as Hk.
    destruct (update_memory_state _ _ _ _ db) as [[[memory |] | e] db']; exact Hk.
  - unfold V2Api.reinforce_memory_v2.
    pose proof (keeps_reinforce_memory now mid tenant delta db H) as Hk.
    destruct (reinforce_memory _ _ _ _ db) as [[[memory |] | e] db']; exact Hk.
  - exact H.
  - unfold V2Api.replay_v2. destruct (Observability.replay_request _ _ _ _ _); exact H.
Qed.

Lemma reaches_consistent (policy_engine : PolicyEngine.t) (db db' : Session) :
  consistent db -> V2Api.reaches rt policy_engine db db' -> consistent db'.
Proof.
  intros H. induction 1 as [| db' req _ IH]; [exact H |].
  apply after_consistent. exact IH.
Qed.

(** X17: the v2 endpoints keep the table of memories well formed.  From a
    store in which the columns [id], [tenant_id], [scope_type], [scope_id],
    [type], [truth_mode], [state], [sensitivity_level] and [dispute_state]
    of every row are those of the document of the row and no two rows have
    the same id, any sequence of requests (create, query, reconstruct, seal,
    reinforce, explain, replay), answered with success or not, leads to a
    store of which the same holds.  The column [strength_current] is left
    out: it holds the strength rounded to two decimals. *)
Theorem requests_keep_store_consistent (policy_engine : PolicyEngine.t)
    (db db' : Session) :
  consistent db -> V2Api.reaches rt policy_engine db db' ->
  Forall indexed (memories_v2 db') /\ NoDup (map id (memories_v2 db')).
Proof.
  intros H Hreach. exact (reaches_consistent policy_engine db db' H Hreach).
Qed.

End Index.

Section Fetch.
Import Storage.
Variable rt : Runtime.

Lemma scope_type_value_inj (a b : ScopeType.t) :
  ScopeType.value a = ScopeType.value b -> a = b.
Proof. destruct a, b; simpl; intros H; first [reflexivity | discriminate H]. Qed.

Lemma memory_state_value_inj (a b : MemoryState.t) :
  MemoryState.value a = MemoryState.value b -> a = b.
Proof. destruct a, b; simpl; intros H; first [reflexivity | discriminate H]. Qed.

Lemma dispute_state_value_inj (a b : DisputeState.t) :
  DisputeState.value a = DisputeState.value b -> a = b.
Proof. destruct a, b; simpl; intros H; first [reflexivity | discriminate H]. Qed.

Lemma consistent_object_ids (db : Session) :
  consistent db -> object_ids db = map id (memories_v2 db).
Proof.
  intros [Hidx _]. unfold object_ids.
  induction Hidx as [| r rows Hr _ IH]; simpl; [reflexivity |].
  destruct Hr as [E _]. rewrite <- E, IH. reflexivity.
Qed.

Lemma in_firstn {A : Type} (n : nat) (l : list A) (x : A) :
  In x (firstn n l) -> In x l.
Proof.
  intros H. rewrite <- (firstn_skipn n l). apply in_or_app. left. exact H.
Qed.

(** The rows behind the memories that [query_memories] returns. *)
Lemma query_memories_rows (db : Session) (tenant : string) (scope : Scope.t)
    (filters : Filters) (limit : nat) (text : option string) (m : MemoryObject.t) :
  In m (query_memories rt db tenant scope filters limit text) ->
  exists r, In r (memories_v2 db) /\ memory_object_json r = m
            /\ tenant_id r = tenant
            /\ scope_type r = ScopeType.value (Scope.scope_type scope)
            /\ scope_id r = Scope.scope_id scope
            /\ row_passes filters r = true.
Proof.
  unfold query_memories, db_to_memory_object. intros H.
  apply in_map_iff in H. destruct H as [r [E Hr]]. exists r.
  apply in_firstn in Hr.
  apply (Permutation_in _ (sorted_Permutation occurred_desc _)) in Hr.
  apply filter_In in Hr. destruct Hr as [Hr _].
  apply filter_In in Hr. destruct Hr as [Hr Hpass].
  apply filter_In in Hr. destruct Hr as [Hr Hkey].
  apply andb_true_iff in Hkey. destruct Hkey as [Hkey Hid].
  apply andb_true_iff in Hkey. destruct Hkey as [Htenant Htype].
  apply String.eqb_eq in Htenant, Htype, Hid. auto 10.
Qed.

(** X18: a fetch stays in its tenant and scope.  On a well-formed store,
    every memory that [query_memories] returns belongs to the tenant and to
    the scope asked for; it is not sealed when sealed memories are
    excluded, and neither disputed nor contested when disputed memories are
    excluded.  At most [limit] memories are returned, with distinct ids. *)
Theorem query_memories_stays_in_scope (db : Session) (tenant : string) (scope : Scope.t)
    (filters : Filters) (limit : nat) (text : option string) :
  consistent db ->
  (List.length (query_memories rt db tenant scope filters limit text) <= limit)%nat
  /\ NoDup (map MemoryObject.id (query_memories rt db tenant scope filters limit text))
  /\ forall m, In m (query_memories rt db tenant scope filters limit text) ->
       MemoryObject.tenant_id m = tenant
       /\ Scope.scope_type (MemoryObject.scope m) = Scope.scope_type scope
       /\ Scope.scope_id (MemoryObject.scope m) = Scope.scope_id scope
       /\ (exclude_sealed filters = true -> MemoryObject.state m <> MemoryState.SEALED)
       /\ (exclude_disputed filters = true ->
           Ownership.dispute_state (MemoryObject.ownership m) <> DisputeState.DISPUTED
           /\ Ownership.dispute_state (MemoryObject.ownership m) <> DisputeState.CONTESTED).
Proof.
  intros Hc. split; [| split].
  - unfold query_memories. rewrite length_map. apply firstn_le_length.
  - apply fetched_ids_unique. rewrite (consistent_object_ids db Hc). apply Hc.
  - intros m Hm.
    destruct (query_memories_rows _ _ _ _ _ _ _ Hm)
      as [r [Hr [E [Htenant [Htype [Hid Hpass]]]]]].
    destruct Hc as [Hidx _]. rewrite Forall_forall in Hidx.
    destruct (Hidx r Hr) as [_ [It [Ist [Isi [_ [_ [Istate [_ Idisp]]]]]]]].
    rewrite E in *. repeat split.
    + congruence.
    + apply scope_type_value_inj. congruence.
    + congruence.
    + intros Hex Hsealed. unfold row_passes in Hpass. rewrite Hex in Hpass.
      rewrite Istate, Hsealed in Hpass. simpl in Hpass.
      rewrite !andb_false_r in Hpass. simpl in Hpass. discriminate.
    + intros Hd. unfold row_passes in Hpass. rewrite H in Hpass.
      rewrite Idisp, Hd in Hpass. simpl in Hpass.
      rewrite !andb_false_r in Hpass. simpl in Hpass. discriminate.
    + intros Hd. unfold row_passes in Hpass. rewrite H in Hpass.
      rewrite Idisp, Hd in Hpass. simpl in Hpass.
      rewrite !andb_false_r in Hpass. simpl in Hpass. discriminate.
Qed.

End Fetch.

(** ** What no request does *)

Section Permanence.
Import Storage.
Variable rt : Runtime.

Lemma persists_same_rows (db db' : Session) :
  memories_v2 db' = memories_v2 db -> persists db db'.
Proof. intros E r Hr. exists r. rewrite E. auto 10. Qed.

Lemma persists_trans (db1 db2 db3 : Session) :
  persists db1 db2 -> persists db2 db3 -> persists db1 db3.
Proof.
  intros H12 H23 r Hr.
  destruct (H12 r Hr) as [r2 [Hr2 [Ei [Et [Ety [Etm [Ec Es]]]]]]].
  destruct (H23 r2 Hr2) as [r3 [Hr3 [Ei' [Et' [Ety' [Etm' [Ec' Es']]]]]]].
  exists r3. repeat split; try congruence. auto.
Qed.

Lemma advances_ret {A : Type} (a : A) : advances (ret a).
Proof. intros db. apply persists_same_rows. reflexivity. Qed.

Lemma advances_lift {A : Type} (r : result A) : advances (lift r).
Proof. intros db. apply persists_same_rows. reflexivity. Qed.

Lemma advances_generate {A : Type} (gen : nat -> A * nat) : advances (generate gen).
Proof.
  intros db. unfold generate. destruct (gen (draws db)).
  apply persists_same_rows. reflexivity.
Qed.

Lemma advances_draw : advances (draw rt).
Proof. intros db. apply persists_same_rows. reflexivity. Qed.

Lemma advances_bindM {A B : Type} (m : M A) (k : A -> M B) :
  advances m -> (forall a, advances (k a)) -> advances (bindM m k).
Proof.
  intros Hm Hk db. unfold bindM. specialize (Hm db).
  destruct (m db) as [[a | e] db']; simpl in *; [| exact Hm].
  eapply persists_trans; [exact Hm | apply Hk].
Qed.

Lemma advances_commit (change : Session -> result Session) :
  (forall db db', change db = Ok db' -> persists db db') -> advances (commit change).
Proof.
  intros Hc db. unfold commit.
  destruct (match outages db with b :: _ => b | [] => false end);
    [apply persists_same_rows; reflexivity |].
  match goal with |- context [change ?d] => destruct (change d) as [db' | e] eqn:E end;
    [| apply persists_same_rows; reflexivity].
  simpl. eapply persists_trans; [| apply (Hc _ _ E)].
  apply persists_same_rows. reflexivity.
Qed.

Lemma advances_refresh : advances refresh.
Proof.
  intros db. unfold refresh.
  destruct (match outages db with b :: _ => b | [] => false end);
    apply persists_same_rows; reflexivity.
Qed.

Lemma persists_appended (db db' : Session) (rows : list MemoryV2) :
  memories_v2 db' = memories_v2 db +++ rows -> persists db db'.
Proof.
  intros Hm r Hr. exists r. rewrite Hm. split; [apply in_or_app; left; exact Hr |].
  auto 10.
Qed.

Lemma advances_store_memory (now : Z) (memory : MemoryObject.t) (app : string) :
  advances (store_memory now memory app).
Proof.
  intros db.
  destruct (store_memory_cases now memory app db)
    as [[e [db' [E [Hm _]]]] | [[e [db' [E [[Hm _] _]]]] | [db' [E [[Hm _] _]]]]];
    rewrite E; simpl; exact (persists_appended _ _ _ Hm).
Qed.

Lemma update_first_member {A : Type} (p : A -> bool) (f : A -> A) (l : list A) (x : A) :
  In x l -> In x (update_first p f l) \/ In (f x) (update_first p f l).
Proof.
  induction l as [| y l IH]; simpl; [intros [] |].
  intros [E | Hin].
  - subst y. destruct (p x); [right | left]; left; reflexivity.
  - destruct (p y); [left; right; exact Hin |].
    destruct (IH Hin); [left | right]; right; assumption.
Qed.

Lemma update_persists (p : MemoryV2 -> bool) (f : MemoryV2 -> MemoryV2) (d : Session) :
  (forall r, id (f r) = id r /\ tenant_id (f r) = tenant_id r
             /\ MemoryObject.type (memory_object_json (f r))
                = MemoryObject.type (memory_object_json r)
             /\ MemoryObject.truth_mode (memory_object_json (f r))
                = MemoryObject.truth_mode (memory_object_json r)
             /\ MemoryObject.content (memory_object_json (f r))
                = MemoryObject.content (memory_object_json r)
             /\ (state r = MemoryState.value MemoryState.SEALED ->
                 state (f r) = MemoryState.value MemoryState.SEALED)) ->
  persists d (set_tables d (update_first p f (memories_v2 d))
                (memory_links_v2 d) (access_logs_v2 d)).
Proof.
  intros Hf r Hr. simpl.
  destruct (update_first_member p f (memories_v2 d) r Hr) as [H | H].
  - exists r. auto 10.
  - exists (f r). split; [exact H |]. apply Hf.
Qed.

Lemma advances_seal (now : Z) (memory_id tenant : string) :
  advances (update_memory_state now memory_id tenant MemoryState.SEALED).
Proof.
  intros db. unfold update_memory_state.
  destruct (find _ (memories_v2 db)); [| apply persists_same_rows; reflexivity].
  refine (advances_bindM _ _ _ _ db);
    [| intros a; apply advances_bindM; [apply advances_refresh |];
       intros b db'; apply persists_same_rows; reflexivity].
  apply advances_commit. intros d d' E. inversion E; subst; clear E.
  apply update_persists. intros r. unfold set_row_state, db_to_memory_object. simpl.
  destruct (memory_object_json r). simpl. auto 10.
Qed.

Lemma advances_reinforce_memory (now : Z) (memory_id tenant : string)
    (delta : option Q) :
  advances (reinforce_memory now memory_id tenant delta).
Proof.
  intros db. unfold reinforce_memory.
  destruct (find _ (memories_v2 db)) as [row |];
    [| apply persists_same_rows; reflexivity].
  destruct delta as [delta |]; [| apply persists_same_rows; reflexivity].
  refine (advances_bindM _ _ _ _ db);
    [| intros a; apply advances_bindM; [apply advances_refresh |];
       intros b db'; destruct (Qle_bool 0 _); apply persists_same_rows; reflexivity].
  apply advances_commit. intros d d' E.
  destruct (fits_numeric_3_2 _); [| discriminate]. inversion E; subst; clear E.
  apply update_persists. intros r. unfold set_row_strength, db_to_memory_object. simpl.
  destruct (memory_object_json r). simpl. auto 10.
Qed.

Lemma advances_store_access_log (log : AccessLogEntry.t) :
  advances (store_access_log rt log).
Proof.
  unfold store_access_log. apply advances_bindM; [apply advances_draw |]. intros row_id.
  apply advances_bindM;
    [| intros; apply advances_bindM; [apply advances_refresh | intros; apply advances_ret]].
  apply advances_commit. intros d d' E.
  destruct (existsb _ _); [discriminate |]. inversion E; subst.
  apply persists_same_rows. reflexivity.
Qed.

Lemma advances_store_memory_link (link : DerivedObjectLink.t) :
  advances (store_memory_link rt link).
Proof.
  unfold store_memory_link. apply advances_bindM; [apply advances_draw |]. intros row_id.
  apply advances_bindM;
    [| intros; apply advances_bindM; [apply advances_refresh | intros; apply advances_ret]].
  apply advances_commit. intros d d' E.
  destruct (fits_numeric_3_2 _); [| discriminate]. inversion E; subst.
  apply persists_same_rows. reflexivity.
Qed.

Lemma after_persists (policy_engine : PolicyEngine.t) (db : Session)
    (req : V2Api.Request) :
  persists db (V2Api.after rt policy_engine db req).
Proof.
  destruct req as [now app r | now app ip r | now app ip r | now mid tenant
                   | now mid tenant delta | r | r]; simpl.
  - unfold V2Api.create_memory_v2.
    assert (Hk : advances (V2Api.create_memory_body rt policy_engine now app r)).
    { unfold V2Api.create_memory_body.
      apply advances_bindM; [apply advances_generate |]. intros memory_id.
      apply advances_bindM; [apply advances_lift |]. intros memory.
      apply advances_bindM; [apply advances_lift |]. intros policy_result.
      apply advances_bindM; [apply advances_store_memory |]. intros _.
      apply advances_bindM; [| intros; apply advances_ret].
      destruct (_ && _); [| apply advances_ret].
      unfold ImpactExtraction.extract_and_store_impact.
      apply advances_bindM; [apply advances_generate |].
      intros [impact |]; [| apply advances_ret].
      apply advances_bindM; [apply advances_store_memory |]. intros _.
      apply advances_bindM; [apply advances_store_memory_link |]. intros _.
      apply advances_ret. }
    specialize (Hk db).
    destruct (V2Api.create_memory_body _ _ _ _ _ db) as [[response | e] db']; exact Hk.
  - unfold V2Api.query_memories_v2.
    destruct (Retrieval.retrieve_for_purpose _ _ _ _ _ _ _ _) as [retrieved | e];
      [| apply persists_same_rows; reflexivity].
    unfold generate_log_id, generate_id.
    match goal with
    | |- context [store_access_log rt ?log ?d] =>
        pose proof (advances_store_access_log log d) as Hk;
        destruct (store_access_log rt log d) as [x db2]
    end.
    eapply persists_trans; [| exact Hk]. apply persists_same_rows. reflexivity.
  - unfold V2Api.reconstruct_v2.
    match goal with
    | |- persists db (snd (match ?body db with _ => _ end)) =>
        assert (Hk : advances body);
        [| specialize (Hk db); destruct (body db) as [[response | e] db']; exact Hk]
    end.
    apply advances_bindM; [intros d; apply persists_same_rows; reflexivity |].
    intros reconstructed.
    apply advances_bindM; [apply advances_generate |]. intros log_id.
    apply advances_bindM; [apply advances_lift |]. intros impact_ids.
    apply advances_bindM; [apply advances_store_access_log |]. intros _.
    apply advances_ret.
  - unfold V2Api.seal_memory_v2.
    pose proof (advances_seal now mid tenant db) as Hk.
    destruct (update_memory_state _ _ _ _ db) as [[[memory |] | e] db']; exact Hk.
  - unfold V2Api.reinforce_memory_v2.
    pose proof (advances_reinforce_memory now mid tenant delta db) as Hk.
    destruct (reinforce_memory _ _ _ _ db) as [[[memory |] | e] db']; exact Hk.
  - apply persists_same_rows. reflexivity.
  - unfold V2Api.replay_v2.
    destruct (Observability.replay_request _ _ _ _ _); apply persists_same_rows;
      reflexivity.
Qed.

Lemma reaches_persists (policy_engine : PolicyEngine.t) (db db' : Session) :
  V2Api.reaches rt policy_engine db db' -> persists db db'.
Proof.
  induction 1 as [| db' req _ IH].
  - apply persists_same_rows. reflexivity.
  - eapply persists_trans; [exact IH | apply after_persists].
Qed.

(** X19: no request deletes, retypes, rewrites or unseals a memory.
    Whatever requests the v2 API serves, a row of the table of memories
    stays there under its id and tenant, with the type, the truth mode and
    the narrative it was stored with; and a sealed row stays sealed. *)
Theorem memories_are_permanent (policy_engine : PolicyEngine.t) (db db' : Session) :
  V2Api.reaches rt policy_engine db db' -> persists db db'.
Proof.
  intros Hreach. exact (reaches_persists policy_engine db db' Hreach).
Qed.

End Permanence.

(** ** Retrieval *)

Section Accounting.
Import Retrieval.
Variable pe : PolicyEngine.t.
Variable purpose : PurposeType.t.

(** Where an entry of the lists of a round comes from. *)
Lemma categorize_accounts (acc acc' : Acc) (m : MemoryObject.t) :
  categorize pe purpose acc m = Ok acc' ->
  Permutation (map MemoryObject.id (allowed_memories acc') +++ acc_denied_ids acc')
              (MemoryObject.id m
               :: map MemoryObject.id (allowed_memories acc) +++ acc_denied_ids acc)
  /\ (forall i, In i (acc_events acc') ->
        In i (acc_events acc)
        \/ (i = MemoryObject.id m /\ MemoryObject.type m = MemoryType.EVENT
            /\ MemoryObject.state m <> MemoryState.SEALED))
  /\ (forall s, In s (acc_seeds acc') ->
        In s (acc_seeds acc)
        \/ (seed_id s = MemoryObject.id m /\ MemoryObject.type m = MemoryType.SEED))
  /\ (forall c, In c (acc_impacts acc') ->
        In c (acc_impacts acc)
        \/ (MemoryObject.type m = MemoryType.IMPACT
            /\ exists payload, MemoryObject.impact_payload m = Some payload
                               /\ In c (ImpactPayload.constraints payload))).
Proof.
  unfold categorize.
  destruct (PolicyEngine.evaluate_query pe m purpose []) as [r | e]; cbn [bind];
    [| discriminate].
  assert (Hallow : Permutation
                     (map MemoryObject.id (allowed_memories acc +++ [m])
                      +++ acc_denied_ids acc)
                     (MemoryObject.id m
                      :: map MemoryObject.id (allowed_memories acc) +++ acc_denied_ids acc)).
  { rewrite map_app. simpl. rewrite <- app_assoc. simpl.
    apply Permutation_sym, Permutation_middle. }
  destruct (negb _).
  - intros H. inversion H; subst; clear H. simpl. repeat split; auto.
    rewrite app_assoc. apply Permutation_sym, Permutation_cons_append.
  - destruct (MemoryObject.type m) eqn:Ety; intros H; inversion H; subst; clear H; simpl;
      (split; [exact Hallow |]); repeat split; auto.
    + destruct (MemoryState.eqb (MemoryObject.state m) MemoryState.SEALED) eqn:Es;
        intros i Hi; [left; exact Hi |].
      apply in_app_or in Hi. destruct Hi as [Hi | [Hi | []]]; [left; exact Hi | right].
      repeat split; [congruence |]. intros E. rewrite E in Es. discriminate.
    + intros c Hc. destruct (MemoryObject.impact_payload m) as [payload |] eqn:Ep;
        [| left; exact Hc].
      apply in_app_or in Hc. destruct Hc as [Hc | Hc]; [left; exact Hc | right].
      split; [reflexivity |]. exists payload. auto.
    + intros s Hs. apply in_app_or in Hs. destruct Hs as [Hs | [Hs | []]];
        [left; exact Hs | right]. subst s. split; reflexivity.
Qed.

Lemma for_each_accounts (ms : list MemoryObject.t) (acc acc' : Acc) :
  for_each (categorize pe purpose) ms acc = Ok acc' ->
  Permutation (map MemoryObject.id (allowed_memories acc') +++ acc_denied_ids acc')
              (map MemoryObject.id ms
               +++ map MemoryObject.id (allowed_memories acc) +++ acc_denied_ids acc)
  /\ (forall i, In i (acc_events acc') ->
        In i (acc_events acc)
        \/ exists m, In m ms /\ i = MemoryObject.id m
                     /\ MemoryObject.type m = MemoryType.EVENT
                     /\ MemoryObject.state m <> MemoryState.SEALED)
  /\ (forall s, In s (acc_seeds acc') ->
        In s (acc_seeds acc)
        \/ exists m, In m ms /\ seed_id s = MemoryObject.id m
                     /\ MemoryObject.type m = MemoryType.SEED)
  /\ (forall c, In c (acc_impacts acc') ->
        In c (acc_impacts acc)
        \/ exists m payload, In m ms /\ MemoryObject.type m = MemoryType.IMPACT
                             /\ MemoryObject.impact_payload m = Some payload
                             /\ In c (ImpactPayload.constraints payload)).
Proof.
  revert acc. induction ms as [| m ms IH]; intros acc H; simpl in H.
  - inversion H; subst. simpl. repeat split; auto.
  - destruct (categorize pe purpose acc m) as [acc1 | e] eqn:E1; cbn [bind] in H;
      [| discriminate].
    destruct (categorize_accounts acc acc1 m E1) as [P1 [Ev1 [Se1 Im1]]].
    destruct (IH acc1 H) as [P [Ev [Se Im]]].
    repeat split.
    + rewrite P. simpl. rewrite P1. apply Permutation_sym, Permutation_middle.
    + intros i Hi. destruct (Ev i Hi) as [Hi1 | [m0 [Hm0 Hrest]]].
      * destruct (Ev1 i Hi1) as [? | [? ?]]; [left; assumption | right].
        exists m. split; [left; reflexivity | auto].
      * right. exists m0. split; [right; exact Hm0 | exact Hrest].
    + intros s Hs. destruct (Se s Hs) as [Hs1 | [m0 [Hm0 Hrest]]].
      * destruct (Se1 s Hs1) as [? | [? ?]]; [left; assumption | right].
        exists m. split; [left; reflexivity | auto].
      * right. exists m0. split; [right; exact Hm0 | exact Hrest].
    + intros c Hc. destruct (Im c Hc) as [Hc1 | [m0 [p0 [Hm0 Hrest]]]].
      * destruct (Im1 c Hc1) as [? | [? [p0 [? ?]]]]; [left; assumption | right].
        exists m, p0. split; [left; reflexivity | auto].
      * right. exists m0, p0. split; [right; exact Hm0 | exact Hrest].
Qed.

Lemma filter_split_ids (p : MemoryObject.t -> bool) (l : list MemoryObject.t) :
  Permutation (map MemoryObject.id (filter (fun m => negb (p m)) l)
               +++ map MemoryObject.id (filter p l))
              (map MemoryObject.id l).
Proof.
  induction l as [| m l IH]; simpl; [constructor |].
  destruct (p m); simpl.
  - apply Permutation_sym. eapply Permutation_trans;
      [apply perm_skip, Permutation_sym, IH | apply Permutation_middle].
  - apply perm_skip. exact IH.
Qed.

Lemma apply_policy_accounts (fetched : list MemoryObject.t) (r : Result) :
  apply_policy pe purpose fetched = Ok r ->
  Permutation (memory_ids r +++ denied_ids r) (map MemoryObject.id fetched)
  /\ (forall i, In i (events r) ->
        exists m, In m fetched /\ i = MemoryObject.id m
                  /\ MemoryObject.type m = MemoryType.EVENT
                  /\ MemoryObject.state m <> MemoryState.SEALED)
  /\ (forall s, In s (seeds r) ->
        exists m, In m fetched /\ seed_id s = MemoryObject.id m
                  /\ MemoryObject.type m = MemoryType.SEED)
  /\ (forall c, In c (impacts r) ->
        exists m payload, In m fetched /\ MemoryObject.type m = MemoryType.IMPACT
                          /\ MemoryObject.impact_payload m = Some payload
                          /\ In c (ImpactPayload.constraints payload)).
Proof.
  unfold apply_policy.
  destruct (for_each _ fetched _) as [acc | e] eqn:E; cbn [bind]; [| discriminate].
  destruct (for_each_accounts _ _ _ E) as [P [Ev [Se Im]]]. simpl in P, Ev, Se, Im.
  rewrite app_nil_r in P.
  assert (Hpair : forall allowed denied,
             Permutation (map MemoryObject.id allowed +++ denied)
                         (map MemoryObject.id (allowed_memories acc)
                          +++ acc_denied_ids acc) ->
             Ok {| memory_ids := map MemoryObject.id allowed;
                   impacts := acc_impacts acc; seeds := acc_seeds acc;
                   events := acc_events acc; denied_ids := denied |} = Ok r ->
             Permutation (memory_ids r +++ denied_ids r) (map MemoryObject.id fetched)
             /\ (forall i, In i (events r) ->
                   exists m, In m fetched /\ i = MemoryObject.id m
                             /\ MemoryObject.type m = MemoryType.EVENT
                             /\ MemoryObject.state m <> MemoryState.SEALED)
             /\ (forall s, In s (seeds r) ->
                   exists m, In m fetched /\ seed_id s = MemoryObject.id m
                             /\ MemoryObject.type m = MemoryType.SEED)
             /\ (forall c, In c (impacts r) ->
                   exists m payload, In m fetched
                                     /\ MemoryObject.type m = MemoryType.IMPACT
                                     /\ MemoryObject.impact_payload m = Some payload
                                     /\ In c (ImpactPayload.constraints payload))).
  { intros allowed denied Hp H. inversion H; subst; clear H. simpl. repeat split.
    - rewrite Hp. exact P.
    - intros i Hi. destruct (Ev i Hi) as [[] | H]. exact H.
    - intros s Hs. destruct (Se s Hs) as [[] | H]. exact H.
    - intros c Hc. destruct (Im c Hc) as [[] | H]. exact H. }
  destruct purpose; try (apply Hpair; reflexivity).
  rewrite task_filter. simpl. apply Hpair.
  eapply Permutation_trans; [apply Permutation_app_swap_app |].
  eapply Permutation_trans; [apply Permutation_app_comm |].
  apply Permutation_app_tail.
  apply (filter_split_ids (fun m => nonfactual (MemoryObject.truth_mode m))).
Qed.

(** X20: retrieval accounts for every fetched memory exactly once: the ids
    in [memory_ids] and [denied_ids] together are the ids of the fetched
    memories, each as often as it was fetched.  The ids in [events] are ids
    of fetched events that are not sealed, the entries of [seeds] are made
    from fetched seeds, and the constraints in [impacts] come from the
    payloads of fetched impacts. *)
Theorem retrieval_accounts_for_every_memory (rt : Runtime) (db : Storage.Session)
    (tenant_id : string) (scope : Scope.t) (query_text : option string) (limit : nat)
    (r : Result) :
  retrieve_for_purpose rt pe db tenant_id scope purpose query_text limit = Ok r ->
  let fetched := Storage.query_memories rt db tenant_id scope (purpose_filters purpose)
                   (limit * 2) query_text in
  Permutation (memory_ids r +++ denied_ids r) (map MemoryObject.id fetched)
  /\ (forall i, In i (events r) ->
        exists m, In m fetched /\ i = MemoryObject.id m
                  /\ MemoryObject.type m = MemoryType.EVENT
                  /\ MemoryObject.state m <> MemoryState.SEALED)
  /\ (forall s, In s (seeds r) ->
        exists m, In m fetched /\ seed_id s = MemoryObject.id m
                  /\ MemoryObject.type m = MemoryType.SEED)
  /\ (forall c, In c (impacts r) ->
        exists m payload, In m fetched /\ MemoryObject.type m = MemoryType.IMPACT
                          /\ MemoryObject.impact_payload m = Some payload
                          /\ In c (ImpactPayload.constraints payload)).
Proof.
  intros H fetched. exact (apply_policy_accounts fetched r H).
Qed.

End Accounting.

Lemma retrieval_accounts_for_every_memory_witness :
  let db := Example.session_with [Example.sealed_event "private"; Example.derived_impact] in
  exists r,
    Retrieval.retrieve_for_purpose Example.runtime PolicyEngine.default db "t_demo"
      Example.user_scope PurposeType.CHAT_RESPONSE None 50 = Ok r
    /\ Permutation (Retrieval.memory_ids r +++ Retrieval.denied_ids r)
         (map MemoryObject.id
            (Storage.query_memories Example.runtime db "t_demo" Example.user_scope
               (Retrieval.purpose_filters PurposeType.CHAT_RESPONSE) (50 * 2) None)).
Proof.
  intros db. eexists. split; [vm_compute; reflexivity |].
  refine (proj1 (retrieval_accounts_for_every_memory PolicyEngine.default
                   PurposeType.CHAT_RESPONSE Example.runtime db "t_demo"
                   Example.user_scope None 50 _ _)).
  vm_compute. reflexivity.
Defined.

(** ** Sealing *)

Section Sealing.
Import Storage.
Variable rt : Runtime.

Lemma update_first_found {A : Type} (p : A -> bool) (f : A -> A) (l : list A) (x : A) :
  find p l = Some x -> In (f x) (update_first p f l).
Proof.
  induction l as [| y l IH]; simpl; [discriminate |].
  destruct (p y).
  - intros E. inversion E; subst. left. reflexivity.
  - intros E. right. exact (IH E).
Qed.

Lemma unique_row (rows : list MemoryV2) (a b : MemoryV2) :
  NoDup (map id rows) -> In a rows -> In b rows -> id a = id b -> a = b.
Proof.
  induction rows as [| r rows IH]; simpl; [intros _ [] |].
  intros Hnd Ha Hb E. inversion Hnd as [| ? ? Hnotin Hrest]; subst.
  destruct Ha as [Ha | Ha], Hb as [Hb | Hb].
  - congruence.
  - subst a. exfalso. apply Hnotin. rewrite E. apply in_map. exact Hb.
  - subst b. exfalso. apply Hnotin. rewrite <- E. apply in_map. exact Ha.
  - exact (IH Hrest Ha Hb E).
Qed.

(** A seal answered with 200 left a row of that id in the state [sealed]. *)
Lemma seal_marks_row (now : Z) (memory_id tenant : string) (db db1 : Session)
    (response : V2Api.SealMemoryResponseV2) :
  V2Api.seal_memory_v2 now memory_id tenant db = (V2Api.Respond 200 response, db1) ->
  exists r, In r (memories_v2 db1) /\ id r = memory_id
            /\ state r = MemoryState.value MemoryState.SEALED.
Proof.
  unfold V2Api.seal_memory_v2, update_memory_state.
  destruct (find _ (memories_v2 db)) as [r0 |] eqn:Hfind; [| discriminate].
  unfold bindM, commit, refresh.
  destruct (match outages db with b :: _ => b | [] => false end); [discriminate |].
  cbn [set_tables memories_v2 memory_links_v2 access_logs_v2 draws outages].
  destruct (match tl (outages db) with b :: _ => b | [] => false end); [discriminate |].
  destruct (get_memory _ memory_id tenant) as [memory |] eqn:Hget; [| discriminate].
  intros H. inversion H; subst; clear H. cbn [memories_v2].
  exists (set_row_state now MemoryState.SEALED r0).
  split; [exact (update_first_found _ _ _ _ Hfind) |].
  apply find_some in Hfind. destruct Hfind as [_ Hfound].
  apply andb_true_iff in Hfound. destruct Hfound as [Hid _].
  apply String.eqb_eq in Hid. split; [exact Hid | reflexivity].
Qed.

Lemma sealed_row_is_not_fetched (db : Session) (memory_id : string) (sealed : MemoryV2)
    (tenant : string) (scope : Scope.t) (purpose : PurposeType.t)
    (text : option string) (limit : nat) :
  consistent db -> In sealed (memories_v2 db) -> id sealed = memory_id ->
  state sealed = MemoryState.value MemoryState.SEALED ->
  purpose = PurposeType.CHAT_RESPONSE \/ purpose = PurposeType.TASK_EXECUTION ->
  forall m, In m (query_memories rt db tenant scope (Retrieval.purpose_filters purpose)
                    limit text) ->
            MemoryObject.id m <> memory_id.
Proof.
  intros [Hidx Hkey] Hin Hid Hstate Hpurpose m Hm E.
  destruct (query_memories_rows rt _ _ _ _ _ _ _ Hm)
    as [r [Hr [Hdoc [_ [_ [_ Hpass]]]]]].
  assert (Hrow : id r = MemoryObject.id m).
  { rewrite Forall_forall in Hidx. destruct (Hidx r Hr) as [Hrid _]. rewrite <- Hdoc.
    exact Hrid. }
  assert (Hsame : r = sealed).
  { apply (unique_row (memories_v2 db)); [exact Hkey | exact Hr | exact Hin | congruence]. }
  subst r. unfold row_passes in Hpass.
  assert (Hex : exclude_sealed (Retrieval.purpose_filters purpose) = true).
  { destruct Hpurpose; subst purpose; reflexivity. }
  rewrite Hex, Hstate, String.eqb_refl in Hpass.
  rewrite !andb_false_r in Hpass. simpl in Hpass.
  rewrite ?andb_false_r in Hpass. discriminate.
Qed.

(** X21: a sealed memory stays out of retrieval.  Once a seal request was
    answered with 200, then whatever requests follow (create, query,
    reconstruct, seal, reinforce, explain, replay), a retrieval for
    [chat_response] or [task_execution], for any tenant, scope, query text,
    limit and policy, names the memory neither in [memory_ids] nor in
    [denied_ids] nor in [events] nor in [seeds], and every constraint it
    returns is in the payload of a fetched impact with another id. *)
Theorem sealed_memory_is_not_retrieved (policy_engine pe : PolicyEngine.t) (now : Z)
    (memory_id seal_tenant : string) (db db1 db2 : Session)
    (response : V2Api.SealMemoryResponseV2)
    (tenant : string) (scope : Scope.t) (purpose : PurposeType.t)
    (text : option string) (limit : nat) (r : Retrieval.Result) :
  consistent db ->
  V2Api.seal_memory_v2 now memory_id seal_tenant db = (V2Api.Respond 200 response, db1) ->
  V2Api.reaches rt policy_engine db1 db2 ->
  purpose = PurposeType.CHAT_RESPONSE \/ purpose = PurposeType.TASK_EXECUTION ->
  Retrieval.retrieve_for_purpose rt pe db2 tenant scope purpose text limit = Ok r ->
  ~ In memory_id (Retrieval.memory_ids r)
  /\ ~ In memory_id (Retrieval.denied_ids r)
  /\ ~ In memory_id (Retrieval.events r)
  /\ ~ In memory_id (map Retrieval.seed_id (Retrieval.seeds r))
  /\ forall c, In c (Retrieval.impacts r) ->
       exists m payload,
         In m (query_memories rt db2 tenant scope (Retrieval.purpose_filters purpose)
                 (limit * 2) text)
         /\ MemoryObject.id m <> memory_id
         /\ MemoryObject.type m = MemoryType.IMPACT
         /\ MemoryObject.impact_payload m = Some payload
         /\ In c (ImpactPayload.constraints payload).
Proof.
  intros Hc Hseal Hreach Hpurpose Hret.
  assert (Hc1 : consistent db1).
  { replace db1 with (V2Api.after rt policy_engine db (V2Api.Seal now memory_id seal_tenant))
      by (simpl; rewrite Hseal; reflexivity).
    apply after_consistent. exact Hc. }
  assert (Hc2 : consistent db2) by exact (reaches_consistent rt _ _ _ Hc1 Hreach).
  destruct (seal_marks_row _ _ _ _ _ _ Hseal) as [r1 [Hr1 [Hid1 Hst1]]].
  destruct (reaches_persists rt _ _ _ Hreach r1 Hr1)
    as [r2 [Hr2 [Hid2 [_ [_ [_ [_ Hst2]]]]]]].
  assert (Hfresh : forall m,
             In m (query_memories rt db2 tenant scope (Retrieval.purpose_filters purpose)
                     (limit * 2) text) ->
             MemoryObject.id m <> memory_id).
  { apply (sealed_row_is_not_fetched db2 memory_id r2); auto. congruence. }
  destruct (apply_policy_accounts pe purpose _ r Hret) as [P [Ev [Se Im]]].
  assert (Hids : ~ In memory_id (Retrieval.memory_ids r +++ Retrieval.denied_ids r)).
  { intros Hin. apply (Permutation_in _ P) in Hin. apply in_map_iff in Hin.
    destruct Hin as [m [E Hm]]. exact (Hfresh m Hm E). }
  repeat split.
  - intros Hin. apply Hids, in_or_app. left. exact Hin.
  - intros Hin. apply Hids, in_or_app. right. exact Hin.
  - intros Hin. destruct (Ev _ Hin) as [m [Hm [E _]]]. exact (Hfresh m Hm (eq_sym E)).
  - intros Hin. apply in_map_iff in Hin. destruct Hin as [s [E Hs]].
    destruct (Se _ Hs) as [m [Hm [E' _]]]. apply (Hfresh m Hm). congruence.
  - intros c Hcin. destruct (Im _ Hcin) as [m [payload [Hm [Hty [Hp Hcp]]]]].
    exists m, payload. auto 10.
Qed.




(** X23: a memory of another tenant can be neither sealed nor reinforced.
    When no row has the id together with the tenant of the request,
    [seal_memory_v2] and [reinforce_memory_v2] answer 404 and the store is
    as before. *)
Theorem foreign_memory_is_not_found (now : Z) (memory_id tenant : string)
    (delta : option Q) (db : Session) :
  (forall r, In r (memories_v2 db) -> id r = memory_id -> tenant_id r <> tenant) ->
  V2Api.seal_memory_v2 now memory_id tenant db
  = (V2Api.HTTPException 404 "Memory not found", db)
  /\ V2Api.reinforce_memory_v2 now memory_id tenant delta db
     = (V2Api.HTTPException 404 "Memory not found", db).
Proof.
  intros Hforeign.
  assert (Hnone : find (fun r => String.eqb (id r) memory_id
                                 && String.eqb (tenant_id r) tenant) (memories_v2 db)
                  = None).
  { apply find_none_of_forall. intros r Hr.
    destruct (String.eqb (id r) memory_id) eqn:Ei; [| reflexivity].
    apply String.eqb_eq in Ei. apply String.eqb_neq. exact (Hforeign r Hr Ei). }
  unfold V2Api.seal_memory_v2, update_memory_state, V2Api.reinforce_memory_v2,
    reinforce_memory.
  rewrite Hnone. split; reflexivity.
Qed.

End Sealing.

(** ** Access logs *)

Section Audit.
Import Storage V2Api.
Variable rt : Runtime.

(** What [store_access_log] leaves behind. *)
Lemma store_access_log_outcome (access_log : AccessLogEntry.t) (db : Session) :
  let db' := snd (store_access_log rt access_log db) in
  memories_v2 db' = memories_v2 db /\ memory_links_v2 db' = memory_links_v2 db
  /\ (access_logs_v2 db' = access_logs_v2 db
      \/ exists row,
           access_logs_v2 db' = access_logs_v2 db +++ [row]
           /\ Observability.find_access_log db (AccessLogEntry.log_id access_log) = None
           /\ access_log_json row = access_log
           /\ log_id row = AccessLogEntry.log_id access_log
           /\ log_tenant_id row = AccessLogEntry.tenant_id access_log
           /\ log_scope_type row
              = ScopeType.value (Scope.scope_type (AccessLogEntry.scope access_log))
           /\ log_scope_id row = Scope.scope_id (AccessLogEntry.scope access_log)
           /\ purpose row = PurposeType.value (AccessLogEntry.purpose access_log)
           /\ Storage.query_text row
              = match AccessLogEntry.query access_log with
                | Some q => Query.text q
                | None => None
                end
           /\ decision_returned_ids row
              = Decision.returned_ids (AccessLogEntry.decision access_log)
           /\ decision_denied_ids row
              = Decision.denied_ids (AccessLogEntry.decision access_log)).
Proof.
  unfold store_access_log, bindM, draw, commit, refresh, ret.
  cbn [set_draws outages access_logs_v2].
  destruct (match outages db with b :: _ => b | [] => false end); cbn [snd];
    [cbn; auto |].
  destruct (existsb _ (access_logs_v2 db)) eqn:Hdup; [cbn; auto |].
  cbn [set_tables outages].
  destruct (match tl (outages db) with b :: _ => b | [] => false end); cbn;
    (split; [reflexivity | split; [reflexivity | right]]);
    (eexists; split; [reflexivity |]; split; [| cbn; auto 12]);
    unfold Observability.find_access_log;
    apply (find_none_of_existsb _ _ _ Hdup); intros l Hl; exact Hl.
Qed.

(** X24: a query reads, and writes at most its own access log.  Whatever the
    answer of [query_memories_v2], the tables of memories and of links are as
    before; the table of access logs is as before or one row longer, and the
    new row carries the log id, the tenant, the purpose, the query text and
    the returned and denied ids of the answer, which then is a 200. *)
Theorem query_writes_only_its_access_log (policy_engine : PolicyEngine.t) (now : Z)
    (app_id : string) (client_ip : option string) (q : MemoryQueryRequestV2)
    (db : Session) :
  let '(answer, db') := query_memories_v2 rt policy_engine now app_id client_ip q db in
  memories_v2 db' = memories_v2 db /\ memory_links_v2 db' = memory_links_v2 db
  /\ (access_logs_v2 db' = access_logs_v2 db
      \/ exists r row,
           answer = Respond 200 r
           /\ access_logs_v2 db' = access_logs_v2 db +++ [row]
           /\ log_id row = query_access_log_id r
           /\ log_tenant_id row = query_tenant_id q
           /\ purpose row = PurposeType.value (query_purpose q)
           /\ Storage.query_text row = V2Api.query_text q
           /\ decision_returned_ids row = memory_ids r
           /\ decision_denied_ids row = denied_ids r).
Proof.
  unfold query_memories_v2.
  destruct (Retrieval.retrieve_for_purpose _ _ _ _ _ _ _ _) as [retrieved | e]; [| auto].
  destruct (generate_log_id rt (draws db)) as [log_id n].
  match goal with
  | |- context [store_access_log rt ?l ?d] =>
      pose proof (store_access_log_outcome l d) as H;
      destruct (store_access_log rt l d) as [res db2]
  end.
  cbn [snd] in H. cbn [set_draws memories_v2 memory_links_v2 access_logs_v2] in H.
  destruct H as [Hm [Hl Hlogs]].
  split; [exact Hm | split; [exact Hl |]].
  destruct Hlogs as [Hsame | [row [Hrow [_ [_ Hfields]]]]]; [left; exact Hsame | right].
  eexists. exists row. split; [reflexivity |]. split; [exact Hrow |].
  cbn in Hfields. cbn [query_access_log_id memory_ids denied_ids].
  destruct Hfields as [H1 [H2 [_ [_ [H5 [H6 [H7 H8]]]]]]]. auto 10.
Qed.

Lemma scope_type_round_trip (st : ScopeType.t) :
  ScopeType.of_value (ScopeType.value st) = Some st.
Proof. destruct st; reflexivity. Qed.

Lemma purpose_round_trip (purpose : PurposeType.t) :
  PurposeType.of_value (PurposeType.value purpose) = Some purpose.
Proof. destruct purpose; reflexivity. Qed.

(** [query_memories] reads the table of memories, by the type and the id
    of the scope. *)
Lemma query_memories_reads (db db' : Session) (tenant : string) (scope scope' : Scope.t)
    (filters : Filters) (limit : nat) (text : option string) :
  memories_v2 db' = memories_v2 db ->
  Scope.scope_type scope' = Scope.scope_type scope ->
  Scope.scope_id scope' = Scope.scope_id scope ->
  query_memories rt db' tenant scope' filters limit text
  = query_memories rt db tenant scope filters limit text.
Proof.
  intros Hm Ht Hi. unfold query_memories. rewrite Hm, Ht, Hi. reflexivity.
Qed.

(** X25: replay reproduces a query.  When [query_memories_v2], run with the
    default policy and the default limit of 50, answered 200 and stored its
    access log, a replay of that log for the same tenant right afterwards
    yields the memory ids and the denied ids of the answer, the numbers of
    its impacts, seeds and events, and the version of the default policy. *)
Theorem replay_reproduces_query (now : Z) (app_id : string) (client_ip : option string)
    (q : MemoryQueryRequestV2) (db db' : Session) (r : MemoryQueryResponseV2) :
  query_memories_v2 rt PolicyEngine.default now app_id client_ip q db
  = (Respond 200 r, db') ->
  query_limit q = 50%nat ->
  access_logs_v2 db' <> access_logs_v2 db ->
  replay_v2 rt {| replay_tenant_id := query_tenant_id q;
                  replay_access_log_id := query_access_log_id r;
                  override_context := None |} db'
  = (Respond 200
       {| Observability.replay_result :=
            Observability.Replayed
              {| Observability.replay_memory_ids := memory_ids r;
                 Observability.replay_impacts := List.length (impacts r);
                 Observability.replay_seeds := List.length (seeds r);
                 Observability.replay_events := List.length (events r);
                 Observability.replay_denied_ids := denied_ids r |};
          Observability.replay_policy_version := Some "pol_2026_01_06_01";
          Observability.replay_access_log_id := query_access_log_id r |},
     db').
Proof.
  unfold query_memories_v2. intros H Hlimit Hstored.
  destruct (Retrieval.retrieve_for_purpose _ _ _ _ _ _ _ _) as [retrieved | e] eqn:Hret;
    [| discriminate].
  destruct (generate_log_id rt (draws db)) as [log_id n].
  match type of H with
  | context [store_access_log rt ?l ?d] =>
      pose proof (store_access_log_outcome l d) as Hout;
      destruct (store_access_log rt l d) as [res db2]
  end.
  inversion H; subst r db2; clear H.
  cbn [snd] in Hout. cbn [set_draws memories_v2 memory_links_v2 access_logs_v2] in Hout.
  destruct Hout as [Hm [_ [Hsame | [row [Hrow [Hfresh [_ Hfields]]]]]]];
    [contradiction |].
  cbn in Hfields, Hfresh.
  destruct Hfields as [Hid [_ [Hst [Hsi [Hp [Ht _]]]]]].
  unfold replay_v2. cbn [replay_tenant_id replay_access_log_id override_context
                           query_access_log_id memory_ids impacts seeds events denied_ids].
  unfold Observability.replay_request.
  assert (Hfind : Observability.find_access_log db' log_id = Some row).
  { unfold Observability.find_access_log in *. rewrite Hrow.
    rewrite (find_app_none _ _ _ Hfresh). simpl. rewrite Hid, String.eqb_refl.
    reflexivity. }
  rewrite Hfind.
  unfold Observability.scope_of_context, Observability.purpose_of_context,
    Reconstruction.getitem, Observability.get_or_none.
  cbn [Py.get bind String.eqb Ascii.eqb Bool.eqb].
  rewrite Hst, Hsi, Hp, Ht, scope_type_round_trip, purpose_round_trip. cbn [bind].
  unfold Retrieval.retrieve_for_purpose in Hret. rewrite Hlimit in Hret.
  assert (Hfetch : Observability.replay_fetch rt db' (query_tenant_id q)
                     {| Scope.scope_type := Scope.scope_type (query_scope q);
                        Scope.scope_id := Scope.scope_id (query_scope q);
                        Scope.flags := Some [] |}
                     (query_purpose q)
                     match V2Api.query_text q with
                     | Some t => Py.PStr t
                     | None => Py.PNone
                     end
                   = query_memories rt db (query_tenant_id q) (query_scope q)
                       (Retrieval.purpose_filters (query_purpose q)) (50 * 2)
                       (V2Api.query_text q)).
  { unfold Observability.replay_fetch.
    destruct (V2Api.query_text q); apply query_memories_reads; auto. }
  rewrite Hfetch, Hret. reflexivity.
Qed.

End Audit.

(** ** Impact extraction *)

Section Extraction.
Import Py ImpactExtraction.
Variable rt : Runtime.
Variable now : Z.
Variable self : ImpactExtractor.

Lemma collect_constraints_bound (event : MemoryObject.t) (n : nat) :
  let constraints := fst (collect_constraints rt now self event n) in
  (List.length constraints <= 5)%nat
  /\ forall c, In c constraints ->
       get "source_refs" c = Some (PList [PStr (MemoryObject.id event)])
       /\ get "target" c = Some (PStr "response")
       /\ get "expires_at" c = Some PNone
       /\ exists kind, In kind ["safety"; "avoid"; "tone"; "style"]
                       /\ get "kind" c = Some (PStr kind).
Proof.
  unfold collect_constraints, _create_safety_constraint, _create_avoid_constraint,
    _create_tone_constraint, _create_style_constraint, generate_constraint_id,
    generate_id.
  destruct (match Sensitivity.level (MemoryObject.sensitivity event) with
            | SensitivityLevel.HIGH | SensitivityLevel.CRITICAL => true
            | _ => false
            end);
    destruct (has_category "trauma" event);
    destruct (has_category "shame" event || has_category "moral_injury" event);
    cbn [andb];
    destruct (MemoryObject.type event);
    try destruct (_detect_tone_preference _);
    try destruct (_detect_style_preference _);
    cbn [fst app List.length];
    (split; [lia |]);
    intros c Hc; cbn [In] in Hc;
    repeat (destruct Hc as [Hc | Hc]; [subst c |]); try contradiction;
    (split; [reflexivity |]); (split; [reflexivity |]); (split; [reflexivity |]);
    eexists; (split; [| reflexivity]); cbn; auto.
Qed.

(** X26: what a derived impact is.  When [extract_impacts] returns an
    impact, derivation was allowed and the event is not sealed; the impact
    is an active, procedural, append-only memory of type impact with the
    tenant, the scope and the sensitivity of the event, derived from that
    event alone.  It holds between one and five constraints, each of kind
    safety, avoid, tone or style, aimed at the response, without expiry, and
    with the event as its only source reference. *)
Theorem derived_impact_is_bound_to_its_event (event : MemoryObject.t)
    (policy_allows : bool) (n n' : nat) (impact : MemoryObject.t) :
  extract_impacts rt now self event policy_allows n = (Some impact, n') ->
  policy_allows = true
  /\ MemoryObject.state event <> MemoryState.SEALED
  /\ MemoryObject.type impact = MemoryType.IMPACT
  /\ MemoryObject.truth_mode impact = TruthMode.PROCEDURAL
  /\ MemoryObject.state impact = MemoryState.ACTIVE
  /\ MemoryObject.reconsolidation_policy impact = ReconsolidationPolicy.APPEND_ONLY
  /\ MemoryObject.tenant_id impact = MemoryObject.tenant_id event
  /\ MemoryObject.scope impact = MemoryObject.scope event
  /\ MemoryObject.sensitivity impact = MemoryObject.sensitivity event
  /\ Provenance.derived_from (MemoryObject.provenance impact) = [MemoryObject.id event]
  /\ exists constraints,
       MemoryObject.impact_payload impact
       = Some {| ImpactPayload.constraints := constraints |}
       /\ (1 <= List.length constraints <= 5)%nat
       /\ forall c, In c constraints ->
            get "source_refs" c = Some (PList [PStr (MemoryObject.id event)])
            /\ get "target" c = Some (PStr "response")
            /\ get "expires_at" c = Some PNone
            /\ exists kind, In kind ["safety"; "avoid"; "tone"; "style"]
                            /\ get "kind" c = Some (PStr kind).
Proof.
  unfold extract_impacts.
  destruct policy_allows; cbn [negb]; [| discriminate].
  destruct (MemoryState.eqb (MemoryObject.state event) MemoryState.SEALED) eqn:Hs;
    [discriminate |].
  pose proof (collect_constraints_bound event n) as Hb.
  destruct (collect_constraints rt now self event n) as [cs n1]. cbn [fst] in Hb.
  destruct cs as [| c0 cs]; [discriminate |].
  destruct (generate_memory_id rt n1) as [impact_id n2].
  intros H. inversion H; subst; clear H. cbn.
  destruct Hb as [Hlen Hcs].
  repeat split; try reflexivity.
  - intros E. rewrite E in Hs. discriminate.
  - exists (c0 :: cs). split; [reflexivity |]. split; [simpl in *; lia | exact Hcs].
Qed.

(** X27: the constraints are free of narrative.  The constraints that
    [extract_impacts] collects from an event depend on its content only
    through the tone and the style that the two detectors read from the
    text: an event with another content, for which the detectors answer the
    same, gives the same constraints. *)
Theorem constraints_are_narrative_free (event : MemoryObject.t) (other : Content.t)
    (n : nat) :
  _detect_tone_preference
    match Content.text other with Some t => t | None => EmptyString end
  = _detect_tone_preference
      match Content.text (MemoryObject.content event) with
      | Some t => t
      | None => EmptyString
      end ->
  _detect_style_preference
    match Content.text other with Some t => t | None => EmptyString end
  = _detect_style_preference
      match Content.text (MemoryObject.content event) with
      | Some t => t
      | None => EmptyString
      end ->
  collect_constraints rt now self (MemoryObject.with_content other event) n
  = collect_constraints rt now self event n.
Proof.
  intros Htone Hstyle.
  unfold collect_constraints, has_category. cbn [MemoryObject.with_content
    MemoryObject.sensitivity MemoryObject.type MemoryObject.content].
  rewrite Htone, Hstyle. reflexivity.
Qed.

End Extraction.

(** ** Reconstruction *)

Section Rebuild.
Import PrimFloat.
Import Reconstruction.
Variable rt : Runtime.

(** The values that the confidence takes: the sums are sums of floats. *)
Lemma build_context_bounds (retrieved : Retrieval.Result) (include_events : bool)
    (res : Result) :
  build_context rt retrieved include_events = Ok res ->
  (match Retrieval.impacts retrieved with
   | [] => In (confidence res) [0; 0.1; 0.2; 0.30000000000000004]%float
   | _ => In (confidence res) [0.5; 0.6000000000000001; 0.7000000000000001]%float
   end)
  /\ source_seeds (sources res) = map Retrieval.seed_id (Retrieval.seeds retrieved)
  /\ source_events (sources res)
     = (if include_events
        then firstn 5 (filter (fun mid => negb (existsb (String.eqb mid)
                                                        (Retrieval.denied_ids retrieved)))
                              (Retrieval.events retrieved))
        else []).
Proof.
  unfold build_context.
  assert (Hids : Retrieval.impacts retrieved = [] ->
                 impact_lines rt (Retrieval.impacts retrieved) = Ok ([], []))
    by (intros E; rewrite E; reflexivity).
  destruct (impact_lines rt (Retrieval.impacts retrieved)) as [[parts ids] | e];
    cbn [bind]; [| discriminate].
  cbv zeta.
  remember (if include_events
            then firstn 5 (filter (fun mid => negb (existsb (String.eqb mid)
                                                            (Retrieval.denied_ids retrieved)))
                                  (Retrieval.events retrieved))
            else []) as event_ids eqn:Hev.
  destruct (forallb Py.hashable ids); [| discriminate].
  intros H. injection H as <-. cbn [confidence sources source_seeds source_events].
  split; [| split; reflexivity]. clear Hev.
  destruct (Retrieval.impacts retrieved) as [| c cs].
  - specialize (Hids eq_refl). injection Hids as _ ->.
    destruct (Retrieval.seeds retrieved), include_events, event_ids;
      vm_compute; auto 10.
  - clear Hids.
    destruct ids, (Retrieval.seeds retrieved), include_events, event_ids;
      vm_compute; auto 10.
Qed.

(** X28: what a reconstruction may hold.  The confidence of a
    reconstructed context is a sum of floats: it is one of 0, 0.1, 0.2 and
    0.30000000000000004 when the retrieval behind it brought no constraint,
    and one of 0.5, 0.6000000000000001 and 0.7000000000000001 (not 0.7) when
    it brought some, hence between 0 and 0.7000000000000001.  Events are
    named only when [include_events] is set, and then at most five of them,
    each the id of a fetched memory of type event that is not sealed; their
    narrative is no part of the sources. *)
Theorem reconstruction_is_bounded (pe : PolicyEngine.t) (db : Storage.Session)
    (tenant_id : string) (scope : Scope.t) (purpose : PurposeType.t)
    (query_text : option string) (include_events : bool) (res : Result) :
  reconstruct_context rt pe db tenant_id scope purpose query_text include_events = Ok res ->
  ((0 <=? confidence res)%float = true
   /\ (confidence res <=? 0.7000000000000001)%float = true)
  /\ (forall retrieved,
        Retrieval.retrieve_for_purpose rt pe db tenant_id scope purpose query_text 100
        = Ok retrieved ->
        match Retrieval.impacts retrieved with
        | [] => In (confidence res) [0; 0.1; 0.2; 0.30000000000000004]%float
        | _ => In (confidence res) [0.5; 0.6000000000000001; 0.7000000000000001]%float
        end)
  /\ (include_events = false -> source_events (sources res) = [])
  /\ (List.length (source_events (sources res)) <= 5)%nat
  /\ forall i, In i (source_events (sources res)) ->
       exists m,
         In m (Storage.query_memories rt db tenant_id scope
                 (Retrieval.purpose_filters purpose) (100 * 2) query_text)
         /\ i = MemoryObject.id m
         /\ MemoryObject.type m = MemoryType.EVENT
         /\ MemoryObject.state m <> MemoryState.SEALED.
Proof.
  unfold reconstruct_context.
  destruct (Retrieval.retrieve_for_purpose _ _ _ _ _ _ _ _) as [retrieved | e] eqn:Hret;
    cbn [bind]; [| discriminate].
  intros H. destruct (build_context_bounds _ _ _ H) as [Hc [_ Hev]].
  destruct (apply_policy_accounts pe purpose _ retrieved Hret) as [_ [Hevents _]].
  rewrite Hev. split; [| split; [| split; [| split]]].
  - destruct (Retrieval.impacts retrieved); simpl in Hc;
      repeat (destruct Hc as [<- | Hc]; [split; reflexivity |]); destruct Hc.
  - intros retrieved' E. inversion E; subst. exact Hc.
  - intros E. rewrite E. reflexivity.
  - destruct include_events; [apply firstn_le_length | simpl; lia].
  - intros i Hi. destruct include_events; [| destruct Hi].
    apply in_firstn in Hi. apply filter_In in Hi. destruct Hi as [Hi _].
    exact (Hevents i Hi).
Qed.

End Rebuild.

(** ** Ingest and lookup *)

Section IngestLookup.
Import Storage V2Api.
Variable rt : Runtime.

Lemma build_memory_fields (memory_id : string) (req : MemoryCreateRequestV2)
    (memory : MemoryObject.t) :
  build_memory memory_id req = Ok memory ->
  MemoryObject.id memory = memory_id
  /\ MemoryObject.tenant_id memory = V2Api.tenant_id req
  /\ MemoryObject.scope memory = V2Api.scope req
  /\ MemoryObject.type memory = V2Api.type req
  /\ MemoryObject.truth_mode memory = V2Api.truth_mode req
  /\ MemoryObject.content memory = V2Api.content req.
Proof.
  unfold build_memory.
  destruct (match reconsolidation_policy req with
            | Some s => _
            | None => _
            end) as [policy | e]; cbn [bind]; [| discriminate].
  intros H. inversion H; subst; clear H. cbn. auto 10.
Qed.

(** The rows that a successful [extract_and_store_impact] appends have ids
    that were not in the table. *)
Lemma extract_and_store_impact_rows (now : Z) (event : MemoryObject.t) (app_id : string)
    (extractor : ImpactExtraction.ImpactExtractor) (policy_allows : bool)
    (db db2 : Session) (r : option MemoryObject.t) :
  ImpactExtraction.extract_and_store_impact rt now event app_id extractor policy_allows db
  = (Ok r, db2) ->
  exists rows,
    memories_v2 db2 = memories_v2 db +++ rows
    /\ forall row, In row rows -> ~ In (Storage.id row) (map Storage.id (memories_v2 db)).
Proof.
  intros Hstore.
  destruct (extract_and_store_impact_cases rt now event app_id extractor policy_allows db)
    as [r0 [db0 [E Hcases]]].
  rewrite Hstore in E. inversion E; subst r0 db0; clear E.
  destruct Hcases as [[_ [Hm _]] | [[e [Hr _]] | [[e [stored [Hr _]]]
                     | [[e [stored [l [Hr _]]]] | [imp [n [l [_ [_ [[Hm _] Hfresh]]]]]]]]]];
    try discriminate Hr.
  - exists []. split; [exact Hm | intros stored []].
  - eexists. split; [exact Hm |]. intros stored [<- | []]. exact Hfresh.
Qed.

(** X29: a created memory is found under its id.  When [create_memory_v2]
    answers with success, the store holds under the returned id and the
    tenant of the request a memory with the scope, the type, the truth mode
    and the content of the request, in the state that the answer reports; no
    other tenant finds a memory under that id. *)
Theorem created_memory_is_found (policy_engine : PolicyEngine.t) (now : Z)
    (app_id : string) (req : MemoryCreateRequestV2) (db db' : Session)
    (status : nat) (response : MemoryCreateResponseV2) :
  create_memory_v2 rt policy_engine now app_id req db = (Respond status response, db') ->
  created_tenant_id response = V2Api.tenant_id req
  /\ (exists memory,
        get_memory db' (created_id response) (V2Api.tenant_id req) = Some memory
        /\ MemoryObject.id memory = created_id response
        /\ MemoryObject.tenant_id memory = V2Api.tenant_id req
        /\ MemoryObject.scope memory = V2Api.scope req
        /\ MemoryObject.type memory = V2Api.type req
        /\ MemoryObject.truth_mode memory = V2Api.truth_mode req
        /\ MemoryObject.content memory = V2Api.content req
        /\ MemoryObject.state memory = created_state response)
  /\ (forall tenant, tenant <> V2Api.tenant_id req ->
        get_memory db' (created_id response) tenant = None).
Proof.
  unfold create_memory_v2.
  destruct (create_memory_body rt policy_engine now app_id req db)
    as [[response0 | e] db0] eqn:Hbody; [| discriminate].
  intros H. inversion H; subst; clear H.
  unfold create_memory_body in Hbody.
  unfold bindM at 1 in Hbody. unfold generate in Hbody.
  destruct (generate_memory_id rt (draws db)) as [memory_id n].
  unfold bindM at 1 in Hbody. unfold lift at 1 in Hbody.
  destruct (build_memory memory_id req) as [memory | e] eqn:Hbuild; [| discriminate].
  unfold bindM at 1 in Hbody. unfold lift at 1 in Hbody.
  destruct (PolicyEngine.evaluate_ingest policy_engine memory []) as [policy_result | e];
    [| discriminate].
  cbv zeta in Hbody. unfold bindM at 1 in Hbody.
  destruct (store_memory_cases now
              (MemoryObject.set_state
                 (PolicyEngine.ingest_state (PolicyEngine.ingest_decision policy_result))
                 memory) app_id (set_draws n db))
    as [[e [db1 [E _]]] | [[e [db1 [E _]]] | [db1 [E [[Hm _] Hfresh]]]]];
    rewrite E in Hbody; [discriminate | discriminate |].
  unfold bindM at 1 in Hbody.
  match type of Hbody with
  | context [(if ?c then ?x else ?y) db1] =>
      destruct ((if c then x else y) db1) as [[r | e] db2] eqn:Hstep; [| discriminate]
  end.
  assert (Hrows : exists rows,
             memories_v2 db2 = memories_v2 db1 +++ rows
             /\ forall row, In row rows ->
                  ~ In (Storage.id row) (map Storage.id (memories_v2 db1))).
  { destruct (_ && _).
    - exact (extract_and_store_impact_rows _ _ _ _ _ _ _ _ Hstep).
    - unfold ret in Hstep. inversion Hstep; subst.
      exists []. rewrite app_nil_r. split; [reflexivity | intros row []]. }
  destruct Hrows as [rows [Hrows Hnew]].
  unfold ret in Hbody. inversion Hbody; subst; clear Hbody.
  cbn [created_id created_tenant_id created_state].
  destruct (build_memory_fields _ _ _ Hbuild) as [Hid [Ht [Hsc [Hty [Htm Hco]]]]].
  assert (Hfind : forall tenant,
             find (fun r => String.eqb (Storage.id r) memory_id
                            && String.eqb (Storage.tenant_id r) tenant)
                  (memories_v2 db')
             = if String.eqb (V2Api.tenant_id req) tenant
               then Some (memory_object_to_db now
                            (MemoryObject.set_state
                               (PolicyEngine.ingest_state
                                  (PolicyEngine.ingest_decision policy_result)) memory)
                            app_id)
               else None).
  { intros tenant. rewrite Hrows, Hm. cbn [set_draws memories_v2].
    rewrite <- app_assoc. rewrite find_app_none.
    - cbn. rewrite Hid, Ht, String.eqb_refl. cbn.
      destruct (String.eqb (V2Api.tenant_id req) tenant); [reflexivity |].
      apply find_by_id_absent. intros Hin. apply in_map_iff in Hin.
      destruct Hin as [row [Erow Hrow]]. apply (Hnew row Hrow).
      rewrite Hm, map_app, Erow. apply in_or_app. right. cbn. left. exact Hid.
    - apply find_by_id_absent. cbn in Hfresh. rewrite Hid in Hfresh. exact Hfresh. }
  cbn. rewrite Hid, Ht. split; [reflexivity |]. split.
  - eexists. unfold get_memory. rewrite Hfind, String.eqb_refl. cbn.
    split; [reflexivity |]. cbn. auto 10.
  - intros tenant Hne. unfold get_memory. rewrite Hfind.
    assert (Ene : String.eqb (V2Api.tenant_id req) tenant = false)
      by (apply String.eqb_neq; congruence).
    rewrite Ene. reflexivity.
Qed.

End IngestLookup.

(** ** Explanations *)

Section Explain.
Import Py Observability.
Variable rt : Runtime.
Variable db : Storage.Session.
Variable tenant : string.

Lemma explain_memory_stems (all : list string)
    (st : list string * list AppliedConstraint) (memory_id : string) :
  In memory_id all ->
  Forall (stems_from db tenant all) (snd st) ->
  Forall (stems_from db tenant all) (snd (explain_memory db tenant st memory_id)).
Proof.
  intros Hin Hst. destruct st as [used cs]. unfold explain_memory.
  destruct (Storage.get_memory db memory_id tenant) as [memory |] eqn:Hget; [| exact Hst].
  cbn [snd] in *.
  destruct (MemoryObject.impact_payload memory) as [payload |] eqn:Hp; [| exact Hst].
  destruct (String.eqb _ "impact") eqn:Hty; [| exact Hst].
  apply Forall_app. split; [exact Hst |].
  apply Forall_forall. intros a Ha. apply in_map_iff in Ha.
  destruct Ha as [c [<- Hc]]. exists memory, payload, c. cbn.
  repeat split; auto.
  destruct (MemoryObject.type memory); first [reflexivity | discriminate Hty].
Qed.

Lemma explain_fold_stems (all ids : list string)
    (st : list string * list AppliedConstraint) :
  incl ids all ->
  Forall (stems_from db tenant all) (snd st) ->
  Forall (stems_from db tenant all) (snd (fold_left (explain_memory db tenant) ids st)).
Proof.
  revert st. induction ids as [| i ids IH]; intros st Hincl Hst; [exact Hst |].
  simpl. apply IH.
  - intros x Hx. apply Hincl. right. exact Hx.
  - apply explain_memory_stems; [apply Hincl; left; reflexivity | exact Hst].
Qed.

(** X30: an explanation shows constraints of the tenant's own impacts only.
    Every entry of [constraints_applied] names as its source one of the
    requested memory ids, under which the tenant of the request finds an
    impact of its own, and repeats the id, the kind and the params of one of
    the constraints of that impact. *)
Theorem explanation_shows_own_impacts_only (access_log_id : option string)
    (memory_ids : option (list string)) (request_context : option dict)
    (a : AppliedConstraint) :
  Storage.consistent db ->
  In a (constraints_applied
          (explain_decision rt db tenant access_log_id memory_ids request_context)) ->
  exists memory payload c,
    In (source_memory a) (match memory_ids with Some l => l | None => [] end)
    /\ Storage.get_memory db (source_memory a) tenant = Some memory
    /\ MemoryObject.tenant_id memory = tenant
    /\ MemoryObject.type memory = MemoryType.IMPACT
    /\ MemoryObject.impact_payload memory = Some payload
    /\ In c (ImpactPayload.constraints payload)
    /\ constraint_id a = get_or_none "constraint_id" c
    /\ kind a = get_or_none "kind" c
    /\ params a = get_or_none "params" c.
Proof.
  intros [Hidx _] Ha. unfold explain_decision in Ha. cbv zeta in Ha.
  match type of Ha with
  | context [fold_left (explain_memory db tenant) ?ids ?st] =>
      pose proof (explain_fold_stems ids ids st (incl_refl ids) (Forall_nil _)) as Hall;
      destruct (fold_left (explain_memory db tenant) ids st) as [used cs]
  end.
  cbn [constraints_applied snd] in Ha, Hall.
  rewrite Forall_forall in Hall.
  destruct (Hall a Ha) as [memory [payload [c [Hin [Hget [Hty [Hp [Hc Hrest]]]]]]]].
  exists memory, payload, c. repeat split; try tauto.
  unfold Storage.get_memory in Hget.
  destruct (find _ (Storage.memories_v2 db)) as [r |] eqn:Hfind; [| discriminate].
  apply find_some in Hfind. destruct Hfind as [Hr Hfound].
  apply andb_true_iff in Hfound. destruct Hfound as [_ Ht]. apply String.eqb_eq in Ht.
  rewrite Forall_forall in Hidx. destruct (Hidx r Hr) as [_ [Htenant _]].
  cbn in Hget. inversion Hget; subst memory. unfold Storage.db_to_memory_object.
  rewrite <- Htenant. exact Ht.
Qed.

End Explain.

(** ** The properties on the example store *)

Lemma two_memories_consistent : Storage.consistent Example.two_memories.
Proof.
  split.
  - repeat (constructor; [vm_compute; repeat split |]). constructor.
  - vm_compute. repeat constructor; simpl; intuition discriminate.
Qed.

Lemma denying_rule_overrides_witness :
  exists memory r,
    In memory (map Storage.memory_object_json (Storage.memories_v2 Example.session_ab))
    /\ PolicyEngine.evaluate_query PolicyEngine.default memory PurposeType.TASK_EXECUTION []
       = Ok r
    /\ PolicyEngine.allowed (PolicyEngine.query_decision r) = false.
Proof.
  eexists. eexists. split; [vm_compute; right; left; reflexivity |].
  match goal with
  | |- PolicyEngine.evaluate_query _ ?m _ _ = _ /\ _ =>
      split; [vm_compute; reflexivity |];
      refine (proj1 (denying_rule_overrides PolicyEngine.default m
                       PurposeType.TASK_EXECUTION [] _ _ _ _ _ _ _ _))
  end.
  - vm_compute. do 3 right. left. reflexivity.
  - vm_compute. reflexivity.
  - vm_compute. reflexivity.
  - reflexivity.
  - vm_compute. reflexivity.
Defined.

Lemma requests_keep_store_consistent_witness :
  let db' := V2Api.after Example.runtime PolicyEngine.default Example.two_memories
               (V2Api.Seal 2000 "mem_00000000000000aa" "t_demo") in
  Forall Storage.indexed (Storage.memories_v2 db')
  /\ NoDup (map Storage.id (Storage.memories_v2 db')).
Proof.
  intros db'.
  apply (requests_keep_store_consistent Example.runtime PolicyEngine.default
           Example.two_memories db').
  - exact two_memories_consistent.
  - apply V2Api.reaches_next, V2Api.reaches_refl.
Defined.

Lemma query_memories_stays_in_scope_witness :
  let fetched := Storage.query_memories Example.runtime Example.two_memories "t_demo"
                   Example.user_scope
                   (Retrieval.purpose_filters PurposeType.CHAT_RESPONSE) 1 None in
  (List.length fetched <= 1)%nat /\ NoDup (map MemoryObject.id fetched).
Proof.
  intros fetched.
  destruct (query_memories_stays_in_scope Example.runtime Example.two_memories "t_demo"
              Example.user_scope (Retrieval.purpose_filters PurposeType.CHAT_RESPONSE)
              1 None two_memories_consistent) as [Hlen [Hids _]].
  split; [exact Hlen | exact Hids].
Defined.

Lemma memories_are_permanent_witness :
  Storage.persists Example.two_memories
    (V2Api.after Example.runtime PolicyEngine.default
       (V2Api.after Example.runtime PolicyEngine.default Example.two_memories
          (V2Api.Seal 2000 "mem_00000000000000aa" "t_demo"))
       (V2Api.Reinforce 3000 "mem_00000000000000aa" "t_demo" (Some (1 # 10)))).
Proof.
  apply (memories_are_permanent Example.runtime PolicyEngine.default).
  apply V2Api.reaches_next, V2Api.reaches_next, V2Api.reaches_refl.
Defined.

Lemma sealed_memory_is_not_retrieved_witness :
  let db1 := snd (V2Api.seal_memory_v2 2000 "mem_00000000000000aa" "t_demo"
                    Example.two_memories) in
  exists r,
    Retrieval.retrieve_for_purpose Example.runtime Example.permissive db1 "t_demo"
      Example.user_scope PurposeType.CHAT_RESPONSE None 50 = Ok r
    /\ ~ In "mem_00000000000000aa" (Retrieval.memory_ids r).
Proof.
  intros db1. eexists. split; [vm_compute; reflexivity |].
  refine (proj1 (sealed_memory_is_not_retrieved Example.runtime PolicyEngine.default
                   Example.permissive 2000 "mem_00000000000000aa" "t_demo"
                   Example.two_memories db1 db1 _ "t_demo" Example.user_scope
                   PurposeType.CHAT_RESPONSE None 50 _
                   two_memories_consistent _ (V2Api.reaches_refl _ _ _)
                   (or_introl eq_refl) _)).
  - vm_compute. reflexivity.
  - vm_compute. reflexivity.
Defined.

Lemma replay_reproduces_query_witness :
  exists r db',
    V2Api.query_memories_v2 Example.runtime PolicyEngine.default 2000 "app" None
      Example.task_query Example.session_ab = (V2Api.Respond 200 r, db')
    /\ V2Api.replay_v2 Example.runtime
         {| V2Api.replay_tenant_id := V2Api.query_tenant_id Example.task_query;
            V2Api.replay_access_log_id := V2Api.query_access_log_id r;
            V2Api.override_context := None |} db'
       = (V2Api.Respond 200
            {| Observability.replay_result :=
                 Observability.Replayed
                   {| Observability.replay_memory_ids := V2Api.memory_ids r;
                      Observability.replay_impacts := List.length (V2Api.impacts r);
                      Observability.replay_seeds := List.length (V2Api.seeds r);
                      Observability.replay_events := List.length (V2Api.events r);
                      Observability.replay_denied_ids := V2Api.denied_ids r |};
               Observability.replay_policy_version := Some "pol_2026_01_06_01";
               Observability.replay_access_log_id := V2Api.query_access_log_id r |},
          db').
Proof.
  eexists. eexists. split; [vm_compute; reflexivity |].
  refine (replay_reproduces_query Example.runtime 2000 "app" None Example.task_query
            Example.session_ab _ _ _ _ _).
  - vm_compute. reflexivity.
  - reflexivity.
  - vm_compute. discriminate.
Defined.


Lemma foreign_memory_is_not_found_witness :
  V2Api.seal_memory_v2 2000 "mem_00000000000000aa" "t_other" Example.two_memories
  = (V2Api.HTTPException 404 "Memory not found", Example.two_memories)
  /\ V2Api.reinforce_memory_v2 2000 "mem_00000000000000aa" "t_other" (Some (1 # 10))
       Example.two_memories
     = (V2Api.HTTPException 404 "Memory not found", Example.two_memories).
Proof.
  apply foreign_memory_is_not_found.
  intros r Hr Hid. vm_compute in Hr.
  destruct Hr as [E | [E | []]]; subst r; discriminate.
Defined.

Lemma derived_impact_is_bound_to_its_event_witness :
  exists impact n',
    ImpactExtraction.extract_impacts Example.runtime 1000
      ImpactExtraction.default_extractor (Example.shame_event_of SensitivityLevel.HIGH)
      true 0%nat = (Some impact, n')
    /\ MemoryObject.type impact = MemoryType.IMPACT
    /\ MemoryObject.truth_mode impact = TruthMode.PROCEDURAL.
Proof.
  eexists. eexists. split; [vm_compute; reflexivity |].
  destruct (derived_impact_is_bound_to_its_event Example.runtime 1000
              ImpactExtraction.default_extractor
              (Example.shame_event_of SensitivityLevel.HIGH) true 0%nat _ _ eq_refl)
    as [_ [_ [Hty [Htm _]]]].
  split; [exact Hty | exact Htm].
Defined.

Lemma constraints_are_narrative_free_witness :
  ImpactExtraction.collect_constraints Example.runtime 1000
    ImpactExtraction.default_extractor
    (MemoryObject.with_content (Example.text_content "It was my fault and nobody knows")
       (Example.shame_event_of SensitivityLevel.HIGH)) 0%nat
  = ImpactExtraction.collect_constraints Example.runtime 1000
      ImpactExtraction.default_extractor (Example.shame_event_of SensitivityLevel.HIGH) 0%nat.
Proof.
  apply constraints_are_narrative_free; vm_compute; reflexivity.
Defined.

Section RebuildExample.
Import PrimFloat.

Lemma reconstruction_is_bounded_witness :
  exists res,
    Reconstruction.reconstruct_context Example.runtime Example.permissive
      Example.two_memories "t_demo" Example.user_scope PurposeType.CHAT_RESPONSE None true
    = Ok res
    /\ (0 <=? Reconstruction.confidence res)%float = true
    /\ (Reconstruction.confidence res <=? 0.7000000000000001)%float = true.
Proof.
  eexists. split; [vm_compute; reflexivity |].
  match goal with
  | |- (_ <=? Reconstruction.confidence ?r)%float = _ /\ _ =>
      assert (H : Reconstruction.reconstruct_context Example.runtime Example.permissive
                    Example.two_memories "t_demo" Example.user_scope
                    PurposeType.CHAT_RESPONSE None true = Ok r)
        by (vm_compute; reflexivity);
      exact (proj1 (reconstruction_is_bounded Example.runtime Example.permissive
                      Example.two_memories "t_demo" Example.user_scope
                      PurposeType.CHAT_RESPONSE None true r H))
  end.
Defined.

End RebuildExample.

Lemma created_memory_is_found_witness :
  exists response db',
    V2Api.create_memory_v2 Example.runtime PolicyEngine.default 1000 "app"
      Example.request_a Example.empty_session = (V2Api.Respond 201 response, db')
    /\ exists memory,
         Storage.get_memory db' (V2Api.created_id response) "t_demo" = Some memory
         /\ MemoryObject.content memory = V2Api.content Example.request_a.
Proof.
  eexists. eexists. split; [vm_compute; reflexivity |].
  destruct (created_memory_is_found Example.runtime PolicyEngine.default 1000 "app"
              Example.request_a Example.empty_session _ 201%nat _ eq_refl)
    as [_ [[memory [Hget [_ [_ [_ [_ [_ [Hcontent _]]]]]]]] _]].
  exists memory. split; [exact Hget | exact Hcontent].
Defined.

Lemma explanation_shows_own_impacts_only_witness :
  exists a,
    In a (Observability.constraints_applied
            (Observability.explain_decision Example.runtime Example.two_memories "t_demo"
               None (Some ["mem_00000000000000bb"]) None))
    /\ exists memory,
         Storage.get_memory Example.two_memories (Observability.source_memory a) "t_demo"
         = Some memory
         /\ MemoryObject.tenant_id memory = "t_demo".
Proof.
  eexists. split; [vm_compute; left; reflexivity |].
  match goal with
  | |- exists memory,
         Storage.get_memory _ (Observability.source_memory ?a) _ = _ /\ _ =>
      destruct (explanation_shows_own_impacts_only Example.runtime Example.two_memories
                  "t_demo" None (Some ["mem_00000000000000bb"]) None a
                  two_memories_consistent)
        as [memory [_ [_ [_ [Hget [Htenant _]]]]]]
  end.
  - vm_compute. left. reflexivity.
  - exists memory. split; assumption.
Defined.
